(* ===== verification/_CoqProject ===== *)
-Q . S2P
Prelude.v
GoStd.v
Api.v
Sha256.v
CellId.v
KubeApi.v
Provider.v
Workload.v
Provisioner.v
Fsm.v
Membership.v
Scaling.v
Rollout.v
Helpers.v
Status.v
Inventory.v
Json.v
Unstructured.v
Template.v
CellObjects.v
SwiftGuest.v
ClusterApi.v
Hami.v
HamiDra.v
HamiProvider.v
FakeProvider.v
Bootstrap.v
CellRow.v
Metrics.v
Reconciler.v
ExampleWorld.v
Controller.v
Stable.v
ControllerSafety.v
ControllerSpec.v
Discovery.v
ControllerOutage.v
CellGuard.v
Lifecycle.v
Deletion.v
AtRest.v
Standing.v
MetricsAuth.v
CrdCheck.v
Webhook.v
Admission.v
ControllerTypes.v
ControllerMetrics.v
GoHeap.v
DeepCopy.v
Manager.v
