(* ===== verification/Prelude.v ===== *)
(** * gpucellpool: a verification development of the GPU cell pool operator

    The operator (Go, src/) keeps a pool of virtual machines, the cells, each
    with GPUs passed through, and joins them as Nodes to a workload cluster. A
    custom resource GPUCellPool says how many cells are wanted, or lets the
    operator decide from GPU demand. One controller reconciles a pool against two
    clusters: the infrastructure cluster, where guests, Secrets and the GPU
    ledgers live, and the workload cluster, where the Nodes, the pods and the
    HAMi device sharer live.

    ** How a pass works (internal/controller/controller.go, Reconcile)

    Read the pool; add its finalizer; connect to the workload cluster; rediscover
    every cell from live objects (one row per guest, folded into the row last
    published); read the free GPUs, the capacity, the demand; decide the size;
    plan which cells to create and to drain; create; replace failed cells whose
    backoff has expired; pick a cell for a rolling update; progress the drains;
    publish the status; say when to come back. A pool being deleted drains all
    its cells instead and is released when none is left.

    ** Files and the sources they model

    Foundations
    - [Prelude]: notations, machine integers, results, list lemmas, tactics.
    - [GoStd]: strings, strconv, sort and time as the sources call them.
    - [Sha256], [Json]: crypto/sha256 with hex, and encoding/json's grammar. The
      decoding of a text into a map[string]any, which makes its numbers float64
      values, is in [Unstructured].
    - [KubeApi]: the API servers of both clusters, as classes of operations over
      an abstract world, any of which may fail.
    - [Unstructured]: unstructured.Unstructured objects and the operations on
      them ([InfraCluster]), apimachinery's nested readers ([Nested]).

    Data
    - [Api]: api/v1alpha1 (gpucellpool_types.go, conditions.go).
    - [Provider]: internal/capacity/provider.go, the capacity vocabulary.
    - [Provisioner]: internal/provisioner/provisioner.go, request and state.

    Pure components, a definition per Go function
    - [CellId]: internal/cellid/cellid.go. Names, indexes, labels, template hash.
    - [Fsm]: internal/controller/fsm.go. AdvanceCell, AdvanceDrain.
    - [Membership]: membership.go. PlanMembership, ShouldReplace, Backoff.
    - [Scaling]: scaling.go and idle.go. DecideScale, CellShape, idleCells.
    - [Rollout]: rollout.go. PlanRollout.
    - [Helpers]: helpers.go. Defaults and counts.
    - [Status]: status.go. Counts, capacity status, conditions.
    - [Bootstrap]: internal/bootstrap/render.go. The cloud-init renderer.
    - [CellRow]: the pure parts of discoverCells and cellStatus in controller.go,
      and runs of one row over consecutive passes.
    - [Template]: internal/provisioner/template.go. Validation and rendering of
      the guest template, over JSON objects.

    Components that read or write the clusters
    - [Workload]: internal/workload (node.go, client.go).
    - [Inventory]: internal/inventory/inventory.go, physicalInventory.
    - [Hami]: internal/capacity/hami.go, hami_demand.go. Annotation parsers.
    - [HamiProvider]: hami_provider.go, the device-plugin mode.
    - [HamiDra]: hami_dra.go, the DRA mode.
    - [CellObjects]: what both provisioners do to the objects of a cell: create,
      list, delete, drop the drain finalizer.
    - [SwiftGuest], [ClusterApi]: internal/provisioner/swiftguest.go and
      clusterapi.go, the two implementations of the provisioner interface.

    The loop
    - [Reconciler]: the environment (one class, with the documented laws of its
      parts as further classes), the log, the state-and-error monad and the rules
      by which statements on logs compose.
    - [Controller]: every handler of controller.go, with Reconcile at the end. It
      calls the provisioner the pool names, so its theorems are about the loop
      and the provisioners together.
    - [ExampleWorld]: an environment in memory, on which the loop runs.
    - [ControllerSafety], [ControllerSpec], [Discovery], [ControllerOutage],
      [ControllerTypes]: the theorems on the loop.
    - [Stable]: a property of the world that every operation keeps is kept by every
      handler; [CellGuard], [Lifecycle] and [Deletion] are its clients, the second
      over any sequence of passes and steps of the rest of the system, the third over
      the two passes that end a pool.
    - [AtRest]: passes and rolling updates over a pool that has its size; [Standing]:
      what a pass leaves of the cells it ensured.
    - [Metrics]: internal/metrics and controller/metrics.go, with the counters of
      controller.go, which are part of the log of a pass; [ControllerMetrics] has
      the theorems on the metrics of whole passes.

    Beside the loop
    - [Webhook]: internal/webhook/v1alpha1/gpucellpool_validator.go, every rule;
      [Admission]: what an admitted pool satisfies, and what the loop gains.
    - [MetricsAuth]: internal/metricsauth/filter.go, the filter of the metrics
      endpoint, alone and with requests interleaved over its cache.
    - [CrdCheck]: internal/crdcheck/crdcheck.go.
    - [Manager]: cmd/manager/main.go, the start of the process.
    - [FakeProvider]: internal/capacity/fake.go, the scripted provider.
    - [GoHeap]: Go variables on a heap, and what a deep copy is; [DeepCopy]:
      api/v1alpha1/zz_generated.deepcopy.go.

    ** Conventions

    A Go integer is a [Z]; where an operation can leave the width it wraps
    ([wrap32], [wrap64]), and theorems that need the absence of overflow say
    which field must be in range. A pointer is an [option]; an error return a
    [result]; a nil map read the default. A map is a [gmap]; where Go ranges over
    a map the model takes the map's own order, and no theorem depends on it. A
    [Time] is in nanoseconds, 0 the zero time, as in Go; what a status keeps
    ([metav1.Time]) has second precision, which [Scaling] takes into account.

    A handler is a function from the reconciler's state (the world and the client
    cache) to a result, the state and a log. The log holds every call that writes,
    the updates of the metrics, and the reads a removal is justified by, with their
    answers; [log], [value] and [final] project the three. The world moves at the
    operator's own calls and at each reading of the clock, which is read where
    the source reads it. What a theorem on logs says of a read is its answer at
    the time it was made; the laws of [Lifecycle] let the rest of the system act
    at every call. The client of the typed objects (pools and Secrets) reads from
    a cache: nothing assumes that a read sees the last write. What a Secret write
    stores ([SecretStore]) and which versions of a pool a read may still show
    ([Lifecycle.versions]) are observations of the server beside it, and an update
    of a pool is refused unless it is based on the stored version.

    A provisioner's operation is a function from the world to a result and the
    world after it; an object is a record of its metadata and a JSON object, an
    association list, since the order and the duplicates of keys matter to the
    template rules. A metric update is a call on the client library. Outside
    [GoHeap] and [DeepCopy] a value is immutable: no handler shares a struct it
    changes, since what the client hands it is a copy of its own.

    ** What the theorems show

    - The state machine: AdvanceCell implements a relation that says which
      evidence supports which phase ([Fsm]); a cell without progress is Failed in
      bounded time, failures are counted once ([CellRow]); the drain gate opens
      exactly on Force, on a known empty cell or on the deletion timeout.
    - Membership: a plan creates on the lowest free indexes within the free GPUs
      and the in-flight limit, only when every guard allows it, and exactly then
      as long as no failed index is in its backoff; it drains what the autoscaler
      found idle first, then the highest indexes; it never does both.
    - Scaling: bounds, what a removal requires, and the distance in time between
      two decisions that were stored, over any sequence of passes of which some
      fail before they store theirs.
    - The readings: both inventories, both HAMi modes and the annotation parsers
      compute what their specifications count, and an unreadable answer is an
      error and never a zero, with the exception recorded in [HamiDra].
    - The provisioners: Ensure converges on the objects it describes and repeats
      without effect, its steps come in the order a failure can be resumed from
      (the Machine last), the rendered guest is the decoded template under the
      overlay, member by member, and a cell goes in two steps, the finalizer first.
    - The loop: no workload Node is deleted without a reason read in the same
      pass, a stale one only by the UID the provisioner answered for its cell; no guest loses its drain finalizer outside a drain or a replacement
      ([CellGuard]); the guest or Machine of every cell a pass ensured is there
      afterwards, with that finalizer ([Standing]); an unreachable workload cluster freezes the pool,
      but for the replacement of a failed cell whose backoff is over; every row of a
      rediscovery is made of what the provisioner and the Node read answered for its
      cell ([Discovery]); the removal of a cell keeps its order and stops
      at the first error; the finalizer comes before the first cell and goes after
      the last, so that over any run of the system no cell is without a pool that
      holds the finalizer ([Lifecycle]); a deletion that does not wait ends, one pass
      letting go of every cell and the next one, when the others who hold them have
      too, of the pool ([Deletion]); a pool at rest is left alone, and a rolling
      update gives up one idle cell at a time ([AtRest]); the per-cell Secret
      converges in both its keys; a published status fits the types of its fields
      ([ControllerTypes]); a pool that asks for an unknown provisioner is left alone.
    - Admission: the webhook refuses what is not admissible and, where its rules do
      what is documented ([Admission.as_documented]), admits the rest; what it
      admits can be created; no cell is planned beside a live one on a named
      claim; a scaling decision stays in the admitted range; a pool may shrink
      after a pass exactly if that pass reached the workload cluster
      ([ControllerMetrics.outage_refuses_shrink]).
    - The metrics filter: a request is let through only on answers of the API
      server no older than the cache's life, in any interleaving of requests.
      Alone a request is answered 200, 401 or 403 exactly as the reviews and the
      cache say.
    - The comparison of CRDs reports exactly the missing paths, where the served
      schema describes the elements of the arrays it shares with the wanted one.
    - The manager starts only with the reconciler, the probes and the webhook in
      place; the scripted provider answers the same whatever it was asked.
    - The metrics: after a pass the gauges of a pool say what its status and
      admission say; every update is about the pool of the pass and no label list
      panics; a pool that is released leaves no series; transition counters
      account for the phases ([ControllerMetrics], [Metrics]).
    - The generated copies share no memory with what they copy ([DeepCopy]).
    - Divergences, each by a theorem or an Example: what an outage does to a failed row
      ([CellRow], [ControllerOutage]), labels with empty values, taints that take
      turns and the key of the client cache ([Workload]), an admitted pool above
      its own maximum, interfaces lost under Cluster API and a claim shared while a
      cell drains ([Admission]), a failed index refilled in its backoff
      ([Membership]), a growth whose stamp is lost ([Scaling]), a device in two
      slices ([Inventory]), integers of a template that are rounded
      ([Unstructured]), array elements and unserved versions the comparison does
      not see ([CrdCheck]), an error counter nothing
      increments and failures reported twice ([ControllerMetrics]), cells orphaned by a
      change of provisioner ([Lifecycle]), the seed profile of a drained cell
      ([Deletion]).

    ** Fuel and bounds

    JSON parsing ([Json]) recurses on fuel: twice the length of the text plus one,
    which [Json.parse_json_fuel] shows to decide nothing. The token scan of Render
    has the length of the text ([Bootstrap.replace_loop_fuel]), the trimming and
    the decimal printing of [GoStd] the length of their argument. [Backoff]'s loop
    runs once per counted failure and [Membership.Backoff_closed] is its closed
    form. LowestFreeIndex tries one more index than are used, so it always finds
    one and more tries change nothing ([CellId.LowestFreeIndex_lowest]). The
    walks over schemas and JSON values are structural; all other recursion is on
    a list.

    ** Assumptions

    Everything under [Environment], [InnerCluster], [DRACluster], [GPULedger],
    [InfraCluster] and [Nested] is a parameter: the API servers, client-go,
    clientcmd, apimachinery's SetStatusCondition, DNS validation, nested readers
    and finalizer helpers, and the clock. So are the two reviews of [MetricsAuth],
    which may answer anything, the embedded files and the YAML decoder of
    [CrdCheck], and the Prometheus client ([Metrics.Registry]). Where a theorem
    relies on their documented behaviour it names a class of laws
    ([FinalizerLaws], [PoolLaws], [SecretLaws], [ClockLaws], [InfraLaws],
    [NestedLaws], [TypedUpdates], [StoreLaws], [ListLaws], [RegistryLaws],
    [ExternalLaws], ...), which [ExampleWorld] or an instance beside the theorem
    satisfies. net/http refuses a header with a NUL byte, which keeps the parts
    of a cache key of [MetricsAuth] apart.

    ** Not modelled

    Logging. The test seams of the reconciler (NewProvisioner, NewProvider,
    Inventory) are taken unset. SetupWithManager, NewFilterProvider and the
    registration of the scheme hand values to controller-runtime and decide
    nothing. The mutex of ClientCache guards single calls. The
    deep copies and layouts of other packages' types are parameters of [DeepCopy]. *)

From Stdlib Require Export ZArith Lia Ascii.
From stdpp Require Export base tactics option list gmap strings sorting relations.

#[export] Set Default Goal Selector "!".

(** ** Notations *)

(** The Go comparison operators on any type with decidable equality. *)
Declare Scope go_scope.
Delimit Scope go_scope with go.
Notation "x '==' y" := (bool_decide (x = y)) (at level 70, no associativity) : go_scope.
Notation "x '!=' y" := (negb (bool_decide (x = y))) (at level 70, no associativity) : go_scope.
Local Open Scope Z_scope.
Local Open Scope go_scope.

(** Go's fixed-width integers are kept as [Z]; the operations that can leave the
    width wrap explicitly ([wrap32], [wrap64]). *)
Abbreviation int32 := Z (only parsing).
Abbreviation int64 := Z (only parsing).
Abbreviation int := Z (only parsing).
Abbreviation Time := Z (only parsing).
Abbreviation Duration := Z (only parsing).

(** ** Machine integers *)

Definition MaxInt32 : Z := 2147483647.
Definition MinInt32 : Z := -2147483648.
Definition MaxInt64 : Z := 9223372036854775807.
Definition MinInt64 : Z := -9223372036854775808.

Definition wrap32 (z : Z) : int32 := (z + 2147483648) mod 4294967296 - 2147483648.
Definition wrap64 (z : Z) : int64 :=
  (z + 9223372036854775808) mod 18446744073709551616 - 9223372036854775808.

Definition int32_ok (z : Z) : Prop := MinInt32 <= z <= MaxInt32.
Definition int64_ok (z : Z) : Prop := MinInt64 <= z <= MaxInt64.

(** [len] of a slice. A Go slice is shorter than 2^63 elements, so the [int] it
    returns never wraps. *)
Definition len {A} (l : list A) : int := Z.of_nat (length l).

(** ** Results *)

(** A Go function returning [(T, error)]. *)
Inductive result (E A : Type) : Type :=
| Ok (a : A)
| Err (e : E).
Arguments Ok {_ _} _.
Arguments Err {_ _} _.

Definition rbind {E A B} (m : result E A) (f : A -> result E B) : result E B :=
  match m with
  | Ok a => f a
  | Err e => Err e
  end.

Notation "'let*' x ':=' m 'in' k" := (rbind m (fun x => k))
  (at level 10, x pattern, m at level 100, k at level 200) : go_scope.

Definition is_ok {E A} (m : result E A) : bool :=
  match m with Ok _ => true | Err _ => false end.

(** ** Automation *)

Create HintDb go.
Create Rewrite HintDb go.

(** Turns boolean guards in the context into the propositions they decide. *)
Ltac guard_step :=
  match goal with
  | H : _ && _ = true |- _ => apply andb_true_iff in H; destruct H
  | H : _ && _ = false |- _ => apply andb_false_iff in H
  | H : _ || _ = true |- _ => apply orb_true_iff in H
  | H : _ || _ = false |- _ => apply orb_false_iff in H; destruct H
  | H : negb _ = true |- _ => apply negb_true_iff in H
  | H : negb _ = false |- _ => apply negb_false_iff in H
  | H : bool_decide _ = true |- _ => apply bool_decide_eq_true in H
  | H : bool_decide _ = false |- _ => apply bool_decide_eq_false in H
  | H : (_ <? _)%Z = true |- _ => apply Z.ltb_lt in H
  | H : (_ <? _)%Z = false |- _ => apply Z.ltb_ge in H
  | H : (_ <=? _)%Z = true |- _ => apply Z.leb_le in H
  | H : (_ <=? _)%Z = false |- _ => apply Z.leb_gt in H
  | H : (_ =? _)%Z = true |- _ => apply Z.eqb_eq in H
  | H : (_ =? _)%Z = false |- _ => apply Z.eqb_neq in H
  | H : Is_true _ |- _ => apply Is_true_eq_true in H
  end.
Ltac guards := repeat guard_step.

(** Case analysis on the guards of a handler, one branch at a time, keeping the
    guard of each branch as a proposition. *)
Ltac branch :=
  match goal with
  | |- context [if ?b then _ else _] => destruct b eqn:?; guards; simpl in *; try done
  | |- context [match ?x with _ => _ end] => destruct x eqn:?; guards; simpl in *; try done
  end.
Ltac branches := repeat branch.

(** The same on a hypothesis. *)
Ltac branch_in H :=
  match type of H with
  | context [if ?b then _ else _] => destruct b eqn:?; guards; simpl in *; try done
  | context [match ?x with _ => _ end] => destruct x eqn:?; guards; simpl in *; try done
  end.
Ltac branches_in H := repeat branch_in H.

(** Membership, and its negation, of a literal in a list of literals. *)
Ltac decide_elem := apply (bool_decide_unpack _); vm_compute; exact I.

(** A closed equation, checked by evaluating both sides; unlike [vm_compute] it
    does not print their normal forms back. *)
Ltac by_vm := match goal with |- ?a = _ => vm_cast_no_check (eq_refl a) end.

(** ** Integer lemmas *)

Lemma wrap32_id z : int32_ok z -> wrap32 z = z.
Proof. unfold int32_ok, wrap32, MinInt32, MaxInt32. intros. rewrite Z.mod_small; lia. Qed.

Lemma wrap64_id z : int64_ok z -> wrap64 z = z.
Proof. unfold int64_ok, wrap64, MinInt64, MaxInt64. intros. rewrite Z.mod_small; lia. Qed.

Lemma wrap32_ok z : int32_ok (wrap32 z).
Proof.
  unfold int32_ok, wrap32, MinInt32, MaxInt32.
  pose proof (Z.mod_pos_bound (z + 2147483648) 4294967296). lia.
Qed.

Lemma wrap64_ok z : int64_ok (wrap64 z).
Proof.
  unfold int64_ok, wrap64, MinInt64, MaxInt64.
  pose proof (Z.mod_pos_bound (z + 9223372036854775808) 18446744073709551616). lia.
Qed.

(** Adding inside a wrapped sum does not depend on when the wrap happens. *)
Lemma wrap64_add_l a b : wrap64 (wrap64 a + b) = wrap64 (a + b).
Proof.
  unfold wrap64. f_equal.
  replace ((a + 9223372036854775808) mod 18446744073709551616 - 9223372036854775808 + b
             + 9223372036854775808)
    with ((a + 9223372036854775808) mod 18446744073709551616 + b) by lia.
  rewrite Zplus_mod_idemp_l. f_equal. lia.
Qed.

Lemma wrap32_add_l a b : wrap32 (wrap32 a + b) = wrap32 (a + b).
Proof.
  unfold wrap32. f_equal.
  replace ((a + 2147483648) mod 4294967296 - 2147483648 + b + 2147483648)
    with ((a + 2147483648) mod 4294967296 + b) by lia.
  rewrite Zplus_mod_idemp_l. f_equal. lia.
Qed.

Lemma len_nonneg {A} (l : list A) : 0 <= len l.
Proof. unfold len. lia. Qed.

Lemma len_nil {A} : len (@nil A) = 0.
Proof. done. Qed.

Lemma len_cons {A} (x : A) l : len (x :: l) = len l + 1.
Proof. unfold len. rewrite length_cons. lia. Qed.

Lemma len_app {A} (l k : list A) : len (l ++ k) = len l + len k.
Proof. unfold len. rewrite length_app. lia. Qed.

Lemma len_zero {A} (l : list A) : len l = 0 <-> l = [].
Proof. unfold len. destruct l; simpl; split; (done || lia). Qed.

#[export] Hint Resolve len_nonneg wrap32_ok wrap64_ok : go.
#[export] Hint Rewrite @len_nil @len_cons @len_app : go.

(** ** List lemmas *)

Lemma len_map {A B} (f : A -> B) l : len (map f l) = len l.
Proof. unfold len. by rewrite length_map. Qed.

Lemma elem_of_filter_b {A} (f : A -> bool) l x : x ∈ List.filter f l <-> x ∈ l /\ f x = true.
Proof. rewrite !list_elem_of_In. apply filter_In. Qed.

Lemma elem_of_map_b {A B} (f : A -> B) l y : y ∈ map f l <-> exists x, y = f x /\ x ∈ l.
Proof. apply list_elem_of_fmap. Qed.

Lemma NoDup_map_inj {A B} (f : A -> B) l x y :
  NoDup (map f l) -> x ∈ l -> y ∈ l -> f x = f y -> x = y.
Proof.
  induction l as [|a l IH]; simpl; [by intros ? ?%elem_of_nil|].
  rewrite NoDup_cons, elem_of_map_b. intros [Ha Hn] [->|Hx]%elem_of_cons [->|Hy]%elem_of_cons E; auto.
  - exfalso. apply Ha. eauto.
  - exfalso. apply Ha. eauto.
Qed.

Lemma NoDup_map_filter {A B} (f : A -> B) (p : A -> bool) l :
  NoDup (map f l) -> NoDup (map f (List.filter p l)).
Proof.
  induction l as [|a l IH]; simpl; [done|]. rewrite NoDup_cons. intros [Ha Hn].
  destruct (p a); simpl; [|auto]. apply NoDup_cons. split; [|auto].
  rewrite elem_of_map_b in *. intros (x & E & [Hx _]%elem_of_filter_b). apply Ha. eauto.
Qed.

Lemma fmap_nil_iff_b {A B} (f : A -> B) l : map f l = [] <-> l = [].
Proof. by destruct l. Qed.

Lemma len_filter_le {A} (p : A -> bool) l : len (List.filter p l) <= len l.
Proof.
  induction l as [|a l IH]; simpl; [done|]. destruct (p a); rewrite ?len_cons; lia.
Qed.

(** A duplicate-free list inside another is no longer. *)
Lemma NoDup_len_le {A} (l k : list A) : NoDup l -> (forall x, x ∈ l -> x ∈ k) -> len l <= len k.
Proof. intros Hn Hs. unfold len. pose proof (submseteq_length _ _ (NoDup_submseteq _ _ Hn Hs)). lia. Qed.
