(* ===== verification/GoStd.v ===== *)
(** * The parts of Go's standard library the operator uses

    [strings], [strconv], [sort] and [time] as the sources call them, on byte
    strings and [Z]; with the round-trip and ordering lemmas the components
    share. *)

From S2P Require Import Prelude.
Local Open Scope Z_scope.
Local Open Scope go_scope.

(** ** Package strings *)

(** [strip p s] is what follows the prefix [p] of [s], when [p] is one. *)
Fixpoint strip (p s : string) : option string :=
  match p, s with
  | EmptyString, _ => Some s
  | String a p', String b s' => if a == b then strip p' s' else None
  | String _ _, EmptyString => None
  end.

Definition HasPrefix (s prefix : string) : bool := bool_decide (is_Some (strip prefix s)).

Definition TrimPrefix (s prefix : string) : string := default s (strip prefix s).

(** [strings.Contains]: [sub] occurs in [s]. *)
Fixpoint Contains (s sub : string) : bool :=
  HasPrefix s sub ||
  match s with
  | EmptyString => false
  | String _ s' => Contains s' sub
  end.

(** [strings.Split] on a one-byte separator. *)
Fixpoint Split (sep : ascii) (s : string) : list string :=
  match s with
  | EmptyString => [EmptyString]
  | String c s' =>
      if c == sep then EmptyString :: Split sep s'
      else match Split sep s' with
           | h :: t => String c h :: t
           | [] => [String c EmptyString]
           end
  end.

(** [strings.Join]. *)
Fixpoint Join (l : list string) (sep : string) : string :=
  match l with
  | [] => ""
  | [x] => x
  | x :: l' => x +:+ sep +:+ Join l' sep
  end.

Definition byte (n : nat) : ascii := ascii_of_nat n.
Definition bytes (l : list nat) : string := foldr (fun n s => String (byte n) s) "" l.

(** The UTF-8 encodings of Unicode White_Space, which is what
    [strings.TrimSpace] removes: the ASCII blanks, U+0085, U+00A0, U+1680,
    U+2000-U+200A, U+2028, U+2029, U+202F, U+205F and U+3000. *)
Definition space_runes : list string :=
  map bytes
    ([[9]; [10]; [11]; [12]; [13]; [32]; [194; 133]; [194; 160]; [225; 154; 128]]
     ++ map (fun n => [226; 128; n]%nat) (seq 128 11)
     ++ [[226; 128; 168]; [226; 128; 169]; [226; 128; 175]; [226; 129; 159];
         [227; 128; 128]])%nat.

(** The remainder of [s] after one leading white-space rune. *)
Definition strip_space (s : string) : option string :=
  foldr (fun r acc => match strip r s with Some s' => Some s' | None => acc end)
        None space_runes.

Fixpoint rev_string (s acc : string) : string :=
  match s with
  | EmptyString => acc
  | String c s' => rev_string s' (String c acc)
  end.

(** The same from the right: a rune is read backwards off the reversed string. *)
Definition strip_space_rev (s : string) : option string :=
  foldr (fun r acc => match strip (rev_string r "") s with Some s' => Some s' | None => acc end)
        None space_runes.

Fixpoint trim_loop (strip1 : string -> option string) (fuel : nat) (s : string) : string :=
  match fuel with
  | O => s
  | S f => match strip1 s with
           | Some s' => trim_loop strip1 f s'
           | None => s
           end
  end.

(** [strings.TrimSpace]. Every removed rune is at least one byte long, so the
    length of the string is enough fuel. *)
Definition TrimLeftSpace (s : string) : string :=
  trim_loop strip_space (String.length s) s.
Definition TrimSpace (s : string) : string :=
  let l := TrimLeftSpace s in
  rev_string (trim_loop strip_space_rev (String.length l) (rev_string l "")) "".

(** ** Package strconv *)

Definition is_digit (a : ascii) : bool :=
  (48 <=? Z.of_nat (nat_of_ascii a)) && (Z.of_nat (nat_of_ascii a) <=? 57).
Definition digit_val (a : ascii) : Z := Z.of_nat (nat_of_ascii a) - 48.
Definition digit_char (d : Z) : ascii := ascii_of_nat (Z.to_nat (48 + d)).

Fixpoint all_digits (s : string) : bool :=
  match s with
  | EmptyString => true
  | String c s' => is_digit c && all_digits s'
  end.

(** The digit loop of decimal formatting: the last digit is prepended until
    nothing is left. A 64-bit magnitude has at most 20 digits. *)
Fixpoint dec_loop (fuel : nat) (n : Z) (acc : string) : string :=
  match fuel with
  | O => acc
  | S f => if 0 <? n then dec_loop f (n / 10) (String (digit_char (n mod 10)) acc) else acc
  end.

Definition int_digits : nat := 20.

(** [strconv.FormatInt(n, 10)], which is also what [%d] prints. *)
Definition FormatInt (n : Z) : string :=
  if n =? 0 then "0"
  else if n <? 0 then "-" +:+ dec_loop int_digits (- n) ""
  else dec_loop int_digits n "".

Fixpoint digits_val (acc : Z) (s : string) : option Z :=
  match s with
  | EmptyString => Some acc
  | String c s' => if is_digit c then digits_val (acc * 10 + digit_val c) s' else None
  end.

(** [strconv.ParseInt(s, 10, bits)]; [None] is a syntax or a range error. *)
Definition ParseInt (bits : Z) (s : string) : option Z :=
  let '(neg, body) :=
    match s with
    | String c s' =>
        if c == "-"%char then (true, s')
        else if c == "+"%char then (false, s')
        else (false, s)
    | EmptyString => (false, s)
    end in
  if body == "" then None
  else match digits_val 0 body with
       | None => None
       | Some un =>
           if negb neg && (2 ^ (bits - 1) <=? un) then None
           else if neg && (2 ^ (bits - 1) <? un) then None
           else Some (if neg then - un else un)
       end.

(** ** Package time *)

Definition Second : Duration := 1000000000.
Definition Minute : Duration := 60 * Second.

(** A [time.Time] is its distance in nanoseconds from Go's zero time. *)
Definition IsZero (t : Time) : bool := t =? 0.

(** [t.Sub(u)] saturates at the ends of [Duration]. *)
Definition Sub (t u : Time) : Duration := Z.max MinInt64 (Z.min MaxInt64 (t - u)).

(** [metav1.Time.IsZero] on a pointer: nil counts as zero. *)
Definition PtrIsZero (t : option Time) : bool :=
  match t with None => true | Some t => IsZero t end.

(** [fmtFrac]: the fraction [v / 10^prec] without trailing zeros. *)
Fixpoint fmtFrac_loop (prec : nat) (v : Z) (acc : string) (printed : bool) : string * Z * bool :=
  match prec with
  | O => (acc, v, printed)
  | S p =>
      let printed' := printed || negb (v mod 10 =? 0) in
      fmtFrac_loop p (v / 10)
        (if printed' then String (digit_char (v mod 10)) acc else acc) printed'
  end.

Definition fmtFrac (v : Z) (prec : nat) (acc : string) : string * Z :=
  let '(s, v', printed) := fmtFrac_loop prec v acc false in
  ((if printed then "." +:+ s else s), v').

(** [fmtInt]. *)
Definition fmtInt (v : Z) (acc : string) : string :=
  if v =? 0 then "0" +:+ acc else dec_loop int_digits v acc.

(** [time.Duration.String]. *)
Definition DurationString (d : Duration) : string :=
  let u := Z.abs d in
  let body :=
    if u <? Second then
      if u =? 0 then "0s"
      else
        let '(prec, unit) :=
          if u <? 1000 then (0%nat, "ns")
          else if u <? 1000000 then (3%nat, bytes [194; 181]%nat +:+ "s")
          else (6%nat, "ms") in
        let '(s, v) := fmtFrac u prec unit in fmtInt v s
    else
      let '(s, secs) := fmtFrac u 9 "s" in
      let s := fmtInt (secs mod 60) s in
      let mins := secs / 60 in
      if 0 <? mins then
        let s := fmtInt (mins mod 60) ("m" +:+ s) in
        let hours := mins / 60 in
        if 0 <? hours then fmtInt hours ("h" +:+ s) else s
      else s in
  if d <? 0 then "-" +:+ body else body.

(** ** Package sort *)

Definition sort_strings (l : list string) : list string := merge_sort String.le l.

(** ** String lemmas *)

(** stdpp keeps [String.append] folded under [simpl]; these are its equations. *)
Lemma app_nil_s (s : string) : "" +:+ s = s.
Proof. done. Qed.

Lemma app_cons_s c (p s : string) : String c p +:+ s = String c (p +:+ s).
Proof. done. Qed.

Lemma strip_Some p s r : strip p s = Some r <-> s = p +:+ r.
Proof.
  revert s. induction p as [|a p IH]; intros s; simpl.
  - rewrite app_nil_s. naive_solver.
  - rewrite app_cons_s. destruct s as [|b s]; [naive_solver|].
    case_bool_decide; rewrite ?IH; naive_solver.
Qed.

Lemma HasPrefix_app p s : HasPrefix (p +:+ s) p = true.
Proof. unfold HasPrefix. apply bool_decide_eq_true. exists s. by apply strip_Some. Qed.

Lemma TrimPrefix_app p s : TrimPrefix (p +:+ s) p = s.
Proof.
  unfold TrimPrefix. destruct (strip p (p +:+ s)) eqn:E.
  - apply strip_Some in E. simpl. revert E. induction p as [|a p IH]; rewrite ?app_nil_s; [done|].
    rewrite !app_cons_s. intros E. apply IH. by injection E.
  - exfalso. assert (strip p (p +:+ s) = Some s) by (by apply strip_Some). congruence.
Qed.

Lemma HasPrefix_true s p : HasPrefix s p = true -> s = p +:+ TrimPrefix s p.
Proof.
  unfold HasPrefix, TrimPrefix. intros H. apply bool_decide_eq_true in H as [r Hr].
  rewrite Hr. by apply strip_Some.
Qed.

Lemma app_assoc_s (a b c : string) : (a +:+ b) +:+ c = a +:+ b +:+ c.
Proof. induction a as [|x a IH]; [done|]. rewrite !app_cons_s. by rewrite IH. Qed.

Lemma length_app_s (a b : string) : String.length (a +:+ b) = (String.length a + String.length b)%nat.
Proof. induction a as [|x a IH]; [done|]. rewrite app_cons_s. simpl. by rewrite IH. Qed.

Lemma all_digits_app a b : all_digits (a +:+ b) = all_digits a && all_digits b.
Proof.
  induction a as [|x a IH]; [done|]. rewrite app_cons_s. simpl. rewrite IH.
  by rewrite andb_assoc.
Qed.

(** A digits-only suffix after a separator that is not a digit can be split off
    in one way only. *)
Lemma split_digits_unique c (p q d e : string) :
  is_digit c = false -> all_digits d = true -> all_digits e = true ->
  p +:+ String c d = q +:+ String c e -> p = q /\ d = e.
Proof.
  intros Hc Hd He. revert q.
  induction p as [|a p IH]; intros [|b q]; rewrite ?app_cons_s, ?app_nil_s; intros H.
  - naive_solver.
  - injection H as -> ->. rewrite all_digits_app in Hd. simpl in Hd. by rewrite Hc, andb_false_r in Hd.
  - injection H as -> <-. rewrite all_digits_app in He. simpl in He. by rewrite Hc, andb_false_r in He.
  - injection H as -> H. apply IH in H. naive_solver.
Qed.

(** ** Decimal lemmas *)

Lemma digit_char_nat d : 0 <= d < 10 -> Z.of_nat (nat_of_ascii (digit_char d)) = 48 + d.
Proof. intros. unfold digit_char. rewrite nat_ascii_embedding; lia. Qed.

Lemma is_digit_char d : 0 <= d < 10 -> is_digit (digit_char d) = true.
Proof.
  intros. unfold is_digit. rewrite digit_char_nat by done.
  apply andb_true_iff. split; apply Z.leb_le; lia.
Qed.

Lemma digit_val_char d : 0 <= d < 10 -> digit_val (digit_char d) = d.
Proof. intros. unfold digit_val. rewrite digit_char_nat by done. lia. Qed.

Lemma digit_val_bounds a : is_digit a = true -> 0 <= digit_val a < 10.
Proof. unfold is_digit, digit_val. intros. guards. lia. Qed.

Lemma dec_loop_val f n acc :
  0 <= n < 10 ^ Z.of_nat f -> digits_val 0 (dec_loop f n acc) = digits_val n acc.
Proof.
  revert n acc. induction f as [|f IH]; intros n acc Hn.
  - change (10 ^ Z.of_nat 0) with 1 in Hn. replace n with 0 by lia. done.
  - simpl. destruct (0 <? n) eqn:E; guards; [|by replace n with 0 by lia].
    pose proof (Z.mod_pos_bound n 10 ltac:(lia)).
    rewrite IH.
    + simpl. rewrite is_digit_char, digit_val_char by done. f_equal.
      pose proof (Z.div_mod n 10). lia.
    + rewrite Nat2Z.inj_succ, Z.pow_succ_r in Hn by lia.
      split; [apply Z.div_pos; lia|]. apply Z.div_lt_upper_bound; lia.
Qed.

Lemma all_digits_dec_loop f n acc :
  all_digits acc = true -> all_digits (dec_loop f n acc) = true.
Proof.
  revert n acc. induction f as [|f IH]; intros n acc Ha; simpl; [done|].
  destruct (0 <? n) eqn:?; [|done]. apply IH. simpl. rewrite Ha.
  rewrite is_digit_char; [done|]. apply Z.mod_pos_bound. lia.
Qed.

Lemma length_dec_loop f n acc :
  (String.length acc <= String.length (dec_loop f n acc))%nat.
Proof.
  revert n acc. induction f as [|f IH]; intros n acc; simpl; [done|].
  destruct (0 <? n); [|done]. etrans; [|apply IH]. simpl. lia.
Qed.

(** A number below [10^k] is printed with at most [k] digits. *)
Lemma length_dec_loop_le f k n acc :
  0 <= n < 10 ^ Z.of_nat k ->
  (String.length (dec_loop f n acc) <= k + String.length acc)%nat.
Proof.
  revert k n acc. induction f as [|f IH]; intros k n acc Hn; simpl; [lia|].
  destruct (0 <? n) eqn:E; guards; [|lia].
  destruct k as [|k]; [change (10 ^ Z.of_nat 0) with 1 in Hn; lia|].
  rewrite Nat2Z.inj_succ, Z.pow_succ_r in Hn by lia.
  etrans; [apply (IH k)|simpl; lia].
  split; [apply Z.div_pos; lia|]. apply Z.div_lt_upper_bound; lia.
Qed.

Lemma dec_loop_nonempty f n : 0 < n -> f <> O -> dec_loop f n "" <> "".
Proof.
  intros Hn Hf H. destruct f; [done|]. simpl in H.
  destruct (0 <? n) eqn:?; guards; [|lia].
  apply (f_equal String.length) in H.
  pose proof (length_dec_loop f (n / 10) (String (digit_char (n mod 10)) "")).
  rewrite H in *. simpl in *. lia.
Qed.

Lemma int64_digits n : 0 <= n <= MaxInt64 + 1 -> 0 <= n < 10 ^ Z.of_nat int_digits.
Proof.
  unfold MaxInt64. change (10 ^ Z.of_nat int_digits) with 100000000000000000000. lia.
Qed.

(** The three branches of [FormatInt], as a view. *)
Lemma FormatInt_cases (P : string -> Prop) n :
  (n = 0 -> P "0") -> (n < 0 -> P ("-" +:+ dec_loop int_digits (- n) "")) ->
  (0 < n -> P (dec_loop int_digits n "")) -> P (FormatInt n).
Proof.
  intros H0 Hneg Hpos. unfold FormatInt.
  destruct (Z.eqb_spec n 0); [auto|].
  destruct (Z.ltb_spec n 0); [auto|]. apply Hpos. lia.
Qed.

Lemma FormatInt_digits n : 0 <= n -> all_digits (FormatInt n) = true.
Proof.
  intros Hn. apply FormatInt_cases; [done|lia|]. intros _. by apply all_digits_dec_loop.
Qed.

Lemma FormatInt_nonempty n : FormatInt n <> "".
Proof.
  apply FormatInt_cases; [done|done|]. intros ?. by apply dec_loop_nonempty.
Qed.

Lemma FormatInt_val n : 0 <= n <= MaxInt64 -> digits_val 0 (FormatInt n) = Some n.
Proof.
  intros. apply FormatInt_cases; [by intros ->|lia|]. intros _.
  rewrite dec_loop_val by (apply int64_digits; lia). done.
Qed.

Lemma length_FormatInt k n :
  0 <= n < 10 ^ Z.of_nat k -> (0 < k)%nat -> (String.length (FormatInt n) <= k)%nat.
Proof.
  intros. apply FormatInt_cases; [simpl; lia|lia|]. intros _.
  etrans; [by apply (length_dec_loop_le _ k)|]. simpl. lia.
Qed.

(** The digits of a string bound its value. *)
Lemma digits_val_nonneg acc s v : 0 <= acc -> digits_val acc s = Some v -> 0 <= v.
Proof.
  revert acc. induction s as [|c s IH]; intros acc Ha; simpl; [naive_solver|].
  destruct (is_digit c) eqn:E; [|done]. apply IH. apply digit_val_bounds in E. lia.
Qed.

Lemma digits_val_all acc s : all_digits s = true <-> is_Some (digits_val acc s).
Proof.
  revert acc. induction s as [|c s IH]; intros acc; simpl; [naive_solver|].
  rewrite andb_true_iff, (IH (acc * 10 + digit_val c)).
  destruct (is_digit c); split; [naive_solver..|]. intros [? ?]. done.
Qed.

Lemma all_digits_head_no_sign c s :
  all_digits (String c s) = true -> c <> "-"%char /\ c <> "+"%char.
Proof. simpl. intros H. guards. split; intros ->; done. Qed.

(** On a non-empty digit string [ParseInt] is its value, when it fits. *)
Lemma ParseInt_digits bits s :
  s <> "" -> all_digits s = true ->
  ParseInt bits s =
    match digits_val 0 s with
    | Some v => if 2 ^ (bits - 1) <=? v then None else Some v
    | None => None
    end.
Proof.
  intros Hs Hd. unfold ParseInt. destruct s as [|c s]; [done|].
  apply all_digits_head_no_sign in Hd as [H1 H2].
  rewrite (bool_decide_eq_false_2 _ H1), (bool_decide_eq_false_2 _ H2).
  rewrite bool_decide_eq_false_2 by done.
  by destruct (digits_val 0 (String c s)).
Qed.

(** Printing then parsing gives the number back. *)
Lemma ParseInt_FormatInt bits n :
  0 <= n < 2 ^ (bits - 1) -> n <= MaxInt64 -> ParseInt bits (FormatInt n) = Some n.
Proof.
  intros. rewrite ParseInt_digits by (auto using FormatInt_nonempty, FormatInt_digits with lia).
  rewrite FormatInt_val by lia. destruct (Z.leb_spec (2 ^ (bits - 1)) n); [lia|done].
Qed.

Lemma ParseInt_FormatInt_neg n : int64_ok n -> ParseInt 64 (FormatInt n) = Some n.
Proof.
  unfold int64_ok, MinInt64, MaxInt64. intros Hn.
  destruct (Z.le_gt_cases 0 n).
  { apply ParseInt_FormatInt; [|unfold MaxInt64; lia]. change (2 ^ (64 - 1)) with 9223372036854775808. lia. }
  unfold FormatInt. rewrite (proj2 (Z.eqb_neq n 0)), (proj2 (Z.ltb_lt n 0)) by lia.
  unfold ParseInt. rewrite app_cons_s, app_nil_s, bool_decide_eq_true_2 by done.
  rewrite bool_decide_eq_false_2 by (apply dec_loop_nonempty; [lia|done]).
  rewrite dec_loop_val by (apply int64_digits; unfold MaxInt64; lia).
  change (2 ^ (64 - 1)) with 9223372036854775808. simpl digits_val.
  simpl. destruct (Z.ltb_spec 9223372036854775808 (- n)); [lia|]. simpl. f_equal. lia.
Qed.

(** ** Time lemmas *)

Lemma Sub_exact t u : int64_ok (t - u) -> Sub t u = t - u.
Proof. unfold Sub, int64_ok. lia. Qed.

(** Saturation never changes how a difference compares with a representable
    duration below the maximum. *)
Lemma Sub_lt t u d : MinInt64 < d <= MaxInt64 -> Sub t u < d <-> t - u < d.
Proof. unfold Sub, MinInt64, MaxInt64. lia. Qed.

Lemma Sub_gt t u d : MinInt64 <= d < MaxInt64 -> d < Sub t u <-> d < t - u.
Proof. unfold Sub, MinInt64, MaxInt64. lia. Qed.

(** ** Sorting lemmas *)

Lemma sort_strings_perm l : sort_strings l ≡ₚ l.
Proof. apply merge_sort_Permutation. Qed.

(** ** Visible ASCII: what trimming leaves alone *)

Definition visible (a : ascii) : bool :=
  (33 <=? Z.of_nat (nat_of_ascii a)) && (Z.of_nat (nat_of_ascii a) <=? 126).
Fixpoint all_visible (s : string) : bool :=
  match s with String a s' => visible a && all_visible s' | EmptyString => true end.

Lemma all_visible_app a b : all_visible (a +:+ b) = all_visible a && all_visible b.
Proof.
  induction a as [|x a IH]; [done|]. rewrite app_cons_s. simpl. by rewrite IH, andb_assoc.
Qed.

Lemma rev_string_app s acc : rev_string s acc = rev_string s "" +:+ acc.
Proof.
  revert acc. induction s as [|c s IH]; intros acc; [done|]. simpl.
  rewrite IH, (IH (String c "")), app_assoc_s. done.
Qed.

Lemma rev_string_involutive s : rev_string (rev_string s "") "" = s.
Proof.
  assert (forall s acc, rev_string (rev_string s acc) "" = rev_string acc s) as H.
  { clear s. induction s as [|c s IH]; intros acc; [done|]. simpl. by rewrite IH. }
  apply H.
Qed.

Lemma all_visible_rev s acc : all_visible (rev_string s acc) = all_visible s && all_visible acc.
Proof.
  revert acc. induction s as [|c s IH]; intros acc; [done|]. simpl. rewrite IH. simpl.
  by destruct (visible c), (all_visible s).
Qed.

(** No white-space rune begins, or ends, with a visible byte. *)
Definition hidden_head (r : string) : bool :=
  match r with String a _ => negb (visible a) | EmptyString => false end.

Lemma strip_visible (runes : list string) (f : string -> string) s :
  forallb (fun r => hidden_head (f r)) runes = true -> all_visible s = true ->
  foldr (fun r acc => match strip (f r) s with Some s' => Some s' | None => acc end) None runes = None.
Proof.
  intros Hr Hs. induction runes as [|r runes IH]; simpl in *; [done|]. guards.
  rewrite IH by done. destruct (f r) as [|a r']; [done|]. simpl in *.
  destruct s as [|c s]; [done|]. simpl in Hs. guards. case_bool_decide; [congruence|done].
Qed.

Lemma strip_space_visible s : all_visible s = true -> strip_space s = None.
Proof. apply (strip_visible space_runes id). vm_compute. reflexivity. Qed.
Lemma strip_space_rev_visible s : all_visible s = true -> strip_space_rev s = None.
Proof. apply (strip_visible space_runes (fun r => rev_string r "")). vm_compute. reflexivity. Qed.

Lemma TrimSpace_visible s : all_visible s = true -> TrimSpace s = s.
Proof.
  intros Hs. unfold TrimSpace, TrimLeftSpace.
  assert (trim_loop strip_space (String.length s) s = s) as ->.
  { destruct (String.length s); simpl; [done|]. by rewrite strip_space_visible. }
  assert (all_visible (rev_string s "") = true) as Hr by (rewrite all_visible_rev, Hs; done).
  destruct (String.length s); simpl; rewrite ?strip_space_rev_visible by done; apply rev_string_involutive.
Qed.

(** ** Splitting *)

Fixpoint lacks (c : ascii) (s : string) : bool :=
  match s with String a s' => (a != c) && lacks c s' | EmptyString => true end.

Lemma lacks_app c a b : lacks c (a +:+ b) = lacks c a && lacks c b.
Proof.
  induction a as [|x a IH]; [done|]. rewrite app_cons_s. simpl. by rewrite IH, andb_assoc.
Qed.

Lemma Split_lacks c s : lacks c s = true -> Split c s = [s].
Proof.
  induction s as [|a s IH]; simpl; [done|]. intros. guards.
  rewrite bool_decide_eq_false_2 by done. by rewrite IH.
Qed.

Lemma Split_sep c a b : lacks c a = true -> Split c (a +:+ String c b) = a :: Split c b.
Proof.
  induction a as [|x a IH]; rewrite ?app_cons_s, ?app_nil_s; simpl; [by rewrite bool_decide_eq_true_2|].
  intros. guards. rewrite bool_decide_eq_false_2 by done. by rewrite IH.
Qed.

Lemma digit_visible s : all_digits s = true -> all_visible s = true.
Proof.
  induction s as [|a s IH]; simpl; [done|]. intros. guards. rewrite IH by done.
  unfold is_digit, visible in *. guards. rewrite andb_true_r.
  apply andb_true_iff. rewrite !Z.leb_le. lia.
Qed.

Lemma digit_lacks c s : is_digit c = false -> all_digits s = true -> lacks c s = true.
Proof.
  intros Hc. induction s as [|a s IH]; simpl; [done|]. intros. guards. rewrite IH by done.
  rewrite bool_decide_eq_false_2; [done|]. congruence.
Qed.

Lemma FormatInt_shape n :
  int64_ok n -> all_digits (FormatInt n) = true
  \/ exists d, FormatInt n = String "-"%char d /\ all_digits d = true.
Proof.
  unfold int64_ok, MinInt64, MaxInt64. intros Hn. destruct (Z.le_gt_cases 0 n).
  - left. by apply FormatInt_digits.
  - right. unfold FormatInt. rewrite (proj2 (Z.eqb_neq n 0)), (proj2 (Z.ltb_lt n 0)) by lia.
    eexists. split; [apply app_cons_s|]. rewrite app_nil_s. by apply all_digits_dec_loop.
Qed.

Lemma FormatInt_visible n : int64_ok n -> all_visible (FormatInt n) = true.
Proof.
  intros [Hd|(d & -> & Hd)]%FormatInt_shape; [by apply digit_visible|].
  simpl. by apply digit_visible.
Qed.

Lemma FormatInt_lacks c n :
  int64_ok n -> is_digit c = false -> c <> "-"%char -> lacks c (FormatInt n) = true.
Proof.
  intros [Hd|(d & -> & Hd)]%FormatInt_shape Hc Hm; [by apply digit_lacks|].
  simpl. rewrite bool_decide_eq_false_2 by congruence. by apply digit_lacks.
Qed.
