(* ===== verification/Api.v ===== *)
(** * The GPUCellPool API types (api/v1alpha1)

    One record per Go struct and one constant per Go constant. Pointers are
    [option]s, [map[string]string] is [gmap string string], [metav1.Time] a
    [Time], [resource.Quantity] its value in bytes. *)

From S2P Require Import Prelude.
Local Open Scope Z_scope.

(** ** Constants of gpucellpool_types.go *)

Definition UpdateManual : string := "Manual".
Definition UpdateRolling : string := "RollingUpdate".

Definition ScaleDownManual : string := "Manual".
Definition ScaleDownAuto : string := "Auto".

Definition GPUBackendDRA : string := "DRA".
Definition GPUBackendNative : string := "Native".

Definition BootstrapProviderOpaque : string := "Opaque".

Definition CapacityProviderHAMi : string := "HAMi".
Definition HAMiModeDevicePlugin : string := "DevicePlugin".
Definition HAMiModeDRA : string := "DRA".

Definition DeletionPolicyDrain : string := "Drain".
Definition DeletionPolicyForce : string := "Force".

(** ** Condition types, reasons, labels, annotations, finalizers (conditions.go) *)

Definition ConditionReady : string := "Ready".
Definition ConditionProgressing : string := "Progressing".
Definition ConditionWorkloadClusterReachable : string := "WorkloadClusterReachable".
Definition ConditionCapacityProviderReady : string := "CapacityProviderReady".
Definition ConditionCapacityAvailable : string := "CapacityAvailable".
Definition ConditionPhysicalGPUsAvailable : string := "PhysicalGPUsAvailable".
Definition ConditionScalingActive : string := "ScalingActive".
Definition ConditionUpdated : string := "Updated".

Definition ReasonIdle : string := "Idle".
Definition ReasonCellsNotReady : string := "CellsNotReady".
Definition ReasonAllCellsReady : string := "AllCellsReady".
Definition ReasonCellCreating : string := "CellCreating".
Definition ReasonCellDraining : string := "CellDraining".
Definition ReasonTemplateChanged : string := "TemplateChanged".
Definition ReasonAllCellsCurrent : string := "AllCellsCurrent".
Definition ReasonRollingUpdate : string := "RollingUpdate".
Definition ReasonUpdateBlocked : string := "UpdateBlocked".

Definition ReasonConnected : string := "Connected".
Definition ReasonUnreachable : string := "Unreachable".
Definition ReasonCredentialInvalid : string := "CredentialInvalid".
Definition ReasonForbidden : string := "Forbidden".

Definition ReasonHAMiDetected : string := "HAMiDetected".
Definition ReasonHAMiNotDetected : string := "HAMiNotDetected".
Definition ReasonRegistrationUnparseable : string := "RegistrationUnparseable".
Definition ReasonDRAFeatureGateMissing : string := "DRAFeatureGateMissing".
Definition ReasonDRADeviceClassMissing : string := "DRADeviceClassMissing".

Definition ReasonCapacityFree : string := "CapacityFree".
Definition ReasonSaturated : string := "Saturated".
Definition ReasonCapacityUnknown : string := "Unknown".
Definition ReasonHeterogeneous : string := "Heterogeneous".
Definition ReasonFreeDevices : string := "FreeDevices".
Definition ReasonInsufficientGPUs : string := "InsufficientPhysicalGPU".

Definition ReasonCellProvisionTimeout : string := "CellProvisionTimeout".
Definition ReasonJoinTimeout : string := "JoinTimeout".
Definition ReasonNodeNeverRegistered : string := "NodeNeverRegistered".
Definition ReasonGPUNotAdvertised : string := "GPUNotAdvertised".
Definition ReasonNodeNameCollision : string := "NodeNameCollision".
Definition ReasonBootstrapCredentialSuspect : string := "BootstrapCredentialSuspect".
Definition ReasonCellReplacementExhausted : string := "CellReplacementExhausted".
Definition ReasonFaultNotInTheCell : string := "FaultNotInTheCell".
Definition ReasonWaitingForAllocations : string := "WaitingForAllocations".
Definition ReasonDrainTimedOut : string := "DrainTimedOut".

Definition ReasonScaledUp : string := "ScaledUp".
Definition ReasonStabilizing : string := "Stabilizing".
Definition ReasonAtMaxReplicas : string := "AtMaxReplicas".
Definition ReasonDemandUnsatisfiable : string := "DemandUnsatisfiable".
Definition ReasonScaledDown : string := "ScaledDown".
Definition ReasonAtMinReplicas : string := "AtMinReplicas".
Definition ReasonNoIdleCell : string := "NoIdleCell".
Definition ReasonUnknownProvisioner : string := "UnknownProvisioner".
Definition ReasonScaledToZero : string := "ScaledToZero".
Definition ReasonCellShapeUnknown : string := "CellShapeUnknown".

Definition LabelPool : string := "cells.kubeswift.io/pool".
Definition LabelCell : string := "cells.kubeswift.io/cell".
Definition LabelCellIndex : string := "cells.kubeswift.io/cell-index".
Definition LabelInstance : string := "cells.kubeswift.io/instance".

Definition AnnotationTemplateHash : string := "cells.kubeswift.io/template-hash".
Definition AnnotationGPUPreflight : string := "cells.kubeswift.io/gpu-preflight".

Definition APIVersion : string := "cells.kubeswift.io/v1alpha1".
Definition PoolKind : string := "GPUCellPool".

Definition FinalizerPool : string := "cells.kubeswift.io/pool".
Definition FinalizerCellDrain : string := "cells.kubeswift.io/cell-drain".

(** ** Kubernetes types the API embeds *)

(** corev1.Taint, without the TimeAdded stamp. *)
Record Taint := mkTaint { t_Key : string; t_Value : string; t_Effect : string }.

(** metav1.Condition; the status is one of True, False, Unknown. *)
Inductive ConditionStatus := ConditionTrue | ConditionFalse | ConditionUnknown.

Record Condition := mkCondition {
  c_Type : string;
  c_Status : ConditionStatus;
  c_ObservedGeneration : int64;
  c_LastTransitionTime : Time;
  c_Reason : string;
  c_Message : string
}.

(** ** Spec *)

Record UpdatePolicySpec := mkUpdatePolicySpec { up_Type : string }.

Record AutoscalingSpec := mkAutoscalingSpec {
  as_Enabled : bool;
  as_MinReplicas : option int32;
  as_MaxReplicas : option int32;
  as_StabilizationWindow : option Duration;
  as_ScaleDown : string;
  as_ScaleDownStabilizationWindow : option Duration
}.

Record ClusterAPIObjectRef := mkClusterAPIObjectRef {
  ref_APIGroup : string; ref_Kind : string; ref_Name : string
}.

Record CellClusterAPISpec := mkCellClusterAPISpec {
  capi_ClusterName : string;
  capi_Version : string;
  capi_BootstrapConfigTemplateRef : option ClusterAPIObjectRef
}.

Record CellGPUDRASpec := mkCellGPUDRASpec {
  dra_ResourceClaimTemplateName : string;
  dra_ResourceClaimName : string;
  dra_RequestName : string;
  dra_Tier : string;
  dra_Hugepages : string
}.

(** GPUProfileRef is a corev1.LocalObjectReference: its name. *)
Record CellGPUNativeSpec := mkCellGPUNativeSpec { native_GPUProfileRef : string }.

Record CellGPUSpec := mkCellGPUSpec {
  gpu_Count : int32;
  gpu_Backend : string;
  gpu_DRA : option CellGPUDRASpec;
  gpu_Native : option CellGPUNativeSpec
}.

(** GuestTemplate is the raw JSON of a runtime.RawExtension. *)
Record CellSpec := mkCellSpec {
  cell_Provisioner : string;
  cell_GuestTemplate : string;
  cell_GPU : CellGPUSpec;
  cell_SpreadPolicy : string;
  cell_NodeIPFrom : string;
  cell_ClusterAPI : option CellClusterAPISpec
}.

Record BootstrapSpec := mkBootstrapSpec {
  boot_Provider : string;
  boot_JoinSecretRef : option string;
  boot_JoinSecretKey : string;
  boot_Hostname : string;
  boot_ReadyTimeout : option Duration
}.

Record WorkloadNodeSpec := mkWorkloadNodeSpec {
  wn_Labels : gmap string string;
  wn_Annotations : gmap string string;
  wn_Taints : list Taint
}.

Record WorkloadClusterSpec := mkWorkloadClusterSpec {
  wc_KubeconfigSecretRef : string;
  wc_Key : string;
  wc_Node : option WorkloadNodeSpec
}.

Record HAMiSpec := mkHAMiSpec {
  hami_Mode : string;
  hami_ExpectedDevicesPerCell : option int32;
  hami_DeviceClassName : string
}.

Record CapacitySpec := mkCapacitySpec {
  cap_Provider : string;
  cap_HAMi : option HAMiSpec;
  cap_ReadyTimeout : option Duration
}.

Record DeletionSpec := mkDeletionSpec {
  del_Policy : string;
  del_DrainTimeout : option Duration
}.

Record GPUCellPoolSpec := mkGPUCellPoolSpec {
  spec_Replicas : int32;
  spec_Cell : CellSpec;
  spec_Bootstrap : BootstrapSpec;
  spec_WorkloadCluster : WorkloadClusterSpec;
  spec_Capacity : CapacitySpec;
  spec_Autoscaling : option AutoscalingSpec;
  spec_Deletion : option DeletionSpec;
  spec_UpdatePolicy : option UpdatePolicySpec
}.

(** ** Status *)

(** CellPhase is a string enumeration in Go; [CellPhaseNone] is its zero value,
    which a status row that has never been written carries. *)
Inductive CellPhase :=
| CellPhaseNone
| CellPhasePending
| CellPhaseAllocatingGPU
| CellPhaseGuestProvisioning
| CellPhaseBooting
| CellPhaseJoining
| CellPhaseAwaitingGPUCapacity
| CellPhaseReady
| CellPhaseDraining
| CellPhaseDeleting
| CellPhaseFailed.

Definition phase_string (p : CellPhase) : string :=
  match p with
  | CellPhaseNone => ""
  | CellPhasePending => "Pending"
  | CellPhaseAllocatingGPU => "AllocatingGPU"
  | CellPhaseGuestProvisioning => "GuestProvisioning"
  | CellPhaseBooting => "Booting"
  | CellPhaseJoining => "Joining"
  | CellPhaseAwaitingGPUCapacity => "AwaitingGPUCapacity"
  | CellPhaseReady => "Ready"
  | CellPhaseDraining => "Draining"
  | CellPhaseDeleting => "Deleting"
  | CellPhaseFailed => "Failed"
  end.

Record CellStatus := mkCellStatus {
  cs_Name : string;
  cs_Index : int32;
  cs_Phase : CellPhase;
  cs_GuestUID : string;
  cs_HostNode : string;
  cs_Devices : list string;
  cs_NodeName : string;
  cs_NodeReady : bool;
  cs_CapacityDevices : int32;
  cs_Message : string;
  cs_Reason : string;
  cs_FailureCount : int32;
  cs_ReadyOnce : bool;
  cs_TemplateHash : string;
  cs_LastTransitionTime : option Time
}.

(** The zero value of the struct. *)
Definition zeroCellStatus : CellStatus :=
  mkCellStatus "" 0 CellPhaseNone "" "" [] "" false 0 "" "" 0 false "" None.

Record PhysicalCapacityStatus := mkPhysicalCapacityStatus {
  pc_GPUs : int32;
  pc_FreeGPUsInCluster : option int32;
  pc_Model : string
}.

Record MemoryCapacity := mkMemoryCapacity {
  mc_Total : int64; mc_Allocated : int64; mc_Available : int64
}.

Record ComputeCapacity := mkComputeCapacity {
  cc_Total : int32; cc_Allocated : int32; cc_Available : int32
}.

Record ModelCapacityStatus := mkModelCapacityStatus {
  mcs_Model : string;
  mcs_Devices : int32;
  mcs_Memory : option MemoryCapacity;
  mcs_Compute : option ComputeCapacity
}.

Record WorkloadCapacityStatus := mkWorkloadCapacityStatus {
  wcs_Provider : string;
  wcs_Mode : string;
  wcs_GPUDevices : int32;
  wcs_Homogeneous : bool;
  wcs_GPUMemory : option MemoryCapacity;
  wcs_GPUCompute : option ComputeCapacity;
  wcs_ByModel : list ModelCapacityStatus;
  wcs_LastObserved : option Time
}.

Record CellDeviceShape := mkCellDeviceShape {
  shape_Model : string;
  shape_MemoryMiB : int64;
  shape_CorePercent : int64;
  shape_LastObserved : option Time
}.

Record DemandStatus := mkDemandStatus {
  ds_PendingRequests : int32;
  ds_SatisfiableByOneCell : int32;
  ds_LastObserved : option Time
}.

Record GPUCellPoolStatus := mkGPUCellPoolStatus {
  st_ObservedGeneration : int64;
  st_Replicas : int32;
  st_ReadyCells : int32;
  st_CreatingCells : int32;
  st_DrainingCells : int32;
  st_FailedCells : int32;
  st_DesiredReplicas : int32;
  st_Demand : option DemandStatus;
  st_CellDeviceShape : option CellDeviceShape;
  st_LastScaleUpTime : option Time;
  st_LastScaleDownTime : option Time;
  st_DemandFreeSince : option Time;
  st_PhysicalCapacity : option PhysicalCapacityStatus;
  st_WorkloadCapacity : option WorkloadCapacityStatus;
  st_Cells : list CellStatus;
  st_Conditions : list Condition
}.

(** The object: the metadata fields the operator reads, spec and status. *)
Record GPUCellPool := mkGPUCellPool {
  pool_Name : string;
  pool_Namespace : string;
  pool_UID : string;
  pool_Generation : int64;
  pool_DeletionTimestamp : option Time;
  pool_Finalizers : list string;
  pool_Spec : GPUCellPoolSpec;
  pool_Status : GPUCellPoolStatus
}.

(** ** Decidability *)

#[export] Instance Taint_eq_dec : EqDecision Taint.
Proof. solve_decision. Defined.

#[export] Instance ConditionStatus_eq_dec : EqDecision ConditionStatus.
Proof. solve_decision. Defined.

#[export] Instance Condition_eq_dec : EqDecision Condition.
Proof. solve_decision. Defined.

#[export] Instance CellPhase_eq_dec : EqDecision CellPhase.
Proof. solve_decision. Defined.

#[export] Instance CellStatus_eq_dec : EqDecision CellStatus.
Proof. solve_decision. Defined.

(** The phases print differently, so the enumeration is as fine as the strings. *)
#[export] Instance phase_string_inj : Inj (=) (=) phase_string.
Proof. intros [] []; done. Qed.
