(* ===== verification/Sha256.v ===== *)
(** * SHA-256 and hexadecimal (crypto/sha256, encoding/hex)

    [cellid.TemplateHash] is the one caller. Words are [Z] in [0, 2^32), bytes
    are [Z] in [0, 256). *)

From S2P Require Import Prelude GoStd.
Local Open Scope Z_scope.

Definition word32 (x : Z) : Z := x mod 4294967296.

Definition rotr (n x : Z) : Z := Z.lor (Z.shiftr x n) (word32 (Z.shiftl x (32 - n))).

Definition round_constants : list Z :=
  [1116352408; 1899447441; 3049323471; 3921009573; 961987163; 1508970993;
   2453635748; 2870763221; 3624381080; 310598401; 607225278; 1426881987;
   1925078388; 2162078206; 2614888103; 3248222580; 3835390401; 4022224774;
   264347078; 604807628; 770255983; 1249150122; 1555081692; 1996064986;
   2554220882; 2821834349; 2952996808; 3210313671; 3336571891; 3584528711;
   113926993; 338241895; 666307205; 773529912; 1294757372; 1396182291;
   1695183700; 1986661051; 2177026350; 2456956037; 2730485921; 2820302411;
   3259730800; 3345764771; 3516065817; 3600352804; 4094571909; 275423344;
   430227734; 506948616; 659060556; 883997877; 958139571; 1322822218;
   1537002063; 1747873779; 1955562222; 2024104815; 2227730452; 2361852424;
   2428436474; 2756734187; 3204031479; 3329325298].

Definition initial_state : list Z :=
  [1779033703; 3144134277; 1013904242; 2773480762;
   1359893119; 2600822924; 528734635; 1541459225].

Definition small_sigma0 (x : Z) : Z := Z.lxor (Z.lxor (rotr 7 x) (rotr 18 x)) (Z.shiftr x 3).
Definition small_sigma1 (x : Z) : Z := Z.lxor (Z.lxor (rotr 17 x) (rotr 19 x)) (Z.shiftr x 10).
Definition big_sigma0 (x : Z) : Z := Z.lxor (Z.lxor (rotr 2 x) (rotr 13 x)) (rotr 22 x).
Definition big_sigma1 (x : Z) : Z := Z.lxor (Z.lxor (rotr 6 x) (rotr 11 x)) (rotr 25 x).
Definition choose (e f g : Z) : Z := Z.lxor (Z.land e f) (Z.land (Z.lxor 4294967295 e) g).
Definition majority (a b c : Z) : Z :=
  Z.lxor (Z.lxor (Z.land a b) (Z.land a c)) (Z.land b c).

(** The message schedule, most recent word first. *)
Fixpoint schedule (fuel : nat) (ws : list Z) : list Z :=
  match fuel with
  | O => ws
  | S f =>
      let w := word32 (small_sigma1 (nth 1 ws 0) + nth 6 ws 0
                       + small_sigma0 (nth 14 ws 0) + nth 15 ws 0) in
      schedule f (w :: ws)
  end.

Definition round (st : list Z) (kw : Z * Z) : list Z :=
  match st with
  | [a; b; c; d; e; f; g; h] =>
      let t1 := h + big_sigma1 e + choose e f g + fst kw + snd kw in
      let t2 := big_sigma0 a + majority a b c in
      [word32 (t1 + t2); a; b; c; word32 (d + t1); e; f; g]
  | _ => st
  end.

Definition compress (st block : list Z) : list Z :=
  let ws := reverse (schedule 48 (reverse block)) in
  zip_with (fun x y => word32 (x + y)) st (foldl round st (zip round_constants ws)).

(** Big-endian words of a byte list. *)
Fixpoint words (l : list Z) : list Z :=
  match l with
  | a :: b :: c :: d :: l' => (a * 16777216 + b * 65536 + c * 256 + d) :: words l'
  | _ => []
  end.

Fixpoint chunks16 (fuel : nat) (l : list Z) : list (list Z) :=
  match fuel with
  | O => []
  | S f => if bool_decide (l = []) then [] else take 16 l :: chunks16 f (drop 16 l)
  end.

Definition be_bytes (k : nat) (x : Z) : list Z :=
  map (fun i => Z.shiftr x (8 * Z.of_nat i) mod 256) (reverse (seq 0 k)).

Definition string_bytes (s : string) : list Z :=
  map (fun a => Z.of_nat (nat_of_ascii a)) (String.list_ascii_of_string s).

(** The message, a one bit, zeros and the bit length fill whole blocks. *)
Definition pad (msg : list Z) : list Z :=
  let n := len msg in
  let zeros := Z.to_nat ((55 - n) mod 64) in
  msg ++ [128] ++ replicate zeros 0 ++ be_bytes 8 (8 * n).

Definition sha256 (s : string) : list Z :=
  let blocks := words (pad (string_bytes s)) in
  foldl compress initial_state (chunks16 (length blocks) blocks) ≫= be_bytes 4.

Definition hex_char (d : Z) : ascii :=
  ascii_of_nat (Z.to_nat (if d <? 10 then 48 + d else 87 + d)).

Definition hex_encode (l : list Z) : string :=
  foldr (fun b s => String (hex_char (b / 16)) (String (hex_char (b mod 16)) s)) "" l.

(** The FIPS 180-4 test vectors. *)
Example sha256_empty :
  hex_encode (sha256 "") = "e3b0c44298fc1c149afbf4c8996fb92427ae41e4649b934ca495991b7852b855".
Proof. vm_compute. reflexivity. Qed.

Example sha256_abc :
  hex_encode (sha256 "abc") = "ba7816bf8f01cfea414140de5dae2223b00361a396177a9cb410ff61f20015ad".
Proof. vm_compute. reflexivity. Qed.

Example sha256_two_blocks :
  hex_encode (sha256 "abcdbcdecdefdefgefghfghighijhijkijkljklmklmnlmnomnopnopq")
  = "248d6a61d20638b8e5c026930c3e6039a33ce45964ff2167f6ecedd419db06c1".
Proof. vm_compute. reflexivity. Qed.
