(* ===== verification/CellId.v ===== *)
(** * Cell naming, index allocation and identity (internal/cellid/cellid.go)

    The name-derived identity of a cell: [<pool>-<index>] names the guest, the
    hostname and the workload Node; the lowest free index is allocated first and
    the highest drained first; labels carry the identity triple and the guest
    UID of the incarnation. *)

From S2P Require Import Prelude GoStd Api Sha256.
Local Open Scope Z_scope.
Local Open Scope go_scope.

Definition maxIndexDigits : Z := 5.

(** validation.DNS1035LabelMaxLength, the DNS label limit. *)
Definition hostnameMaxLen : Z := 63.

Definition Name (pool : string) (index : int32) : string := pool +:+ "-" +:+ FormatInt index.

Definition SeedName (cell : string) : string := cell +:+ "-seed".

Definition BootstrapSecretName (cell : string) : string := cell +:+ "-bootstrap".

(** The ways [ValidatePool] and [ParseIndex] refuse a name. *)
Inductive NameError :=
| NotDNSSubdomain (errs : list string)
| PoolNameTooLong (got limit : Z)
| NotOfPool
| NoNumericIndex
| IndexOutOfRange.

(** [isDNS1123Subdomain] is validation.IsDNS1123Subdomain: the list of problems,
    empty when the name is a subdomain. *)
Definition ValidatePool (isDNS1123Subdomain : string -> list string) (pool : string)
    : result NameError unit :=
  let errs := isDNS1123Subdomain pool in
  if 0 <? len errs then Err (NotDNSSubdomain errs)
  else
    let got := Z.of_nat (String.length pool) + 1 + maxIndexDigits in
    if hostnameMaxLen <? got then Err (PoolNameTooLong got hostnameMaxLen) else Ok tt.

Definition ParseIndex (pool cell : string) : result NameError int32 :=
  let prefix := pool +:+ "-" in
  if negb (HasPrefix cell prefix) then Err NotOfPool
  else
    let suffix := TrimPrefix cell prefix in
    if (suffix == "") || negb (all_digits suffix) then Err NoNumericIndex
    else match ParseInt 32 suffix with
         | None => Err IndexOutOfRange
         | Some n => Ok n
         end.

(** The search loop: the index is an int32, so the increment wraps. Some index
    among the first [length used + 1] is free, so that much fuel finds it. *)
Fixpoint lowest_free_loop (seen : gset Z) (fuel : nat) (i : int32) : option int32 :=
  match fuel with
  | O => None
  | S f => if bool_decide (i ∈ seen) then lowest_free_loop seen f (wrap32 (i + 1)) else Some i
  end.

Definition LowestFreeIndex (used : list int32) : int32 :=
  default 0 (lowest_free_loop (list_to_set used) (S (length used)) 0).

(** The descending order sort.Slice is given. *)
Definition idx_ge (a b : int32) : Prop := b <= a.

#[export] Instance idx_ge_dec : RelDecision idx_ge.
Proof. intros a b. unfold idx_ge. apply _. Defined.

Definition HighestIndexes (used : list int32) (count : int) : list int32 :=
  let sorted := merge_sort idx_ge used in
  let count := if len sorted <? count then len sorted else count in
  let count := if count <? 0 then 0 else count in
  take (Z.to_nat count) sorted.

Definition GuestLabels (pool : string) (index : int32) : gmap string string :=
  {[ LabelPool := pool; LabelCell := Name pool index; LabelCellIndex := FormatInt index ]}.

(** What a list by this selector keeps: [labels.SelectorFromSet] asks for each label. *)
Definition PoolSelector (pool : string) : gmap string string := {[ LabelPool := pool ]}.
Definition selects (sel labels : gmap string string) : Prop := sel ⊆ labels.

(** The loop over [extra] writes distinct keys into an empty map: it copies it. *)
Definition NodeLabels (pool : string) (index : int32) (instance : string)
    (extra : gmap string string) : gmap string string :=
  let out := extra in
  let out := <[LabelPool := pool]> out in
  let out := <[LabelCell := Name pool index]> out in
  let out := <[LabelCellIndex := FormatInt index]> out in
  if instance != "" then <[LabelInstance := instance]> out else out.

Definition IsStaleNode (nodeLabels : gmap string string) (wantInstance : string) : bool :=
  match nodeLabels !! LabelInstance with
  | None => false
  | Some got =>
      if (got == "") || (wantInstance == "") then false else got != wantInstance
  end.

(** What [TemplateHash] feeds to the hash: every part behind its length. *)
Definition hash_input (parts : list string) : string :=
  foldr (fun p acc => FormatInt (Z.of_nat (String.length p)) +:+ ":" +:+ p +:+ acc) "" parts.

Definition TemplateHash (parts : list string) : string :=
  String.substring 0 10 (hex_encode (sha256 (hash_input parts))).

(** ** Names *)

Lemma Name_app pool i : Name pool i = (pool +:+ "-") +:+ FormatInt i.
Proof. unfold Name. by rewrite app_assoc_s. Qed.

(** What [ParseIndex] accepts: the pool's prefix followed by a non-empty run of
    digits whose value fits an int32. *)
Lemma ParseIndex_Ok pool cell i :
  ParseIndex pool cell = Ok i <->
  exists d, cell = (pool +:+ "-") +:+ d /\ d <> "" /\ all_digits d = true
            /\ digits_val 0 d = Some i /\ i <= MaxInt32.
Proof.
  unfold ParseIndex, MaxInt32. split.
  - destruct (HasPrefix _ _) eqn:Hp; simpl; [|done].
    destruct (TrimPrefix cell (pool +:+ "-") == "") eqn:He; simpl; [done|].
    destruct (all_digits _) eqn:Hd; simpl; [|done]. guards.
    rewrite ParseInt_digits by done. intros H.
    exists (TrimPrefix cell (pool +:+ "-")). split; [by apply HasPrefix_true|].
    destruct (digits_val _ _); [|done].
    destruct (Z.leb_spec (2 ^ (32 - 1)) z); simplify_eq. split_and!; try done.
    change (2 ^ (32 - 1)) with 2147483648 in *. lia.
  - intros (d & -> & Hne & Hd & Hv & Hi).
    rewrite HasPrefix_app, TrimPrefix_app. simpl.
    rewrite bool_decide_eq_false_2, Hd by done. simpl.
    rewrite ParseInt_digits, Hv by done.
    change (2 ^ (32 - 1)) with 2147483648.
    destruct (Z.leb_spec 2147483648 i); [lia|done].
Qed.

Lemma ParseIndex_bounds pool cell i : ParseIndex pool cell = Ok i -> 0 <= i <= MaxInt32.
Proof.
  intros (d & _ & _ & _ & Hv & ?)%ParseIndex_Ok. split; [|done].
  by apply (digits_val_nonneg 0 d).
Qed.

Lemma Name_parses pool i : 0 <= i <= MaxInt32 -> ParseIndex pool (Name pool i) = Ok i.
Proof.
  unfold MaxInt32. intros. apply ParseIndex_Ok. exists (FormatInt i).
  split_and!; [apply Name_app|apply FormatInt_nonempty|apply FormatInt_digits; lia| |].
  - apply FormatInt_val. unfold MaxInt64. lia.
  - unfold MaxInt32. lia.
Qed.

Lemma Name_inj_nonneg pool pool' i j :
  0 <= i <= MaxInt64 -> 0 <= j <= MaxInt64 ->
  Name pool i = Name pool' j -> pool = pool' /\ i = j.
Proof.
  intros Hi Hj H. unfold Name in H.
  change ("-" +:+ FormatInt i) with (String "-" (FormatInt i)) in H.
  change ("-" +:+ FormatInt j) with (String "-" (FormatInt j)) in H.
  apply split_digits_unique in H as [-> Hd]; [|done|apply FormatInt_digits; lia..].
  split; [done|]. apply (f_equal (digits_val 0)) in Hd.
  rewrite !FormatInt_val in Hd by lia. by simplify_eq.
Qed.

(** ** Index allocation *)

(** Fewer indexes are used than there are in a longer initial segment. *)
Lemma segment_not_covered (used : list Z) (n : nat) :
  (forall k, (k < n)%nat -> Z.of_nat k ∈ used) -> (n <= length used)%nat.
Proof.
  intros H. set (s := map Z.of_nat (seq 0 n)).
  assert (NoDup s) by (apply NoDup_fmap_2; [apply _|apply NoDup_seq]).
  replace n with (length s) by (unfold s; by rewrite length_map, length_seq).
  apply submseteq_length, NoDup_submseteq; [done|].
  intros x Hx. unfold s in Hx. apply list_elem_of_In, in_map_iff in Hx as (k & <- & Hk).
  apply H. apply in_seq in Hk. lia.
Qed.

(** The loop started below [MaxInt32] returns the first index not in [seen], or
    has seen every index it tried. *)
Lemma lowest_free_loop_spec seen fuel i :
  0 <= i -> i + Z.of_nat fuel <= MaxInt32 + 1 ->
  match lowest_free_loop seen fuel i with
  | Some j => i <= j < i + Z.of_nat fuel /\ (j ∉ seen) /\ (forall k, i <= k < j -> k ∈ seen)
  | None => forall k, i <= k < i + Z.of_nat fuel -> k ∈ seen
  end.
Proof.
  unfold MaxInt32. revert i. induction fuel as [|f IH]; intros i Hi Hf; simpl; [lia|].
  case_bool_decide as E; [|split_and!; [lia..|done|lia]].
  destruct f as [|f]; [intros k Hk; by replace k with i by lia|].
  rewrite wrap32_id by (unfold int32_ok, MaxInt32, MinInt32; lia).
  specialize (IH (i + 1) ltac:(lia) ltac:(lia)).
  destruct (lowest_free_loop seen (S f) (i + 1)) as [j|].
  - destruct IH as (? & ? & Hk). split_and!; [lia..|done|].
    intros k ?. destruct (Z.eq_dec k i) as [->|]; [done|]. apply Hk. lia.
  - intros k ?. destruct (Z.eq_dec k i) as [->|]; [done|]. apply IH. lia.
Qed.

Lemma lowest_free_loop_finds (used : list Z) :
  len used <= MaxInt32 ->
  exists j, lowest_free_loop (list_to_set used) (S (length used)) 0 = Some j.
Proof.
  unfold len. intros Hl.
  pose proof (lowest_free_loop_spec (list_to_set used) (S (length used)) 0
                ltac:(lia) ltac:(lia)) as H.
  destruct (lowest_free_loop _ _ _) as [j|]; [by eauto|]. exfalso.
  pose proof (segment_not_covered used (S (length used))) as Hc.
  assert (S (length used) <= length used)%nat; [|lia]. apply Hc.
  intros k Hk. apply (elem_of_list_to_set (C := gset Z)). apply H. lia.
Qed.

(** More fuel changes nothing. *)
Lemma lowest_free_loop_more seen fuel fuel' i j :
  lowest_free_loop seen fuel i = Some j -> (fuel <= fuel')%nat -> lowest_free_loop seen fuel' i = Some j.
Proof.
  revert fuel' i. induction fuel as [|f IH]; intros [|f'] i; simpl; try done; try lia.
  case_bool_decide; [|done]. intros Hj Hf. apply IH; [done|lia].
Qed.

Lemma LowestFreeIndex_ok (used : list int32) :
  len used <= MaxInt32 ->
  let i := LowestFreeIndex used in
  (i ∉ used) /\ (forall j, 0 <= j < i -> j ∈ used) /\ 0 <= i <= len used.
Proof.
  intros Hl. unfold LowestFreeIndex.
  destruct (lowest_free_loop_finds used Hl) as [j Hj]. rewrite Hj. simpl.
  pose proof (lowest_free_loop_spec (list_to_set used) (S (length used)) 0) as H.
  unfold len in *. specialize (H ltac:(lia) ltac:(lia)). rewrite Hj in H.
  destruct H as (? & Hn & Hk). rewrite (elem_of_list_to_set (C := gset Z)) in Hn.
  split_and!; [done| |lia..]. intros k ?.
  apply (elem_of_list_to_set (C := gset Z)). apply Hk. lia.
Qed.

#[export] Instance idx_ge_total : Total idx_ge.
Proof. intros a b. unfold idx_ge. lia. Qed.
#[export] Instance idx_ge_trans : Transitive idx_ge.
Proof. intros a b c. unfold idx_ge. lia. Qed.

Lemma HighestIndexes_all used : HighestIndexes used (len used) = merge_sort idx_ge used.
Proof.
  unfold HighestIndexes.
  assert (len (merge_sort idx_ge used) = len used) as ->
    by (unfold len; by rewrite merge_sort_Permutation).
  rewrite Z.ltb_irrefl. destruct (Z.ltb_spec (len used) 0); [pose proof (len_nonneg used); lia|].
  unfold len. rewrite Nat2Z.id. apply take_ge. by rewrite merge_sort_Permutation.
Qed.

(** ** Identity labels *)

Lemma NodeLabels_lookup pool i inst extra k :
  k <> LabelPool -> k <> LabelCell -> k <> LabelCellIndex -> k <> LabelInstance ->
  NodeLabels pool i inst extra !! k = extra !! k.
Proof.
  intros. unfold NodeLabels. destruct (inst != ""); by rewrite ?lookup_insert_ne by done.
Qed.

(** ** Theorems *)

(** The selector of a pool keeps the objects labelled for its cells and no other's. *)
Theorem PoolSelector_selects pool pool' i :
  selects (PoolSelector pool) (GuestLabels pool' i) <-> pool = pool'.
Proof.
  unfold selects, PoolSelector. rewrite map_singleton_subseteq_l.
  unfold GuestLabels. rewrite lookup_insert_eq. split; [by intros [= ->]|by intros ->].
Qed.

(** A cell name is parsed back to the index it was made from, for every index
    an int32 can hold. *)
Theorem ParseIndex_Name pool i :
  0 <= i <= MaxInt32 -> ParseIndex pool (Name pool i) = Ok i.
Proof. apply Name_parses. Qed.

Lemma ParseIndex_Name_witness :
  0 <= 17 <= MaxInt32 /\ ParseIndex "inference" (Name "inference" 17) = Ok 17.
Proof. split; [done|]. apply (ParseIndex_Name "inference" 17). done. Defined.

(** Cell names identify their cell across every pool. *)
Theorem Name_injective pool pool' i j :
  0 <= i <= MaxInt32 -> 0 <= j <= MaxInt32 ->
  Name pool i = Name pool' j -> pool = pool' /\ i = j.
Proof. unfold MaxInt32. intros. apply Name_inj_nonneg; unfold MaxInt64; (lia || done). Qed.

Lemma Name_injective_witness : "a-1" = "a-1" /\ 0 = 0.
Proof. apply (Name_injective "a-1" "a-1" 0 0); done. Defined.

(** C39. The search of LowestFreeIndex has no bound in the source, and it ends: among
    the first indexes, one more than are in use, it finds the lowest that is free,
    and no further search would find another. *)
Theorem LowestFreeIndex_lowest (used : list int32) :
  len used <= MaxInt32 ->
  let i := LowestFreeIndex used in
  (i ∉ used) /\ (forall j, 0 <= j < i -> j ∈ used) /\ 0 <= i <= len used
  /\ forall fuel, (length used < fuel)%nat -> lowest_free_loop (list_to_set used) fuel 0 = Some i.
Proof.
  intros Hl i. destruct (LowestFreeIndex_ok used Hl) as (? & ? & ?). split_and!; auto; [lia..|].
  intros fuel Hf. destruct (lowest_free_loop_finds used Hl) as [j Hj].
  apply (lowest_free_loop_more _ (S (length used))); [|lia]. unfold i, LowestFreeIndex. by rewrite Hj.
Qed.

Lemma LowestFreeIndex_lowest_witness :
  let i := LowestFreeIndex [0; 2; 1; 4] in
  (i ∉ [0; 2; 1; 4]) /\ (forall j, 0 <= j < i -> j ∈ [0; 2; 1; 4]) /\ 0 <= i <= 4
  /\ forall fuel, (4 < fuel)%nat -> lowest_free_loop (list_to_set [0; 2; 1; 4]) fuel 0 = Some i.
Proof. apply (LowestFreeIndex_lowest [0; 2; 1; 4]). done. Defined.

(** [HighestIndexes] returns the [count] highest indexes in descending order. *)
Theorem HighestIndexes_highest (used : list int32) (count : int) :
  let out := HighestIndexes used count in
  Sorted idx_ge out
  /\ len out = Z.max 0 (Z.min count (len used))
  /\ exists rest, out ++ rest ≡ₚ used /\ forall x y, x ∈ out -> y ∈ rest -> y <= x.
Proof.
  unfold HighestIndexes. set (s := merge_sort idx_ge used).
  assert (Hs : StronglySorted idx_ge s) by (apply StronglySorted_merge_sort; apply _).
  assert (Hl : len s = len used) by (unfold len, s; by rewrite merge_sort_Permutation).
  set (n := Z.to_nat _). simpl.
  rewrite <- (take_drop n s) in Hs.
  pose proof (StronglySorted_app_1_l _ _ _ Hs). split_and!.
  - by apply StronglySorted_Sorted.
  - unfold len at 1. rewrite length_take. unfold n.
    pose proof (len_nonneg s). rewrite <- Hl.
    destruct (Z.ltb_spec (len s) count); destruct (Z.ltb_spec count 0);
      destruct (Z.ltb_spec (len s) 0); unfold len in *; try lia.
  - exists (drop n s). rewrite take_drop. split; [apply merge_sort_Permutation|].
    intros x y Hx Hy. by apply (StronglySorted_app_1_elem_of _ _ _ _ _ Hs).
Qed.

(** The identity labels a Node must carry are not overridable by user labels,
    and a Node labelled for one incarnation is stale exactly for another. *)
Theorem NodeLabels_identity pool i inst extra :
  let l := NodeLabels pool i inst extra in
  l !! LabelPool = Some pool /\ l !! LabelCell = Some (Name pool i)
  /\ l !! LabelCellIndex = Some (FormatInt i)
  /\ (inst <> "" -> forall want, want <> "" ->
        IsStaleNode l want = bool_decide (inst <> want)).
Proof.
  unfold NodeLabels, IsStaleNode. destruct (bool_decide_reflect (inst = "")); simpl.
  - split_and!; [by simplify_map_eq..|done].
  - split_and!; [by simplify_map_eq..|]. intros _ want Hw. simplify_map_eq.
    rewrite !(bool_decide_eq_false_2 (_ = "")) by done. simpl.
    by repeat case_bool_decide.
Qed.

(** A pool name that passes validation leaves room for every supported index:
    each cell name fits in one DNS label. *)
Theorem ValidatePool_names_fit dns pool i :
  ValidatePool dns pool = Ok tt -> 0 <= i < 10 ^ maxIndexDigits ->
  Z.of_nat (String.length (Name pool i)) <= hostnameMaxLen.
Proof.
  unfold ValidatePool, Name. intros H Hi. branches_in H.
  pose proof (length_FormatInt 5 i Hi ltac:(lia)).
  rewrite !length_app_s. simpl. unfold maxIndexDigits in *. lia.
Qed.

Lemma ValidatePool_names_fit_witness :
  Z.of_nat (String.length (Name "inference" 99999)) <= hostnameMaxLen.
Proof. by apply (ValidatePool_names_fit (fun _ => []) "inference" 99999). Defined.
