(* ===== verification/KubeApi.v ===== *)
(** * The Kubernetes API as the operator sees it

    The API servers of the two clusters are services outside the repository, so
    the operations on them are an interface: a class of operations over an
    abstract world, any of which may fail. The records below are the fields of
    the Kubernetes types the sources read. *)

From S2P Require Import Prelude GoStd Api.
Local Open Scope Z_scope.
Local Open Scope go_scope.

(** ** Errors *)

(** The error classes the sources tell apart (apierrors.IsNotFound, ...). *)
Inductive APIError :=
| NotFound
| NoMatch
| Unauthorized
| Forbidden
| Timeout
| ServerTimeout
| ServiceUnavailable
| OtherError (msg : string).

Definition IsNotFound (e : APIError) : bool := match e with NotFound => true | _ => false end.
Definition IsNoMatchError (e : APIError) : bool := match e with NoMatch => true | _ => false end.

(** ** Objects of the workload cluster *)

(** corev1.NodeCondition; [NodeReadyType] is corev1.NodeReady. *)
Definition NodeReadyType : string := "Ready".
Record NodeCondition := mkNodeCondition {
  nc_Type : string;
  nc_Status : ConditionStatus;
  nc_LastHeartbeatTime : Time
}.

Record Node := mkNode {
  node_Name : string;
  node_Labels : gmap string string;
  node_Annotations : gmap string string;
  node_Taints : list Taint;
  node_Unschedulable : bool;
  node_Conditions : list NodeCondition
}.

(** coordination.k8s.io Lease: the renew time of its holder, if ever held. *)
Record Lease := mkLease { lease_RenewTime : option Time }.

(** corev1.PodPhase. *)
Inductive PodPhase := PodPending | PodRunning | PodSucceeded | PodFailed | PodUnknown.

(** corev1.PodCondition; [PodScheduledType] is corev1.PodScheduled. *)
Definition PodScheduledType : string := "PodScheduled".
Record PodCondition := mkPodCondition {
  pcond_Type : string;
  pcond_Status : ConditionStatus;
  pcond_Reason : string
}.

(** A container's resource lists: each quantity by its integer value. *)
Record Container := mkContainer {
  ctr_Limits : gmap string int64;
  ctr_Requests : gmap string int64
}.

Record Pod := mkPod {
  pod_Namespace : string;
  pod_Name : string;
  pod_NodeName : string;
  pod_Phase : PodPhase;
  pod_Annotations : gmap string string;
  pod_Conditions : list PodCondition;
  pod_Containers : list Container
}.

(** ** Dynamic resource allocation (resource.k8s.io/v1)

    A device of a ResourceSlice: its capacities by their integer value, and the
    attributes the sources read, where present with the expected type. *)
Record SliceDevice := mkSliceDevice {
  sld_Name : string;
  sld_vfioReady : option bool;
  sld_productName : option string;
  sld_Capacity : gmap string int64
}.
Record ResourceSlice := mkResourceSlice {
  rs_Driver : string; rs_Pool : string; rs_Devices : list SliceDevice
}.

Record AllocationResult := mkAllocationResult {
  ar_Driver : string; ar_Pool : string; ar_Device : string; ar_Consumed : gmap string int64
}.

(** The exact form of a request; [er_Selectors] is the number of its selectors. *)
Definition AllocationModeAll : string := "All".
Record ExactRequest := mkExactRequest {
  er_DeviceClassName : string;
  er_Count : int64;
  er_AllocationMode : string;
  er_Capacity : option (gmap string int64);
  er_Selectors : int
}.

(** A request: its exact form, or the selector counts of its alternatives. *)
Record DeviceRequest := mkDeviceRequest {
  dr_Exactly : option ExactRequest; dr_FirstAvailable : list int
}.

(** A claim: its allocation, the number of consumers it is reserved for, and
    what it requests. *)
Record ResourceClaim := mkResourceClaim {
  rc_Allocation : option (list AllocationResult);
  rc_ReservedFor : int;
  rc_Requests : list DeviceRequest
}.

(** The DRA objects of the workload cluster. *)
Class DRACluster (W : Type) := {
  inner_slices : W -> result APIError (list ResourceSlice);
  inner_claims : W -> result APIError (list ResourceClaim);
  get_device_class : string -> W -> result APIError unit
}.

(** A patch of a Node: what a strategic merge patch with these fields sets. *)
Record NodePatch := mkNodePatch {
  np_Labels : option (gmap string string);
  np_Annotations : option (gmap string string);
  np_Taints : option (list Taint);
  np_Unschedulable : option bool
}.

#[export] Instance PodPhase_eq_dec : EqDecision PodPhase.
Proof. solve_decision. Defined.

(** ** The workload cluster client *)

(** kubernetes.Interface over the part of the world that is the workload
    cluster. Reads leave the world as it is; writes return the new world, also
    when they report an error. *)
Class InnerCluster (W : Type) := {
  get_node : string -> W -> result APIError Node;
  list_nodes : string -> string -> W -> result APIError (list Node);
  get_lease : string -> W -> result APIError Lease;
  list_pods_on : string -> W -> result APIError (list Pod);
  list_pods_pending : W -> result APIError (list Pod);
  patch_node : string -> NodePatch -> W -> result APIError unit * W;
  delete_node : string -> W -> result APIError unit * W
}.

(** What a successful strategic merge patch does to the Node: listed labels and
    annotations are set, the taint list (as the sources send it, whole) and the
    unschedulable flag replaced. *)
Definition apply_patch (p : NodePatch) (n : Node) : Node :=
  {| n with
     node_Labels := match np_Labels p with Some l => l ∪ node_Labels n | None => node_Labels n end;
     node_Annotations :=
       match np_Annotations p with Some l => l ∪ node_Annotations n | None => node_Annotations n end;
     node_Taints := match np_Taints p with Some t => t | None => node_Taints n end;
     node_Unschedulable :=
       match np_Unschedulable p with Some b => b | None => node_Unschedulable n end |}.

(** The documented behaviour of the API server the theorems rely on: a
    successful write is what the next read sees, and it touches nothing else. *)
Class InnerClusterLaws (W : Type) `{InnerCluster W} : Prop := {
  patch_node_get : forall name p (w w' : W) n,
    get_node name w = Ok n -> patch_node name p w = (Ok tt, w') ->
    get_node name w' = Ok (apply_patch p n);
  patch_node_frame : forall name p (w w' : W) r other,
    patch_node name p w = (r, w') -> other <> name -> get_node other w' = get_node other w;
  delete_node_frame : forall name (w w' : W) r other,
    delete_node name w = (r, w') -> other <> name -> get_node other w' = get_node other w
}.

(** An error wrapped with what the caller was doing (fmt.Errorf with %w). *)
Record OpError := mkOpError { oe_context : string; oe_cause : APIError }.

(** ** An in-memory workload cluster

    A cluster that never fails, used to show that the laws can hold. *)
Record MemCluster := mkMemCluster {
  mem_nodes : gmap string Node;
  mem_leases : gmap string Lease;
  mem_pods : list Pod
}.

Definition opt_result {A} (o : option A) : result APIError A :=
  match o with Some a => Ok a | None => Err NotFound end.

#[export] Instance mem_inner : InnerCluster MemCluster := {
  get_node name w := opt_result (mem_nodes w !! name);
  list_nodes k v w :=
    Ok (filter (fun n => node_Labels n !! k = Some v) (map_to_list (mem_nodes w)).*2);
  get_lease name w := opt_result (mem_leases w !! name);
  list_pods_on name w := Ok (filter (fun p => pod_NodeName p = name) (mem_pods w));
  list_pods_pending w := Ok (filter (fun p => pod_Phase p = PodPending) (mem_pods w));
  patch_node name p w :=
    match mem_nodes w !! name with
    | Some n => (Ok tt, {| w with mem_nodes := <[name := apply_patch p n]> (mem_nodes w) |})
    | None => (Err NotFound, w)
    end;
  delete_node name w := (Ok tt, {| w with mem_nodes := delete name (mem_nodes w) |})
}.

#[export] Instance mem_inner_laws : InnerClusterLaws MemCluster.
Proof.
  split; simpl.
  - intros name p w w' n Hg Hp. destruct (mem_nodes w !! name) eqn:E; simplify_eq/=.
    by rewrite lookup_insert_eq.
  - intros name p w w' r other Hp Ho. destruct (mem_nodes w !! name) eqn:E; simplify_eq/=; [|done].
    by rewrite lookup_insert_ne.
  - intros name w w' r other Hp Ho. simplify_eq/=. by rewrite lookup_delete_ne.
Qed.
