(* ===== verification/Provider.v ===== *)
(** * The capacity provider's vocabulary (internal/capacity/provider.go) *)

From S2P Require Import Prelude GoStd Api KubeApi.
Local Open Scope Z_scope.
Local Open Scope go_scope.

Record Health := mkHealth { h_Ready : bool; h_Reason : string; h_Message : string }.

Record ModelCapacity := mkModelCapacity {
  m_Model : string;
  m_Devices : int;
  m_MemoryTotalMiB : int64;
  m_MemoryAllocatedMiB : int64;
  m_ComputeTotal : int64;
  m_ComputeAllocated : int64
}.

Record Capacity := mkCapacity {
  cap_Devices : int;
  cap_Homogeneous : bool;
  cap_ByModel : list ModelCapacity;
  cap_MemoryTotalMiB : int64;
  cap_MemoryAllocatedMiB : int64;
  cap_ComputeTotal : int64;
  cap_ComputeAllocated : int64
}.

(** The zero value. *)
Definition zeroCapacity : Capacity := mkCapacity 0 false [] 0 0 0 0.

Record Allocations := mkAllocations {
  al_Consumers : int;
  al_MemoryMiB : int64;
  al_CorePercent : int64;
  al_InFlight : bool
}.

Definition zeroAllocations : Allocations := mkAllocations 0 0 0 false.

(** [Allocations.Empty]. *)
Definition Empty (a : Allocations) : bool := (al_Consumers a =? 0) && negb (al_InFlight a).

Record Demand := mkDemand { d_PendingRequests : int; d_SatisfiableByOneCell : int }.

Definition zeroDemand : Demand := mkDemand 0 0.

(** capacity.Device (hami.go): one physical GPU as advertised on a node. *)
Record Device := mkDevice {
  dev_UUID : string;
  dev_LogicalSlots : int;
  dev_MemoryMiB : int64;
  dev_CorePercent : int64;
  dev_Model : string;
  dev_Mode : string;
  dev_Healthy : bool
}.

Lemma Empty_spec a : Empty a = true <-> al_Consumers a = 0 /\ al_InFlight a = false.
Proof. unfold Empty. rewrite andb_true_iff, Z.eqb_eq, negb_true_iff. done. Qed.

(** ** The provider interface

    A provider only reads, so at one moment it is a record of answers. Its errors
    are an API failure while doing something, or an annotation it could not
    parse: what is wrong with it, where the code says so. *)
Inductive RegError :=
| RegJSON (raw : string)
| RegNoID (i : int)
| RegNoField (id field : string).

Inductive AllocError :=
| AllocFields (record : string) (n : int)
| AllocMemory (record : string)
| AllocCores (record : string).

Inductive ProviderError :=
| ProviderAPI (e : OpError)
| BadRegistration (e : RegError)
| BadAllocation (namespace name : string) (e : AllocError).

Record Provider := mkProvider {
  prov_Name : string;
  prov_Health : list string -> result ProviderError Health;
  prov_Devices : string -> result ProviderError int;
  prov_Capacity : list string -> result ProviderError Capacity;
  prov_Allocations : string -> result ProviderError Allocations;
  prov_PendingDemand : option Device -> result ProviderError Demand
}.
