(* ===== verification/Workload.v ===== *)
(** * Access to the workload cluster (internal/workload/client.go, node.go)

    Node state and liveness, the metadata patch, cordon and delete, and the
    cache of clients keyed by credential Secret. *)

From S2P Require Import Prelude GoStd Api KubeApi.
Local Open Scope Z_scope.
Local Open Scope go_scope.

(** ** Node state (node.go) *)

Record NodeState := mkNodeState {
  ns_Exists : bool;
  ns_Ready : bool;
  ns_Unschedulable : bool;
  ns_Labels : gmap string string;
  ns_Annotations : gmap string string;
  ns_KubeletLive : bool;
  ns_HeartbeatSource : string
}.

Definition zeroNodeState : NodeState := mkNodeState false false false ∅ ∅ false "".

Definition leaseGrace : Duration := 90 * Second.
Definition nodeStatusGrace : Duration := 6 * Minute.

(** The first Ready condition decides; none means not ready. *)
Fixpoint ready_condition (l : list NodeCondition) : bool :=
  match l with
  | [] => false
  | c :: l' => if nc_Type c == NodeReadyType then nc_Status c == ConditionTrue
               else ready_condition l'
  end.
Definition IsReady (node : Node) : bool := ready_condition (node_Conditions node).

(** The fallback of [kubeletLive]: the first Ready condition with a heartbeat. *)
Fixpoint heartbeat_live (l : list NodeCondition) (now : Time) : bool * string :=
  match l with
  | [] => (true, "")
  | c :: l' =>
      if (nc_Type c == NodeReadyType) && negb (IsZero (nc_LastHeartbeatTime c))
      then (Sub now (nc_LastHeartbeatTime c) <? nodeStatusGrace, "NodeStatus")
      else heartbeat_live l' now
  end.

Definition kubeletLive (lease : result APIError Lease) (node : Node) (now : Time) : bool * string :=
  match lease with
  | Ok l =>
      match lease_RenewTime l with
      | Some t => (Sub now t <? leaseGrace, "Lease")
      | None => (false, "Lease")
      end
  | Err _ => heartbeat_live (node_Conditions node) now
  end.

Definition node_state (lease : result APIError Lease) (node : Node) (now : Time) : NodeState :=
  let '(live, src) := kubeletLive lease node now in
  {| ns_Exists := true;
     ns_Ready := IsReady node;
     ns_Unschedulable := node_Unschedulable node;
     ns_Labels := node_Labels node;
     ns_Annotations := node_Annotations node;
     ns_KubeletLive := live;
     ns_HeartbeatSource := src |}.

(** ** Desired metadata *)

(** A missing key reads as the empty string, as a Go map does. *)
Definition missingOrWrong (have want : gmap string string) : gmap string string :=
  filter (fun kv => default "" (have !! kv.1) <> kv.2) want.

(** One wanted taint merged into the list: the first taint with its key and
    effect gets its value, or it is appended. *)
Fixpoint mergeTaint (w : Taint) (out : list Taint) : list Taint * bool :=
  match out with
  | [] => ([w], true)
  | h :: t =>
      if (t_Key h == t_Key w) && (t_Effect h == t_Effect w)
      then if t_Value h != t_Value w then ({| h with t_Value := t_Value w |} :: t, true)
           else (h :: t, false)
      else let '(t', c) := mergeTaint w t in (h :: t', c)
  end.

Definition mergeTaints (have want : list Taint) : list Taint * bool :=
  if len want =? 0 then (have, false)
  else foldl (fun acc w => let '(o, c) := mergeTaint w acc.1 in (o, acc.2 || c))
             (have, false) want.

(** The patch [EnsureNodeMetadata] sends: only what is missing or wrong. *)
Definition metadata_patch (node : Node) (labels annotations : gmap string string)
    (taints : list Taint) : NodePatch :=
  let wantL := missingOrWrong (node_Labels node) labels in
  let wantA := missingOrWrong (node_Annotations node) annotations in
  let '(merged, changed) := mergeTaints (node_Taints node) taints in
  {| np_Labels := if wantL == ∅ then None else Some wantL;
     np_Annotations := if wantA == ∅ then None else Some wantA;
     np_Taints := if changed then Some merged else None;
     np_Unschedulable := None |}.

Definition empty_patch (p : NodePatch) : bool :=
  match np_Labels p, np_Annotations p, np_Taints p, np_Unschedulable p with
  | None, None, None, None => true
  | _, _, _, _ => false
  end.

(** ** Node operations *)

Section node_ops.
Context {W : Type} `{InnerCluster W}.

Definition GetNodeState (name : string) (now : Time) (w : W) : result OpError NodeState :=
  match get_node name w with
  | Err e => if IsNotFound e then Ok zeroNodeState
             else Err (mkOpError ("reading node " +:+ name) e)
  | Ok node => Ok (node_state (get_lease (node_Name node) w) node now)
  end.

(** Keyed by node name; a later item of the list overwrites an earlier one. *)
Definition ListPoolNodes (pool : string) (now : Time) (w : W)
    : result OpError (gmap string NodeState) :=
  match list_nodes LabelPool pool w with
  | Err e => Err (mkOpError ("listing nodes of pool " +:+ pool) e)
  | Ok nodes =>
      Ok (foldl (fun m node =>
                   <[node_Name node := node_state (get_lease (node_Name node) w) node now]> m)
                ∅ nodes)
  end.

Definition EnsureNodeMetadata (name : string) (labels annotations : gmap string string)
    (taints : list Taint) (w : W) : result OpError bool * W :=
  match get_node name w with
  | Err e => (Err (mkOpError ("reading node " +:+ name) e), w)
  | Ok node =>
      let patch := metadata_patch node labels annotations taints in
      if empty_patch patch then (Ok false, w)
      else match patch_node name patch w with
           | (Err e, w') => (Err (mkOpError ("patching node " +:+ name) e), w')
           | (Ok _, w') => (Ok true, w')
           end
  end.

Definition Cordon (name : string) (w : W) : result OpError unit * W :=
  match get_node name w with
  | Err e => if IsNotFound e then (Ok tt, w)
             else (Err (mkOpError ("reading node " +:+ name) e), w)
  | Ok node =>
      if node_Unschedulable node then (Ok tt, w)
      else match patch_node name (mkNodePatch None None None (Some true)) w with
           | (Err e, w') => (Err (mkOpError ("cordoning node " +:+ name) e), w')
           | (Ok _, w') => (Ok tt, w')
           end
  end.

Definition DeleteNode (name : string) (w : W) : result OpError unit * W :=
  match delete_node name w with
  | (Err e, w') => if IsNotFound e then (Ok tt, w')
                   else (Err (mkOpError ("deleting node " +:+ name) e), w')
  | (Ok _, w') => (Ok tt, w')
  end.
End node_ops.

(** ** Client cache (client.go) *)

Definition DefaultKubeconfigKey : string := "value".

(** corev1.Secret: what the cache reads of it. *)
Record Secret := mkSecret {
  sec_ResourceVersion : string;
  sec_Data : gmap string string
}.

Inductive CacheError :=
| NoKubeconfigKey (dataKey : string)
| BadKubeconfig
| BadClient.

Section client_cache.
(** The client type, the kubeconfig parser (clientcmd) and the client
    constructor (client-go) are libraries. *)
Context {Config Client : Type}.
Context (RESTConfigFromKubeConfig : string -> option Config).
Context (newClient : Config -> option Client).

Record cacheEntry := mkCacheEntry { ce_resourceVersion : string; ce_client : Client }.

Definition NewClientCache : gmap string cacheEntry := ∅.

(** [ClientCache.For], which runs under the cache's lock. *)
Definition For (key : string) (secret : Secret) (dataKey0 : string)
    (entries : gmap string cacheEntry)
    : result CacheError Client * gmap string cacheEntry :=
  let dataKey := if dataKey0 == "" then DefaultKubeconfigKey else dataKey0 in
  match sec_Data secret !! dataKey with
  | None => (Err (NoKubeconfigKey dataKey), entries)
  | Some raw =>
      if raw == "" then (Err (NoKubeconfigKey dataKey), entries)
      else
        let build :=
          match RESTConfigFromKubeConfig raw with
          | None => (Err BadKubeconfig, entries)
          | Some cfg =>
              match newClient cfg with
              | None => (Err BadClient, entries)
              | Some cs =>
                  (Ok cs, <[key := mkCacheEntry (sec_ResourceVersion secret) cs]> entries)
              end
          end in
        match entries !! key with
        | Some e => if ce_resourceVersion e == sec_ResourceVersion secret
                    then (Ok (ce_client e), entries) else build
        | None => build
        end
  end.

Definition Forget (key : string) (entries : gmap string cacheEntry) : gmap string cacheEntry :=
  delete key entries.

(** [ClientCache.Len]. *)
Definition Len (entries : gmap string cacheEntry) : int := Z.of_nat (size entries).
End client_cache.

(** [ClassifyError]: a network or DNS error, and anything else, is Unreachable. *)
Definition ClassifyError (err : option APIError) : string :=
  match err with
  | None => ReasonConnected
  | Some Unauthorized => ReasonCredentialInvalid
  | Some Forbidden => ReasonForbidden
  | Some Timeout | Some ServerTimeout | Some ServiceUnavailable => ReasonUnreachable
  | Some _ => ReasonUnreachable
  end.

(** ** Liveness *)

(** The fallback reports a dead kubelet on the first usable heartbeat only. *)
Lemma heartbeat_live_dead l now :
  (heartbeat_live l now).1 = false <->
  exists c before after, l = before ++ c :: after
    /\ nc_Type c = NodeReadyType /\ nc_LastHeartbeatTime c <> 0
    /\ nodeStatusGrace <= Sub now (nc_LastHeartbeatTime c)
    /\ forall c', c' ∈ before -> nc_Type c' = NodeReadyType -> nc_LastHeartbeatTime c' = 0.
Proof.
  induction l as [|c l IH]; simpl.
  { split; [done|]. intros (c & b & a & Hl & _). by destruct b. }
  unfold IsZero. destruct (bool_decide_reflect (nc_Type c = NodeReadyType)) as [Ht|Ht];
    destruct (Z.eqb_spec (nc_LastHeartbeatTime c) 0) as [Hz|Hz]; simpl; rewrite ?Z.ltb_ge, ?IH.
  2: { split.
       - intros Hs. exists c, [], l. split_and!; try done. by intros ? ?%elem_of_nil.
       - intros (c' & b & a & Hl & Ht' & Hz' & Hs & Hb). destruct b as [|x b]; simplify_eq/=; [done|].
         exfalso. apply Hz, Hb; [left|done]. }
  all: split;
    [ intros (c' & b & a & -> & Hr); exists c', (c :: b), a; split; [done|];
      destruct Hr as (? & ? & ? & Hb); split_and!; try done;
      intros x [->|Hx]%elem_of_cons Hxt; [congruence|by apply Hb]
    | intros (c' & b & a & Hl & Hr); destruct Hr as (? & ? & ? & Hb);
      destruct b as [|x b]; simplify_eq/=; exists c', b, a; split_and!; try done;
      intros y Hy; apply Hb; by right ].
Qed.

(** ** Taints as a lookup *)

Definition same_taint (a b : Taint) : bool := (t_Key a == t_Key b) && (t_Effect a == t_Effect b).

(** The value the scheduler sees for a key and effect: the first taint's. *)
Fixpoint taint_value (l : list Taint) (w : Taint) : option string :=
  match l with
  | [] => None
  | h :: t => if same_taint h w then Some (t_Value h) else taint_value t w
  end.

Lemma same_taint_true a b : same_taint a b = true <-> t_Key a = t_Key b /\ t_Effect a = t_Effect b.
Proof. unfold same_taint. by rewrite andb_true_iff, !bool_decide_eq_true. Qed.

Lemma same_taint_sym a b : same_taint a b = same_taint b a.
Proof. apply eq_true_iff_eq. rewrite !same_taint_true. naive_solver. Qed.

Lemma same_taint_trans a b c : same_taint a b = true -> same_taint b c = same_taint a c.
Proof.
  intros E. apply eq_true_iff_eq. rewrite !same_taint_true in *.
  split; intros [? ?]; split; destruct E; congruence.
Qed.

Lemma mergeTaint_unchanged w out out' : mergeTaint w out = (out', false) -> out' = out.
Proof.
  revert out'. induction out as [|h t IH]; intros out' E; simpl in E; [done|].
  branches_in E; simplify_eq; try done. f_equal. by apply IH.
Qed.

Lemma mergeTaint_changed w out :
  (mergeTaint w out).2 = bool_decide (taint_value out w <> Some (t_Value w)).
Proof.
  induction out as [|h t IH]; simpl; [done|]. fold (same_taint h w).
  destruct (same_taint h w).
  - repeat case_bool_decide; simpl; congruence.
  - by destruct (mergeTaint w t).
Qed.

Lemma mergeTaint_value w out v :
  taint_value (mergeTaint w out).1 v = if same_taint w v then Some (t_Value w) else taint_value out v.
Proof.
  induction out as [|h t IH]; simpl; [done|]. fold (same_taint h w).
  destruct (same_taint h w) eqn:E.
  - case_bool_decide as Ev; simpl.
    + rewrite (same_taint_sym h w) in E. rewrite <- (same_taint_trans w h v E), Ev.
      by destruct (same_taint h v).
    + unfold same_taint at 1. simpl. fold (same_taint h v).
      rewrite (same_taint_sym h w) in E. rewrite <- (same_taint_trans w h v E).
      by destruct (same_taint h v).
  - destruct (mergeTaint w t) as [t' c]. simpl in *. rewrite IH.
    destruct (same_taint h v) eqn:Ehv, (same_taint w v) eqn:Ewv; try done.
    rewrite (same_taint_sym w v) in Ewv. rewrite (same_taint_trans h v w Ehv) in Ewv. congruence.
Qed.

(** Taints no wanted taint speaks about survive, in order. *)
Lemma mergeTaint_foreign w out (P : Taint -> bool) :
  (forall t, P t = true -> same_taint t w = false) -> P w = false ->
  (forall t v, P {| t with t_Value := v |} = P t) ->
  List.filter P (mergeTaint w out).1 = List.filter P out.
Proof.
  intros HP Hw Hv. induction out as [|h t IH]; simpl; [by rewrite Hw|].
  fold (same_taint h w). destruct (same_taint h w) eqn:E.
  - destruct (t_Value h != t_Value w); simpl; [|done]. rewrite Hv.
    destruct (P h) eqn:Eh; [|done]. apply HP in Eh. congruence.
  - destruct (mergeTaint w t) as [t' c]. simpl in *. by rewrite IH.
Qed.

Abbreviation merge_step :=
  (fun (acc : list Taint * bool) w => let '(o, c) := mergeTaint w acc.1 in (o, acc.2 || c)).

Lemma mergeTaints_fold have want : mergeTaints have want = foldl merge_step (have, false) want.
Proof.
  unfold mergeTaints. destruct (Z.eqb_spec (len want) 0) as [E|]; [|done].
  apply len_zero in E. by subst.
Qed.

Lemma merge_fold_value want acc v :
  taint_value (foldl merge_step acc want).1 v
  = match List.find (fun w => same_taint w v) (rev want) with
    | Some w => Some (t_Value w)
    | None => taint_value acc.1 v
    end.
Proof.
  induction want as [|w want IH] using rev_ind; [done|].
  rewrite foldl_app, rev_app_distr. simpl.
  destruct (foldl merge_step acc want) as [o c] eqn:Eo. simpl in *.
  pose proof (mergeTaint_value w o v) as Hm. destruct (mergeTaint w o) as [o' c']. simpl in *.
  rewrite Hm. by destruct (same_taint w v).
Qed.

(** A want list names each key and effect once. *)
Definition taints_distinct (want : list Taint) : Prop :=
  forall a b, a ∈ want -> b ∈ want -> same_taint a b = true -> a = b.

Lemma merge_fold_wanted want acc w :
  taints_distinct want -> w ∈ want ->
  taint_value (foldl merge_step acc want).1 w = Some (t_Value w).
Proof.
  intros Hd Hw. rewrite merge_fold_value.
  destruct (List.find _ _) as [x|] eqn:E.
  - apply List.find_some in E as [Hx Hs]. rewrite <- in_rev, <- list_elem_of_In in Hx.
    by rewrite (Hd x w Hx Hw Hs).
  - apply (List.find_none _ _) with (x := w) in E; [|by rewrite <- in_rev, <- list_elem_of_In].
    exfalso. assert (same_taint w w = true) by (by apply same_taint_true). congruence.
Qed.

Lemma merge_fold_steady want have c :
  (forall w, w ∈ want -> taint_value have w = Some (t_Value w)) ->
  foldl merge_step (have, c) want = (have, c).
Proof.
  intros Hv. induction want as [|w want IH]; [done|]. simpl.
  destruct (mergeTaint w have) as [o ch] eqn:E.
  assert (ch = false) as ->.
  { pose proof (mergeTaint_changed w have) as Hc. rewrite E in Hc. simpl in Hc. rewrite Hc.
    apply bool_decide_eq_false_2. intros HH. apply HH, Hv. left. }
  apply mergeTaint_unchanged in E. subst. rewrite orb_false_r. apply IH.
  intros x Hx. apply Hv. by right.
Qed.

Lemma merge_fold_unchanged have want out :
  foldl merge_step (have, false) want = (out, false) -> out = have.
Proof.
  revert out. induction want as [|t ts IH] using rev_ind; intros out E;
    [by simpl in E; simplify_eq|].
  rewrite foldl_app in E. simpl in E.
  destruct (foldl merge_step (have, false) ts) as [o c] eqn:Eo. simpl in E.
  destruct (mergeTaint t o) as [o' c'] eqn:Et. injection E as -> Ec.
  apply orb_false_iff in Ec as [-> ->]. apply mergeTaint_unchanged in Et. subst. by apply IH.
Qed.

(** ** Metadata *)

Lemma missingOrWrong_lookup (have want : gmap string string) k v :
  missingOrWrong have want !! k = Some v <-> want !! k = Some v /\ default "" (have !! k) <> v.
Proof. unfold missingOrWrong. rewrite map_lookup_filter_Some. done. Qed.

Lemma missingOrWrong_applied (have want : gmap string string) :
  missingOrWrong (missingOrWrong have want ∪ have) want = ∅.
Proof.
  apply map_empty. intros k. apply eq_None_not_Some. intros [v Hv].
  apply missingOrWrong_lookup in Hv as [Hw Hd]. apply Hd.
  destruct (missingOrWrong have want !! k) as [u|] eqn:E.
  - rewrite (lookup_union_Some_l _ _ _ _ E). apply missingOrWrong_lookup in E as [? _].
    simpl. congruence.
  - rewrite lookup_union_r by done.
    destruct (decide (default "" (have !! k) = v)) as [|Hn]; [done|].
    assert (missingOrWrong have want !! k = Some v) by (by apply missingOrWrong_lookup).
    congruence.
Qed.

Lemma missingOrWrong_none (have want : gmap string string) :
  missingOrWrong have want = ∅ ->
  forall k v, want !! k = Some v -> default "" (have !! k) = v.
Proof.
  intros He k v Hw. destruct (decide (default "" (have !! k) = v)) as [|Hn]; [done|].
  assert (missingOrWrong have want !! k = Some v) as Hm by (by apply missingOrWrong_lookup).
  by rewrite He, lookup_empty in Hm.
Qed.

Lemma empty_patch_none have_node labels annotations taints :
  missingOrWrong (node_Labels have_node) labels = ∅ ->
  missingOrWrong (node_Annotations have_node) annotations = ∅ ->
  (forall w, w ∈ taints -> taint_value (node_Taints have_node) w = Some (t_Value w)) ->
  empty_patch (metadata_patch have_node labels annotations taints) = true.
Proof.
  intros H1 H2 H3. unfold metadata_patch.
  rewrite mergeTaints_fold, merge_fold_steady by done. rewrite H1, H2.
  unfold empty_patch. simpl. by rewrite bool_decide_eq_true_2 by done.
Qed.

(** Applying the patch leaves no label and no annotation to patch. *)
Lemma metadata_applied node labels annotations taints :
  let p := metadata_patch node labels annotations taints in
  let node' := if empty_patch p then node else apply_patch p node in
  missingOrWrong (node_Labels node') labels = ∅ /\ missingOrWrong (node_Annotations node') annotations = ∅.
Proof.
  cbv zeta. unfold metadata_patch. destruct (mergeTaints (node_Taints node) taints) as [merged changed].
  unfold empty_patch. simpl.
  destruct (bool_decide_reflect (missingOrWrong (node_Labels node) labels = ∅)) as [El|El],
    (bool_decide_reflect (missingOrWrong (node_Annotations node) annotations = ∅)) as [Ea|Ea], changed;
    simpl; split; done || apply missingOrWrong_applied.
Qed.

(** Applying the patch leaves nothing to patch. *)
Lemma metadata_patch_fixpoint node labels annotations taints :
  taints_distinct taints ->
  empty_patch (metadata_patch
    (apply_patch (metadata_patch node labels annotations taints) node)
    labels annotations taints) = true.
Proof.
  intros Hd. unfold metadata_patch at 2.
  destruct (mergeTaints (node_Taints node) taints) as [merged changed] eqn:Em.
  apply empty_patch_none; simpl.
  - case_bool_decide as E; [done|]. apply missingOrWrong_applied.
  - case_bool_decide as E; [done|]. apply missingOrWrong_applied.
  - intros w Hw. rewrite mergeTaints_fold in Em.
    pose proof (merge_fold_wanted taints (node_Taints node, false) w Hd Hw) as Hv.
    rewrite Em in Hv. simpl in Hv. destruct changed; [done|].
    by rewrite (merge_fold_unchanged _ _ _ Em) in Hv.
Qed.

(** ** Theorems *)

(** Merging is conservative: wanted taints get their value, taints the pool does
    not speak about keep theirs (and survive in order), and an unchanged result
    is the list the Node already had. *)
Theorem mergeTaints_spec have want :
  taints_distinct want ->
  let '(out, changed) := mergeTaints have want in
  (forall w, w ∈ want -> taint_value out w = Some (t_Value w))
  /\ (forall v, (forall w, w ∈ want -> same_taint w v = false) ->
        taint_value out v = taint_value have v)
  /\ List.filter (fun t => forallb (fun w => negb (same_taint t w)) want) out
     = List.filter (fun t => forallb (fun w => negb (same_taint t w)) want) have.
Proof.
  intros Hd. rewrite mergeTaints_fold.
  destruct (foldl merge_step (have, false) want) as [out changed] eqn:E.
  assert (out = (foldl merge_step (have, false) want).1) as -> by (by rewrite E).
  split_and!.
  - intros w Hw. by apply merge_fold_wanted.
  - intros v Hv. rewrite merge_fold_value. simpl.
    destruct (List.find _ _) as [x|] eqn:Ef; [|done].
    apply List.find_some in Ef as [Hx Hs]. rewrite <- in_rev, <- list_elem_of_In in Hx.
    by rewrite Hv in Hs.
  - set (P := fun t => forallb _ want).
    enough (Hg : forall l acc, (forall w, w ∈ l -> w ∈ want) ->
              List.filter P (foldl merge_step acc l).1 = List.filter P acc.1) by (by apply Hg).
    induction l as [|w l IH]; intros acc Hl; [done|]. simpl.
    destruct (mergeTaint w acc.1) as [o c] eqn:Em.
    rewrite IH by (intros x Hx; apply Hl; by right). simpl.
    pose proof (Hl w ltac:(left)) as Hw.
    rewrite <- (mergeTaint_foreign w acc.1 P); [by rewrite Em| |subst P; simpl|done].
    + intros t Ht. subst P. simpl in Ht. rewrite forallb_forall in Ht.
      apply negb_true_iff, Ht. by rewrite <- list_elem_of_In.
    + apply not_true_iff_false. rewrite forallb_forall. intros Hf.
      rewrite list_elem_of_In in Hw. apply Hf in Hw.
      assert (same_taint w w = true) as Hs by (by apply same_taint_true).
      by rewrite Hs in Hw.
Qed.

Definition ex_taints_have : list Taint :=
  [mkTaint "drain" "x" "NoSchedule"; mkTaint "gpu" "old" "NoSchedule"].
Definition ex_taints_want : list Taint := [mkTaint "gpu" "on" "NoSchedule"].

Lemma ex_taints_distinct : taints_distinct ex_taints_want.
Proof. intros a b Ha Hb _. apply list_elem_of_singleton in Ha, Hb. by subst. Qed.

Lemma mergeTaints_spec_witness :
  mergeTaints ex_taints_have ex_taints_want
    = ([mkTaint "drain" "x" "NoSchedule"; mkTaint "gpu" "on" "NoSchedule"], true)
  /\ let '(out, _) := mergeTaints ex_taints_have ex_taints_want in
     forall w, w ∈ ex_taints_want -> taint_value out w = Some (t_Value w).
Proof.
  split; [done|].
  exact (proj1 (mergeTaints_spec ex_taints_have ex_taints_want ex_taints_distinct)).
Defined.

Section convergence.
Context {W : Type} `{InnerClusterLaws W}.

(** C34. After a successful [EnsureNodeMetadata] the Node carries every label and
    annotation asked for with a non-empty value. When the taints asked for are
    distinct by key and effect it also carries every one of them, and a second
    run finds nothing to write and leaves the world alone. The restriction is
    open: nothing in the API makes the taints distinct, and with two of one key
    and effect every run patches again ([doubled_taint_patched_forever]); that
    is a finding. *)
Theorem EnsureNodeMetadata_converges name labels annotations taints (w w' : W) b :
  EnsureNodeMetadata name labels annotations taints w = (Ok b, w') ->
  exists n, get_node name w' = Ok n
    /\ (forall k v, labels !! k = Some v -> v <> "" -> node_Labels n !! k = Some v)
    /\ (forall k v, annotations !! k = Some v -> v <> "" -> node_Annotations n !! k = Some v)
    /\ (taints_distinct taints ->
        (forall t, t ∈ taints -> taint_value (node_Taints n) t = Some (t_Value t))
        /\ EnsureNodeMetadata name labels annotations taints w' = (Ok false, w')).
Proof.
  intros He. unfold EnsureNodeMetadata in He.
  destruct (get_node name w) as [n|e] eqn:Eg; [|done].
  set (p := metadata_patch n labels annotations taints) in *.
  assert (get_node name w' = Ok (if empty_patch p then n else apply_patch p n)) as Hn'.
  { destruct (empty_patch p); [by simplify_eq|].
    destruct (patch_node _ _ _) as [[[]|e] w1] eqn:Epn; simplify_eq. by eapply patch_node_get. }
  eexists. split; [exact Hn'|].
  assert (Hread : forall have want : gmap string string, missingOrWrong have want = ∅ ->
            forall k v, want !! k = Some v -> v <> "" -> have !! k = Some v).
  { intros have want Hm k v Hw Hv. pose proof (missingOrWrong_none _ _ Hm k v Hw) as Hk.
    destruct (have !! k); simpl in Hk; congruence. }
  pose proof (metadata_applied n labels annotations taints) as [Hl Ha]. fold p in Hl, Ha.
  split_and!; [by apply Hread..|]. intros Hd.
  assert (empty_patch (metadata_patch (if empty_patch p then n else apply_patch p n) labels annotations taints) = true) as Hp'
    by (destruct (empty_patch p) eqn:Ep; [done|by apply metadata_patch_fixpoint]).
  split; [|unfold EnsureNodeMetadata; by rewrite Hn', Hp'].
  set (n' := if empty_patch p then n else apply_patch p n) in *. unfold metadata_patch in Hp'.
  destruct (mergeTaints (node_Taints n') taints) as [merged changed] eqn:Em.
  assert (changed = false) as ->.
  { unfold empty_patch in Hp'. simpl in Hp'.
    destruct (bool_decide (missingOrWrong (node_Labels n') labels = ∅)),
      (bool_decide (missingOrWrong (node_Annotations n') annotations = ∅)), changed; done. }
  rewrite mergeTaints_fold in Em. intros t Ht.
  rewrite <- (merge_fold_wanted taints (node_Taints n', false) t Hd Ht), Em. simpl. f_equal.
  symmetry. by eapply merge_fold_unchanged.
Qed.
End convergence.

Definition ex_node : Node :=
  mkNode "inference-0" {[ LabelPool := "inference" ]} ∅ ex_taints_have false [].
Definition ex_world : MemCluster := mkMemCluster {[ "inference-0" := ex_node ]} ∅ [].

Lemma EnsureNodeMetadata_converges_witness :
  let labels := {[ "gpu" := "on" ]} : gmap string string in
  exists w' b,
    EnsureNodeMetadata "inference-0" labels ∅ ex_taints_want ex_world = (Ok b, w')
    /\ EnsureNodeMetadata "inference-0" labels ∅ ex_taints_want w' = (Ok false, w').
Proof.
  intros labels.
  exists (EnsureNodeMetadata "inference-0" labels ∅ ex_taints_want ex_world).2, true.
  assert (E : EnsureNodeMetadata "inference-0" labels ∅ ex_taints_want ex_world
              = (Ok true, (EnsureNodeMetadata "inference-0" labels ∅ ex_taints_want ex_world).2))
    by (vm_compute; reflexivity).
  split; [exact E|].
  destruct (EnsureNodeMetadata_converges "inference-0" labels ∅ ex_taints_want ex_world _ true E)
    as (n & _ & _ & _ & H). exact (proj2 (H ex_taints_distinct)).
Defined.

(** Two taints asked for with one key and effect: the values take turns, so the
    Node already in the state the last run left is patched again. *)
Example doubled_taint_patched_forever :
  let want := [mkTaint "gpu" "on" "NoSchedule"; mkTaint "gpu" "off" "NoSchedule"] in
  let run w := EnsureNodeMetadata "inference-0" ∅ ∅ want w in
  let w1 := (run ex_world).2 in
  run w1 = (Ok true, w1).
Proof. vm_compute. reflexivity. Qed.

(** A label declared with an empty value is never applied to a Node that lacks
    it: the absent key reads as the empty string, so nothing is patched. *)
Theorem empty_label_never_applied {W} `{InnerCluster W} name key (w : W) n :
  get_node name w = Ok n -> node_Labels n !! key = None ->
  EnsureNodeMetadata name {[ key := "" ]} ∅ [] w = (Ok false, w).
Proof.
  intros Hg Hk. unfold EnsureNodeMetadata. rewrite Hg.
  rewrite empty_patch_none; [done| | |by intros ? ?%elem_of_nil].
  - apply map_empty. intros k. apply eq_None_not_Some. intros [v Hv].
    apply missingOrWrong_lookup in Hv as [[<- <-]%lookup_singleton_Some Hd]. by rewrite Hk in Hd.
  - apply map_empty. intros k. apply eq_None_not_Some. intros [v Hv].
    apply missingOrWrong_lookup in Hv as [Hv _]. by rewrite lookup_empty in Hv.
Qed.

Lemma empty_label_never_applied_witness :
  EnsureNodeMetadata "inference-0" {[ "node-role.kubernetes.io/gpu" := "" ]} ∅ [] ex_world
  = (Ok false, ex_world).
Proof. by apply (empty_label_never_applied _ _ ex_world ex_node). Defined.

(** [kubeletLive] denies liveness only on evidence: a readable Lease that was
    never held or not renewed for the grace period, or, when no Lease can be
    read, a Ready heartbeat older than the status grace. Unknown is live. *)
Theorem kubeletLive_dead_evidence lease node now :
  (kubeletLive lease node now).1 = false <->
  (exists l, lease = Ok l /\
     match lease_RenewTime l with Some t => leaseGrace <= Sub now t | None => True end)
  \/ ((exists e, lease = Err e) /\
      exists c before after, node_Conditions node = before ++ c :: after
        /\ nc_Type c = NodeReadyType /\ nc_LastHeartbeatTime c <> 0
        /\ nodeStatusGrace <= Sub now (nc_LastHeartbeatTime c)
        /\ forall c', c' ∈ before -> nc_Type c' = NodeReadyType -> nc_LastHeartbeatTime c' = 0).
Proof.
  destruct lease as [l|e]; unfold kubeletLive.
  - split.
    + intros Hd. left. exists l. split; [done|]. destruct (lease_RenewTime l); [|done].
      simpl in Hd. guards. lia.
    + intros [(l' & [= <-] & Hl)|[[? ?] _]]; [|done].
      destruct (lease_RenewTime l); simpl; [apply Z.ltb_ge; lia|done].
  - rewrite heartbeat_live_dead. naive_solver.
Qed.

Section cache_theorems.
Context {Config Client : Type}.
Context (parse : string -> option Config) (newClient : Config -> option Client).
Abbreviation For' := (For parse newClient).

(** The client cache returns what the current credential builds: a hit needs the
    same resourceVersion, a rotated Secret is rebuilt from the new bytes, and
    whatever is returned is what the cache holds for the key afterwards. *)
Theorem For_current key secret dataKey (entries entries' : gmap string cacheEntry) (c : Client) :
  For' key secret dataKey entries = (Ok c, entries') ->
  entries' !! key = Some (mkCacheEntry (sec_ResourceVersion secret) c)
  /\ (entries !! key = Some (mkCacheEntry (sec_ResourceVersion secret) c)
      \/ exists raw cfg,
           sec_Data secret !! (if bool_decide (dataKey = "") then DefaultKubeconfigKey else dataKey)
             = Some raw
           /\ raw <> "" /\ parse raw = Some cfg /\ newClient cfg = Some c).
Proof.
  unfold For. intros E. destruct (sec_Data secret !! _) as [raw|] eqn:Er; [|done].
  case_bool_decide as Eraw; [done|].
  assert (entries !! key = Some (mkCacheEntry (sec_ResourceVersion secret) c) /\ entries' = entries
          \/ exists cfg, parse raw = Some cfg /\ newClient cfg = Some c
             /\ entries' = <[key := mkCacheEntry (sec_ResourceVersion secret) c]> entries)
    as [[? ->]|(cfg & ? & ? & ->)].
  { destruct (entries !! key) as [[rv cl]|] eqn:Ee; simpl in E; [case_bool_decide; simplify_eq; [by left|]|];
      right; destruct (parse raw) as [cfg|] eqn:Ep; try done;
      destruct (newClient cfg) as [cs|] eqn:En; try done;
      injection E as <- <-; eauto. }
  - auto.
  - split; [apply lookup_insert_eq|right; eauto 10].
Qed.

(** A call changes the entry of its key, or nothing. *)
Lemma For_entries key secret dataKey (entries : gmap string (@cacheEntry Client)) :
  (For' key secret dataKey entries).2 = entries
  \/ exists e, (For' key secret dataKey entries).2 = <[key := e]> entries.
Proof. unfold For. repeat (case_match; simpl; eauto). Qed.

(** The cache starts empty and does not grow with rotated credentials: a call keeps one
    client for its key at most, and forgetting the key gives it back. *)
Theorem cache_bounded key secret dataKey (entries : gmap string (@cacheEntry Client)) :
  let after := (For' key secret dataKey entries).2 in
  Len (@NewClientCache Client) = 0
  /\ Len entries <= Len after <= Len entries + 1
  /\ (is_Some (entries !! key) -> Len after = Len entries)
  /\ Len (Forget key after) <= Len entries.
Proof.
  cbv zeta. unfold Len, NewClientCache. rewrite map_size_empty.
  assert (forall e : cacheEntry, Z.of_nat (size entries) <= Z.of_nat (size (<[key := e]> entries))
             <= Z.of_nat (size entries) + 1
           /\ (is_Some (entries !! key) -> Z.of_nat (size (<[key := e]> entries)) = Z.of_nat (size entries))
           /\ Z.of_nat (size (delete key (<[key := e]> entries))) <= Z.of_nat (size entries)) as Hi.
  { intros e. rewrite map_size_insert, delete_insert_eq, map_size_delete.
    destruct (entries !! key) as [x|]; simpl; split_and!; try lia. intros Hs. by apply is_Some_None in Hs. }
  assert (Z.of_nat (size (delete key entries)) <= Z.of_nat (size entries)) as Hd
    by (rewrite map_size_delete; destruct (entries !! key); simpl; lia).
  destruct (For_entries key secret dataKey entries) as [->|[e ->]]; [|destruct (Hi e) as (? & ? & ?)];
    unfold Forget; split_and!; try done; lia.
Qed.

(** A cache hit ignores which key of the Secret is asked for: a client built
    from one key of a Secret is returned for another key of the same version,
    whatever kubeconfig that key holds. *)
Theorem For_ignores_data_key key secret k1 k2 raw2 (entries : gmap string cacheEntry) (c : Client) :
  For' key secret k1 ∅ = (Ok c, entries) ->
  k2 <> "" -> sec_Data secret !! k2 = Some raw2 -> raw2 <> "" ->
  For' key secret k2 entries = (Ok c, entries).
Proof.
  intros E Hk2 Hd Hraw.
  assert (entries !! key = Some (mkCacheEntry (sec_ResourceVersion secret) c)) as Hc.
  { unfold For in E. rewrite lookup_empty in E.
    destruct (sec_Data secret !! _) as [raw|]; [|done]. case_bool_decide; [done|].
    destruct (parse raw) as [cfg|]; [|done]. destruct (newClient cfg); simplify_eq.
    apply lookup_insert_eq. }
  unfold For. rewrite (bool_decide_eq_false_2 _ Hk2), Hd, (bool_decide_eq_false_2 _ Hraw), Hc.
  simpl. by rewrite bool_decide_eq_true_2.
Qed.
End cache_theorems.

Definition ex_secret : Secret :=
  mkSecret "7" {[ "value" := "cluster-one"; "other" := "cluster-two" ]}.

Lemma For_current_witness :
  let r := For (fun raw => Some raw) (fun cfg => Some cfg) "ns/kc" ex_secret "" ∅ in
  r.1 = Ok "cluster-one"
  /\ r.2 !! "ns/kc" = Some (mkCacheEntry (sec_ResourceVersion ex_secret) "cluster-one").
Proof.
  split; [done|].
  exact (proj1 (For_current (fun raw => Some raw) (fun cfg => Some cfg) "ns/kc" ex_secret "" ∅
                  _ "cluster-one" eq_refl)).
Defined.

Lemma For_ignores_data_key_witness :
  let cache := (For (fun raw => Some raw) (fun cfg => Some cfg) "ns/kc" ex_secret "value" ∅).2 in
  (For (fun raw => Some raw) (fun cfg => Some cfg) "ns/kc" ex_secret "other" cache).1
  = Ok "cluster-one".
Proof.
  intros cache.
  by rewrite (For_ignores_data_key (fun raw => Some raw) (fun cfg => Some cfg) "ns/kc" ex_secret
                "value" "other" "cluster-two" cache "cluster-one").
Defined.
