(* ===== verification/Provisioner.v ===== *)
(** * The provisioner's vocabulary (internal/provisioner/provisioner.go)

    The request the reconciler makes for one cell and the state it can observe
    in the infrastructure cluster, and the interface: a record of operations over
    an abstract world, implemented in [SwiftGuest] and [ClusterApi]. *)

From S2P Require Import Prelude GoStd Api KubeApi.
Local Open Scope Z_scope.
Local Open Scope go_scope.

Definition ProvisionerSwiftGuest : string := "SwiftGuest".
Definition ProvisionerClusterAPI : string := "ClusterAPI".

(** GPUBinding: the cell's physical GPU request, resolved from spec.cell.gpu. *)
Record GPUBinding := mkGPUBinding {
  gb_Backend : string;
  gb_ResourceClaimTemplateName : string;
  gb_ResourceClaimName : string;
  gb_RequestName : string;
  gb_Tier : string;
  gb_Hugepages : string;
  gb_GPUProfileName : string
}.

Definition zeroGPUBinding : GPUBinding := mkGPUBinding "" "" "" "" "" "" "".

(** metav1.OwnerReference. *)
Record OwnerReference := mkOwnerReference {
  or_APIVersion : string;
  or_Kind : string;
  or_Name : string;
  or_UID : string;
  or_Controller : option bool;
  or_BlockOwnerDeletion : option bool
}.

(** CellRequest: everything the provisioner needs to materialise one cell. *)
Record CellRequest := mkCellRequest {
  cr_Pool : string;
  cr_Namespace : string;
  cr_Index : int32;
  cr_CellName : string;
  cr_GuestTemplate : string;
  cr_GPU : GPUBinding;
  cr_BootstrapSecretName : string;
  cr_BootstrapSecretKey : string;
  cr_Hostname : string;
  cr_NodeIPFrom : string;
  cr_SpreadPolicy : string;
  cr_ClusterAPI : option CellClusterAPISpec;
  cr_TemplateHash : string;
  cr_OwnerRefs : list OwnerReference
}.

(** OuterState: what can be observed about a cell in the outer cluster. *)
Record OuterState := mkOuterState {
  o_Exists : bool;
  o_Phase : string;
  o_Provisioned : bool;
  o_Failed : bool;
  o_Reason : string;
  o_Message : string;
  o_GPUDevices : list string;
  o_HostNode : string;
  o_Address : string;
  o_RoutableAddress : string;
  o_CreatedAt : option Time;
  o_UID : string;
  o_TemplateHash : string
}.

Definition zeroOuterState : OuterState :=
  mkOuterState false "" false false "" "" [] "" "" "" None "" "".

#[export] Instance OwnerReference_eq_dec : EqDecision OwnerReference.
Proof. solve_decision. Defined.

#[export] Instance OuterState_eq_dec : EqDecision OuterState.
Proof. solve_decision. Defined.

(** ** The interface

    Why an object cannot be rendered: what is wrong with it, that json.Unmarshal
    refused its template, or a GPU backend that does not exist. *)
Inductive RenderError :=
| RenderMsg (msg : string)
| RenderJSON (context : string)
| RenderBackend (backend : string).

(** What a provisioner fails with: an API call, an object it cannot render, or a
    request it cannot serve. *)
Inductive ProvError :=
| ProvAPI (e : OpError)
| ProvRender (context : string) (e : RenderError)
| ProvInvalid (msg : string).

(** fmt.Errorf("context: %w", err). *)
Definition with_context (context old : string) : string :=
  if old == "" then context else context +:+ ": " +:+ old.
Definition wrap_error (context : string) (e : ProvError) : ProvError :=
  match e with
  | ProvAPI e => ProvAPI (mkOpError (with_context context (oe_context e)) (oe_cause e))
  | ProvRender c e => ProvRender (with_context context c) e
  | ProvInvalid msg => ProvInvalid (with_context context msg)
  end.

(** ** Fallible code over a world

    The provisioners pass the world through their API calls and stop at the
    first error; what was written before it stays written. *)
Definition PM (W A : Type) : Type := W -> result ProvError A * W.

#[export] Instance PM_ret W : MRet (PM W) := fun A a w => (Ok a, w).
#[export] Instance PM_bind W : MBind (PM W) := fun A B f m w =>
  match m w with
  | (Ok a, w') => f a w'
  | (Err e, w') => (Err e, w')
  end.

Definition api_error (context : string) (e : APIError) : ProvError := ProvAPI (mkOpError context e).

Definition pfail {W A} (e : ProvError) : PM W A := fun w => (Err e, w).
(** A call whose error the caller looks at, reading and writing. *)
Definition pask {W A} (f : W -> A) : PM W A := fun w => (Ok (f w), w).
Definition pdo {W A} (f : W -> A * W) : PM W A := fun w => let '(a, w') := f w in (Ok a, w').
(** The result of a call, its error wrapped. *)
Definition plift {W E A} (wrap : E -> ProvError) (r : result E A) : PM W A := fun w =>
  match r with Ok a => (Ok a, w) | Err e => (Err (wrap e), w) end.
Definition pwrap {W A} (context : string) (m : PM W A) : PM W A := fun w =>
  match m w with (Ok a, w') => (Ok a, w') | (Err e, w') => (Err (wrap_error context e), w') end.

Ltac unfold_pm := unfold mbind, PM_bind, mret, PM_ret, pdo, pask, plift, pfail; cbv beta.

(** What a run says and where it leaves the world. *)
Lemma PM_bind_ok {W A B} (m : PM W A) (f : A -> PM W B) w b w' :
  (m ≫= f) w = (Ok b, w') <-> exists a w1, m w = (Ok a, w1) /\ f a w1 = (Ok b, w').
Proof.
  unfold mbind, PM_bind. destruct (m w) as [[a|e] w1]; [|naive_solver].
  split; [eauto|]. by intros (? & ? & [= <- <-] & ?).
Qed.

Lemma pwrap_ok {W A} context (m : PM W A) w a w' : pwrap context m w = (Ok a, w') <-> m w = (Ok a, w').
Proof. unfold pwrap. destruct (m w) as [[]]; naive_solver. Qed.

(** Provisioner, over the world it acts on. The second interface,
    DrainFinalizerClearer, is optional. *)
Record ProvisionerOps (W : Type) := mkProvisionerOps {
  p_Name : string;
  p_List : string -> string -> W -> result ProvError (list string);
  p_Ensure : CellRequest -> W -> result ProvError OuterState * W;
  p_Delete : CellRequest -> W -> result ProvError bool * W;
  p_ClearDrainFinalizer : option (CellRequest -> W -> result ProvError unit * W)
}.
Arguments p_Name {_} _.
Arguments p_List {_} _ _ _ _.
Arguments p_Ensure {_} _ _ _.
Arguments p_Delete {_} _ _ _.
Arguments p_ClearDrainFinalizer {_} _.

(** A guest template the contract accepts: the two required references, empty. *)
Definition ex_template : string :=
  bytes [123;34;103;117;101;115;116;67;108;97;115;115;82;101;102;34;58;123;125;44;
         34;105;109;97;103;101;82;101;102;34;58;123;125;125]%nat.
