(* ===== verification/Fsm.v ===== *)
(** * The cell state machine (internal/controller/fsm.go)

    [AdvanceCell] computes a cell's next phase from one observation of both
    clusters, [AdvanceDrain] whether a draining cell may be removed. Both are
    pure; the reconciler's loop around them is modelled in the controller. *)

From S2P Require Import Prelude GoStd Api Provider Workload Provisioner.
Local Open Scope Z_scope.
Local Open Scope go_scope.

(** Observation: everything known about one cell at one moment. *)
Record Observation := mkObservation {
  obs_Current : CellPhase;
  obs_LastTransition : Time;
  obs_Now : Time;
  obs_Outer : OuterState;
  obs_WorkloadReachable : bool;
  obs_Node : NodeState;
  obs_StaleNode : bool;
  obs_ProviderReady : bool;
  obs_CapacityDevices : int;
  obs_ExpectedDevices : int;
  obs_BootstrapTimeout : Duration;
  obs_CapacityTimeout : Duration
}.

Record Decision := mkDecision {
  dec_Phase : CellPhase;
  dec_Reason : string;
  dec_Message : string;
  dec_ReapStaleNode : bool
}.

(** [itoa]: the negation is Go's, so it wraps on the least [int]. *)
Definition itoa (i : int) : string :=
  if i =? 0 then "0"
  else
    let neg := i <? 0 in
    let m := if neg then wrap64 (- i) else i in
    let b := dec_loop int_digits m "" in
    if neg then "-" +:+ b else b.

Definition failed (reason msg : string) : Decision :=
  mkDecision CellPhaseFailed (if reason == "" then ReasonCellProvisionTimeout else reason) msg false.

Definition expireOr (obs : Observation) (phase : CellPhase) (budget : Duration)
    (reason msg : string) : Decision :=
  if (0 <? budget) && (obs_Current obs == phase) && negb (IsZero (obs_LastTransition obs))
     && (budget <? Sub (obs_Now obs) (obs_LastTransition obs))
  then failed reason (msg +:+ " (timed out after " +:+ DurationString budget +:+ ")")
  else mkDecision phase reason msg false.

Definition preflightMessage (obs : Observation) : string :=
  if negb (obs_ProviderReady obs)
  then "workload Node is Ready but the capacity provider is not usable yet"
  else
    let msg := "workload Node is Ready but the capacity provider advertises "
                 +:+ itoa (obs_CapacityDevices obs) +:+ " of "
                 +:+ itoa (obs_ExpectedDevices obs) +:+ " expected GPU(s)" in
    match ns_Annotations (obs_Node obs) !! AnnotationGPUPreflight with
    | Some pf => if pf != "" then msg +:+ "; in-guest preflight reported " +:+ pf else msg
    | None => msg
    end.

Definition AdvanceCell (obs : Observation) : Decision :=
  let outer := obs_Outer obs in
  if (obs_Current obs == CellPhaseDraining) || (obs_Current obs == CellPhaseDeleting)
  then mkDecision (obs_Current obs) "" "" false
  else if negb (obs_WorkloadReachable obs) then
    if o_Failed outer then failed (o_Reason outer) (o_Message outer)
    else mkDecision (obs_Current obs) ReasonUnreachable
           "workload cluster unreachable; cell state is frozen at its last observation" false
  else if o_Failed outer then failed (o_Reason outer) (o_Message outer)
  else if obs_Current obs == CellPhaseFailed then mkDecision CellPhaseFailed "" "" false
  else if negb (o_Exists outer) then mkDecision CellPhasePending "" "" false
  else if len (o_GPUDevices outer) =? 0 then
    expireOr obs CellPhaseAllocatingGPU (obs_BootstrapTimeout obs) ReasonCellProvisionTimeout
      "no GPU allocated for this cell yet (is a device free, and is vfio-pci loaded on a GPU node?)"
  else if negb (o_Provisioned outer) then
    let '(phase, msg) :=
      if o_Phase outer == "Running"
      then (CellPhaseBooting,
             "VM is running; waiting for the node address "
             +:+ "(if this persists, check cell.nodeIPFrom names an interface the guest actually has)")
      else (CellPhaseGuestProvisioning, "waiting for the VM to run") in
    expireOr obs phase (obs_BootstrapTimeout obs) ReasonCellProvisionTimeout msg
  else if obs_StaleNode obs then
    mkDecision CellPhaseJoining ReasonNodeNameCollision
      "a workload Node left by a previous incarnation of this cell (no kubelet heartbeat) is being removed before the replacement joins"
      true
  else if negb (ns_Exists (obs_Node obs)) || negb (ns_Ready (obs_Node obs)) then
    let '(reason, msg) :=
      if ns_Exists (obs_Node obs)
      then (ReasonJoinTimeout, "workload Node registered but not Ready")
      else (ReasonNodeNeverRegistered, "waiting for the workload Node to register") in
    expireOr obs CellPhaseJoining (obs_BootstrapTimeout obs) reason msg
  else if negb (obs_ProviderReady obs) || (obs_CapacityDevices obs <? obs_ExpectedDevices obs) then
    expireOr obs CellPhaseAwaitingGPUCapacity (obs_CapacityTimeout obs) ReasonGPUNotAdvertised
      (preflightMessage obs)
  else mkDecision CellPhaseReady "" "" false.

(** ** Draining *)

Record DrainDecision := mkDrainDecision {
  dd_Proceed : bool;
  dd_Reason : string;
  dd_Message : string
}.

Definition AdvanceDrain (allocs : Allocations) (allocsKnown poolDeleting force : bool)
    (drainingSince now : Time) (drainTimeout : Duration) : DrainDecision :=
  if force && poolDeleting
  then mkDrainDecision true ReasonCellDraining
         "deletion policy Force: removing the cell without draining"
  else if allocsKnown && Empty allocs
  then mkDrainDecision true ReasonCellDraining "no workloads hold this cell's GPU"
  else
    let msg :=
      if allocsKnown
      then
        let m := itoa (al_Consumers allocs) +:+ " workload(s) still hold this cell's GPU" in
        if al_InFlight allocs then m +:+ " (a binding is in flight)" else m
      else "cannot read allocations from the workload cluster; not removing the cell" in
    if poolDeleting && (0 <? drainTimeout) && negb (IsZero drainingSince)
       && (drainTimeout <? Sub now drainingSince)
    then mkDrainDecision true ReasonDrainTimedOut
           (msg +:+ "; drain timed out on pool deletion, proceeding anyway")
    else mkDrainDecision false ReasonWaitingForAllocations msg.

(** ** The specification: what the evidence supports

    [Supports obs p]: what both clusters show of the cell is exactly the
    evidence of phase [p], whatever the cell's recorded phase and history. *)

Definition node_usable (obs : Observation) : Prop :=
  obs_StaleNode obs = false /\ ns_Exists (obs_Node obs) = true /\ ns_Ready (obs_Node obs) = true.

Definition gpu_advertised (obs : Observation) : Prop :=
  obs_ProviderReady obs = true /\ obs_ExpectedDevices obs <= obs_CapacityDevices obs.

Definition vm_up (obs : Observation) : Prop :=
  o_Exists (obs_Outer obs) = true /\ o_GPUDevices (obs_Outer obs) <> []
  /\ o_Provisioned (obs_Outer obs) = true.

Inductive Supports (obs : Observation) : CellPhase -> Prop :=
| sup_pending : o_Exists (obs_Outer obs) = false -> Supports obs CellPhasePending
| sup_allocating : o_Exists (obs_Outer obs) = true -> o_GPUDevices (obs_Outer obs) = [] ->
    Supports obs CellPhaseAllocatingGPU
| sup_provisioning : o_Exists (obs_Outer obs) = true -> o_GPUDevices (obs_Outer obs) <> [] ->
    o_Provisioned (obs_Outer obs) = false -> o_Phase (obs_Outer obs) <> "Running" ->
    Supports obs CellPhaseGuestProvisioning
| sup_booting : o_Exists (obs_Outer obs) = true -> o_GPUDevices (obs_Outer obs) <> [] ->
    o_Provisioned (obs_Outer obs) = false -> o_Phase (obs_Outer obs) = "Running" ->
    Supports obs CellPhaseBooting
| sup_joining : vm_up obs -> ~ node_usable obs -> Supports obs CellPhaseJoining
| sup_awaiting : vm_up obs -> node_usable obs -> ~ gpu_advertised obs ->
    Supports obs CellPhaseAwaitingGPUCapacity
| sup_ready : vm_up obs -> node_usable obs -> gpu_advertised obs -> Supports obs CellPhaseReady.

(** The time a cell may spend in a phase; [None] where waiting is unbounded. *)
Definition phase_budget (obs : Observation) (p : CellPhase) : option Duration :=
  match p with
  | CellPhaseAllocatingGPU | CellPhaseGuestProvisioning | CellPhaseBooting | CellPhaseJoining =>
      Some (obs_BootstrapTimeout obs)
  | CellPhaseAwaitingGPUCapacity => Some (obs_CapacityTimeout obs)
  | _ => None
  end.

(** The cell has been in [p] since its last transition, for longer than the
    budget of [p]. A stale Node being reaped suspends the budget of Joining. *)
Definition Overdue (obs : Observation) (p : CellPhase) : Prop :=
  obs_Current obs = p /\ ~ (p = CellPhaseJoining /\ obs_StaleNode obs = true) /\
  exists b, phase_budget obs p = Some b /\ 0 < b /\ obs_LastTransition obs <> 0
            /\ b < Sub (obs_Now obs) (obs_LastTransition obs).

(** Phases in which the teardown path, not the evidence, owns the cell. *)
Definition torn_down (p : CellPhase) : Prop := p = CellPhaseDraining \/ p = CellPhaseDeleting.

(** What a decision may be, given the evidence. *)
Inductive Advances (obs : Observation) : CellPhase -> bool -> Prop :=
| adv_teardown : torn_down (obs_Current obs) -> Advances obs (obs_Current obs) false
| adv_outer_failed : ~ torn_down (obs_Current obs) -> o_Failed (obs_Outer obs) = true ->
    Advances obs CellPhaseFailed false
| adv_frozen : ~ torn_down (obs_Current obs) -> o_Failed (obs_Outer obs) = false ->
    obs_WorkloadReachable obs = false -> Advances obs (obs_Current obs) false
| adv_stays_failed : o_Failed (obs_Outer obs) = false -> obs_WorkloadReachable obs = true ->
    obs_Current obs = CellPhaseFailed -> Advances obs CellPhaseFailed false
| adv_supported p : ~ torn_down (obs_Current obs) -> o_Failed (obs_Outer obs) = false ->
    obs_WorkloadReachable obs = true -> obs_Current obs <> CellPhaseFailed ->
    Supports obs p -> ~ Overdue obs p ->
    Advances obs p (bool_decide (p = CellPhaseJoining /\ obs_StaleNode obs = true))
| adv_overdue p : ~ torn_down (obs_Current obs) -> o_Failed (obs_Outer obs) = false ->
    obs_WorkloadReachable obs = true -> obs_Current obs <> CellPhaseFailed ->
    Supports obs p -> Overdue obs p -> Advances obs CellPhaseFailed false.

(** ** Lemmas *)

Lemma Supports_functional obs p q : Supports obs p -> Supports obs q -> p = q.
Proof. intros [] []; unfold vm_up in *; naive_solver congruence. Qed.

Lemma torn_down_Current obs :
  (obs_Current obs == CellPhaseDraining) || (obs_Current obs == CellPhaseDeleting) = true
  <-> torn_down (obs_Current obs).
Proof. unfold torn_down. by rewrite orb_true_iff, !bool_decide_eq_true. Qed.

(** [expireOr] fails exactly the overdue phase. *)
Lemma expireOr_view obs p b reason msg :
  phase_budget obs p = Some b -> (p = CellPhaseJoining -> obs_StaleNode obs = false) ->
  (Overdue obs p
   /\ expireOr obs p b reason msg
      = failed reason (msg +:+ " (timed out after " +:+ DurationString b +:+ ")"))
  \/ (~ Overdue obs p /\ expireOr obs p b reason msg = mkDecision p reason msg false).
Proof.
  intros Hb Hj. unfold expireOr, Overdue, IsZero.
  destruct (_ && _) eqn:E; [left|right].
  - guards. split; [|done]. split; [done|]. split; [naive_solver congruence|]. exists b. naive_solver.
  - split; [|done]. intros (Hc & _ & b' & Hb' & Hpos & Ht & Ho).
    rewrite Hb in Hb'. injection Hb' as <-.
    rewrite Hc, bool_decide_eq_true_2 in E by done.
    apply Z.ltb_lt in Hpos. apply Z.ltb_lt in Ho. apply Z.eqb_neq in Ht.
    by rewrite Hpos, Ho, Ht in E.
Qed.

(** A decision that waits in a supported phase advances the cell. *)
Lemma expireOr_advances obs p b reason msg :
  ~ torn_down (obs_Current obs) -> o_Failed (obs_Outer obs) = false ->
  obs_WorkloadReachable obs = true -> obs_Current obs <> CellPhaseFailed ->
  Supports obs p -> phase_budget obs p = Some b ->
  (p = CellPhaseJoining -> obs_StaleNode obs = false) ->
  Advances obs (dec_Phase (expireOr obs p b reason msg))
    (dec_ReapStaleNode (expireOr obs p b reason msg)).
Proof.
  intros Ht Hf Hr Hc Hs Hb Hj.
  destruct (expireOr_view obs p b reason msg Hb Hj) as [[Ho ->]|[Ho ->]]; simpl.
  - by eapply adv_overdue.
  - replace false with (bool_decide (p = CellPhaseJoining /\ obs_StaleNode obs = true));
      [by apply adv_supported|].
    apply bool_decide_eq_false. intros [Hp ?]. specialize (Hj Hp). congruence.
Qed.

Lemma Advances_functional obs p b q c :
  Advances obs p b -> Advances obs q c -> p = q /\ b = c.
Proof.
  intros [] []; try (split; congruence); unfold torn_down in *;
    try (exfalso; intuition congruence);
    match goal with H : Supports _ ?x, H' : Supports _ ?y |- _ =>
      pose proof (Supports_functional _ _ _ H H') as Hxy; subst; done || (exfalso; auto; fail) end.
Qed.

Hint Constructors Supports : go.

Lemma AdvanceCell_advances obs :
  Advances obs (dec_Phase (AdvanceCell obs)) (dec_ReapStaleNode (AdvanceCell obs)).
Proof.
  unfold AdvanceCell.
  destruct ((obs_Current obs == CellPhaseDraining) || _) eqn:Et.
  { apply adv_teardown. by apply torn_down_Current. }
  assert (~ torn_down (obs_Current obs)) as Ht by (rewrite <- torn_down_Current; congruence).
  clear Et.
  destruct (obs_WorkloadReachable obs) eqn:Er; simpl;
    destruct (o_Failed (obs_Outer obs)) eqn:Ef; simpl; try (by constructor).
  case_bool_decide as Ec; [by constructor|].
  destruct (o_Exists (obs_Outer obs)) eqn:Ex; simpl.
  2: { apply (adv_supported _ CellPhasePending); auto with go. by intros (_ & _ & ? & ? & _). }
  destruct (Z.eqb_spec (len (o_GPUDevices (obs_Outer obs))) 0) as [Hg|Hg]; rewrite len_zero in Hg.
  { apply expireOr_advances; auto with go; done. }
  destruct (o_Provisioned (obs_Outer obs)) eqn:Ep; simpl.
  2: { case_bool_decide; apply expireOr_advances; auto with go; done. }
  assert (vm_up obs) as Hu by done.
  destruct (obs_StaleNode obs) eqn:Es; simpl.
  { replace true with (bool_decide (CellPhaseJoining = CellPhaseJoining /\ obs_StaleNode obs = true))
      by (rewrite Es; done).
    apply adv_supported; auto with go.
    - apply sup_joining; [done|]. unfold node_usable. naive_solver congruence.
    - intros (_ & ? & _). naive_solver. }
  destruct (ns_Exists (obs_Node obs)) eqn:En, (ns_Ready (obs_Node obs)) eqn:Ed; simpl;
    try (apply expireOr_advances; auto; apply sup_joining; auto;
         unfold node_usable; naive_solver congruence).
  assert (node_usable obs) as Hn by done.
  destruct (_ || _) eqn:Ea.
  - apply expireOr_advances; auto; try done. apply sup_awaiting; auto.
    intros [Hp Hd]. rewrite Hp in Ea. guards. lia.
  - guards. apply (adv_supported _ CellPhaseReady); auto; [|by intros (_ & _ & ? & ? & _)].
    by apply sup_ready.
Qed.

Lemma AdvanceCell_phase obs p b : Advances obs p b -> dec_Phase (AdvanceCell obs) = p.
Proof. intros Ha. by apply (Advances_functional _ _ _ _ _ (AdvanceCell_advances obs) Ha). Qed.

Lemma itoa_FormatInt i : int64_ok i -> i <> MinInt64 -> itoa i = FormatInt i.
Proof.
  unfold int64_ok, itoa, FormatInt, MinInt64, MaxInt64. intros Hi Hm.
  destruct (i =? 0); [done|]. destruct (Z.ltb_spec i 0); [|done].
  rewrite wrap64_id; [done|]. unfold int64_ok, MinInt64, MaxInt64. lia.
Qed.

(** ** Theorems *)

(** C6. The state machine implements its specification: the phase and the reap
    request of [AdvanceCell] are the ones the evidence of both clusters
    supports, and no others. *)
Theorem AdvanceCell_refines obs p reap :
  Advances obs p reap <->
  dec_Phase (AdvanceCell obs) = p /\ dec_ReapStaleNode (AdvanceCell obs) = reap.
Proof.
  split.
  - intros Ha. pose proof (AdvanceCell_advances obs) as Hb.
    destruct (Advances_functional _ _ _ _ _ Ha Hb). auto.
  - intros [<- <-]. apply AdvanceCell_advances.
Qed.

(** A cell is decided Ready exactly when both layers and the GPU are there: the
    VM is up with a device, its own Node is registered and Ready, and the
    provider advertises every expected device; or when the workload cluster
    cannot be read and the cell was Ready before. *)
Theorem AdvanceCell_Ready_iff obs :
  dec_Phase (AdvanceCell obs) = CellPhaseReady <->
  o_Failed (obs_Outer obs) = false /\
  ((obs_WorkloadReachable obs = false /\ obs_Current obs = CellPhaseReady)
   \/ (obs_WorkloadReachable obs = true /\ vm_up obs /\ node_usable obs /\ gpu_advertised obs
       /\ ~ torn_down (obs_Current obs) /\ obs_Current obs <> CellPhaseFailed)).
Proof.
  pose proof (AdvanceCell_advances obs) as Ha. split.
  - intros E. rewrite E in Ha. inversion Ha as [Ht|?|?|?|? ? ? ? ? Hs|]; subst.
    + unfold torn_down in Ht. intuition congruence.
    + auto.
    + inversion Hs; subst. auto 10.
  - intros [Hf [[Hr Hc]|(Hr & Hu & Hn & Hg & Ht & Hc)]].
    + rewrite <- Hc. apply (AdvanceCell_phase _ _ false), adv_frozen; auto. unfold torn_down. intuition congruence.
    + eapply AdvanceCell_phase. apply adv_supported; auto with go. by intros (_ & _ & ? & ? & _).
Qed.

(** A cell is condemned only on knowledge: the outer layer reported a terminal
    failure, the cell was Failed already, or, with the workload cluster
    readable, it waited past a positive budget in the very phase the evidence
    still shows. A Ready cell that regresses is therefore never failed at once. *)
Theorem AdvanceCell_Failed_iff obs :
  dec_Phase (AdvanceCell obs) = CellPhaseFailed <->
  ~ torn_down (obs_Current obs) /\
  (o_Failed (obs_Outer obs) = true \/ obs_Current obs = CellPhaseFailed
   \/ (obs_WorkloadReachable obs = true /\ Supports obs (obs_Current obs)
       /\ Overdue obs (obs_Current obs))).
Proof.
  pose proof (AdvanceCell_advances obs) as Ha. split.
  - intros E. rewrite E in Ha. inversion Ha as [Ht|?|?|?|? ? ? ? ? Hs|? ? ? ? ? Hs Ho]; subst; auto.
    + unfold torn_down in Ht. intuition congruence.
    + split; [unfold torn_down; intuition congruence|auto].
    + inversion Hs.
    + split; [done|]. right. right. destruct (Ho) as [-> _]. auto.
  - intros [Ht Hc]. destruct (o_Failed (obs_Outer obs)) eqn:Ef.
    { apply (AdvanceCell_phase _ _ false). by apply adv_outer_failed. }
    destruct (obs_WorkloadReachable obs) eqn:Er.
    2: { apply (AdvanceCell_phase _ _ false).
         destruct Hc as [?|[<-|[? _]]]; [done|by apply adv_frozen|done]. }
    destruct (decide (obs_Current obs = CellPhaseFailed)).
    { apply (AdvanceCell_phase _ _ false). by apply adv_stays_failed. }
    destruct Hc as [?|[?|(_ & Hs & Ho)]]; [done|done|].
    apply (AdvanceCell_phase _ _ false). by eapply adv_overdue.
Qed.

(** The reason that feeds the suspect-credential guard is given only when no
    workload Node exists for the cell, unless the outer layer supplied it. *)
Theorem AdvanceCell_never_registered obs :
  dec_Reason (AdvanceCell obs) = ReasonNodeNeverRegistered ->
  o_Failed (obs_Outer obs) = true \/
  (ns_Exists (obs_Node obs) = false /\ vm_up obs /\ obs_StaleNode obs = false
   /\ obs_WorkloadReachable obs = true).
Proof.
  assert (forall p b r m, dec_Reason (expireOr obs p b r m) = ReasonNodeNeverRegistered ->
                     r = ReasonNodeNeverRegistered) as Hx.
  { intros p b r m. unfold expireOr, failed. destruct (_ && _); [|done]. simpl. by case_bool_decide. }
  unfold AdvanceCell. destruct (_ || _); [done|].
  destruct (o_Failed (obs_Outer obs)); [by left|].
  destruct (obs_WorkloadReachable obs); simpl; [|done].
  case_bool_decide; [done|]. destruct (o_Exists (obs_Outer obs)) eqn:Ee; simpl; [|done].
  destruct (Z.eqb_spec (len (o_GPUDevices (obs_Outer obs))) 0) as [Hg|Hg]; rewrite len_zero in Hg;
    [by intros ?%Hx|].
  destruct (o_Provisioned (obs_Outer obs)) eqn:Ep; simpl;
    [|case_bool_decide; by intros ?%Hx].
  destruct (obs_StaleNode obs); [done|].
  destruct (ns_Exists (obs_Node obs)), (ns_Ready (obs_Node obs)); simpl; try (by intros ?%Hx).
  - destruct (_ || _); [by intros ?%Hx|done].
  - intros _. right. done.
  - intros _. right. done.
Qed.

(** A draining cell is removed only when the allocations were read and are
    empty, or when the pool itself is being deleted and either the policy is
    Force or a positive drain timeout has elapsed. *)
Theorem AdvanceDrain_Proceed_iff allocs known deleting force since now timeout :
  dd_Proceed (AdvanceDrain allocs known deleting force since now timeout) = true <->
  (known = true /\ al_Consumers allocs = 0 /\ al_InFlight allocs = false)
  \/ (deleting = true /\
      (force = true \/ (0 < timeout /\ since <> 0 /\ timeout < Sub now since))).
Proof.
  unfold AdvanceDrain. rewrite <- (Empty_spec allocs). unfold IsZero.
  destruct (Z.ltb_spec 0 timeout), (Z.eqb_spec since 0), (Z.ltb_spec timeout (Sub now since));
    destruct known, deleting, force, (Empty allocs); simpl; intuition (done || lia).
Qed.

(** The drain message's integers read back: [itoa] prints every [int] but the
    least one in the decimal form [strconv] parses. *)
Theorem itoa_ParseInt i :
  int64_ok i -> i <> MinInt64 -> ParseInt 64 (itoa i) = Some i.
Proof.
  intros Hi Hm. rewrite itoa_FormatInt by done. by apply ParseInt_FormatInt_neg.
Qed.

(** ** Witnesses *)

(** A provisioned VM with a device whose Node never appeared. *)
Definition ex_lost_cell : Observation :=
  mkObservation CellPhaseJoining Minute (20 * Minute)
    {| zeroOuterState with o_Exists := true; o_Phase := "Running"; o_Provisioned := true;
       o_GPUDevices := ["0000:01:00.0"]; o_UID := "uid-1" |}
    true zeroNodeState false false 0 1 (15 * Minute) (5 * Minute).

Lemma AdvanceCell_never_registered_witness :
  dec_Reason (AdvanceCell ex_lost_cell) = ReasonNodeNeverRegistered
  /\ (o_Failed (obs_Outer ex_lost_cell) = true \/
      (ns_Exists (obs_Node ex_lost_cell) = false /\ vm_up ex_lost_cell
       /\ obs_StaleNode ex_lost_cell = false /\ obs_WorkloadReachable ex_lost_cell = true)).
Proof.
  split; [vm_compute; reflexivity|]. apply AdvanceCell_never_registered. vm_compute. reflexivity.
Defined.

Lemma itoa_ParseInt_witness : ParseInt 64 (itoa (-40)) = Some (-40).
Proof. apply itoa_ParseInt; [by split|discriminate]. Defined.
