(* ===== verification/Membership.v ===== *)
(** * Membership (internal/controller/membership.go)

    [PlanMembership] decides which cells a pool creates and which it drains;
    [ShouldReplace] when a failed cell may be rebuilt. *)

From S2P Require Import Prelude GoStd Api CellId Fsm.
Local Open Scope Z_scope.
Local Open Scope go_scope.

Definition DefaultMaxCreating : int := 2.
Definition MaxFailuresPerIndex : int32 := 5.
Definition HopelessPoolFailures : int32 := 3.
Definition SuspectCredentialFailures : int := 2.
Definition backoffBase : Duration := 30 * Second.
Definition backoffCap : Duration := 30 * Minute.

(** The doubling loop of [Backoff], for the [n] iterations left. *)
Fixpoint backoff_loop (n : nat) (d : Duration) : Duration :=
  match n with
  | O => d
  | S n' => let d2 := wrap64 (d * 2) in
            if backoffCap <=? d2 then backoffCap else backoff_loop n' d2
  end.

Definition Backoff (failures : int32) : Duration :=
  if failures <=? 0 then 0 else backoff_loop (Z.to_nat (failures - 1)) backoffBase.

Definition minDuration (a b : Duration) : Duration :=
  if (a =? 0) || ((0 <? b) && (b <? a)) then b else a.

Record MembershipInput := mkMembershipInput {
  mi_Desired : int32;
  mi_Cells : list CellStatus;
  mi_Now : Time;
  mi_FreeGPUs : option int;
  mi_MaxCreating : int;
  mi_WorkloadReachable : bool;
  mi_EverReady : bool;
  mi_ProviderUsable : bool;
  mi_DrainPreference : list string
}.

Record MembershipPlan := mkMembershipPlan {
  mp_Create : list int32;
  mp_Drain : list string;
  mp_Stalled : bool;
  mp_Reason : string;
  mp_Message : string;
  mp_RequeueAfter : Duration
}.

Definition zeroPlan : MembershipPlan := mkMembershipPlan [] [] false "" "" 0.

Definition RebuildWouldNotHelp (c : CellStatus) (providerUsable : bool) : bool :=
  negb providerUsable && cs_NodeReady c && (cs_CapacityDevices c =? 0).

Definition ShouldReplace (c : CellStatus) (now : Time) (providerUsable : bool) : bool :=
  if cs_Phase c != CellPhaseFailed then false
  else if MaxFailuresPerIndex <=? cs_FailureCount c then false
  else if RebuildWouldNotHelp c providerUsable then false
  else match cs_LastTransitionTime c with
       | None => true
       | Some t => Backoff (cs_FailureCount c) <=? Sub now t
       end.

Fixpoint suspectCredentialFailures (cells : list CellStatus) : int :=
  match cells with
  | [] => 0
  | c :: cells' =>
      if cs_ReadyOnce c then suspectCredentialFailures cells'
      else if (cs_Phase c == CellPhaseFailed) && (cs_Reason c == ReasonNodeNeverRegistered)
           then 1 + suspectCredentialFailures cells'
           else suspectCredentialFailures cells'
  end.

(** ** The counting loop *)

Record tally := mkTally {
  tl_used : list int32;
  tl_inFlight : int;
  tl_failed : list CellStatus;
  tl_live : int32;
  tl_totalFails : int32
}.

Definition count_cell (t : tally) (c : CellStatus) : tally :=
  let t := {| t with tl_totalFails := wrap32 (tl_totalFails t + cs_FailureCount c) |} in
  match cs_Phase c with
  | CellPhaseFailed =>
      let t := {| t with tl_failed := tl_failed t ++ [c] |} in
      if cs_GuestUID c != ""
      then {| t with tl_used := tl_used t ++ [cs_Index c]; tl_live := wrap32 (tl_live t + 1) |}
      else t
  | CellPhaseDraining | CellPhaseDeleting => {| t with tl_used := tl_used t ++ [cs_Index c] |}
  | CellPhaseReady =>
      {| t with tl_used := tl_used t ++ [cs_Index c]; tl_live := wrap32 (tl_live t + 1) |}
  | _ =>
      {| t with tl_used := tl_used t ++ [cs_Index c]; tl_live := wrap32 (tl_live t + 1);
                tl_inFlight := tl_inFlight t + 1 |}
  end.

Definition tally_cells (cells : list CellStatus) : tally :=
  foldl count_cell (mkTally [] 0 [] 0 0) cells.

(** ** Scaling down *)

Definition is_candidate (c : CellStatus) : bool :=
  match cs_Phase c with
  | CellPhaseDraining | CellPhaseDeleting | CellPhaseFailed => false
  | _ => true
  end.

(** The map of removable names; a missing name reads as false. *)
Definition removable_of (cells : list CellStatus) : gmap string bool :=
  foldl (fun m c => if is_candidate c then <[cs_Name c := true]> m else m) ∅ cells.
Definition candidates_of (cells : list CellStatus) : list int32 :=
  map cs_Index (List.filter is_candidate cells).

Definition is_removable (m : gmap string bool) (name : string) : bool := default false (m !! name).

(** The loops' state: what is drained, what is still removable, how many are wanted. *)
Definition drain_state : Type := list string * gmap string bool * int.

Definition take_cell (name : string) (st : drain_state) : drain_state :=
  let '(drain, removable, want) := st in
  (drain ++ [name], <[name := false]> removable, want - 1).

Fixpoint prefer_loop (preference : list string) (st : drain_state) : drain_state :=
  match preference with
  | [] => st
  | name :: rest =>
      let '(_, removable, want) := st in
      if want <=? 0 then st
      else if is_removable removable name then prefer_loop rest (take_cell name st)
      else prefer_loop rest st
  end.

(** The inner loop over the cells of one index. *)
Fixpoint drain_index (idx : int32) (cells : list CellStatus) (st : drain_state) : drain_state :=
  match cells with
  | [] => st
  | c :: rest =>
      let '(_, removable, _) := st in
      if (cs_Index c =? idx) && is_removable removable (cs_Name c)
      then drain_index idx rest (take_cell (cs_Name c) st)
      else drain_index idx rest st
  end.

Fixpoint highest_loop (idxs : list int32) (cells : list CellStatus) (st : drain_state) : drain_state :=
  match idxs with
  | [] => st
  | idx :: rest =>
      let '(_, _, want) := st in
      if want <=? 0 then st else highest_loop rest cells (drain_index idx cells st)
  end.

Definition plan_drain (cells : list CellStatus) (preference : list string) (want : int) : list string :=
  let candidates := candidates_of cells in
  let st := prefer_loop preference ([], removable_of cells, want) in
  let '(drain, _, want) := st in
  if 0 <? want
  then (highest_loop (HighestIndexes candidates (len candidates)) cells st).1.1
  else drain.

(** ** Replacing *)

(** The loop over the failed cells; the flag says that it returned. *)
Fixpoint replace_loop (now : Time) (providerUsable : bool) (failed : list CellStatus)
    (plan : MembershipPlan) : MembershipPlan * bool :=
  match failed with
  | [] => (plan, false)
  | c :: rest =>
      if RebuildWouldNotHelp c providerUsable then
        ({| plan with mp_Stalled := true; mp_Reason := ReasonFaultNotInTheCell;
            mp_Message := "not replacing cell " +:+ cs_Name c
              +:+ ": its Node joined and advertises no GPU, and no cell node advertises one — "
              +:+ "the fault is in the workload cluster, so a rebuilt VM would fail the same way. "
              +:+ "Fix the capacity provider (see CapacityProviderReady) and the cell is replaced then" |},
         true)
      else if MaxFailuresPerIndex <=? cs_FailureCount c then
        ({| plan with mp_Stalled := true; mp_Reason := ReasonCellReplacementExhausted;
            mp_Message := "cell " +:+ cs_Name c +:+ " has failed " +:+ itoa (cs_FailureCount c)
              +:+ " times and will not be replaced again: " +:+ cs_Message c |},
         true)
      else
        let wait := Backoff (cs_FailureCount c) in
        let plan :=
          match cs_LastTransitionTime c with
          | Some t =>
              let remaining := wrap64 (wait - Sub now t) in
              if 0 <? remaining
              then {| plan with mp_RequeueAfter := minDuration (mp_RequeueAfter plan) remaining |}
              else plan
          | None => plan
          end in
        replace_loop now providerUsable rest plan
  end.

(** ** Creating *)

Fixpoint create_loop (n : nat) (used create : list int32) : list int32 :=
  match n with
  | O => create
  | S n' => let idx := LowestFreeIndex used in create_loop n' (used ++ [idx]) (create ++ [idx])
  end.

Definition stalled (plan : MembershipPlan) (reason msg : string) : MembershipPlan :=
  {| plan with mp_Stalled := true; mp_Reason := reason; mp_Message := msg |}.

(** The end of PlanMembership: [room] more cells may be in flight. *)
Definition plan_create (inp : MembershipInput) (t : tally) (room : int) (plan : MembershipPlan)
    : MembershipPlan :=
  let want := wrap32 (mi_Desired inp - tl_live t) in
  if room <=? 0 then {| plan with mp_Message := "waiting for in-flight cells before creating more" |}
  else
  let want := if room <? want then room else want in
  let create (plan : MembershipPlan) (want : int) :=
    {| plan with mp_Create := create_loop (Z.to_nat want) (tl_used t) [] |} in
  match mi_FreeGPUs inp with
  | Some free =>
      if free <=? 0 then
        stalled plan ReasonInsufficientGPUs
          "no free GPU in the infrastructure cluster; not creating a cell that could never be scheduled"
      else if free <? want then
        create {| plan with mp_Reason := ReasonInsufficientGPUs;
                  mp_Message := "only " +:+ itoa free
                                +:+ " free GPU(s) available; creating what fits" |} free
      else create plan want
  | None => create plan want
  end.

Definition PlanMembership (inp : MembershipInput) : MembershipPlan :=
  let maxCreating :=
    if mi_MaxCreating inp <=? 0 then DefaultMaxCreating else mi_MaxCreating inp in
  let t := tally_cells (mi_Cells inp) in
  let live := tl_live t in
  if mi_Desired inp <? live then
    if negb (mi_WorkloadReachable inp)
    then stalled zeroPlan ReasonUnreachable
           "not scaling down while the workload cluster is unreachable"
    else {| zeroPlan with mp_Drain :=
              plan_drain (mi_Cells inp) (mi_DrainPreference inp) (wrap32 (live - mi_Desired inp)) |}
  else
  let '(plan, returned) :=
    replace_loop (mi_Now inp) (mi_ProviderUsable inp) (tl_failed t) zeroPlan in
  if returned then plan
  else if mi_Desired inp <=? live then plan
  else if negb (mi_EverReady inp) && (HopelessPoolFailures <=? tl_totalFails t) then
    stalled plan ReasonCellReplacementExhausted
      ("no cell in this pool has ever become Ready and " +:+ itoa (tl_totalFails t)
       +:+ " have failed; not creating more until the pool is changed")
  else if SuspectCredentialFailures <=? suspectCredentialFailures (mi_Cells inp) then
    stalled plan ReasonBootstrapCredentialSuspect
      (itoa (suspectCredentialFailures (mi_Cells inp))
       +:+ " cells in a row failed with no workload Node ever registering. "
       +:+ "The bootstrap credential in spec.bootstrap.joinSecretRef is the most likely cause — "
       +:+ "it may have expired — though a blocked route to the workload API server looks the same "
       +:+ "from here. This operator cannot validate the credential without using it, so it stops "
       +:+ "rather than keep spending a GPU boot per attempt. Refresh the join secret; the pool "
       +:+ "resumes as soon as any cell joins.")
  else if negb (mi_WorkloadReachable inp) then
    stalled plan ReasonUnreachable "not creating cells while the workload cluster is unreachable"
  else
  plan_create inp t (maxCreating - tl_inFlight t) plan.

(** ** Backoff *)

Lemma backoff_loop_closed n d :
  0 < d < backoffCap -> backoff_loop n d = Z.min backoffCap (d * 2 ^ Z.of_nat n).
Proof.
  revert d. induction n as [|n IH]; intros d Hd.
  - change (2 ^ Z.of_nat 0) with 1. simpl. lia.
  - rewrite Nat2Z.inj_succ, Z.pow_succ_r by lia.
    assert (wrap64 (d * 2) = d * 2) as E
      by (apply wrap64_id; unfold int64_ok, MinInt64, MaxInt64, backoffCap, Minute, Second in *; lia).
    simpl. rewrite E. destruct (Z.leb_spec backoffCap (d * 2)).
    + pose proof (Z.pow_pos_nonneg 2 (Z.of_nat n)). nia.
    + rewrite IH by lia. f_equal. lia.
Qed.

(** ** The tally *)

(** A tombstone, a failed row whose guest is gone, occupies nothing. *)
Definition occupies (c : CellStatus) : bool :=
  negb ((cs_Phase c == CellPhaseFailed) && (cs_GuestUID c == "")).
(** What counts towards the desired size. *)
Definition is_live (c : CellStatus) : bool :=
  match cs_Phase c with
  | CellPhaseFailed => cs_GuestUID c != ""
  | CellPhaseDraining | CellPhaseDeleting => false
  | _ => true
  end.
Definition is_in_flight (c : CellStatus) : bool :=
  match cs_Phase c with
  | CellPhaseFailed | CellPhaseDraining | CellPhaseDeleting | CellPhaseReady => false
  | _ => true
  end.
Definition is_failed (c : CellStatus) : bool := cs_Phase c == CellPhaseFailed.
Definition sum_failures (cells : list CellStatus) : Z := foldr (fun c n => cs_FailureCount c + n) 0 cells.

Definition live_count (cells : list CellStatus) : Z := len (List.filter is_live cells).
Definition in_flight_count (cells : list CellStatus) : Z := len (List.filter is_in_flight cells).
Definition used_indexes (cells : list CellStatus) : list int32 := map cs_Index (List.filter occupies cells).

Lemma tally_gen cells t :
  int32_ok (tl_live t) -> int32_ok (tl_totalFails t) ->
  foldl count_cell t cells =
  mkTally (tl_used t ++ used_indexes cells)
          (tl_inFlight t + in_flight_count cells)
          (tl_failed t ++ List.filter is_failed cells)
          (wrap32 (tl_live t + live_count cells))
          (wrap32 (tl_totalFails t + sum_failures cells)).
Proof.
  unfold used_indexes, in_flight_count, live_count.
  revert t. induction cells as [|c cells IH]; intros t Hl Ht; simpl.
  { rewrite !app_nil_r, len_nil, !Z.add_0_r, !wrap32_id by done. by destruct t. }
  rewrite IH.
  2,3: unfold count_cell; destruct (cs_Phase c); simpl; auto with go;
       case_bool_decide; simpl; auto with go.
  unfold count_cell, occupies, is_failed, is_live, is_in_flight.
  destruct (cs_Phase c); simpl; repeat (case_bool_decide; simpl);
    rewrite <- ?app_assoc, ?len_cons, ?wrap32_add_l; simpl; f_equal; try done; (lia || (f_equal; lia)).
Qed.

Lemma tally_spec cells :
  len cells <= MaxInt32 ->
  tally_cells cells =
  mkTally (used_indexes cells) (in_flight_count cells) (List.filter is_failed cells)
          (live_count cells) (wrap32 (sum_failures cells)).
Proof.
  intros Hl. unfold tally_cells. rewrite tally_gen by done. simpl.
  rewrite (wrap32_id (0 + live_count cells)); [done|].
  unfold live_count. pose proof (len_filter_le is_live cells).
  pose proof (len_nonneg (List.filter is_live cells)).
  unfold int32_ok, MinInt32, MaxInt32 in *. lia.
Qed.

(** ** Draining *)

(** A cell that may be drained: it is not being torn down and has not failed. *)
Definition drainable (c : CellStatus) : bool :=
  bool_decide (cs_Phase c ∉ [CellPhaseDraining; CellPhaseDeleting; CellPhaseFailed]).

Lemma is_candidate_drainable c : is_candidate c = drainable c.
Proof. unfold is_candidate, drainable. by destruct (cs_Phase c). Qed.

Definition cand_names (cells : list CellStatus) : list string := map cs_Name (List.filter drainable cells).

Lemma elem_of_cand_names cells name :
  name ∈ cand_names cells <-> exists c, c ∈ cells /\ drainable c = true /\ cs_Name c = name.
Proof.
  unfold cand_names. rewrite elem_of_map_b. setoid_rewrite elem_of_filter_b. naive_solver.
Qed.

Lemma is_removable_insert m n b k :
  is_removable (<[n := b]> m) k = if bool_decide (n = k) then b else is_removable m k.
Proof. unfold is_removable. rewrite lookup_insert. case_decide; by case_bool_decide. Qed.

Lemma removable_of_spec cells name :
  is_removable (removable_of cells) name = true <-> name ∈ cand_names cells.
Proof.
  unfold removable_of.
  assert (forall m, is_removable (foldl (fun m c => if is_candidate c then <[cs_Name c := true]> m else m)
                               m cells) name = true
               <-> is_removable m name = true \/ name ∈ cand_names cells) as H.
  { induction cells as [|c cells IH]; intros m; simpl.
    - unfold cand_names. simpl. rewrite elem_of_nil. naive_solver.
    - rewrite IH. unfold cand_names. simpl. rewrite is_candidate_drainable.
      destruct (drainable c); simpl; [|done].
      rewrite is_removable_insert, elem_of_cons. case_bool_decide; naive_solver. }
  rewrite H. unfold is_removable. rewrite lookup_empty. naive_solver.
Qed.

(** The state of the loops: what is drained was removable, once; what is
    removable is the rest; what is wanted is what is missing. *)
Record drain_inv (cells : list CellStatus) (want0 : Z) (st : drain_state) : Prop := {
  di_NoDup : NoDup st.1.1;
  di_sub : forall name, name ∈ st.1.1 -> name ∈ cand_names cells;
  di_removable : forall name, is_removable st.1.2 name = true <->
                         name ∈ cand_names cells /\ name ∉ st.1.1;
  di_want : st.2 + len st.1.1 = want0
}.

Lemma take_cell_inv cells want0 st name :
  drain_inv cells want0 st -> is_removable st.1.2 name = true ->
  drain_inv cells want0 (take_cell name st).
Proof.
  destruct st as [[drain m] want]. intros [Hn Hs Hm Hw] Hr. simpl in *.
  apply Hm in Hr as [Hc Hd]. split; simpl.
  - apply NoDup_app. split_and!; [done| |apply NoDup_singleton].
    intros x Hx ->%list_elem_of_singleton. done.
  - intros x [Hx| ->%list_elem_of_singleton]%elem_of_app; auto.
  - intros x. rewrite is_removable_insert, elem_of_app, list_elem_of_singleton.
    case_bool_decide as E; [|rewrite Hm]; naive_solver.
  - rewrite len_app, len_cons, len_nil. lia.
Qed.

Lemma prefer_loop_inv cells want0 pref st :
  drain_inv cells want0 st -> 0 <= st.2 ->
  let st' := prefer_loop pref st in
  drain_inv cells want0 st' /\ 0 <= st'.2
  /\ (forall n, n ∈ st.1.1 -> n ∈ st'.1.1)
  /\ (forall n, n ∈ st'.1.1 -> n ∈ st.1.1 \/ n ∈ pref)
  /\ (st'.2 = 0 \/ forall n, n ∈ pref -> n ∈ cand_names cells -> n ∈ st'.1.1).
Proof.
  revert st. induction pref as [|name pref IH]; intros [[drain m] want] Hi Hw; simpl in *.
  { split_and!; auto. right. by intros ? ?%elem_of_nil. }
  destruct (Z.leb_spec want 0).
  { simpl. split_and!; auto. left. lia. }
  destruct (is_removable m name) eqn:Er.
  - pose proof (take_cell_inv _ _ _ _ Hi Er) as Ht.
    destruct (IH _ Ht) as (H1 & H2 & H3 & H4 & H5); [simpl; lia|].
    simpl in *. split_and!; auto.
    + intros n Hn. apply H3. set_solver.
    + intros n Hn. set_solver.
    + destruct H5 as [?|H5]; [by left|right]. intros n [->|Hn]%elem_of_cons ?; [|auto].
      apply H3. set_solver.
  - destruct (IH _ Hi Hw) as (H1 & H2 & H3 & H4 & H5). simpl in *. split_and!; auto.
    + intros n Hn. set_solver.
    + destruct H5 as [?|H5]; [by left|right]. intros n [->|Hn]%elem_of_cons Hc; [|auto].
      apply H3. destruct (decide (name ∈ drain)); [done|].
      pose proof (proj2 (di_removable _ _ _ Hi name) (conj Hc n)) as E. simpl in E. congruence.
Qed.

(** One index has at most one cell to take. *)
Lemma drain_index_none idx cells st :
  (forall c, c ∈ cells -> cs_Index c <> idx) -> drain_index idx cells st = st.
Proof.
  revert st. induction cells as [|c cells IH]; intros [[drain m] want] H; simpl; [done|].
  rewrite (proj2 (Z.eqb_neq _ _)) by (apply H; left). simpl. apply IH. intros c' Hc'. apply H. by right.
Qed.

Lemma drain_index_view idx cells st :
  NoDup (map cs_Index cells) ->
  (drain_index idx cells st = st
   /\ forall c, c ∈ cells -> cs_Index c = idx -> is_removable st.1.2 (cs_Name c) = false)
  \/ (exists c, c ∈ cells /\ cs_Index c = idx /\ is_removable st.1.2 (cs_Name c) = true
           /\ drain_index idx cells st = take_cell (cs_Name c) st
           /\ forall c', c' ∈ cells -> cs_Index c' = idx -> c' = c).
Proof.
  destruct st as [[drain m] want]. simpl.
  induction cells as [|c cells IH]; simpl; [left; split; [done|]; by intros ? ?%elem_of_nil|].
  rewrite NoDup_cons, elem_of_map_b. intros [Hx Hn].
  destruct (Z.eqb_spec (cs_Index c) idx) as [<-|Hne]; simpl.
  - assert (forall c', c' ∈ cells -> cs_Index c' <> cs_Index c) as Hd by (intros c' ? ?; apply Hx; eauto).
    destruct (is_removable m (cs_Name c)) eqn:Er; rewrite drain_index_none by done.
    + right. exists c. split_and!; auto; [left|]. intros c' [->|Hc']%elem_of_cons E; [done|].
      by destruct (Hd c' Hc').
    + left. split; [done|]. intros c' [->|Hc']%elem_of_cons E; [done|]. by destruct (Hd c' Hc').
  - destruct (IH Hn) as [[E Hs]|(c' & ? & ? & ? & ? & Hu)].
    + left. split; [done|]. intros c' [->|Hc']%elem_of_cons ?; [done|auto].
    + right. exists c'. split_and!; auto; [by right|]. intros c'' [->|Hc'']%elem_of_cons ?; [done|auto].
Qed.

Lemma highest_loop_inv cells want0 idxs st :
  NoDup (map cs_Index cells) -> drain_inv cells want0 st -> 0 <= st.2 ->
  let st' := highest_loop idxs cells st in
  drain_inv cells want0 st' /\ 0 <= st'.2
  /\ (forall n, n ∈ st.1.1 -> n ∈ st'.1.1)
  /\ exists visited rest, idxs = visited ++ rest
     /\ (forall n, n ∈ st'.1.1 -> n ∈ st.1.1 \/
            exists c, c ∈ cells /\ cs_Name c = n /\ cs_Index c ∈ visited)
     /\ (forall c, c ∈ cells -> drainable c = true -> cs_Index c ∈ visited -> cs_Name c ∈ st'.1.1)
     /\ (rest = [] \/ st'.2 = 0).
Proof.
  intros Hu. revert st. induction idxs as [|idx idxs IH]; intros st Hi Hw; simpl.
  { split_and!; auto. exists [], []. split_and!; auto. intros c ? ? ?%elem_of_nil. done. }
  destruct st as [[drain m] want] eqn:Est. simpl in Hw. rewrite <- Est in *.
  destruct (Z.leb_spec want 0).
  { split_and!; auto; [subst; done|]. exists [], (idx :: idxs). split_and!; auto.
    - intros c ? ? ?%elem_of_nil. done.
    - right. subst. simpl. lia. }
  set (st1 := drain_index idx cells st).
  assert (drain_inv cells want0 st1 /\ 0 <= st1.2 /\ (forall n, n ∈ st.1.1 -> n ∈ st1.1.1)
          /\ (forall n, n ∈ st1.1.1 -> n ∈ st.1.1 \/ exists c, c ∈ cells /\ cs_Name c = n /\ cs_Index c = idx)
          /\ (forall c, c ∈ cells -> drainable c = true -> cs_Index c = idx -> cs_Name c ∈ st1.1.1))
    as (Hi1 & Hw1 & Hm1 & Hn1 & Hc1).
  { unfold st1.
    destruct (drain_index_view idx cells st Hu) as [[-> Hs]|(c & Hc & Hx & Hr & -> & Hq)].
    - split_and!; auto; [subst; done|]. intros c Hc Hk Hx.
      destruct (decide (cs_Name c ∈ st.1.1)); [done|]. specialize (Hs c Hc Hx).
      assert (is_removable st.1.2 (cs_Name c) = true); [|congruence].
      apply (di_removable _ _ _ Hi). rewrite elem_of_cand_names. eauto 10.
    - split_and!.
      + by apply take_cell_inv.
      + subst. simpl. lia.
      + subst. simpl. set_solver.
      + subst st. simpl. intros n [?| ->%list_elem_of_singleton]%elem_of_app; eauto 10.
      + intros c' Hc' _ Hx'. rewrite (Hq c' Hc' Hx'). subst st. simpl. set_solver. }
  destruct (IH st1 Hi1 Hw1) as (H1 & H2 & H3 & visited & rest & E & H4 & H5 & H6).
  split_and!; auto. exists (idx :: visited), rest. split_and!; auto.
  - by rewrite E.
  - intros n Hn. destruct (H4 n Hn) as [Hn'|(c & ? & ? & ?)].
    + destruct (Hn1 n Hn') as [?|(c & ? & ? & <-)]; [by left|].
      right. exists c. split_and!; auto. left.
    + right. exists c. split_and!; auto. by right.
  - intros c Hc Hk [Hx|Hx]%elem_of_cons; [|auto]. apply H3, Hc1; auto.
Qed.

Lemma removable_inv cells want : drain_inv cells want ([], removable_of cells, want).
Proof.
  split; simpl.
  - constructor.
  - by intros ? ?%elem_of_nil.
  - intros n. rewrite removable_of_spec. set_solver.
  - rewrite len_nil. lia.
Qed.

(** What [plan_drain] takes: only removable cells, each once, as many as wanted
    or all there are; preferred ones first, then by descending index. *)
Record drains (cells : list CellStatus) (pref : list string) (want : Z) (drain : list string) : Prop := {
  dr_NoDup : NoDup drain;
  dr_sub : forall name, name ∈ drain -> name ∈ cand_names cells;
  dr_len : len drain = Z.min want (len (cand_names cells));
  dr_pref : forall name other, name ∈ drain -> (name ∉ pref) -> other ∈ pref ->
              other ∈ cand_names cells -> other ∈ drain;
  dr_highest : forall c c', c ∈ cells -> c' ∈ cells -> cs_Name c ∈ drain -> (cs_Name c ∉ pref) ->
                 drainable c' = true -> (cs_Name c' ∉ drain) -> cs_Index c' <= cs_Index c
}.

Lemma drain_complete cells want0 st :
  NoDup (map cs_Name cells) -> drain_inv cells want0 st -> 0 <= st.2 ->
  (st.2 = 0 \/ forall name, name ∈ cand_names cells -> name ∈ st.1.1) ->
  len st.1.1 = Z.min want0 (len (cand_names cells)).
Proof.
  intros Hn [Hd Hs _ Hw] Hge Hall.
  pose proof (NoDup_len_le _ _ Hd Hs). destruct Hall as [?|Hall]; [lia|].
  assert (NoDup (cand_names cells)) as Hc by (by apply NoDup_map_filter).
  pose proof (NoDup_len_le _ _ Hc Hall). lia.
Qed.

Lemma plan_drain_drains cells pref want :
  NoDup (map cs_Name cells) -> NoDup (map cs_Index cells) -> 0 <= want ->
  drains cells pref want (plan_drain cells pref want).
Proof.
  intros Hn Hx Hw. unfold plan_drain.
  destruct (prefer_loop_inv cells want pref _ (removable_inv cells want) Hw)
    as (Hi & Hge & _ & Hsrc & Hall).
  destruct (prefer_loop pref _) as [[drain m] w] eqn:Ep. rewrite <- Ep in *. simpl in *.
  assert (w = (prefer_loop pref ([], removable_of cells, want)).2) as Ew by (by rewrite Ep).
  assert (drain = (prefer_loop pref ([], removable_of cells, want)).1.1) as Ed by (by rewrite Ep).
  set (st := prefer_loop pref ([], removable_of cells, want)) in *.
  destruct (Z.ltb_spec 0 w) as [Hpos|Hpos].
  - destruct Hall as [?|Hall]; [lia|]. rewrite HighestIndexes_all.
    destruct (highest_loop_inv cells want (merge_sort idx_ge (candidates_of cells)) st Hx Hi Hge)
      as (Hi2 & Hge2 & Hmono & visited & rest & Esplit & Hvis & Hdone & Hend).
    set (st2 := highest_loop _ cells st) in *.
    assert (forall c, c ∈ cells -> drainable c = true -> cs_Index c ∈ visited ++ rest) as Hin.
    { intros c Hc Hk. rewrite <- Esplit, merge_sort_Permutation. unfold candidates_of.
      apply elem_of_map_b. exists c. split; [done|]. apply elem_of_filter_b.
      by rewrite is_candidate_drainable. }
    split.
    + apply (di_NoDup _ _ _ Hi2).
    + apply (di_sub _ _ _ Hi2).
    + apply drain_complete; auto. destruct Hend as [->|?]; [right|by left].
      intros name (c & Hc & Hk & <-)%elem_of_cand_names. apply Hdone; auto.
      rewrite <- (app_nil_r visited). auto.
    + intros name other _ _ Ho Hoc. apply Hmono, Hall; auto.
    + intros c c' Hc Hc' Hd Hp Hk Hnd.
      destruct (Hvis _ Hd) as [Hpre|(c0 & Hc0 & E0 & Hv)].
      { destruct (Hsrc _ Hpre) as [?%elem_of_nil|?]; done. }
      assert (c0 = c) as -> by (apply (NoDup_map_inj cs_Name cells); auto).
      destruct (proj1 (elem_of_app _ _ _) (Hin c' Hc' Hk)) as [Hv'|Hr].
      { destruct Hnd. apply Hdone; auto. }
      assert (StronglySorted idx_ge (visited ++ rest)) as Hss
        by (rewrite <- Esplit; apply StronglySorted_merge_sort; apply _).
      by apply (StronglySorted_app_1_elem_of idx_ge visited rest).
  - assert (w = 0) as Hz by lia. split.
    + rewrite Ed. apply (di_NoDup _ _ _ Hi).
    + rewrite Ed. apply (di_sub _ _ _ Hi).
    + rewrite Ed. apply drain_complete; auto. left. lia.
    + rewrite Ed. intros name other Hm Hp. by destruct (Hsrc _ Hm) as [?%elem_of_nil|?].
    + rewrite Ed. intros c c' _ _ Hm Hp. by destruct (Hsrc _ Hm) as [?%elem_of_nil|?].
Qed.

(** ** Creating *)

Lemma create_loop_spec n used create :
  len used + Z.of_nat n <= MaxInt32 ->
  exists new, create_loop n used create = create ++ new /\ length new = n /\ NoDup new
    /\ (forall i, i ∈ new -> (i ∉ used) /\ 0 <= i)
    /\ (forall i j, i ∈ new -> 0 <= j < i -> j ∈ used \/ j ∈ new).
Proof.
  revert used create. induction n as [|n IH]; intros used create Hl; simpl.
  { exists []. rewrite app_nil_r. split_and!; try done; [|set_solver..]. constructor. }
  destruct (LowestFreeIndex_ok used ltac:(lia)) as (Hf & Hlow & Hb).
  set (i0 := LowestFreeIndex used) in *.
  destruct (IH (used ++ [i0]) (create ++ [i0])) as (new & E & Hn & Hd & Hu & Hj).
  { rewrite len_app, len_cons, len_nil. lia. }
  exists (i0 :: new). rewrite E, <- app_assoc. simpl. split_and!; [done|lia| | |].
  - apply NoDup_cons. split; [|done]. intros Hi. destruct (Hu _ Hi). set_solver.
  - intros i [->|Hi]%elem_of_cons; [split; [done|lia]|]. destruct (Hu i Hi). set_solver.
  - intros i j [->|Hi]%elem_of_cons Hjb; [left; auto|]. specialize (Hj i j Hi Hjb). set_solver.
Qed.

(** ** Replacing *)

(** The loop over failed cells creates and drains nothing, and passes only when
    every failed cell may still be replaced. *)
Lemma replace_loop_spec now usable failed plan :
  let r := replace_loop now usable failed plan in
  mp_Create r.1 = mp_Create plan /\ mp_Drain r.1 = mp_Drain plan
  /\ (r.2 = true -> mp_Stalled r.1 = true)
  /\ (r.2 = false -> mp_Stalled r.1 = mp_Stalled plan)
  /\ (r.2 = false <-> forall c, c ∈ failed ->
        RebuildWouldNotHelp c usable = false /\ cs_FailureCount c < MaxFailuresPerIndex).
Proof.
  revert plan. induction failed as [|c failed IH]; intros plan; simpl.
  { split_and!; try done. split; [|done]. by intros _ ? ?%elem_of_nil. }
  destruct (RebuildWouldNotHelp c usable) eqn:Er; simpl.
  { split_and!; try done. split; [done|]. intros H. destruct (H c ltac:(left)); congruence. }
  destruct (Z.leb_spec MaxFailuresPerIndex (cs_FailureCount c)); simpl.
  { split_and!; try done. split; [done|]. intros H'. destruct (H' c ltac:(left)); lia. }
  set (plan' := match cs_LastTransitionTime c with Some _ => _ | None => _ end).
  assert (mp_Create plan' = mp_Create plan /\ mp_Drain plan' = mp_Drain plan
          /\ mp_Stalled plan' = mp_Stalled plan) as (E1 & E2 & E3).
  { unfold plan'. destruct (cs_LastTransitionTime c); [|done]. by destruct (0 <? _). }
  destruct (IH plan') as (H1 & H2 & H3 & H4 & H5). split_and!.
  - by rewrite H1.
  - by rewrite H2.
  - done.
  - intros E. by rewrite H4.
  - rewrite H5. split.
    + intros Ha c' [->|Hc']%elem_of_cons; [done|auto].
    + intros Ha c' Hc'. apply Ha. by right.
Qed.

(** ** The plan *)

Definition max_creating (inp : MembershipInput) : Z :=
  if mi_MaxCreating inp <=? 0 then DefaultMaxCreating else mi_MaxCreating inp.

(** Everything that must hold before a cell is created. *)
Record create_allowed (inp : MembershipInput) : Prop := {
  ca_short : live_count (mi_Cells inp) < mi_Desired inp;
  ca_replaceable : forall c, c ∈ mi_Cells inp -> cs_Phase c = CellPhaseFailed ->
    RebuildWouldNotHelp c (mi_ProviderUsable inp) = false /\ cs_FailureCount c < MaxFailuresPerIndex;
  ca_hopeful : mi_EverReady inp = true
               \/ wrap32 (sum_failures (mi_Cells inp)) < HopelessPoolFailures;
  ca_credential : suspectCredentialFailures (mi_Cells inp) < SuspectCredentialFailures;
  ca_reachable : mi_WorkloadReachable inp = true;
  ca_room : in_flight_count (mi_Cells inp) < max_creating inp;
  ca_gpus : match mi_FreeGPUs inp with Some free => 0 < free | None => True end
}.

Definition create_count (inp : MembershipInput) : Z :=
  let n := Z.min (mi_Desired inp - live_count (mi_Cells inp))
                 (max_creating inp - in_flight_count (mi_Cells inp)) in
  match mi_FreeGPUs inp with Some free => Z.min n free | None => n end.

(** The two ways a plan can come out: shrinking, or not. *)
Inductive plan_view (inp : MembershipInput) : MembershipPlan -> Prop :=
| view_frozen p : mi_Desired inp < live_count (mi_Cells inp) -> mi_WorkloadReachable inp = false ->
    mp_Create p = [] -> mp_Drain p = [] -> mp_Stalled p = true -> plan_view inp p
| view_drain p : mi_Desired inp < live_count (mi_Cells inp) -> mi_WorkloadReachable inp = true ->
    mp_Create p = [] -> mp_Stalled p = false ->
    mp_Drain p = plan_drain (mi_Cells inp) (mi_DrainPreference inp)
                   (live_count (mi_Cells inp) - mi_Desired inp) ->
    plan_view inp p
| view_hold p : live_count (mi_Cells inp) <= mi_Desired inp -> ~ create_allowed inp ->
    mp_Create p = [] -> mp_Drain p = [] -> plan_view inp p
| view_create p : create_allowed inp -> mp_Drain p = [] -> mp_Stalled p = false ->
    mp_Create p = create_loop (Z.to_nat (create_count inp)) (used_indexes (mi_Cells inp)) [] ->
    plan_view inp p.

Lemma live_count_bounds cells : 0 <= live_count cells <= len cells.
Proof. split; [apply len_nonneg|apply len_filter_le]. Qed.

Lemma failed_cells cells (P : CellStatus -> Prop) :
  (forall c, c ∈ List.filter is_failed cells -> P c)
  <-> (forall c, c ∈ cells -> cs_Phase c = CellPhaseFailed -> P c).
Proof.
  setoid_rewrite elem_of_filter_b. unfold is_failed. setoid_rewrite bool_decide_eq_true. naive_solver.
Qed.

Lemma smaller_min a b : (if a <? b then a else b) = Z.min b a.
Proof. destruct (Z.ltb_spec a b); lia. Qed.

Lemma PlanMembership_view inp :
  len (mi_Cells inp) <= MaxInt32 -> int32_ok (mi_Desired inp) -> 0 <= mi_Desired inp ->
  plan_view inp (PlanMembership inp).
Proof.
  intros Hl Hd H0. unfold PlanMembership, plan_create. rewrite tally_spec by done. cbn [tl_live tl_failed tl_used tl_totalFails tl_inFlight].
  pose proof (live_count_bounds (mi_Cells inp)) as Hlive.
  set (live := live_count (mi_Cells inp)) in *.
  unfold int32_ok, MinInt32, MaxInt32 in *.
  destruct (Z.ltb_spec (mi_Desired inp) live) as [Hs|Hs].
  { destruct (mi_WorkloadReachable inp) eqn:Er; simpl.
    - apply view_drain; auto. simpl. f_equal. apply wrap32_id.
      unfold int32_ok, MinInt32, MaxInt32. lia.
    - by apply view_frozen. }
  pose proof (replace_loop_spec (mi_Now inp) (mi_ProviderUsable inp)
                (List.filter is_failed (mi_Cells inp)) zeroPlan) as Hr.
  destruct (replace_loop _ _ _ _) as [plan returned]. simpl in Hr.
  destruct Hr as (Hc & Hdr & Hst & Hst' & Hok). rewrite failed_cells in Hok.
  destruct returned.
  { apply view_hold; auto. intros Ha. by pose proof (proj2 Hok (ca_replaceable _ Ha)). }
  pose proof (proj1 Hok eq_refl) as Hrep. specialize (Hst' eq_refl).
  destruct (Z.leb_spec (mi_Desired inp) live).
  { apply view_hold; auto. intros []. fold live in ca_short0. lia. }
  destruct (negb (mi_EverReady inp) && _) eqn:Eh.
  { guards. apply view_hold; auto. intros [? ? [?|?] _ _ _ _]; [congruence|lia]. }
  destruct (Z.leb_spec SuspectCredentialFailures (suspectCredentialFailures (mi_Cells inp))).
  { apply view_hold; auto. intros []. lia. }
  destruct (mi_WorkloadReachable inp) eqn:Er; simpl.
  2: { apply view_hold; auto. intros []. congruence. }
  fold (max_creating inp).
  destruct (Z.leb_spec (max_creating inp - in_flight_count (mi_Cells inp)) 0).
  { apply view_hold; auto. intros []. lia. }
  rewrite wrap32_id by (unfold int32_ok, MinInt32, MaxInt32; lia).
  set (room := max_creating inp - in_flight_count (mi_Cells inp)) in *.
  rewrite smaller_min.
  assert (mi_EverReady inp = true
          \/ wrap32 (sum_failures (mi_Cells inp)) < HopelessPoolFailures) as Hh.
  { apply andb_false_iff in Eh as [Eh|Eh]; guards; auto. }
  destruct (mi_FreeGPUs inp) as [free|] eqn:Ef.
  - destruct (Z.leb_spec free 0).
    { apply view_hold; auto. intros []. rewrite Ef in ca_gpus0. lia. }
    destruct (Z.ltb_spec free (Z.min (mi_Desired inp - live) room));
      (apply view_create; [split; rewrite ?Ef; auto; lia|auto..]);
      simpl; unfold create_count; rewrite Ef; fold live room; do 2 f_equal; lia.
  - apply view_create; [split; rewrite ?Ef; auto; lia|auto..].
    simpl. unfold create_count. by rewrite Ef.
Qed.

(** The sizes the code's [int32] counters assume. *)
Definition input_ok (inp : MembershipInput) : Prop :=
  0 <= mi_Desired inp /\ len (mi_Cells inp) + mi_Desired inp <= MaxInt32.

Lemma PlanMembership_view_ok inp : input_ok inp -> plan_view inp (PlanMembership inp).
Proof.
  intros [H0 Hl]. pose proof (len_nonneg (mi_Cells inp)).
  apply PlanMembership_view; unfold int32_ok, MinInt32, MaxInt32 in *; lia.
Qed.

Lemma used_indexes_len cells : len (used_indexes cells) <= len cells.
Proof. unfold used_indexes. rewrite len_map. apply len_filter_le. Qed.

Lemma create_count_pos inp : create_allowed inp -> 0 < create_count inp <= mi_Desired inp.
Proof.
  intros []. pose proof (live_count_bounds (mi_Cells inp)).
  unfold create_count. destruct (mi_FreeGPUs inp); lia.
Qed.

(** ** Theorems *)

(** [Backoff] is the doubling of 30 seconds per failure, capped at 30 minutes,
    for every [int32]; nothing wraps on the way. *)
Theorem Backoff_closed failures :
  Backoff failures =
  if failures <=? 0 then 0 else Z.min backoffCap (backoffBase * 2 ^ (failures - 1)).
Proof.
  unfold Backoff. destruct (Z.leb_spec failures 0); [done|].
  rewrite backoff_loop_closed by done. by rewrite Z2Nat.id by lia.
Qed.

(** A failed cell is deleted for replacement exactly when it is Failed, has
    failures left, a rebuild can help, and its backoff since it failed has
    passed. *)
Theorem ShouldReplace_iff c now usable :
  ShouldReplace c now usable = true <->
  cs_Phase c = CellPhaseFailed /\ cs_FailureCount c < MaxFailuresPerIndex
  /\ ~ (usable = false /\ cs_NodeReady c = true /\ cs_CapacityDevices c = 0)
  /\ (forall t, cs_LastTransitionTime c = Some t -> Backoff (cs_FailureCount c) <= Sub now t).
Proof.
  unfold ShouldReplace, RebuildWouldNotHelp. case_bool_decide; simpl; [|naive_solver].
  destruct (Z.leb_spec MaxFailuresPerIndex (cs_FailureCount c)); [naive_solver lia|].
  destruct usable, (cs_NodeReady c), (Z.eqb_spec (cs_CapacityDevices c) 0); simpl;
    destruct (cs_LastTransitionTime c); rewrite ?Z.leb_le; naive_solver.
Qed.

(** C10. A plan never creates and drains at once, does nothing while it is stalled,
    and does nothing while the workload cluster cannot be read. *)
Theorem PlanMembership_safe inp :
  input_ok inp ->
  let p := PlanMembership inp in
  (mp_Create p = [] \/ mp_Drain p = [])
  /\ (mp_Stalled p = true -> mp_Create p = [] /\ mp_Drain p = [])
  /\ (mi_WorkloadReachable inp = false -> mp_Create p = [] /\ mp_Drain p = []).
Proof.
  intros Hok p. unfold p.
  destruct (PlanMembership_view_ok inp Hok) as [p'|p'|p'|p' [] ? ?];
    split_and!; auto; intros; (split; congruence) || congruence.
Qed.

(** No failed index without a guest still has to wait. The create path does not
    look at the backoff of such a row, against its comment
    ([tombstone_refilled_early]). *)
Definition backoffs_expired (inp : MembershipInput) : Prop :=
  forall c t, c ∈ mi_Cells inp -> cs_Phase c = CellPhaseFailed -> cs_GuestUID c = "" ->
    cs_LastTransitionTime c = Some t -> Backoff (cs_FailureCount c) <= Sub (mi_Now inp) t.

(** C23. Cells are created only when every guard allows it: at most as many as the
    pool is short of, within the in-flight limit and the free GPUs, on distinct
    unoccupied indexes, the lowest ones. When no failed index is still in its
    backoff they are created exactly then and exactly that many. The restriction
    is open: a failed index in its backoff is refilled as well, against the
    comment, and that case is a finding and not claimed here. *)
Theorem PlanMembership_creates inp :
  input_ok inp ->
  let create := mp_Create (PlanMembership inp) in
  let used := used_indexes (mi_Cells inp) in
  (create <> [] -> create_allowed inp /\ len create <= create_count inp)
  /\ NoDup create
  /\ (forall i, i ∈ create -> (i ∉ used) /\ 0 <= i /\
        forall j, 0 <= j < i -> j ∈ used \/ j ∈ create)
  /\ (backoffs_expired inp -> create_allowed inp -> len create = create_count inp /\ 0 < create_count inp).
Proof.
  intros Hok create used. unfold create.
  destruct (PlanMembership_view_ok inp Hok) as [p Hs Hr Hc _ _|p Hs Hr Hc _ _|p Hs Hn Hc _|p Ha _ _ Hc].
  1,2,3: assert (~ create_allowed inp) as Hna by (done || (intros []; lia));
         rewrite Hc; split_and!; [done|apply NoDup_nil_2|by intros ? ?%elem_of_nil|done].
  destruct Hok as [H0 Hl]. pose proof (create_count_pos inp Ha) as Hp.
  pose proof (used_indexes_len (mi_Cells inp)).
  destruct (create_loop_spec (Z.to_nat (create_count inp)) used []) as (new & E & Hn & Hd & Hu & Hj).
  { rewrite Z2Nat.id by lia. unfold used. lia. }
  fold used in Hc. rewrite Hc, E. simpl. assert (len new = create_count inp) as Hlen by (unfold len; rewrite Hn; lia).
  split_and!; [intros _; split; [done|lia]|done| |intros _ _; lia].
  intros i Hi. destruct (Hu i Hi). split; [done|]. split; [done|]. intros j Hjb. by apply (Hj i).
Qed.

(** C24. A pool above its desired size drains live cells only, each once, exactly as
    many as the excess or all the removable ones; cells the autoscaler prefers
    (the idle ones) go before any other, then the highest indexes. Otherwise
    nothing is drained. *)
Theorem PlanMembership_drains inp :
  input_ok inp -> NoDup (map cs_Name (mi_Cells inp)) -> NoDup (map cs_Index (mi_Cells inp)) ->
  let drain := mp_Drain (PlanMembership inp) in
  let excess := live_count (mi_Cells inp) - mi_Desired inp in
  if (0 <? excess) && mi_WorkloadReachable inp
  then drains (mi_Cells inp) (mi_DrainPreference inp) excess drain
  else drain = [].
Proof.
  intros Hok Hn Hx drain excess. unfold drain, excess.
  destruct (PlanMembership_view_ok inp Hok) as [p Hs Hr Hc Hd _|p Hs Hr Hc _ Hd|p Hs _ Hc Hd|p Ha Hd _ Hc];
    rewrite Hd; try rewrite Hr; rewrite ?andb_false_r; try done.
  - rewrite (proj2 (Z.ltb_lt _ _)) by lia. simpl. apply plan_drain_drains; auto. lia.
  - rewrite (proj2 (Z.ltb_ge _ _)) by lia. done.
  - rewrite (proj2 (Z.ltb_ge _ _)) by (pose proof (ca_short _ Ha); lia). done.
Qed.

(** ** Witnesses *)

Definition ex_cell (i : int32) (ph : CellPhase) : CellStatus :=
  {| zeroCellStatus with cs_Name := Name "inference" i; cs_Index := i; cs_Phase := ph;
     cs_GuestUID := "uid" |}.

(** Two ready cells of five, one of them being drained. *)
Definition ex_growing : MembershipInput :=
  mkMembershipInput 5 [ex_cell 0 CellPhaseReady; ex_cell 2 CellPhaseDraining] 100 (Some 3) 0
    true true true [].

Definition ex_shrinking : MembershipInput :=
  mkMembershipInput 1 [ex_cell 0 CellPhaseReady; ex_cell 1 CellPhaseReady; ex_cell 2 CellPhaseReady] 100
    None 0 true true true [Name "inference" 1].

Lemma PlanMembership_safe_witness :
  let p := PlanMembership ex_growing in mp_Create p = [] \/ mp_Drain p = [].
Proof. apply (PlanMembership_safe ex_growing). split; vm_compute; discriminate. Defined.

Lemma PlanMembership_creates_witness :
  mp_Create (PlanMembership ex_growing) = [1; 3]
  /\ len (mp_Create (PlanMembership ex_growing)) = create_count ex_growing.
Proof.
  split; [vm_compute; reflexivity|].
  destruct (PlanMembership_creates ex_growing) as (H & _ & _ & Heq); [split; vm_compute; discriminate|].
  apply Heq; [|apply H; vm_compute; discriminate].
  intros c t Hc Hp. exfalso. revert Hp. apply elem_of_cons in Hc as [->|Hc%list_elem_of_singleton]; [discriminate|].
  subst c. discriminate.
Defined.

(** A failure one nanosecond ago: thirty seconds to wait, and the index is
    refilled in this pass. *)
Example tombstone_refilled_early :
  let tombstone := {| zeroCellStatus with cs_Name := Name "inference" 0; cs_Index := 0; cs_Phase := CellPhaseFailed;
                      cs_FailureCount := 1; cs_LastTransitionTime := Some 99 |} in
  let plan := PlanMembership (mkMembershipInput 1 [tombstone] 100 (Some 3) 0 true true true []) in
  mp_Create plan = [0] /\ mp_RequeueAfter plan = Backoff 1 - 1 /\ Backoff 1 = 30 * Second.
Proof. vm_compute. done. Qed.

Lemma PlanMembership_drains_witness :
  mp_Drain (PlanMembership ex_shrinking) = [Name "inference" 1; Name "inference" 2]
  /\ drains (mi_Cells ex_shrinking) (mi_DrainPreference ex_shrinking) 2
       (mp_Drain (PlanMembership ex_shrinking)).
Proof.
  split; [vm_compute; reflexivity|].
  apply (PlanMembership_drains ex_shrinking).
  - split; vm_compute; discriminate.
  - apply (bool_decide_unpack _). vm_compute. exact I.
  - apply (bool_decide_unpack _). vm_compute. exact I.
Defined.
