(* ===== verification/Scaling.v ===== *)
(** * Scaling (internal/controller/scaling.go, idle.go)

    [DecideScale] computes the desired cell count from demand, inventory and
    idleness; [CellShape] the device a fresh cell would bring. *)

From S2P Require Import Prelude GoStd Api KubeApi Provider Fsm.
Local Open Scope Z_scope.
Local Open Scope go_scope.

Record ScaleInput := mkScaleInput {
  si_Replicas : int32;
  si_Autoscaling : option AutoscalingSpec;
  si_LiveCells : int32;
  si_Demand : Demand;
  si_DemandKnown : bool;
  si_ShapeKnown : bool;
  si_FreeGPUs : option int;
  si_IdleCells : list string;
  si_Now : Time;
  si_LastScaleUp : option Time;
  si_LastScaleDown : option Time;
  si_DemandFreeSince : option Time
}.

Record ScaleDecision := mkScaleDecision {
  sd_Desired : int32;
  sd_ScaledUp : bool;
  sd_ScaledDown : bool;
  sd_DrainCandidates : list string;
  sd_Reason : string;
  sd_Message : string
}.

Definition scaleDownWindow (aspec : AutoscalingSpec) : Duration :=
  match as_ScaleDownStabilizationWindow aspec with
  | Some d => if 0 <? d then d else 30 * Minute
  | None => 30 * Minute
  end.

Definition within (t : option Time) (now : Time) (window : Duration) : bool :=
  match t with
  | Some t => negb (IsZero t) && (Sub now t <? window)
  | None => false
  end.

Definition stabilizing (aspec : AutoscalingSpec) (last : option Time) (now : Time) : bool :=
  match last with
  | None => false
  | Some t =>
      if IsZero t then false
      else
        let window :=
          match as_StabilizationWindow aspec with
          | Some d => if 0 <? d then d else 10 * Minute
          | None => 10 * Minute
          end in
        Sub now t <? window
  end.

Definition decideScaleDown (inp : ScaleInput) (aspec : AutoscalingSpec) (base floor : int32)
    : ScaleDecision :=
  let hold reason msg := mkScaleDecision base false false [] reason msg in
  if as_ScaleDown aspec != ScaleDownAuto then hold ReasonIdle ""
  else if base <=? floor then hold ReasonAtMinReplicas ""
  else if len (si_IdleCells inp) =? 0
  then hold ReasonNoIdleCell "demand is absent but every cell still holds workloads"
  else
  let window := scaleDownWindow aspec in
  let too_soon :=
    match si_DemandFreeSince inp with
    | None => true
    | Some t => IsZero t || (Sub (si_Now inp) t <? window)
    end in
  if too_soon
  then hold ReasonStabilizing ("waiting for demand to stay absent for " +:+ DurationString window
                               +:+ " before removing a cell")
  else if within (si_LastScaleDown inp) (si_Now inp) window
          || within (si_LastScaleUp inp) (si_Now inp) window
  then hold ReasonStabilizing "waiting out the scale-down window after the last scaling action"
  else mkScaleDecision (wrap32 (base - 1)) false true (si_IdleCells inp) ReasonScaledDown
         ("removing one idle cell after " +:+ DurationString window
          +:+ " with no GPU demand (" +:+ itoa (len (si_IdleCells inp)) +:+ " idle)").

(** The range and the baseline [DecideScale] works from. *)
Definition scale_floor (inp : ScaleInput) (aspec : AutoscalingSpec) : int32 :=
  match as_MinReplicas aspec with Some m => m | None => si_Replicas inp end.
Definition scale_ceiling (inp : ScaleInput) (aspec : AutoscalingSpec) : int32 :=
  let floor := scale_floor inp aspec in
  let ceiling := match as_MaxReplicas aspec with Some m => m | None => floor end in
  if ceiling <? floor then floor else ceiling.
Definition scale_base (inp : ScaleInput) (aspec : AutoscalingSpec) : int32 :=
  let base := si_LiveCells inp in
  let base := if base <? scale_floor inp aspec then scale_floor inp aspec else base in
  if scale_ceiling inp aspec <? base then scale_ceiling inp aspec else base.

Definition DecideScale (inp : ScaleInput) : ScaleDecision :=
  match si_Autoscaling inp with
  | None => mkScaleDecision (si_Replicas inp) false false [] ReasonIdle ""
  | Some aspec =>
    if negb (as_Enabled aspec)
    then mkScaleDecision (si_Replicas inp) false false [] ReasonIdle ""
    else
    let floor := scale_floor inp aspec in
    let ceiling := scale_ceiling inp aspec in
    let base := scale_base inp aspec in
    let d := si_Demand inp in
    if negb (si_DemandKnown inp) then
      mkScaleDecision base false false [] ReasonCapacityUnknown
        "GPU demand could not be read from the workload cluster; not scaling"
    else if negb (si_ShapeKnown inp) && (d_SatisfiableByOneCell d =? 0) && (0 <? d_PendingRequests d) then
      mkScaleDecision base false false [] ReasonCellShapeUnknown
        (itoa (d_PendingRequests d) +:+ " GPU request(s) are pending but this pool has "
         +:+ "never advertised a device, so it cannot tell whether a fresh cell would satisfy them; "
         +:+ "raise replicas or minReplicas to 1 once so the pool learns its cell shape")
    else if (d_SatisfiableByOneCell d =? 0) && (0 <? d_PendingRequests d) then
      mkScaleDecision base false false [] ReasonDemandUnsatisfiable
        (itoa (d_PendingRequests d)
         +:+ " GPU request(s) are pending but none fits one cell of this pool's shape; not scaling")
    else if d_SatisfiableByOneCell d =? 0 then decideScaleDown inp aspec base floor
    else if ceiling <=? base then
      mkScaleDecision ceiling false false [] ReasonAtMaxReplicas
        ("at maxReplicas (" +:+ itoa ceiling +:+ ") with " +:+ itoa (d_SatisfiableByOneCell d)
         +:+ " satisfiable request(s) still pending")
    else if match si_FreeGPUs inp with Some free => free <=? 0 | None => false end then
      mkScaleDecision base false false [] ReasonInsufficientGPUs
        "demand is satisfiable but no free GPU remains in the infrastructure cluster"
    else if stabilizing aspec (si_LastScaleUp inp) (si_Now inp) then
      mkScaleDecision base false false [] ReasonStabilizing
        ("waiting out the stabilization window before scaling up again "
         +:+ "(demand does not clear until the previous cell is Ready)")
    else
      mkScaleDecision (wrap32 (base + 1)) true false [] ReasonScaledUp
        ("scaling up by one for " +:+ itoa (d_SatisfiableByOneCell d) +:+ " satisfiable GPU request(s)")
  end.

(** ** The shape of a fresh cell *)

(** The first model with a device; integer division truncates. *)
Fixpoint reference_loop (models : list ModelCapacity) : option Device :=
  match models with
  | [] => None
  | m :: rest =>
      if m_Devices m <=? 0 then reference_loop rest
      else Some (mkDevice "" 0 (Z.quot (m_MemoryTotalMiB m) (m_Devices m))
                   (Z.quot (m_ComputeTotal m) (m_Devices m)) (m_Model m) "" true)
  end.
Definition ReferenceDevice (c : Capacity) : option Device := reference_loop (cap_ByModel c).

Definition CellShape (c : Capacity) (remembered : option CellDeviceShape) : option Device :=
  match ReferenceDevice c with
  | Some live => Some live
  | None =>
      match remembered with
      | None => None
      | Some r =>
          if shape_MemoryMiB r <=? 0 then None
          else Some (mkDevice "" 0 (shape_MemoryMiB r) (shape_CorePercent r) (shape_Model r) "" true)
      end
  end.

Definition RememberShape (d : option Device) (now : Time) : option CellDeviceShape :=
  match d with
  | None => None
  | Some d =>
      if dev_MemoryMiB d <=? 0 then None
      else Some (mkCellDeviceShape (dev_Model d) (dev_MemoryMiB d) (dev_CorePercent d) (Some now))
  end.

(** ** Idle cells (idle.go) *)

Definition idle_cell (provider : Provider) (c : CellStatus) : bool :=
  if (cs_Phase c != CellPhaseReady) || (cs_NodeName c == "") then false
  else match prov_Allocations provider (cs_NodeName c) with
       | Err _ => false
       | Ok a => Empty a
       end.

Definition idleCells (provider : Provider) (cells : list CellStatus) : list string :=
  map cs_Name (List.filter (idle_cell provider) cells).

(** ** What a reconcile stores of the decision (controller.go)

    [stored1] and [stored2] are the clock readings the two stamps take. *)
Record ScaleMemory := mkScaleMemory {
  sm_LastScaleUp : option Time;
  sm_LastScaleDown : option Time;
  sm_DemandFreeSince : option Time
}.

Definition remember_scale (dec : ScaleDecision) (demand : Demand) (demandKnown : bool)
    (stored0 stored1 stored2 : Time) (m : ScaleMemory) : ScaleMemory :=
  let m :=
    if demandKnown then
      if (d_SatisfiableByOneCell demand =? 0) && (d_PendingRequests demand =? 0) then
        match sm_DemandFreeSince m with
        | None => {| m with sm_DemandFreeSince := Some stored0 |}
        | Some _ => m
        end
      else {| m with sm_DemandFreeSince := None |}
    else m in
  let m := if sd_ScaledUp dec then {| m with sm_LastScaleUp := Some stored1 |} else m in
  if sd_ScaledDown dec then {| m with sm_LastScaleDown := Some stored2 |} else m.

(** ** Lemmas *)

Definition up_window (aspec : AutoscalingSpec) : Duration :=
  match as_StabilizationWindow aspec with
  | Some d => if 0 <? d then d else 10 * Minute
  | None => 10 * Minute
  end.

(** No action is remembered within [window] of [now]. *)
Definition quiet (t : option Time) (now : Time) (window : Duration) : Prop :=
  forall t0, t = Some t0 -> t0 <> 0 -> window <= Sub now t0.

Lemma within_spec t now w : within t now w = false <-> quiet t now w.
Proof.
  unfold within, IsZero. destruct t as [t|]; [|by split].
  assert (quiet (Some t) now w <-> (t <> 0 -> w <= Sub now t)) as -> by (unfold quiet; naive_solver).
  destruct (Z.eqb_spec t 0), (Z.ltb_spec (Sub now t) w); simpl; split; intros; try done; lia.
Qed.

Lemma stabilizing_spec aspec t now : stabilizing aspec t now = false <-> quiet t now (up_window aspec).
Proof.
  rewrite <- within_spec. unfold stabilizing, within, up_window.
  destruct t as [t|]; [|done]. by destruct (IsZero t).
Qed.

Lemma scale_base_range inp aspec :
  scale_floor inp aspec <= scale_base inp aspec <= scale_ceiling inp aspec.
Proof.
  unfold scale_base.
  assert (scale_floor inp aspec <= scale_ceiling inp aspec) by
    (unfold scale_ceiling; set (c := match as_MaxReplicas aspec with Some _ => _ | None => _ end);
     destruct (Z.ltb_spec c (scale_floor inp aspec)); lia).
  destruct (Z.ltb_spec (si_LiveCells inp) (scale_floor inp aspec));
    match goal with |- context [?a <? ?b] => destruct (Z.ltb_spec a b) end; lia.
Qed.

(** The machine range of the [int32] fields a decision reads. *)
Definition int32_fields (inp : ScaleInput) (aspec : AutoscalingSpec) : Prop :=
  int32_ok (scale_floor inp aspec) /\ int32_ok (scale_ceiling inp aspec).

(** The three outcomes of a decision with autoscaling on. *)
Inductive scale_view (inp : ScaleInput) (aspec : AutoscalingSpec) : ScaleDecision -> Prop :=
| sv_up d : si_DemandKnown inp = true -> d_SatisfiableByOneCell (si_Demand inp) <> 0 ->
    scale_base inp aspec < scale_ceiling inp aspec ->
    (forall free, si_FreeGPUs inp = Some free -> 0 < free) ->
    quiet (si_LastScaleUp inp) (si_Now inp) (up_window aspec) ->
    sd_Desired d = scale_base inp aspec + 1 -> sd_ScaledUp d = true -> sd_ScaledDown d = false ->
    sd_DrainCandidates d = [] ->
    scale_view inp aspec d
| sv_down d t : si_DemandKnown inp = true -> d_SatisfiableByOneCell (si_Demand inp) = 0 ->
    d_PendingRequests (si_Demand inp) <= 0 -> as_ScaleDown aspec = ScaleDownAuto ->
    scale_floor inp aspec < scale_base inp aspec -> si_IdleCells inp <> [] ->
    si_DemandFreeSince inp = Some t -> t <> 0 -> scaleDownWindow aspec <= Sub (si_Now inp) t ->
    quiet (si_LastScaleUp inp) (si_Now inp) (scaleDownWindow aspec) ->
    quiet (si_LastScaleDown inp) (si_Now inp) (scaleDownWindow aspec) ->
    sd_Desired d = scale_base inp aspec - 1 -> sd_ScaledUp d = false -> sd_ScaledDown d = true ->
    sd_DrainCandidates d = si_IdleCells inp ->
    scale_view inp aspec d
| sv_hold d :
    ~ (si_DemandKnown inp = true /\ d_SatisfiableByOneCell (si_Demand inp) <> 0
       /\ scale_base inp aspec < scale_ceiling inp aspec
       /\ (forall free, si_FreeGPUs inp = Some free -> 0 < free)
       /\ quiet (si_LastScaleUp inp) (si_Now inp) (up_window aspec)) ->
    sd_Desired d = scale_base inp aspec -> sd_ScaledUp d = false -> sd_ScaledDown d = false ->
    sd_DrainCandidates d = [] ->
    scale_view inp aspec d.

Ltac hold := apply sv_hold; simpl; auto; intros (? & ? & ? & ? & ?); (congruence || lia).

Lemma decideScaleDown_view inp aspec :
  int32_fields inp aspec -> si_DemandKnown inp = true ->
  d_SatisfiableByOneCell (si_Demand inp) = 0 -> d_PendingRequests (si_Demand inp) <= 0 ->
  scale_view inp aspec (decideScaleDown inp aspec (scale_base inp aspec) (scale_floor inp aspec)).
Proof.
  intros [Hf Hc] Hk Hs Hp. pose proof (scale_base_range inp aspec).
  unfold decideScaleDown.
  case_bool_decide as Ea; simpl; [|hold].
  destruct (Z.leb_spec (scale_base inp aspec) (scale_floor inp aspec));
    [hold|].
  destruct (Z.eqb_spec (len (si_IdleCells inp)) 0) as [Hi|Hi]; rewrite len_zero in Hi;
    [hold|].
  destruct (si_DemandFreeSince inp) as [t|] eqn:Et; [|hold].
  unfold IsZero. destruct (Z.eqb_spec t 0); simpl; [hold|].
  destruct (Z.ltb_spec (Sub (si_Now inp) t) (scaleDownWindow aspec)); [hold|].
  destruct (within (si_LastScaleDown inp) _ _) eqn:Ed; simpl; [hold|].
  destruct (within (si_LastScaleUp inp) _ _) eqn:Eu; simpl; [hold|].
  apply within_spec in Ed, Eu.
  eapply sv_down; eauto. simpl. apply wrap32_id. unfold int32_ok, MinInt32, MaxInt32 in *. lia.
Qed.

Lemma DecideScale_view inp aspec :
  si_Autoscaling inp = Some aspec -> as_Enabled aspec = true -> int32_fields inp aspec ->
  scale_view inp aspec (DecideScale inp).
Proof.
  intros Ha He Hok. pose proof Hok as [Hf Hc]. pose proof (scale_base_range inp aspec) as Hb.
  unfold DecideScale. rewrite Ha, He. simpl.
  destruct (si_DemandKnown inp) eqn:Ek; simpl; [|hold].
  destruct (Z.eqb_spec (d_SatisfiableByOneCell (si_Demand inp)) 0) as [Es|Es]; simpl.
  - rewrite andb_true_r.
    destruct (Z.ltb_spec 0 (d_PendingRequests (si_Demand inp))); rewrite ?andb_true_r, ?andb_false_r.
    + destruct (negb (si_ShapeKnown inp)); hold.
    + by apply decideScaleDown_view.
  - rewrite andb_false_r. simpl.
    destruct (Z.leb_spec (scale_ceiling inp aspec) (scale_base inp aspec));
      [apply sv_hold; simpl; auto; [intros (_ & _ & ? & _)|]; lia|].
    assert (match si_FreeGPUs inp with Some free => free <=? 0 | None => false end = false
            <-> forall free, si_FreeGPUs inp = Some free -> 0 < free) as Hfree.
    { destruct (si_FreeGPUs inp) as [f|]; [rewrite Z.leb_gt|by split].
      split; [by intros ? ? [= <-]|auto]. }
    destruct (match si_FreeGPUs inp with Some _ => _ | None => _ end);
      [apply sv_hold; simpl; auto; intros (_ & _ & _ & Hg & _); apply Hfree in Hg; done|].
    destruct (stabilizing aspec (si_LastScaleUp inp) (si_Now inp)) eqn:Eq.
    + apply sv_hold; simpl; auto. intros (_ & _ & _ & _ & Hq). apply stabilizing_spec in Hq. congruence.
    + apply stabilizing_spec in Eq. apply sv_up; auto; [by apply Hfree|].
      simpl. apply wrap32_id. unfold int32_ok, MinInt32, MaxInt32 in *. lia.
Qed.

Lemma DecideScale_off inp :
  match si_Autoscaling inp with Some aspec => as_Enabled aspec = false | None => True end ->
  DecideScale inp = mkScaleDecision (si_Replicas inp) false false [] ReasonIdle "".
Proof. unfold DecideScale. destruct (si_Autoscaling inp) as [aspec|]; [|done]. by intros ->. Qed.

(** ** Sequences of reconciles

    A pass is what one reconcile observes, the memory it read from the pool's
    status, the three clock readings it would store, and whether it came to write
    the status. A reconcile that fails after its decision returns before the
    update, and the server refuses an update based on another version of the
    pool than the stored one: then the stamps are lost, although the decision may
    have been acted on. *)
Record Pass := mkPass {
  ps_in : ScaleInput;
  ps_read : ScaleMemory;
  ps_t0 : Time;
  ps_t1 : Time;
  ps_t2 : Time;
  ps_written : bool
}.

Definition pass_input (aspec : AutoscalingSpec) (p : Pass) : ScaleInput :=
  let inp := ps_in p in
  let m := ps_read p in
  {| inp with si_Autoscaling := Some aspec; si_LastScaleUp := sm_LastScaleUp m;
     si_LastScaleDown := sm_LastScaleDown m; si_DemandFreeSince := sm_DemandFreeSince m |}.

(** What is stored after a pass. *)
Definition pass_memory (aspec : AutoscalingSpec) (m : ScaleMemory) (p : Pass) : ScaleMemory :=
  let inp := pass_input aspec p in
  if ps_written p
  then remember_scale (DecideScale inp) (si_Demand inp) (si_DemandKnown inp) (ps_t0 p) (ps_t1 p) (ps_t2 p) (ps_read p)
  else m.

(** A scaling action: its time, whether it grew the pool, and whether its pass wrote
    the status. *)
Record Action := mkAction { ac_time : Time; ac_up : bool; ac_written : bool }.

Definition pass_action (aspec : AutoscalingSpec) (p : Pass) : list Action :=
  let inp := pass_input aspec p in
  let d := DecideScale inp in
  if sd_ScaledUp d then [mkAction (si_Now inp) true (ps_written p)]
  else if sd_ScaledDown d then [mkAction (si_Now inp) false (ps_written p)] else [].

Definition run_scale (aspec : AutoscalingSpec) (passes : list Pass) : list Action :=
  concat (map (pass_action aspec) passes).

(** A stored stamp is taken after the decision and kept to the second; a pass whose
    update was accepted had read what was stored. *)
Record pass_ok (aspec : AutoscalingSpec) (m : ScaleMemory) (p : Pass) : Prop := {
  po_int32 : int32_fields (ps_in p) aspec;
  po_stamps : forall s, s = ps_t1 p \/ s = ps_t2 p -> s <> 0 /\ si_Now (ps_in p) - Second < s;
  po_read : ps_written p = true -> ps_read p = m
}.

Fixpoint passes_ok (aspec : AutoscalingSpec) (m : ScaleMemory) (passes : list Pass) : Prop :=
  match passes with
  | [] => True
  | p :: rest => pass_ok aspec m p /\ passes_ok aspec (pass_memory aspec m p) rest
  end.

Definition stamped (last : option Time) (t : Time) : Prop :=
  exists s, last = Some s /\ s <> 0 /\ t - Second < s.

Lemma quiet_stamped last now w t :
  MinInt64 < w <= MaxInt64 -> quiet last now w -> stamped last t -> w - Second < now - t.
Proof.
  intros Hw Hq (s & -> & Hs & Ht). specialize (Hq s eq_refl Hs). unfold Sub in Hq. lia.
Qed.

(** The stamp of a direction. *)
Definition stamp (up : bool) (m : ScaleMemory) : option Time :=
  if up then sm_LastScaleUp m else sm_LastScaleDown m.

Definition spaced (w : Duration) (t1 t2 : Time) : Prop := w - Second < t2 - t1.

Lemma remember_scale_stamp up dec d k t0 t1 t2 m :
  stamp up (remember_scale dec d k t0 t1 t2 m)
  = if (if up then sd_ScaledUp dec else sd_ScaledDown dec) then Some (if up then t1 else t2) else stamp up m.
Proof.
  unfold remember_scale. set (m1 := if k then _ else _).
  assert (stamp up m1 = stamp up m) as E
    by (unfold m1; repeat (match goal with |- context [if ?b then _ else _] => destruct b end);
        try destruct (sm_DemandFreeSince m); done).
  destruct up, (sd_ScaledUp dec), (sd_ScaledDown dec); exact E || done.
Qed.

Section run.
Context (aspec : AutoscalingSpec) (Hon : as_Enabled aspec = true).
Hypothesis Hup : 0 < up_window aspec <= MaxInt64.
Hypothesis Hdown : 0 < scaleDownWindow aspec <= MaxInt64.

(** What a pass does: nothing, or one action that the memory it read is quiet for,
    and that stamps its direction when the status is written. *)
Lemma pass_cases m p :
  pass_ok aspec m p ->
  (pass_action aspec p = [] /\ forall up, stamp up (pass_memory aspec m p) = stamp up m)
  \/ exists up, pass_action aspec p = [mkAction (si_Now (ps_in p)) up (ps_written p)]
      /\ (ps_written p = true -> stamped (stamp up (pass_memory aspec m p)) (si_Now (ps_in p)))
      /\ (forall d, ps_written p = false \/ d <> up -> stamp d (pass_memory aspec m p) = stamp d m)
      /\ (ps_written p = true -> forall t d, stamped (stamp d m) t ->
           (d = true -> up = true -> spaced (up_window aspec) t (si_Now (ps_in p)))
           /\ (up = false -> spaced (scaleDownWindow aspec) t (si_Now (ps_in p)))).
Proof using Hon Hup Hdown.
  intros [Hi Hst Hr]. unfold pass_action, pass_memory, spaced.
  assert (forall up, stamp up (ps_read p) = stamp up m \/ ps_written p = false) as Hm
    by (destruct (ps_written p); [left; by rewrite Hr|by right]).
  destruct (DecideScale_view (pass_input aspec p) aspec eq_refl Hon Hi)
    as [d ? ? ? ? Hq ? Hu Hd _|d t' ? ? ? ? ? ? ? ? ? Hqu Hqd ? Hu Hd _|d ? ? Hu Hd _];
    rewrite ?Hu, ?Hd; [right; exists true|right; exists false|left]; (split; [done|]).
  - split_and!.
    + intros ->. rewrite remember_scale_stamp, Hu. exists (ps_t1 p). split; [done|]. apply Hst. by left.
    + intros [|] [Hw|Hn]; rewrite ?Hw; try done; destruct (ps_written p); try done.
      rewrite remember_scale_stamp, Hd, Hr by done. done.
    + intros Hw t [|] Ht; split; try done. intros _ _. cbn in Hq. rewrite (Hr Hw) in Hq.
      eapply quiet_stamped; eauto. unfold MinInt64. lia.
  - split_and!.
    + intros ->. rewrite remember_scale_stamp, Hd. exists (ps_t2 p). split; [done|]. apply Hst. by right.
    + intros [|] [Hw|Hn]; rewrite ?Hw; try done; destruct (ps_written p); try done.
      rewrite remember_scale_stamp, Hu, Hr by done. done.
    + intros Hw t e Ht; split; [done|]. intros _. cbn in Hqu, Hqd. rewrite (Hr Hw) in Hqu, Hqd.
      assert (MinInt64 < scaleDownWindow aspec <= MaxInt64) as Hw2 by (unfold MinInt64; lia).
      destruct e; [exact (quiet_stamped _ _ _ _ Hw2 Hqu Ht)|exact (quiet_stamped _ _ _ _ Hw2 Hqd Ht)].
  - intros up. destruct (ps_written p); [|done]. rewrite remember_scale_stamp, Hu, Hd, Hr by done. by destruct up.
Qed.

(** After a stamp, as long as no other pass writes one of its direction. *)
Lemma run_after passes m t d l2 e2 l3 :
  passes_ok aspec m passes -> stamped (stamp d m) t ->
  run_scale aspec passes = l2 ++ e2 :: l3 -> ac_written e2 = true ->
  (forall e, e ∈ l2 -> ac_written e = true -> ac_up e <> d) ->
  (d = true -> ac_up e2 = true -> spaced (up_window aspec) t (ac_time e2))
  /\ (ac_up e2 = false -> spaced (scaleDownWindow aspec) t (ac_time e2)).
Proof using Hon Hup Hdown.
  revert m l2. induction passes as [|p passes IH]; intros m l2 Hok Ht; [by destruct l2|].
  destruct Hok as [Hp Hok]. unfold run_scale. cbn [map concat]. fold (run_scale aspec passes).
  destruct (pass_cases m p Hp) as [[-> Hs]|(up & -> & _ & Hkeep & Hsp)]; cbn [app].
  { apply (IH _ l2 Hok). by rewrite Hs. }
  destruct l2 as [|a l2]; cbn [app]; intros [= <- Hrun] Hw Hl2; [by apply (Hsp Hw t d)|].
  apply (IH _ l2 Hok); [|done..|].
  - rewrite Hkeep; [done|]. destruct (ps_written p) eqn:E; [right|by left].
    intros ->. by apply (Hl2 (mkAction (si_Now (ps_in p)) up true)); [left|..].
  - intros e He. apply Hl2. by right.
Qed.

Lemma run_spaced passes m l1 e1 l2 e2 l3 :
  passes_ok aspec m passes -> run_scale aspec passes = l1 ++ e1 :: l2 ++ e2 :: l3 ->
  ac_written e1 = true -> ac_written e2 = true ->
  (forall e, e ∈ l2 -> ac_written e = true -> ac_up e <> ac_up e1) ->
  (ac_up e1 = true -> ac_up e2 = true -> spaced (up_window aspec) (ac_time e1) (ac_time e2))
  /\ (ac_up e2 = false -> spaced (scaleDownWindow aspec) (ac_time e1) (ac_time e2)).
Proof using Hon Hup Hdown.
  intros Hok Hrun H1 H2 Hl2. revert m l1 Hok Hrun.
  induction passes as [|p passes IH]; intros m l1 Hok; [by destruct l1|].
  destruct Hok as [Hp Hok]. unfold run_scale. cbn [map concat]. fold (run_scale aspec passes).
  destruct (pass_cases m p Hp) as [[-> _]|(up & -> & Hst & _ & _)]; cbn [app]; [by apply (IH _ l1 Hok)|].
  destruct l1 as [|a l1]; cbn [app]; intros [= <- Hrun]; [|by apply (IH _ l1 Hok)].
  by apply (run_after passes (pass_memory aspec m p) _ up l2 e2 l3 Hok (Hst H1)).
Qed.
End run.

(** ** Theorems *)

(** With autoscaling on, the desired size stays between the floor and the
    ceiling and differs from the clamped live size by at most one cell, in the
    direction the decision reports; no [int32] wraps. *)
Theorem DecideScale_bounds inp aspec :
  si_Autoscaling inp = Some aspec -> as_Enabled aspec = true -> int32_fields inp aspec ->
  let d := DecideScale inp in
  scale_floor inp aspec <= sd_Desired d <= scale_ceiling inp aspec
  /\ sd_Desired d = scale_base inp aspec + (if sd_ScaledUp d then 1 else 0)
                    - (if sd_ScaledDown d then 1 else 0)
  /\ ~ (sd_ScaledUp d = true /\ sd_ScaledDown d = true).
Proof.
  intros Ha He Hok d. pose proof (scale_base_range inp aspec). unfold d.
  destruct (DecideScale_view inp aspec Ha He Hok)
    as [? ? ? ? ? ? E Hu Hd _|? ? ? ? ? ? ? ? ? ? ? ? ? E Hu Hd _|? ? E Hu Hd _];
    rewrite E, Hu, Hd; split_and!; try lia; by intros [? ?].
Qed.

(** The pool grows exactly when demand was read, a request fits one fresh cell,
    the ceiling leaves room, a GPU may be free, and the last growth is a whole
    stabilization window ago. *)
Theorem DecideScale_up_iff inp aspec :
  si_Autoscaling inp = Some aspec -> as_Enabled aspec = true -> int32_fields inp aspec ->
  sd_ScaledUp (DecideScale inp) = true <->
  si_DemandKnown inp = true /\ d_SatisfiableByOneCell (si_Demand inp) <> 0
  /\ scale_base inp aspec < scale_ceiling inp aspec
  /\ (forall free, si_FreeGPUs inp = Some free -> 0 < free)
  /\ quiet (si_LastScaleUp inp) (si_Now inp) (up_window aspec).
Proof.
  intros Ha He Hok.
  destruct (DecideScale_view inp aspec Ha He Hok)
    as [? ? ? ? ? ? E Hu Hd _|? ? ? Hz ? ? ? ? ? ? ? ? ? E Hu Hd _|? ? E Hu Hd _]; rewrite Hu.
  - by split_and!.
  - split; [done|]. by intros (_ & ? & _).
  - split; [done|]. tauto.
Qed.

(** C25. The pool shrinks by itself only when demand was read as absent for a whole
    window, no scaling happened in that window, the policy allows it, the floor
    leaves room and some cell is idle; what it offers for removal is exactly the
    idle cells. *)
Theorem DecideScale_down_safe inp aspec :
  si_Autoscaling inp = Some aspec -> as_Enabled aspec = true -> int32_fields inp aspec ->
  sd_ScaledDown (DecideScale inp) = true ->
  si_DemandKnown inp = true /\ d_SatisfiableByOneCell (si_Demand inp) = 0
  /\ d_PendingRequests (si_Demand inp) <= 0
  /\ as_ScaleDown aspec = ScaleDownAuto /\ scale_floor inp aspec < scale_base inp aspec
  /\ si_IdleCells inp <> [] /\ sd_DrainCandidates (DecideScale inp) = si_IdleCells inp
  /\ (exists t, si_DemandFreeSince inp = Some t /\ t <> 0
                /\ scaleDownWindow aspec <= Sub (si_Now inp) t)
  /\ quiet (si_LastScaleUp inp) (si_Now inp) (scaleDownWindow aspec)
  /\ quiet (si_LastScaleDown inp) (si_Now inp) (scaleDownWindow aspec).
Proof.
  intros Ha He Hok.
  destruct (DecideScale_view inp aspec Ha He Hok)
    as [? ? ? ? ? ? E Hu Hd _|? t ? Hz ? ? ? ? ? ? ? ? ? E Hu Hd Hc|? ? E Hu Hd _];
    rewrite Hd; try done. intros _. split_and!; auto. exists t. auto.
Qed.

(** C29. Over any sequence of reconciles with one autoscaling spec, of the actions
    whose pass wrote the status: two growths are more than the stabilization window
    apart, and a removal is more than the scale-down window after the last growth
    and the last removal before it, less the second to which the status keeps
    time, whatever other passes failed or lost a conflict in between. An action
    whose pass did not come to write the status is not counted: its stamp is
    lost, and that is a finding ([lost_growth]). *)
Theorem scaling_rate_limited aspec m passes l1 e1 l2 e2 l3 :
  as_Enabled aspec = true -> passes_ok aspec m passes ->
  0 < up_window aspec <= MaxInt64 -> 0 < scaleDownWindow aspec <= MaxInt64 ->
  run_scale aspec passes = l1 ++ e1 :: l2 ++ e2 :: l3 ->
  ac_written e1 = true -> ac_written e2 = true ->
  (forall e, e ∈ l2 -> ac_written e = true -> ac_up e <> ac_up e1) ->
  (ac_up e1 = true -> ac_up e2 = true -> spaced (up_window aspec) (ac_time e1) (ac_time e2))
  /\ (ac_up e2 = false -> spaced (scaleDownWindow aspec) (ac_time e1) (ac_time e2)).
Proof. intros. by eapply run_spaced. Qed.

(** The remembered shape is the device it was learned from: a pool scaled to
    zero judges demand by the same device as when it had a cell. *)
Theorem shape_roundtrip c c' d now s :
  ReferenceDevice c = Some d -> RememberShape (Some d) now = Some s ->
  ReferenceDevice c' = None -> CellShape c' (Some s) = Some d.
Proof.
  intros Hr Hs Hn. unfold CellShape. rewrite Hn. simpl in Hs.
  destruct (Z.leb_spec (dev_MemoryMiB d) 0); [done|]. simplify_eq. simpl.
  rewrite (proj2 (Z.leb_gt _ _)) by done. f_equal.
  unfold ReferenceDevice in Hr. induction (cap_ByModel c) as [|m l IH]; simpl in Hr; [done|].
  destruct (m_Devices m <=? 0); [auto|]. by simplify_eq.
Qed.

(** A cell is idle only if it is Ready and its allocations were read and empty. *)
Theorem idleCells_iff provider cells name :
  name ∈ idleCells provider cells <->
  exists c a, c ∈ cells /\ cs_Name c = name /\ cs_Phase c = CellPhaseReady /\ cs_NodeName c <> ""
         /\ prov_Allocations provider (cs_NodeName c) = Ok a
         /\ al_Consumers a = 0 /\ al_InFlight a = false.
Proof.
  unfold idleCells, idle_cell. rewrite elem_of_map_b. setoid_rewrite elem_of_filter_b.
  setoid_rewrite <- Empty_spec. split.
  - intros (c & -> & Hc & Hi). repeat case_bool_decide; simpl in Hi; try done.
    destruct (prov_Allocations provider (cs_NodeName c)) as [a|] eqn:Ea; [|done].
    exists c, a. split_and!; done.
  - intros (c & a & Hc & <- & Hp & Hn & Ha & He). exists c. split_and!; [done|done|].
    rewrite !bool_decide_eq_true_2, bool_decide_eq_false_2 by done. simpl. by rewrite Ha.
Qed.

(** ** Witnesses *)

Definition ex_aspec : AutoscalingSpec := mkAutoscalingSpec true (Some 0) (Some 3) None ScaleDownAuto None.

(** One request waits for a cell of this shape; nothing was scaled before. *)
Definition ex_demand : ScaleInput :=
  mkScaleInput 1 (Some ex_aspec) 1 (mkDemand 1 1) true true (Some 2) [] (1000 * Second) None None None.

(** Two cells, one idle, without demand for forty minutes. *)
Definition ex_idle : ScaleInput :=
  mkScaleInput 1 (Some ex_aspec) 2 (mkDemand 0 0) true true (Some 2) ["inference-1"] (5000 * Second)
    (Some (100 * Second)) None (Some (2000 * Second)).

Lemma DecideScale_bounds_witness :
  sd_Desired (DecideScale ex_demand) = 2 /\ scale_floor ex_demand ex_aspec <= 2.
Proof.
  split; [reflexivity|].
  apply (DecideScale_bounds ex_demand ex_aspec); [reflexivity..|]. split; split; vm_compute; discriminate.
Defined.

Lemma DecideScale_up_iff_witness : sd_ScaledUp (DecideScale ex_demand) = true.
Proof.
  apply (DecideScale_up_iff ex_demand ex_aspec); [reflexivity..| |].
  - split; split; vm_compute; discriminate.
  - split; [reflexivity|]. split; [discriminate|]. split; [reflexivity|]. split.
    + intros free [= <-]. reflexivity.
    + intros t. discriminate.
Defined.

Lemma DecideScale_down_safe_witness :
  sd_ScaledDown (DecideScale ex_idle) = true /\ as_ScaleDown ex_aspec = ScaleDownAuto.
Proof.
  split; [vm_compute; reflexivity|].
  apply (DecideScale_down_safe ex_idle ex_aspec); [reflexivity..| |vm_compute; reflexivity].
  split; split; vm_compute; discriminate.
Defined.

Definition no_memory : ScaleMemory := mkScaleMemory None None None.
Definition ex_pass (last : option Time) (t : Time) (written : bool) : Pass :=
  let inp := {| ex_demand with si_Now := t |} in mkPass inp (mkScaleMemory last None None) t t t written.

(** Between two growths that were stored, a pass that has to wait, and one that
    failed. *)
Definition ex_passes : list Pass :=
  [ex_pass None (1000 * Second) true; ex_pass (Some (1000 * Second)) (1030 * Second) true;
   ex_pass (Some (1000 * Second)) (1660 * Second) false; ex_pass (Some (1000 * Second)) (1700 * Second) true].

Lemma scaling_rate_limited_witness :
  run_scale ex_aspec ex_passes
  = [mkAction (1000 * Second) true true; mkAction (1660 * Second) true false; mkAction (1700 * Second) true true]
  /\ spaced (10 * Minute) (1000 * Second) (1700 * Second).
Proof.
  assert (run_scale ex_aspec ex_passes
    = [mkAction (1000 * Second) true true; mkAction (1660 * Second) true false; mkAction (1700 * Second) true true])
    as E by (vm_compute; reflexivity).
  split; [exact E|].
  assert (passes_ok ex_aspec no_memory ex_passes) as Hok.
  { unfold ex_passes. cbn [passes_ok]. split_and!; try exact I; (split; [split; split; vm_compute; discriminate|
      intros s [-> | ->]; (split; [discriminate|reflexivity])|
      intros H; (reflexivity || discriminate H)]). }
  destruct (scaling_rate_limited ex_aspec no_memory ex_passes [] (mkAction (1000 * Second) true true)
              [mkAction (1660 * Second) true false] (mkAction (1700 * Second) true true) [])
    as [H _]; [reflexivity|exact Hok|split; [reflexivity|discriminate]|split; [reflexivity|discriminate]|
               exact E|reflexivity|reflexivity| |exact (H eq_refl eq_refl)].
  intros e He. apply list_elem_of_singleton in He as ->. discriminate.
Defined.

(** A growth whose pass failed before the update is not remembered: the next pass
    grows the pool again, forty seconds later. *)
Example lost_growth :
  run_scale ex_aspec [ex_pass None (1000 * Second) false; ex_pass None (1040 * Second) true]
  = [mkAction (1000 * Second) true false; mkAction (1040 * Second) true true]
  /\ pass_memory ex_aspec no_memory (ex_pass None (1000 * Second) false) = no_memory.
Proof. split; vm_compute; reflexivity. Qed.

Definition ex_capacity : Capacity :=
  mkCapacity 2 true [mkModelCapacity "Tesla-T4" 2 30720 0 200 0] 30720 0 200 0.

Lemma shape_roundtrip_witness :
  CellShape zeroCapacity (RememberShape (ReferenceDevice ex_capacity) 7)
  = Some (mkDevice "" 0 15360 100 "Tesla-T4" "" true).
Proof. apply (shape_roundtrip ex_capacity zeroCapacity _ 7); reflexivity. Defined.
