(* ===== verification/Rollout.v ===== *)
(** * Rolling updates (internal/controller/rollout.go)

    [PlanRollout] decides whether to replace one cell built from an older
    template. *)

From S2P Require Import Prelude GoStd Api Fsm.
Local Open Scope Z_scope.
Local Open Scope go_scope.

Record RolloutInput := mkRolloutInput {
  ri_Policy : option UpdatePolicySpec;
  ri_DesiredHash : string;
  ri_Cells : list CellStatus;
  ri_IdleCells : list string;
  ri_WorkloadReachable : bool;
  ri_AtDesiredSize : bool
}.

Record RolloutDecision := mkRolloutDecision {
  rd_Drain : string;
  rd_UpToDate : bool;
  rd_StaleCells : int;
  rd_Reason : string;
  rd_Message : string
}.

(** Built from a different template, not on its way out; an unknown hash is not stale. *)
Definition stale_cell (desired : string) (c : CellStatus) : bool :=
  match cs_Phase c with
  | CellPhaseDraining | CellPhaseDeleting => false
  | _ => (cs_TemplateHash c != "") && (cs_TemplateHash c != desired)
  end.
Definition staleCells (cells : list CellStatus) (desired : string) : list string :=
  map cs_Name (List.filter (stale_cell desired) cells).

Fixpoint midFlight (cells : list CellStatus) : string :=
  match cells with
  | [] => ""
  | c :: rest =>
      match cs_Phase c with
      | CellPhaseDraining | CellPhaseDeleting | CellPhasePending | CellPhaseAllocatingGPU
      | CellPhaseGuestProvisioning | CellPhaseBooting | CellPhaseJoining
      | CellPhaseAwaitingGPUCapacity => cs_Name c
      | _ => midFlight rest
      end
  end.

Fixpoint contains (haystack : list string) (needle : string) : bool :=
  match haystack with
  | [] => false
  | h :: rest => if h == needle then true else contains rest needle
  end.

(** The first stale cell that is idle. *)
Fixpoint first_idle (stale idle : list string) : option string :=
  match stale with
  | [] => None
  | c :: rest => if contains idle c then Some c else first_idle rest idle
  end.

Definition PlanRollout (inp : RolloutInput) : RolloutDecision :=
  let stale := staleCells (ri_Cells inp) (ri_DesiredHash inp) in
  let n := len stale in
  if n =? 0 then mkRolloutDecision "" true n ReasonAllCellsCurrent ""
  else
  let msg := itoa n +:+ " cell(s) were created from an older template" in
  let rolling := match ri_Policy inp with Some p => up_Type p == UpdateRolling | None => false end in
  if negb rolling
  then mkRolloutDecision "" false n ReasonTemplateChanged
         (msg +:+ "; updatePolicy.type is Manual, so they are left alone")
  else
  let blocked why :=
    mkRolloutDecision "" false n ReasonUpdateBlocked (itoa n +:+ " cell(s) out of date: " +:+ why) in
  if negb (ri_WorkloadReachable inp)
  then blocked "the workload cluster is unreachable, so it is unknown whether they hold work"
  else if negb (ri_AtDesiredSize inp)
  then blocked "the pool is still resizing; a rollout must not race a scaling decision"
  else
  let busy := midFlight (ri_Cells inp) in
  if busy != "" then blocked ("cell " +:+ busy +:+ " is already being replaced or created")
  else match first_idle stale (ri_IdleCells inp) with
       | Some c => mkRolloutDecision c false n ReasonRollingUpdate
                     ("replacing " +:+ c +:+ " to adopt the current template (" +:+ itoa n
                      +:+ " out of date)")
       | None => blocked "none of them is reported idle — a cell whose allocations cannot be read is never replaced either"
       end.

(** ** Lemmas *)

Lemma contains_iff l s : contains l s = true <-> s ∈ l.
Proof.
  induction l as [|h l IH]; simpl; [by rewrite elem_of_nil|].
  rewrite elem_of_cons. case_bool_decide; naive_solver.
Qed.

Lemma first_idle_Some stale idle c :
  first_idle stale idle = Some c -> c ∈ stale /\ c ∈ idle.
Proof.
  induction stale as [|x stale IH]; simpl; [done|].
  destruct (contains idle x) eqn:E; [|intros H; destruct (IH H); set_solver].
  intros [= <-]. apply contains_iff in E. set_solver.
Qed.

Lemma first_idle_None stale idle :
  first_idle stale idle = None <-> forall c, c ∈ stale -> c ∉ idle.
Proof.
  induction stale as [|x stale IH]; simpl; [split; [by intros _ ? ?%elem_of_nil|done]|].
  destruct (contains idle x) eqn:E.
  - split; [done|]. intros H. destruct (H x); [left|by apply contains_iff].
  - assert (x ∉ idle) by (rewrite <- contains_iff; congruence).
    rewrite IH. split; [intros H' c [->|?]%elem_of_cons; auto|intros H' c ?; apply H'; by right].
Qed.

(** A settled phase: the cell is neither coming nor going. *)
Definition settled (c : CellStatus) : Prop :=
  cs_Phase c = CellPhaseReady \/ cs_Phase c = CellPhaseFailed \/ cs_Phase c = CellPhaseNone.

Lemma midFlight_none cells :
  (forall c, c ∈ cells -> cs_Name c <> "") ->
  midFlight cells = "" <-> forall c, c ∈ cells -> settled c.
Proof.
  induction cells as [|c cells IH]; intros Hn; simpl; [split; [by intros _ ? ?%elem_of_nil|done]|].
  specialize (IH ltac:(intros; apply Hn; by right)). pose proof (Hn c ltac:(left)) as Hc.
  unfold settled in *. destruct (cs_Phase c) eqn:Ep; simpl;
    first [ rewrite IH; split; [intros H c' [->|?]%elem_of_cons; auto|intros H c' ?; apply H; by right]
          | split; [done|]; intros H; destruct (H c ltac:(left)) as [?|[?|?]]; congruence ].
Qed.

(** ** Theorems *)

(** A rolling update replaces a cell only when asked to, with the workload
    cluster readable, the pool at its size and no other cell coming or going;
    the cell is stale and reported idle. When all of that holds and some stale
    cell is idle, one is replaced: the first in order. *)
Theorem PlanRollout_drain inp c :
  (forall x, x ∈ ri_Cells inp -> cs_Name x <> "") -> c <> "" ->
  rd_Drain (PlanRollout inp) = c <->
  (exists p, ri_Policy inp = Some p /\ up_Type p = UpdateRolling)
  /\ ri_WorkloadReachable inp = true /\ ri_AtDesiredSize inp = true
  /\ (forall x, x ∈ ri_Cells inp -> settled x)
  /\ first_idle (staleCells (ri_Cells inp) (ri_DesiredHash inp)) (ri_IdleCells inp) = Some c.
Proof.
  intros Hn Hc. pose proof (midFlight_none _ Hn) as Hm. unfold PlanRollout.
  set (stale := staleCells _ _).
  destruct (Z.eqb_spec (len stale) 0) as [Hz|Hz]; rewrite len_zero in Hz; simpl.
  { rewrite Hz. split; [congruence|]. by intros (_ & _ & _ & _ & ?). }
  assert (match ri_Policy inp with Some p => up_Type p == UpdateRolling | None => false end = true
          <-> exists p, ri_Policy inp = Some p /\ up_Type p = UpdateRolling) as Hp.
  { destruct (ri_Policy inp); [rewrite bool_decide_eq_true|]; naive_solver. }
  rewrite <- Hp. destruct (match ri_Policy inp with Some _ => _ | None => _ end); simpl.
  2: { split; [congruence|]. by intros [? _]. }
  destruct (ri_WorkloadReachable inp), (ri_AtDesiredSize inp); simpl;
    try (split; [congruence|naive_solver]).
  rewrite <- Hm. case_bool_decide as Eb; simpl; [|split; [congruence|naive_solver]].
  destruct (first_idle stale (ri_IdleCells inp)) eqn:Ef; simpl; split; try congruence; naive_solver.
Qed.

(** The Updated condition is True exactly when no cell that stays is known to
    run another template. *)
Theorem PlanRollout_UpToDate inp :
  rd_UpToDate (PlanRollout inp) = true <->
  forall c, c ∈ ri_Cells inp -> cs_Phase c <> CellPhaseDraining -> cs_Phase c <> CellPhaseDeleting ->
       cs_TemplateHash c = "" \/ cs_TemplateHash c = ri_DesiredHash inp.
Proof.
  unfold PlanRollout. set (stale := staleCells _ _).
  assert (len stale = 0 <-> forall c, c ∈ ri_Cells inp -> stale_cell (ri_DesiredHash inp) c = false) as Hs.
  { rewrite len_zero. unfold stale, staleCells. rewrite fmap_nil_iff_b.
    induction (ri_Cells inp) as [|c l IH]; simpl; [split; [by intros _ ? ?%elem_of_nil|done]|].
    destruct (stale_cell _ c) eqn:E.
    - split; [done|]. intros H. rewrite (H c ltac:(left)) in E. done.
    - rewrite IH. split; [intros H c' [->|?]%elem_of_cons; auto|intros H c' ?; apply H; by right]. }
  transitivity (len stale = 0).
  - destruct (Z.eqb_spec (len stale) 0); simpl; [done|].
    split; [|done]. repeat (match goal with |- context [if ?b then _ else _] => destruct b; simpl; try done end).
    by destruct (first_idle _ _).
  - rewrite Hs. apply forall_proper. intros c. unfold stale_cell.
    destruct (cs_Phase c); split; intros H; try tauto; try done;
      intros; specialize (H ltac:(done)); repeat case_bool_decide; try tauto; try done;
      destruct H; try done.
Qed.

(** ** Witness *)

Definition ex_ready (name hash : string) : CellStatus :=
  {| zeroCellStatus with cs_Name := name; cs_Phase := CellPhaseReady; cs_TemplateHash := hash |}.

Definition ex_rollout : RolloutInput :=
  mkRolloutInput (Some (mkUpdatePolicySpec UpdateRolling)) "new"
    [ex_ready "inference-0" "new"; ex_ready "inference-1" "old"; ex_ready "inference-2" "old"]
    ["inference-2"] true true.

Lemma PlanRollout_drain_witness :
  rd_Drain (PlanRollout ex_rollout) = "inference-2"
  /\ forall x, x ∈ ri_Cells ex_rollout -> settled x.
Proof.
  split; [vm_compute; reflexivity|].
  apply (PlanRollout_drain ex_rollout "inference-2"); [|done|vm_compute; reflexivity].
  intros x Hx. repeat (apply elem_of_cons in Hx as [->|Hx]; [done|]). by apply elem_of_nil in Hx.
Defined.
