(* ===== verification/Helpers.v ===== *)
(** * Pool helpers (internal/controller/helpers.go)

    The defaults the reconciler resolves from a pool, and the counts it derives
    from its cells. *)

From S2P Require Import Prelude GoStd Api Provisioner.
Local Open Scope Z_scope.
Local Open Scope go_scope.

Definition clientKey (pool : GPUCellPool) : string :=
  pool_Namespace pool +:+ "/" +:+ wc_KubeconfigSecretRef (spec_WorkloadCluster (pool_Spec pool)).

Definition phaseOr (p fallback : CellPhase) : CellPhase :=
  if p == CellPhaseNone then fallback else p.

Definition transitionOr (t : option Time) (fallback : Time) : Time := default fallback t.

Definition durationOr (d : option Duration) (fallback : Duration) : Duration :=
  match d with
  | Some d => if d =? 0 then fallback else d
  | None => fallback
  end.

Definition expectedDevices (pool : GPUCellPool) : int :=
  let count := gpu_Count (cell_GPU (spec_Cell (pool_Spec pool))) in
  let fallback := if 0 <? count then count else 1 in
  match cap_HAMi (spec_Capacity (pool_Spec pool)) with
  | Some h => match hami_ExpectedDevicesPerCell h with Some n => n | None => fallback end
  | None => fallback
  end.

Definition hamiMode (pool : GPUCellPool) : string :=
  match cap_HAMi (spec_Capacity (pool_Spec pool)) with
  | Some h => if hami_Mode h != "" then hami_Mode h else HAMiModeDevicePlugin
  | None => HAMiModeDevicePlugin
  end.

Definition gpuBackend (pool : GPUCellPool) : string :=
  let b := gpu_Backend (cell_GPU (spec_Cell (pool_Spec pool))) in
  if b != "" then b else GPUBackendDRA.

Definition hamiDeviceClass (pool : GPUCellPool) : string :=
  match cap_HAMi (spec_Capacity (pool_Spec pool)) with
  | Some h => hami_DeviceClassName h
  | None => ""
  end.

Definition providerName (pool : GPUCellPool) : string :=
  let p := cap_Provider (spec_Capacity (pool_Spec pool)) in
  if p != "" then p else CapacityProviderHAMi.

Definition deletionPolicy (pool : GPUCellPool) : string :=
  match spec_Deletion (pool_Spec pool) with
  | Some d => if del_Policy d != "" then del_Policy d else DeletionPolicyDrain
  | None => DeletionPolicyDrain
  end.

Definition drainTimeout (pool : GPUCellPool) : Duration :=
  match spec_Deletion (pool_Spec pool) with
  | Some d => durationOr (del_DrainTimeout d) (10 * Minute)
  | None => 10 * Minute
  end.

Definition nodeLabels (pool : GPUCellPool) : gmap string string :=
  match wc_Node (spec_WorkloadCluster (pool_Spec pool)) with Some n => wn_Labels n | None => ∅ end.
Definition nodeAnnotations (pool : GPUCellPool) : gmap string string :=
  match wc_Node (spec_WorkloadCluster (pool_Spec pool)) with Some n => wn_Annotations n | None => ∅ end.
Definition nodeTaints (pool : GPUCellPool) : list Taint :=
  match wc_Node (spec_WorkloadCluster (pool_Spec pool)) with Some n => wn_Taints n | None => [] end.

Definition everReady (pool : GPUCellPool) (cells : list CellStatus) : bool :=
  existsb (fun c => cs_Phase c == CellPhaseReady) cells
  || existsb (fun c => (c_Type c == ConditionReady) && (c_Reason c == ReasonAllCellsReady))
       (st_Conditions (pool_Status pool))
  || (0 <? st_ReadyCells (pool_Status pool)).

Definition autoscalingEnabled (pool : GPUCellPool) : bool :=
  match spec_Autoscaling (pool_Spec pool) with Some a => as_Enabled a | None => false end.

Definition autoScaleDown (pool : GPUCellPool) : bool :=
  autoscalingEnabled pool &&
  match spec_Autoscaling (pool_Spec pool) with Some a => as_ScaleDown a == ScaleDownAuto | None => false end.

Definition rollingUpdate (pool : GPUCellPool) : bool :=
  match spec_UpdatePolicy (pool_Spec pool) with Some u => up_Type u == UpdateRolling | None => false end.

Definition needsIdleness (pool : GPUCellPool) : bool := autoScaleDown pool || rollingUpdate pool.

Definition count_live (n : int32) (c : CellStatus) : int32 :=
  match cs_Phase c with
  | CellPhaseDraining | CellPhaseDeleting => n
  | CellPhaseFailed => if cs_GuestUID c != "" then wrap32 (n + 1) else n
  | _ => wrap32 (n + 1)
  end.
Definition liveCells (cells : list CellStatus) : int32 := foldl count_live 0 cells.

Definition readyNodeNames (cells : list CellStatus) : list string :=
  List.filter (fun n => n != "") (map cs_NodeName cells).

Definition capiOwnsBootstrap (pool : GPUCellPool) : bool :=
  (cell_Provisioner (spec_Cell (pool_Spec pool)) == ProvisionerClusterAPI) &&
  match cell_ClusterAPI (spec_Cell (pool_Spec pool)) with
  | Some c => match capi_BootstrapConfigTemplateRef c with Some _ => true | None => false end
  | None => false
  end.

(** ** Lemmas *)

(** An example pool, for the witnesses of the files that require this one. *)
Definition ex_spec : GPUCellPoolSpec :=
  mkGPUCellPoolSpec 2
    (mkCellSpec "" ex_template (mkCellGPUSpec 1 "" (Some (mkCellGPUDRASpec "gpu" "" "" "" "")) None) "" "" None)
    (mkBootstrapSpec BootstrapProviderOpaque (Some "join") "" "" None)
    (mkWorkloadClusterSpec "kubeconfig" "" None)
    (mkCapacitySpec "" None None) None None None.
Definition ex_status : GPUCellPoolStatus :=
  mkGPUCellPoolStatus 0 0 0 0 0 0 0 None None None None None None None [] [].
Definition ex_pool : GPUCellPool :=
  mkGPUCellPool "inference" "gpu" "pool-uid" 1 None [FinalizerPool] ex_spec ex_status.
