(* ===== verification/Status.v ===== *)
(** * Pool status (internal/controller/status.go)

    The counts, the published capacity and the conditions of a pool. *)

From S2P Require Import Prelude GoStd Api KubeApi Provider Fsm Membership Scaling Rollout.
Local Open Scope Z_scope.
Local Open Scope go_scope.

(** ** Counts *)

Record Counts := mkCounts {
  n_total : int32; n_ready : int32; n_creating : int32; n_draining : int32; n_failed : int32
}.

Definition count_phase (n : Counts) (c : CellStatus) : Counts :=
  let n := {| n with n_total := wrap32 (n_total n + 1) |} in
  match cs_Phase c with
  | CellPhaseReady => {| n with n_ready := wrap32 (n_ready n + 1) |}
  | CellPhaseFailed => {| n with n_failed := wrap32 (n_failed n + 1) |}
  | CellPhaseDraining | CellPhaseDeleting => {| n with n_draining := wrap32 (n_draining n + 1) |}
  | _ => {| n with n_creating := wrap32 (n_creating n + 1) |}
  end.

Definition CountCells (cells : list CellStatus) : Counts := foldl count_phase (mkCounts 0 0 0 0 0) cells.

(** ** Published capacity *)

Definition mib : int64 := 1024 * 1024.

Definition memoryCapacity (totalMiB allocatedMiB : int64) : MemoryCapacity :=
  mkMemoryCapacity (wrap64 (totalMiB * mib)) (wrap64 (allocatedMiB * mib))
    (wrap64 (wrap64 (totalMiB - allocatedMiB) * mib)).

(** The conversions to [int32] truncate. *)
Definition computeCapacity (total allocated : int64) : ComputeCapacity :=
  mkComputeCapacity (wrap32 total) (wrap32 allocated) (wrap32 (wrap64 (total - allocated))).

Definition modelCapacityStatus (m : ModelCapacity) : ModelCapacityStatus :=
  mkModelCapacityStatus (m_Model m) (wrap32 (m_Devices m))
    (Some (memoryCapacity (m_MemoryTotalMiB m) (m_MemoryAllocatedMiB m)))
    (Some (computeCapacity (m_ComputeTotal m) (m_ComputeAllocated m))).

Definition WorkloadCapacityStatusOf (provider mode : string) (c : Capacity) (observed : Time)
    : WorkloadCapacityStatus :=
  mkWorkloadCapacityStatus provider mode (wrap32 (cap_Devices c)) (cap_Homogeneous c)
    (Some (memoryCapacity (cap_MemoryTotalMiB c) (cap_MemoryAllocatedMiB c)))
    (if cap_Homogeneous c
     then Some (computeCapacity (cap_ComputeTotal c) (cap_ComputeAllocated c)) else None)
    (map modelCapacityStatus (cap_ByModel c))
    (Some observed).

(** ** Conditions *)

Record ConditionInput := mkConditionInput {
  ci_Generation : int64;
  ci_Desired : int32;
  ci_Ready : int32;
  ci_WorkloadReachable : bool;
  ci_WorkloadReason : string;
  ci_WorkloadMessage : string;
  ci_ProviderHealth : Health;
  ci_CapacityKnown : bool;
  ci_Capacity : Capacity;
  ci_FreeGPUs : option int;
  ci_CellsWaitingForGPU : int;
  ci_Membership : MembershipPlan;
  ci_Progressing : bool;
  ci_Rollout : RolloutDecision;
  ci_Autoscaling : bool;
  ci_Scale : ScaleDecision;
  ci_DemandKnown : bool
}.

Definition deref (p : option int) : int := default 0 p.

Definition emptyByDesign (inp : ConditionInput) : bool := (ci_Desired inp =? 0) && (ci_Ready inp =? 0).

(** The closure [set]: one condition, its transition time left to the merge. *)
Definition set_condition (inp : ConditionInput) (t : string) (ok : bool) (reason msg : string) : Condition :=
  mkCondition t (if ok then ConditionTrue else ConditionFalse) (ci_Generation inp) 0 reason msg.

Definition reachable_condition (inp : ConditionInput) : Condition :=
  set_condition inp ConditionWorkloadClusterReachable (ci_WorkloadReachable inp)
    (if ci_WorkloadReason inp == "" then ReasonConnected else ci_WorkloadReason inp)
    (ci_WorkloadMessage inp).

Definition provider_condition (inp : ConditionInput) : Condition :=
  let h := ci_ProviderHealth inp in
  set_condition inp ConditionCapacityProviderReady (h_Ready h)
    (if h_Reason h == "" then ReasonHAMiDetected else h_Reason h) (h_Message h).

Definition physical_condition (inp : ConditionInput) : Condition :=
  let wantsGPU := (0 <? ci_CellsWaitingForGPU inp)
                  || (mp_Reason (ci_Membership inp) == ReasonInsufficientGPUs) in
  match ci_FreeGPUs inp with
  | None => set_condition inp ConditionPhysicalGPUsAvailable true ReasonCapacityUnknown
              "free GPU count could not be read from the infrastructure cluster"
  | Some free =>
      if (free <=? 0) && wantsGPU then
        set_condition inp ConditionPhysicalGPUsAvailable false ReasonInsufficientGPUs
          (if 0 <? ci_CellsWaitingForGPU inp
           then itoa (ci_CellsWaitingForGPU inp)
                +:+ " cell(s) waiting and no free GPU in the infrastructure cluster"
           else "the pool wants more cells and no free GPU is available in the infrastructure cluster")
      else
        set_condition inp ConditionPhysicalGPUsAvailable true ReasonFreeDevices
          (itoa (deref (ci_FreeGPUs inp)) +:+ " free GPU(s) in the infrastructure cluster")
  end.

Definition capacity_condition (inp : ConditionInput) : Condition :=
  let c := ci_Capacity inp in
  let set := set_condition inp ConditionCapacityAvailable in
  if negb (ci_CapacityKnown inp) then
    set false ReasonCapacityUnknown "capacity could not be read; the last known values are retained"
  else if negb (cap_Homogeneous c) then
    set (cap_MemoryAllocatedMiB c <? cap_MemoryTotalMiB c) ReasonHeterogeneous
      "pool holds more than one GPU model; per-model capacity is authoritative and the pool-wide compute aggregate is omitted"
  else if (cap_Devices c =? 0) && emptyByDesign inp then
    set false ReasonScaledToZero
      ("the pool holds no cells, so it advertises no GPU capacity; "
       +:+ "a pending request that one cell can satisfy will create one")
  else if cap_Devices c =? 0 then
    set false ReasonCapacityUnknown "no GPU devices are advertised by the capacity provider yet"
  else if (cap_MemoryTotalMiB c <=? cap_MemoryAllocatedMiB c)
          || (cap_ComputeTotal c <=? cap_ComputeAllocated c) then
    set false ReasonSaturated "every advertised GPU is fully allocated"
  else set true ReasonCapacityFree "".

Definition progress_condition (inp : ConditionInput) : Condition :=
  let m := ci_Membership inp in
  let progressing := ci_Progressing inp && negb (mp_Stalled m) in
  let '(reason, msg) :=
    if mp_Stalled m then (mp_Reason m, mp_Message m)
    else if progressing then (ReasonCellCreating, mp_Message m)
    else (ReasonIdle, "") in
  set_condition inp ConditionProgressing progressing reason msg.

Definition ready_condition_of (inp : ConditionInput) : Condition :=
  let ready := ci_Ready inp =? ci_Desired inp in
  let '(ready, reason, msg) :=
    if negb (ci_WorkloadReachable inp) then (false, ReasonUnreachable, "workload cluster unreachable")
    else if negb (h_Ready (ci_ProviderHealth inp))
    then (false, h_Reason (ci_ProviderHealth inp), h_Message (ci_ProviderHealth inp))
    else if emptyByDesign inp
    then (ready, ReasonScaledToZero, "the pool holds no cells by design (desired 0)")
    else if negb ready
    then (ready, ReasonCellsNotReady,
           itoa (ci_Ready inp) +:+ " of " +:+ itoa (ci_Desired inp) +:+ " cells are Ready")
    else (ready, ReasonAllCellsReady, "") in
  set_condition inp ConditionReady ready reason msg.

Definition ComputeConditions (inp : ConditionInput) : list Condition :=
  [reachable_condition inp; provider_condition inp; physical_condition inp; capacity_condition inp;
   progress_condition inp]
  ++ (if ci_Autoscaling inp
      then [set_condition inp ConditionScalingActive (ci_DemandKnown inp) (sd_Reason (ci_Scale inp))
              (sd_Message (ci_Scale inp))]
      else [])
  ++ [set_condition inp ConditionUpdated (rd_UpToDate (ci_Rollout inp)) (rd_Reason (ci_Rollout inp))
        (rd_Message (ci_Rollout inp));
      ready_condition_of inp].

(** ** Merging conditions

    meta.SetStatusCondition belongs to apimachinery, so it is a parameter; what
    the merge relies on is its documented behaviour. *)

Definition find_condition (t : string) (l : list Condition) : option Condition :=
  List.find (fun c => c_Type c == t) l.

(** What is documented of one call: the condition of the type is the new one,
    with the transition time it had when the status did not change; the
    conditions of other types are untouched. *)
Class ConditionMerge (setCond : list Condition -> Condition -> list Condition) : Prop := {
  merge_same : forall l c, exists c', find_condition (c_Type c) (setCond l c) = Some c'
    /\ c_Type c' = c_Type c /\ c_Status c' = c_Status c /\ c_Reason c' = c_Reason c
    /\ c_Message c' = c_Message c /\ c_ObservedGeneration c' = c_ObservedGeneration c
    /\ (forall old, find_condition (c_Type c) l = Some old -> c_Status old = c_Status c ->
               c_LastTransitionTime c' = c_LastTransitionTime old);
  merge_other : forall l c t, t <> c_Type c -> find_condition t (setCond l c) = find_condition t l
}.

Definition ApplyConditions (setCond : list Condition -> Condition -> list Condition)
    (existing computed : list Condition) : list Condition :=
  foldl setCond existing computed.

(** ** Lemmas *)

Definition phase_class (p : CellPhase) : Z :=
  match p with
  | CellPhaseReady => 1 | CellPhaseFailed => 2 | CellPhaseDraining | CellPhaseDeleting => 3 | _ => 4
  end.
Definition count_class (k : Z) (cells : list CellStatus) : Z :=
  len (List.filter (fun c => phase_class (cs_Phase c) =? k) cells).

Lemma CountCells_gen cells n :
  int32_ok (n_total n) -> int32_ok (n_ready n) -> int32_ok (n_creating n) ->
  int32_ok (n_draining n) -> int32_ok (n_failed n) ->
  foldl count_phase n cells =
  mkCounts (wrap32 (n_total n + len cells)) (wrap32 (n_ready n + count_class 1 cells))
    (wrap32 (n_creating n + count_class 4 cells)) (wrap32 (n_draining n + count_class 3 cells))
    (wrap32 (n_failed n + count_class 2 cells)).
Proof.
  unfold count_class. revert n. induction cells as [|c cells IH]; intros n H1 H2 H3 H4 H5; simpl.
  { rewrite !len_nil, !Z.add_0_r, !wrap32_id by done. by destruct n. }
  rewrite IH; unfold count_phase.
  all: destruct (cs_Phase c); simpl; auto with go.
  all: rewrite ?len_cons, ?wrap32_add_l; f_equal; f_equal; lia.
Qed.

Lemma count_class_bounds k cells : 0 <= count_class k cells <= len cells.
Proof. split; [apply len_nonneg|apply len_filter_le]. Qed.

Lemma count_class_sum cells :
  count_class 1 cells + count_class 2 cells + count_class 3 cells + count_class 4 cells = len cells.
Proof.
  unfold count_class. induction cells as [|c cells IH]; simpl; [done|].
  destruct (cs_Phase c); simpl; rewrite ?len_cons; lia.
Qed.

Lemma CountCells_exact cells :
  len cells <= MaxInt32 ->
  CountCells cells = mkCounts (len cells) (count_class 1 cells) (count_class 4 cells)
                       (count_class 3 cells) (count_class 2 cells).
Proof.
  intros Hl. unfold CountCells. rewrite CountCells_gen by done. simpl.
  pose proof (len_nonneg cells). pose proof (count_class_bounds 1 cells).
  pose proof (count_class_bounds 2 cells). pose proof (count_class_bounds 3 cells).
  pose proof (count_class_bounds 4 cells).
  rewrite !wrap32_id by (unfold int32_ok, MinInt32, MaxInt32 in *; lia). done.
Qed.

Lemma ApplyConditions_other `{ConditionMerge setCond} existing computed t :
  t ∉ map c_Type computed ->
  find_condition t (ApplyConditions setCond existing computed) = find_condition t existing.
Proof.
  revert existing. unfold ApplyConditions.
  induction computed as [|c computed IH]; intros existing Hn; simpl in *; [done|].
  rewrite not_elem_of_cons in Hn. destruct Hn as [Hc Hn]. rewrite IH by done. by apply merge_other.
Qed.

Definition condition_types (autoscaling : bool) : list string :=
  [ConditionWorkloadClusterReachable; ConditionCapacityProviderReady; ConditionPhysicalGPUsAvailable;
   ConditionCapacityAvailable; ConditionProgressing]
  ++ (if autoscaling then [ConditionScalingActive] else []) ++ [ConditionUpdated; ConditionReady].

Lemma ComputeConditions_types inp : map c_Type (ComputeConditions inp) = condition_types (ci_Autoscaling inp).
Proof.
  unfold ComputeConditions, physical_condition, capacity_condition, progress_condition, ready_condition_of.
  destruct (ci_Autoscaling inp); simpl; repeat f_equal; repeat case_match; done.
Qed.

Lemma condition_types_NoDup a : NoDup (condition_types a).
Proof. destruct a; apply (bool_decide_unpack _); vm_compute; exact I. Qed.

Lemma find_condition_NoDup l c :
  NoDup (map c_Type l) -> c ∈ l -> find_condition (c_Type c) l = Some c.
Proof.
  unfold find_condition. induction l as [|x l IH]; simpl; [by intros _ ?%elem_of_nil|].
  rewrite NoDup_cons. intros [Hx Hn] [->|Hc]%elem_of_cons; case_bool_decide as E; auto; [done|].
  exfalso. apply Hx. rewrite E. apply elem_of_map_b. eauto.
Qed.

(** ** Theorems *)

(** The status counters partition the cells: every cell is counted once. *)
Theorem CountCells_partition cells :
  len cells <= MaxInt32 ->
  let n := CountCells cells in
  n_total n = len cells
  /\ n_total n = n_ready n + n_creating n + n_draining n + n_failed n
  /\ n_ready n = len (List.filter (fun c => cs_Phase c == CellPhaseReady) cells)
  /\ n_failed n = len (List.filter (fun c => cs_Phase c == CellPhaseFailed) cells).
Proof.
  intros Hl n. unfold n. rewrite CountCells_exact by done. simpl.
  pose proof (count_class_sum cells). split_and!; [done|lia| |];
    unfold count_class; f_equal; apply filter_ext; intros c; by destruct (cs_Phase c).
Qed.

(** The pool is reported Ready exactly when the workload cluster is reachable,
    the capacity provider is ready and as many cells are Ready as the scaling
    decision wants. *)
Theorem Ready_condition_iff inp :
  exists c, find_condition ConditionReady (ComputeConditions inp) = Some c /\
  (c_Status c = ConditionTrue <->
   ci_WorkloadReachable inp = true /\ h_Ready (ci_ProviderHealth inp) = true
   /\ ci_Ready inp = ci_Desired inp).
Proof.
  exists (ready_condition_of inp). split.
  - replace ConditionReady with (c_Type (ready_condition_of inp))
      by (unfold ready_condition_of; by repeat case_match).
    apply find_condition_NoDup.
    + rewrite ComputeConditions_types. apply condition_types_NoDup.
    + unfold ComputeConditions. set_solver.
  - unfold ready_condition_of.
    destruct (ci_WorkloadReachable inp), (h_Ready (ci_ProviderHealth inp)); simpl;
      try (split; [done|naive_solver]).
    destruct (emptyByDesign inp), (Z.eqb_spec (ci_Ready inp) (ci_Desired inp)); simpl; naive_solver.
Qed.

(** Published memory adds up, and so does compute; the pool-wide compute
    aggregate is published only for a homogeneous pool. *)
Theorem capacity_status_adds_up provider mode c now :
  0 <= cap_MemoryAllocatedMiB c <= cap_MemoryTotalMiB c -> cap_MemoryTotalMiB c * mib <= MaxInt64 ->
  0 <= cap_ComputeAllocated c <= cap_ComputeTotal c -> cap_ComputeTotal c <= MaxInt32 ->
  let s := WorkloadCapacityStatusOf provider mode c now in
  (exists m, wcs_GPUMemory s = Some m /\ mc_Total m = mc_Allocated m + mc_Available m
        /\ mc_Total m = cap_MemoryTotalMiB c * mib /\ 0 <= mc_Available m)
  /\ (if cap_Homogeneous c
      then exists m, wcs_GPUCompute s = Some m /\ cc_Total m = cc_Allocated m + cc_Available m
                /\ cc_Total m = cap_ComputeTotal c /\ 0 <= cc_Available m
      else wcs_GPUCompute s = None).
Proof.
  intros Hm Hb Hc Hd s. unfold mib, MaxInt64, MaxInt32 in *. split.
  - exists (memoryCapacity (cap_MemoryTotalMiB c) (cap_MemoryAllocatedMiB c)). split; [done|].
    unfold memoryCapacity, mib. simpl.
    rewrite !wrap64_id; unfold int64_ok, MinInt64, MaxInt64; try lia.
    rewrite wrap64_id; unfold int64_ok, MinInt64, MaxInt64; lia.
  - unfold s. simpl. destruct (cap_Homogeneous c); [|done].
    exists (computeCapacity (cap_ComputeTotal c) (cap_ComputeAllocated c)). split; [done|].
    unfold computeCapacity. simpl.
    rewrite (wrap64_id (_ - _)) by (unfold int64_ok, MinInt64, MaxInt64; lia).
    rewrite !wrap32_id; unfold int32_ok, MinInt32, MaxInt32; lia.
Qed.

(** One of a list of conditions of distinct types, merged one after the other. *)
Lemma ApplyConditions_new `{ConditionMerge setCond} existing computed c :
  NoDup (map c_Type computed) -> c ∈ computed ->
  exists c', find_condition (c_Type c) (ApplyConditions setCond existing computed) = Some c'
    /\ c_Status c' = c_Status c /\ c_Reason c' = c_Reason c /\ c_Message c' = c_Message c
    /\ (forall old, find_condition (c_Type c) existing = Some old -> c_Status old = c_Status c ->
               c_LastTransitionTime c' = c_LastTransitionTime old).
Proof.
  intros Hn. revert Hn existing.
  induction computed as [|x computed IH]; intros Hn existing Hc; [by apply elem_of_nil in Hc|].
  simpl in Hn. apply NoDup_cons in Hn as [Hx Hn].
  apply elem_of_cons in Hc as [->|Hc].
  - destruct (merge_same existing x) as (c' & Hf & _ & ? & ? & ? & _ & Ht). exists c'.
    split; [|by split_and!]. rewrite <- Hf. by apply (ApplyConditions_other (setCond existing x)).
  - destruct (IH Hn (setCond existing x) Hc) as (c' & Hf & ? & ? & ? & Ht).
    exists c'. split_and!; auto. intros old Ho Hs. apply Ht; [|done].
    rewrite merge_other; [done|]. intros E. apply Hx. rewrite <- E. by apply elem_of_map_b; eauto.
Qed.

(** Merging publishes every computed condition, once: its status, reason and
    message are the computed ones, its transition time is kept when the status
    did not change, and no other condition is touched. *)
Theorem ApplyConditions_merges `{ConditionMerge setCond} existing inp c :
  c ∈ ComputeConditions inp ->
  exists c', find_condition (c_Type c) (ApplyConditions setCond existing (ComputeConditions inp)) = Some c'
    /\ c_Status c' = c_Status c /\ c_Reason c' = c_Reason c /\ c_Message c' = c_Message c
    /\ (forall old, find_condition (c_Type c) existing = Some old -> c_Status old = c_Status c ->
               c_LastTransitionTime c' = c_LastTransitionTime old).
Proof.
  apply ApplyConditions_new. rewrite ComputeConditions_types. apply condition_types_NoDup.
Qed.

(** ** Witnesses *)

(** A merge with the documented behaviour, at clock reading [now]. *)
Fixpoint merge_condition (now : Time) (l : list Condition) (c : Condition) : list Condition :=
  match l with
  | [] => [ {| c with c_LastTransitionTime := now |} ]
  | old :: rest =>
      if c_Type old == c_Type c
      then {| c with c_LastTransitionTime :=
                if c_Status old == c_Status c then c_LastTransitionTime old else now |} :: rest
      else old :: merge_condition now rest c
  end.

#[export] Instance merge_condition_ok now : ConditionMerge (merge_condition now).
Proof.
  split; unfold find_condition.
  - intros l c. induction l as [|old l (c' & Hf & Hr)]; simpl.
    { rewrite bool_decide_eq_true_2 by done. eexists. split_and!; [done..|]. by intros. }
    destruct (bool_decide_reflect (c_Type old = c_Type c)) as [E|E]; simpl.
    + rewrite bool_decide_eq_true_2 by done. eexists. split_and!; [done..|]. simpl.
      intros o [= <-] Hs. by rewrite bool_decide_eq_true_2.
    + rewrite bool_decide_eq_false_2 by done. exists c'. by split.
  - intros l c t Ht. induction l as [|old l IH]; simpl.
    { by rewrite bool_decide_eq_false_2 by auto. }
    destruct (bool_decide_reflect (c_Type old = c_Type c)) as [E|E]; simpl.
    + by rewrite !bool_decide_eq_false_2 by congruence.
    + case_bool_decide; [done|]. apply IH.
Qed.

Definition ex_conditions : ConditionInput :=
  mkConditionInput 3 2 2 true "" "" (mkHealth true ReasonHAMiDetected "") true zeroCapacity (Some 1) 0
    zeroPlan false (mkRolloutDecision "" true 0 ReasonAllCellsCurrent "") false
    (mkScaleDecision 2 false false [] ReasonIdle "") false.

Lemma ApplyConditions_merges_witness :
  exists c', find_condition ConditionUpdated
          (ApplyConditions (merge_condition 9) [] (ComputeConditions ex_conditions)) = Some c'
     /\ c_Status c' = ConditionTrue.
Proof.
  destruct (ApplyConditions_merges (setCond := merge_condition 9) [] ex_conditions
              (set_condition ex_conditions ConditionUpdated true ReasonAllCellsCurrent ""))
    as (c' & Hf & Hs & _); [|by exists c'].
  unfold ComputeConditions. simpl. do 5 right. left.
Defined.

Lemma CountCells_partition_witness :
  n_total (CountCells [ex_cell 0 CellPhaseReady; ex_cell 1 CellPhaseJoining; ex_cell 2 CellPhaseFailed]) = 3.
Proof.
  apply (CountCells_partition [ex_cell 0 CellPhaseReady; ex_cell 1 CellPhaseJoining;
                               ex_cell 2 CellPhaseFailed]).
  vm_compute. discriminate.
Defined.

Lemma capacity_status_adds_up_witness :
  exists m, wcs_GPUMemory (WorkloadCapacityStatusOf "HAMi" "DevicePlugin" ex_capacity 5) = Some m
       /\ mc_Total m = mc_Allocated m + mc_Available m.
Proof.
  destruct (capacity_status_adds_up "HAMi" "DevicePlugin" ex_capacity 5)
    as [(m & Hm & Hs & _) _]; [..|by exists m]; vm_compute; try (split; discriminate); discriminate.
Defined.
