(* ===== verification/Inventory.v ===== *)
(** * The physical GPU inventory (internal/inventory/inventory.go)

    The two ledgers of the infrastructure cluster: DRA ResourceSlices and claims,
    and the native SwiftGPUNode inventory; and the reading a pool takes of the
    one its backend allocates from (physicalInventory of controller.go). *)

From S2P Require Import Prelude GoStd Api KubeApi Helpers.
Local Open Scope Z_scope.
Local Open Scope go_scope.

Definition KubeSwiftDriver : string := "gpu.kubeswift.io".
Definition SwiftGPUNodeKind : string := "SwiftGPUNode".
Definition SwiftGPUProfileKind : string := "SwiftGPUProfile".

(** ** The objects read *)

(** A SwiftGPUNode is unstructured: each field is what its accessor finds, and
    [None] when it is absent or of another type. *)
Record GPUEntry := mkGPUEntry { ge_Model : option string; ge_Allocated : option bool }.
Record SwiftGPUNode := mkSwiftGPUNode {
  gn_vfioReady : option bool; gn_GPUs : option (list (option GPUEntry))
}.

(** The infrastructure cluster's reads. *)
Class GPULedger (W : Type) := {
  list_slices : W -> result APIError (list ResourceSlice);
  list_claims : W -> result APIError (list ResourceClaim);
  list_gpu_nodes : W -> result APIError (list SwiftGPUNode);
  get_profile_model : string -> string -> W -> result APIError (option string);
  get_claim_template : string -> string -> W -> result APIError (list DeviceRequest);
  get_claim : string -> string -> W -> result APIError (list DeviceRequest)
}.

Record InvCounts := mkInvCounts {
  iv_Published : int; iv_Ready : int; iv_Allocated : int; iv_Free : int; iv_Known : bool
}.

Definition zeroCounts : InvCounts := mkInvCounts 0 0 0 0 false.

(** ** The DRA ledger *)

Definition device_key (pool device : string) : string := pool +:+ "/" +:+ device.

(** The loop over one slice's devices: the count of all, the ready keys and their number. *)
Definition count_device (pool : string) (st : int * gset string * int) (d : SliceDevice)
    : int * gset string * int :=
  let '(published, ready, n) := st in
  let published := published + 1 in
  let vfio := match sld_vfioReady d with Some b => b | None => true end in
  if vfio then (published, {[ device_key pool (sld_Name d) ]} ∪ ready, n + 1)
  else (published, ready, n).

Definition count_slice (driver : string) (st : int * gset string * int) (s : ResourceSlice)
    : int * gset string * int :=
  if rs_Driver s != driver then st else foldl (count_device (rs_Pool s)) st (rs_Devices s).

Definition count_result (driver : string) (ready : gset string) (st : gset string * int)
    (r : AllocationResult) : gset string * int :=
  let '(held, n) := st in
  if ar_Driver r != driver then st
  else
    let key := device_key (ar_Pool r) (ar_Device r) in
    if bool_decide (key ∈ ready) && negb (bool_decide (key ∈ held))
    then ({[ key ]} ∪ held, n + 1) else st.

Definition count_claim (driver : string) (ready : gset string) (st : gset string * int)
    (cl : ResourceClaim) : gset string * int :=
  match rc_Allocation cl with
  | None => st
  | Some results => foldl (count_result driver ready) st results
  end.

Definition floor0 (z : int) : int := if z <? 0 then 0 else z.

Section ledger.
Context {W : Type} `{GPULedger W}.

Definition FreeGPUs (driver0 : string) (w : W) : result OpError InvCounts :=
  let driver := if driver0 == "" then KubeSwiftDriver else driver0 in
  match list_slices w with
  | Err e => Err (mkOpError "listing ResourceSlices" e)
  | Ok slices =>
      let '(published, ready, nready) := foldl (count_slice driver) (0, ∅, 0) slices in
      match list_claims w with
      | Err e => Err (mkOpError "listing ResourceClaims" e)
      | Ok claims =>
          let '(_, allocated) := foldl (count_claim driver ready) (∅, 0) claims in
          Ok (mkInvCounts published nready allocated (floor0 (nready - allocated)) (0 <? published))
      end
  end.

(** ** The native ledger *)

(** One GPU entry of a node: the devices of the ledger, then the counts. *)
Definition count_gpu (model : string) (vfio : bool) (st : int * InvCounts) (raw : option GPUEntry)
    : int * InvCounts :=
  let '(ledger, c) := st in
  match raw with
  | None => st
  | Some gpu =>
      let ledger := ledger + 1 in
      let matches :=
        if model == "" then true
        else match ge_Model gpu with Some m => Contains m model | None => false end in
      if negb matches then (ledger, c)
      else
        let c := {| c with iv_Published := iv_Published c + 1 |} in
        if negb vfio then (ledger, c)
        else
          let c := {| c with iv_Ready := iv_Ready c + 1 |} in
          match ge_Allocated gpu with
          | Some true => (ledger, {| c with iv_Allocated := iv_Allocated c + 1 |})
          | _ => (ledger, c)
          end
  end.

Definition count_node (model : string) (st : int * InvCounts) (node : SwiftGPUNode) : int * InvCounts :=
  let vfio := default true (gn_vfioReady node) in
  match gn_GPUs node with
  | None => st
  | Some gpus => foldl (count_gpu model vfio) st gpus
  end.

Definition FreeGPUsNative (model : string) (w : W) : result OpError InvCounts :=
  match list_gpu_nodes w with
  | Err e => if IsNoMatchError e || IsNotFound e then Ok zeroCounts
             else Err (mkOpError ("listing " +:+ SwiftGPUNodeKind +:+ "s") e)
  | Ok nodes =>
      let '(ledger, c) := foldl (count_node model) (0, zeroCounts) nodes in
      Ok {| c with iv_Free := floor0 (iv_Ready c - iv_Allocated c); iv_Known := 0 <? ledger |}
  end.

Definition NativeProfileModel (namespace name : string) (w : W) : result OpError string :=
  if name == "" then Ok ""
  else match get_profile_model namespace name w with
       | Err e => if IsNoMatchError e || IsNotFound e then Ok ""
                  else Err (mkOpError ("getting " +:+ SwiftGPUProfileKind +:+ " " +:+ namespace
                                       +:+ "/" +:+ name) e)
       | Ok model => Ok (default "" model)
       end.

Definition request_constrained (r : DeviceRequest) : bool :=
  match dr_Exactly r with Some e => 0 <? er_Selectors e | None => false end
  || existsb (fun n => 0 <? n) (dr_FirstAvailable r).

Definition DRARequestIsConstrained (namespace templateName claimName : string) (w : W)
    : result OpError bool :=
  let read kind name (r : result APIError (list DeviceRequest)) :=
    match r with
    | Err e => if IsNoMatchError e || IsNotFound e then Ok false
               else Err (mkOpError ("getting " +:+ kind +:+ " " +:+ namespace +:+ "/" +:+ name) e)
    | Ok requests => Ok (existsb request_constrained requests)
    end in
  if templateName != ""
  then read "ResourceClaimTemplate" templateName (get_claim_template namespace templateName w)
  else if claimName != ""
  then read "ResourceClaim" claimName (get_claim namespace claimName w)
  else Ok false.

(** ** The pool's reading (controller.go, physicalInventory) *)

Definition physicalInventory (pool : GPUCellPool) (w : W) : result OpError InvCounts :=
  let gpu := cell_GPU (spec_Cell (pool_Spec pool)) in
  if gpuBackend pool == GPUBackendNative then
    let profileName := match gpu_Native gpu with Some n => native_GPUProfileRef n | None => "" end in
    let* model := NativeProfileModel (pool_Namespace pool) profileName w in
    FreeGPUsNative model w
  else
    match gpu_DRA gpu with
    | Some dra =>
        let* constrained := DRARequestIsConstrained (pool_Namespace pool)
                              (dra_ResourceClaimTemplateName dra) (dra_ResourceClaimName dra) w in
        if constrained : bool then Ok zeroCounts else FreeGPUs "" w
    | None => FreeGPUs "" w
    end.

(** What the reconcile makes of it: unknown on an error or an empty ledger. *)
Definition free_gpus (pool : GPUCellPool) (w : W) : option int :=
  match physicalInventory pool w with
  | Err _ => None
  | Ok c => if iv_Known c then Some (iv_Free c) else None
  end.
End ledger.

(** ** What the ledgers say *)

(** The devices the driver publishes: key and readiness. *)
Definition dra_devices (driver : string) (slices : list ResourceSlice) : list (string * bool) :=
  s ← List.filter (fun s => rs_Driver s == driver) slices;
  map (fun d => (device_key (rs_Pool s) (sld_Name d), default true (sld_vfioReady d))) (rs_Devices s).
Definition ready_keys (driver : string) (slices : list ResourceSlice) : list string :=
  map fst (List.filter snd (dra_devices driver slices)).
(** The devices of the driver that a claim holds. *)
Definition claim_results (claims : list ResourceClaim) : list AllocationResult :=
  cl ← claims; default [] (rc_Allocation cl).
Definition result_keys (driver : string) (rs : list AllocationResult) : list string :=
  map (fun r => device_key (ar_Pool r) (ar_Device r)) (List.filter (fun r => ar_Driver r == driver) rs).
Definition held_keys (driver : string) (claims : list ResourceClaim) : list string :=
  result_keys driver (claim_results claims).

(** The native devices, each with the readiness of its node. *)
Definition native_gpus (nodes : list SwiftGPUNode) : list (bool * GPUEntry) :=
  n ← nodes; map (pair (default true (gn_vfioReady n))) (omap id (default [] (gn_GPUs n))).
Definition model_matches (model : string) (g : bool * GPUEntry) : bool :=
  if model == "" then true
  else match ge_Model g.2 with Some m => Contains m model | None => false end.
Definition native_free (model : string) (g : bool * GPUEntry) : bool :=
  model_matches model g && g.1 && negb (bool_decide (ge_Allocated g.2 = Some true)).

(** ** Lemmas *)

Lemma count_devices_spec pool devs st :
  foldl (count_device pool) st devs =
  let l := map (fun d => (device_key pool (sld_Name d), default true (sld_vfioReady d))) devs in
  (st.1.1 + len l, list_to_set (map fst (List.filter snd l)) ∪ st.1.2, st.2 + len (List.filter snd l)).
Proof.
  revert st. induction devs as [|d devs IH]; intros [[p s] n]; simpl.
  { rewrite !len_nil, !Z.add_0_r. f_equal. f_equal. set_solver. }
  rewrite IH. destruct (sld_vfioReady d) as [[]|]; simpl; rewrite ?len_cons;
    f_equal; try lia; f_equal; try lia; set_solver.
Qed.

Lemma dra_devices_cons driver s slices :
  dra_devices driver (s :: slices) =
  (if rs_Driver s == driver
   then map (fun d => (device_key (rs_Pool s) (sld_Name d), default true (sld_vfioReady d))) (rs_Devices s)
   else []) ++ dra_devices driver slices.
Proof. unfold dra_devices. simpl. by case_bool_decide. Qed.

Lemma count_slices_spec driver slices st :
  foldl (count_slice driver) st slices =
  (st.1.1 + len (dra_devices driver slices), list_to_set (ready_keys driver slices) ∪ st.1.2,
   st.2 + len (ready_keys driver slices)).
Proof.
  unfold ready_keys. revert st. induction slices as [|s slices IH]; intros [[p r] n]; simpl.
  { change (dra_devices driver []) with (@nil (string * bool)). simpl. rewrite !len_nil, !Z.add_0_r. f_equal. f_equal. set_solver. }
  rewrite IH, dra_devices_cons. unfold count_slice. case_bool_decide; simpl; [|done].
  rewrite count_devices_spec. simpl. set (l := map _ (rs_Devices s)).
  rewrite List.filter_app, List.map_app, !len_app, list_to_set_app_L.
  f_equal; [f_equal; [lia|set_solver]|]. rewrite !len_map. lia.
Qed.

Lemma count_claims_flat driver ready claims st :
  foldl (count_claim driver ready) st claims = foldl (count_result driver ready) st (claim_results claims).
Proof.
  revert st. induction claims as [|cl claims IH]; intros st; simpl; [done|].
  rewrite IH. unfold claim_results. simpl. rewrite foldl_app. f_equal. unfold count_claim.
  by destruct (rc_Allocation cl).
Qed.

Lemma count_results_spec driver ready rs held n :
  foldl (count_result driver ready) (held, n) rs =
  let held' := held ∪ (ready ∩ list_to_set (result_keys driver rs)) in
  (held', n + Z.of_nat (size held') - Z.of_nat (size held)).
Proof.
  revert held n. induction rs as [|r rs IH]; intros held n; simpl.
  { unfold result_keys. simpl. replace (held ∪ ready ∩ ∅) with held by set_solver. f_equal. lia. }
  unfold result_keys. simpl. case_bool_decide; simpl; [|apply IH].
  set (key := device_key (ar_Pool r) (ar_Device r)).
  destruct (decide (key ∈ ready)) as [Hr|Hr], (decide (key ∈ held)) as [Hh|Hh];
    rewrite ?(bool_decide_eq_true_2 _ Hr), ?(bool_decide_eq_false_2 _ Hr),
            ?(bool_decide_eq_true_2 _ Hh), ?(bool_decide_eq_false_2 _ Hh); simpl; rewrite IH; simpl;
    fold (result_keys driver rs).
  2: { replace ({[key]} ∪ held ∪ ready ∩ list_to_set (result_keys driver rs))
         with (held ∪ ready ∩ ({[key]} ∪ list_to_set (result_keys driver rs)))
         by (apply set_eq; intros x; set_unfold; naive_solver).
       f_equal. rewrite (size_union {[key]} held) by set_solver. rewrite size_singleton. lia. }
  all: replace (held ∪ ready ∩ ({[key]} ∪ list_to_set (result_keys driver rs)))
    with (held ∪ ready ∩ list_to_set (result_keys driver rs))
    by (apply set_eq; intros x; set_unfold; naive_solver); done.
Qed.

Lemma native_gpus_fold model nodes st :
  foldl (count_node model) st nodes =
  foldl (fun st g => count_gpu model g.1 st (Some g.2)) st (native_gpus nodes).
Proof.
  revert st. induction nodes as [|n nodes IH]; intros st; simpl; [done|].
  rewrite IH. unfold native_gpus. simpl. rewrite foldl_app. f_equal.
  unfold count_node. destruct (gn_GPUs n) as [gpus|]; simpl; [|done].
  clear IH. revert st. induction gpus as [|[g|] gpus IH]; intros st; simpl; auto.
  rewrite IH. f_equal. by destruct st.
Qed.

Lemma count_gpus_spec model gs ledger c :
  let r := foldl (fun st g => count_gpu model g.1 st (Some g.2)) (ledger, c) gs in
  r.1 = ledger + len gs
  /\ iv_Ready r.2 - iv_Allocated r.2 = iv_Ready c - iv_Allocated c + len (List.filter (native_free model) gs).
Proof.
  revert ledger c. induction gs as [|[vfio g] gs IH]; intros ledger c; simpl.
  { rewrite len_nil. lia. }
  unfold native_free at 1, model_matches at 1. simpl.
  assert (forall b : bool, (if (model == "") then true else b) = (model == "") || b) as Eb
    by (intros; by case_bool_decide).
  rewrite !Eb.
  destruct ((model == "") || _) eqn:Em; simpl.
  2: { destruct (IH (ledger + 1) c) as [H1 H2]. rewrite len_cons. lia. }
  destruct vfio; simpl.
  2: { destruct (IH (ledger + 1) {| c with iv_Published := iv_Published c + 1 |}) as [H1 H2].
       simpl in H2. rewrite len_cons. lia. }
  destruct (ge_Allocated g) as [[]|]; simpl;
    match goal with |- context [foldl _ (ledger + 1, ?c') _] => destruct (IH (ledger + 1) c') as [H1 H2] end;
    simpl in H2; rewrite ?len_cons; lia.
Qed.

Lemma dra_free_count (ready held : list string) (R H : gset string) :
  NoDup ready -> R = list_to_set ready -> H = list_to_set held ->
  len ready - Z.of_nat (size (R ∩ H))
  = len (List.filter (fun k => negb (bool_decide (k ∈ held))) ready).
Proof.
  intros Hn HR HH.
  assert (len ready = Z.of_nat (size R)) as -> by (unfold len; by rewrite HR, size_list_to_set).
  set (free := List.filter _ ready).
  assert (NoDup free) as Hf.
  { pose proof (NoDup_map_filter id (fun k => negb (bool_decide (k ∈ held))) ready) as Hm.
    by rewrite !List.map_id in Hm; apply Hm. }
  assert (len free = Z.of_nat (size (R ∖ H))) as ->.
  { unfold len. rewrite <- (size_list_to_set (C := gset string) free Hf). do 2 f_equal.
    apply set_eq. intros k. rewrite HR, HH. unfold free.
    rewrite elem_of_difference, !elem_of_list_to_set, elem_of_filter_b, negb_true_iff, bool_decide_eq_false.
    done. }
  assert (size (R ∖ H) = (size R - size (R ∩ H))%nat) as -> by apply size_difference_alt.
  assert (size (R ∩ H) <= size R)%nat by (apply subseteq_size; set_solver). lia.
Qed.

(** ** Theorems *)

Section ledger_theorems.
Context {W : Type} `{GPULedger W}.

(** C35. The DRA reading, while no usable device is published twice: [Free] is the
    number of devices the driver publishes as usable that no claim holds, however
    often a device is listed as held; the ledger is known exactly when it
    publishes a device at all. The restriction is open: a device published in two
    slices (two generations of a pool, say) counts twice as usable and once as
    held, so a held one leaves a free one over, which is a finding
    ([device_in_two_slices]). *)
Theorem FreeGPUs_counts (w : W) slices claims driver :
  list_slices w = Ok slices -> list_claims w = Ok claims -> driver <> "" ->
  NoDup (ready_keys driver slices) ->
  exists c, FreeGPUs driver w = Ok c
    /\ iv_Published c = len (dra_devices driver slices)
    /\ iv_Free c = len (List.filter (fun k => negb (bool_decide (k ∈ held_keys driver claims)))
                          (ready_keys driver slices))
    /\ (iv_Known c = true <-> dra_devices driver slices <> []).
Proof.
  intros Hs Hc Hd Hn. unfold FreeGPUs. rewrite (bool_decide_eq_false_2 _ Hd), Hs, Hc.
  rewrite count_slices_spec, count_claims_flat, count_results_spec.
  cbv beta zeta iota delta [fst snd]. rewrite size_empty.
  eexists. split; [reflexivity|]. cbn [iv_Published iv_Free iv_Known]. split; [done|]. split.
  - unfold floor0. rewrite !union_empty_l_L, !union_empty_r_L.
    fold (held_keys driver claims).
    pose proof (dra_free_count _ (held_keys driver claims) _ _ Hn eq_refl eq_refl) as Hf.
    pose proof (len_nonneg (List.filter (fun k => negb (bool_decide (k ∈ held_keys driver claims)))
                              (ready_keys driver slices))).
    rewrite <- Hf in *.
    match goal with |- (if ?a <? 0 then _ else _) = _ => destruct (Z.ltb_spec a 0) end; lia.
  - rewrite Z.ltb_lt. pose proof (len_nonneg (dra_devices driver slices)).
    rewrite <- len_zero. lia.
Qed.

(** The native reading: [Free] is the number of devices that match the pool's
    model, on nodes ready for passthrough, not allocated. A ledger that lists
    any device is known, whether or not one matches. *)
Theorem FreeGPUsNative_counts (w : W) nodes model :
  list_gpu_nodes w = Ok nodes ->
  exists c, FreeGPUsNative model w = Ok c
    /\ iv_Free c = len (List.filter (native_free model) (native_gpus nodes))
    /\ (iv_Known c = true <-> native_gpus nodes <> []).
Proof.
  intros Hl. unfold FreeGPUsNative. rewrite Hl, native_gpus_fold.
  pose proof (count_gpus_spec model (native_gpus nodes) 0 zeroCounts) as Hc.
  destruct (foldl _ _ _) as [ledger c]. simpl in Hc. destruct Hc as [H1 H2].
  eexists. split; [done|]. simpl. split.
  - unfold floor0. pose proof (len_nonneg (List.filter (native_free model) (native_gpus nodes))).
    destruct (Z.ltb_spec (iv_Ready c - iv_Allocated c) 0); lia.
  - rewrite Z.ltb_lt. pose proof (len_nonneg (native_gpus nodes)). rewrite <- len_zero. lia.
Qed.

(** A pool is told "no free GPU" only by a ledger of its own backend that was
    read and lists a device: an unreadable, missing or empty ledger, and a
    constrained claim, leave the count unknown. *)
Theorem free_gpus_known pool (w : W) n :
  free_gpus pool w = Some n ->
  if gpuBackend pool == GPUBackendNative
  then exists nodes, list_gpu_nodes w = Ok nodes /\ native_gpus nodes <> []
  else exists slices claims, list_slices w = Ok slices /\ list_claims w = Ok claims
         /\ dra_devices KubeSwiftDriver slices <> [].
Proof.
  assert (forall c, FreeGPUs "" w = Ok c -> iv_Known c = true ->
    exists slices claims, list_slices w = Ok slices /\ list_claims w = Ok claims
         /\ dra_devices KubeSwiftDriver slices <> []) as Hdra.
  { unfold FreeGPUs. intros c Hf Hk. destruct (list_slices w) as [slices|] eqn:Es; [|done].
    rewrite bool_decide_eq_true_2 in Hf by done. rewrite count_slices_spec in Hf.
    destruct (list_claims w) as [claims|] eqn:Ec; [|done].
    exists slices, claims. split_and!; [done..|]. destruct (foldl _ _ claims).
    injection Hf as <-. cbn [iv_Known fst] in Hk.
    apply Z.ltb_lt in Hk. intros E%len_zero. lia. }
  unfold free_gpus, physicalInventory. intros E. case_bool_decide.
  - destruct (NativeProfileModel _ _ w) as [model|]; simpl in E; [|done].
    unfold FreeGPUsNative in E. destruct (list_gpu_nodes w) as [nodes|e] eqn:El.
    + exists nodes. split; [done|]. rewrite native_gpus_fold in E.
      pose proof (count_gpus_spec model (native_gpus nodes) 0 zeroCounts) as Hc.
      destruct (foldl _ _ _) as [ledger c]. simpl in Hc, E. destruct Hc as [H1 _].
      destruct (Z.ltb_spec 0 ledger) as [Hpos|]; [|done]. intros E0%len_zero. lia.
    + by destruct (IsNoMatchError e || IsNotFound e).
  - destruct (gpu_DRA _) as [dra|]; simpl in E.
    + destruct (DRARequestIsConstrained _ _ _ w) as [[]|]; simpl in E; try done.
      destruct (FreeGPUs "" w) as [c|] eqn:Ef; [|done]. destruct (iv_Known c) eqn:Ek; [eauto|done].
    + destruct (FreeGPUs "" w) as [c|] eqn:Ef; [|done]. destruct (iv_Known c) eqn:Ek; [eauto|done].
Qed.
End ledger_theorems.

(** ** Witnesses *)

Record MemLedger := mkMemLedger {
  ml_slices : list ResourceSlice; ml_claims : list ResourceClaim; ml_nodes : list SwiftGPUNode
}.

#[export] Instance mem_ledger : GPULedger MemLedger := {
  list_slices w := Ok (ml_slices w);
  list_claims w := Ok (ml_claims w);
  list_gpu_nodes w := Ok (ml_nodes w);
  get_profile_model _ _ _ := Ok None;
  get_claim_template _ _ _ := Err NotFound;
  get_claim _ _ _ := Err NotFound
}.

(** Two devices, one of them held twice; a native node with one free device. *)
Definition ex_ledger : MemLedger :=
  mkMemLedger
    [mkResourceSlice KubeSwiftDriver "host-a" [mkSliceDevice "gpu-01" None None ∅; mkSliceDevice "gpu-02" (Some true) None ∅]]
    [mkResourceClaim (Some [mkAllocationResult KubeSwiftDriver "host-a" "gpu-01" ∅;
                            mkAllocationResult KubeSwiftDriver "host-a" "gpu-01" ∅]) 1 []]
    [mkSwiftGPUNode None (Some [Some (mkGPUEntry (Some "Tesla T4") (Some true));
                                Some (mkGPUEntry (Some "Tesla T4") None)])].

Lemma FreeGPUs_counts_witness :
  exists c, FreeGPUs KubeSwiftDriver ex_ledger = Ok c /\ iv_Published c = 2.
Proof.
  destruct (FreeGPUs_counts ex_ledger (ml_slices ex_ledger) (ml_claims ex_ledger) KubeSwiftDriver)
    as (c & Hc & Hp & _); [reflexivity|reflexivity|discriminate| |by exists c].
  apply (bool_decide_unpack _). vm_compute. exact I.
Defined.

(** The same slice twice, its device held: one GPU reads as free. *)
Example device_in_two_slices :
  exists slice claims, let w := mkMemLedger [slice; slice] claims [] in
    ready_keys KubeSwiftDriver [slice] = held_keys KubeSwiftDriver claims
    /\ iv_Free <$> match FreeGPUs KubeSwiftDriver w with Ok c => Some c | Err _ => None end = Some 1.
Proof.
  exists (mkResourceSlice KubeSwiftDriver "host" [mkSliceDevice "gpu-0" None None ∅]),
    [mkResourceClaim (Some [mkAllocationResult KubeSwiftDriver "host" "gpu-0" ∅]) 1 []].
  split; vm_compute; reflexivity.
Qed.

Lemma FreeGPUsNative_counts_witness :
  exists c, FreeGPUsNative "T4" ex_ledger = Ok c /\ iv_Free c = 1.
Proof.
  destruct (FreeGPUsNative_counts ex_ledger (ml_nodes ex_ledger) "T4") as (c & Hc & Hf & _);
    [reflexivity|by exists c].
Defined.

Lemma free_gpus_known_witness :
  free_gpus ex_pool ex_ledger = Some 1
  /\ exists slices claims, list_slices ex_ledger = Ok slices /\ list_claims ex_ledger = Ok claims
       /\ dra_devices KubeSwiftDriver slices <> [].
Proof.
  split; [vm_compute; reflexivity|].
  apply (free_gpus_known ex_pool ex_ledger 1). vm_compute. reflexivity.
Defined.
