(* ===== verification/Json.v ===== *)
(** * encoding/json, as far as the sources use it

    [Unmarshal] first checks the whole text against the JSON grammar, then
    decodes it. [parse_json] is the first half: the value tree of a valid text,
    [None] for an invalid one. Numbers keep their literal, objects their members
    in order. The second half for an [any] is in Unstructured: numbers become the
    float64 they denote. The recursion is on fuel; every call consumes a byte first, so the
    length of the text is enough. *)

From Stdlib Require Floats.SpecFloat.
From S2P Require Import Prelude GoStd.
Local Open Scope Z_scope.
Local Open Scope go_scope.

#[local] Set Warnings "-register-all".

(** The values of a text, and the values of a [map[string]any]. A number of a text
    is its literal; in a map it is a float64 when it was decoded and an int64 when
    the operator wrote it. *)
Inductive JSON :=
| JNull
| JBool (b : bool)
| JNum (lit : string)
| JFloat (f : SpecFloat.spec_float)
| JInt (z : Z)
| JStr (s : string)
| JArr (l : list JSON)
| JObj (kvs : list (string * JSON)).

(** The scanner refuses deeper nesting. *)
Definition maxNestingDepth : Z := 10000.
#[local] Arguments strip : simpl never.

Definition code (a : ascii) : Z := Z.of_nat (nat_of_ascii a).
Definition chr (z : Z) : ascii := ascii_of_nat (Z.to_nat z).

Definition json_space (a : ascii) : bool :=
  let c := code a in (c =? 32) || (c =? 9) || (c =? 10) || (c =? 13).

Fixpoint skip_space (s : string) : string :=
  match s with
  | String a s' => if json_space a then skip_space s' else s
  | EmptyString => ""
  end.

(** ** UTF-8 *)

(** utf8.EncodeRune for a valid code point. *)
Definition encode_rune (r : Z) : string :=
  if r <? 128 then String (chr r) ""
  else if r <? 2048 then String (chr (192 + r / 64)) (String (chr (128 + r mod 64)) "")
  else if r <? 65536
  then String (chr (224 + r / 4096)) (String (chr (128 + (r / 64) mod 64)) (String (chr (128 + r mod 64)) ""))
  else String (chr (240 + r / 262144)) (String (chr (128 + (r / 4096) mod 64))
         (String (chr (128 + (r / 64) mod 64)) (String (chr (128 + r mod 64)) ""))).

Definition RuneError : Z := 65533.

Definition cont (lo hi : Z) (a : ascii) : bool := (lo <=? code a) && (code a <=? hi).

(** The length of the valid sequence at the head, 1 for an invalid byte: the
    acceptance ranges of unicode/utf8. *)
Definition rune_len (s : string) : option nat :=
  match s with
  | String a s1 =>
      let c := code a in
      if c <? 128 then Some 1%nat
      else if (c <? 194) || (244 <? c) then None
      else if c <? 224 then
        match s1 with String b _ => if cont 128 191 b then Some 2%nat else None | _ => None end
      else if c <? 240 then
        match s1 with
        | String b (String d _) =>
            let lo := if c =? 224 then 160 else 128 in
            let hi := if c =? 237 then 159 else 191 in
            if cont lo hi b && cont 128 191 d then Some 3%nat else None
        | _ => None
        end
      else
        match s1 with
        | String b (String d (String e _)) =>
            let lo := if c =? 240 then 144 else 128 in
            let hi := if c =? 244 then 143 else 191 in
            if cont lo hi b && cont 128 191 d && cont 128 191 e then Some 4%nat else None
        | _ => None
        end
  | EmptyString => None
  end.

Fixpoint take_s (n : nat) (s : string) : string :=
  match n, s with S n', String a s' => String a (take_s n' s') | _, _ => "" end.
Fixpoint drop_s (n : nat) (s : string) : string :=
  match n, s with S n', String a s' => drop_s n' s' | _, _ => s end.

(** ** String literals *)

Definition hex_val (a : ascii) : option Z :=
  let c := code a in
  if (48 <=? c) && (c <=? 57) then Some (c - 48)
  else if (97 <=? c) && (c <=? 102) then Some (c - 87)
  else if (65 <=? c) && (c <=? 70) then Some (c - 55)
  else None.

Definition hex4 (s : string) : option (Z * string) :=
  match s with
  | String a (String b (String c (String d s'))) =>
      match hex_val a, hex_val b, hex_val c, hex_val d with
      | Some a, Some b, Some c, Some d => Some (((a * 16 + b) * 16 + c) * 16 + d, s')
      | _, _, _, _ => None
      end
  | _ => None
  end.

Definition is_surrogate (r : Z) : bool := (55296 <=? r) && (r <? 57344).

(** A \u escape: a surrogate pair is one rune, a lone surrogate U+FFFD. *)
Definition unicode_escape (s : string) : option (string * string) :=
  match hex4 s with
  | None => None
  | Some (r, rest) =>
      if is_surrogate r then
        match strip "\u" rest with
        | Some rest1 =>
            match hex4 rest1 with
            | Some (r2, rest2) =>
                if (r <? 56320) && (56320 <=? r2) && (r2 <? 57344)
                then Some (encode_rune ((r - 55296) * 1024 + (r2 - 56320) + 65536), rest2)
                else Some (encode_rune RuneError, rest)
            | None => Some (encode_rune RuneError, rest)
            end
        | None => Some (encode_rune RuneError, rest)
        end
      else Some (encode_rune r, rest)
  end.

Definition simple_escape (a : ascii) : option ascii :=
  let c := code a in
  if (c =? 34) || (c =? 92) || (c =? 47) then Some a
  else if c =? 98 then Some (chr 8)
  else if c =? 102 then Some (chr 12)
  else if c =? 110 then Some (chr 10)
  else if c =? 114 then Some (chr 13)
  else if c =? 116 then Some (chr 9)
  else None.

(** The rest of a literal after its opening quote. *)
Fixpoint parse_string (fuel : nat) (s acc : string) : option (string * string) :=
  match fuel with
  | O => None
  | S f =>
      match s with
      | EmptyString => None
      | String a s1 =>
          let c := code a in
          if c =? 34 then Some (acc, s1)
          else if c <? 32 then None
          else if c =? 92 then
            match s1 with
            | EmptyString => None
            | String e s2 =>
                if code e =? 117 then
                  match unicode_escape s2 with
                  | Some (r, rest) => parse_string f rest (acc +:+ r)
                  | None => None
                  end
                else match simple_escape e with
                     | Some x => parse_string f s2 (acc +:+ String x "")
                     | None => None
                     end
            end
          else match rune_len s with
               | Some n => parse_string f (drop_s n s) (acc +:+ take_s n s)
               | None => parse_string f s1 (acc +:+ encode_rune RuneError)
               end
      end
  end.

(** What follows an opening quote; every turn of the loop consumes a byte. *)
Definition string_literal (s : string) : option (string * string) :=
  parse_string (S (String.length s)) s "".

(** ** Numbers *)

Fixpoint span_digits (s : string) : string * string :=
  match s with
  | String a s' => if is_digit a then let '(d, r) := span_digits s' in (String a d, r) else ("", s)
  | EmptyString => ("", "")
  end.

Definition digits1 (s : string) : option (string * string) :=
  let '(d, r) := span_digits s in if d == "" then None else Some (d, r).

(** An optional part that, once begun, must be complete. *)
Definition frac_part (s : string) : option (string * string) :=
  match strip "." s with
  | Some r => match digits1 r with Some (d, r') => Some ("." +:+ d, r') | None => None end
  | None => Some ("", s)
  end.

Definition exp_part (s : string) : option (string * string) :=
  match s with
  | String a r =>
      if (code a =? 101) || (code a =? 69) then
        let '(sign, r) :=
          match r with
          | String b r' => if (code b =? 43) || (code b =? 45) then (String b "", r') else ("", r)
          | EmptyString => ("", r)
          end in
        match digits1 r with Some (d, r') => Some (String a sign +:+ d, r') | None => None end
      else Some ("", s)
  | EmptyString => Some ("", s)
  end.

Definition parse_number (s : string) : option (string * string) :=
  let '(sign, s1) := match strip "-" s with Some r => ("-", r) | None => ("", s) end in
  let int :=
    match s1 with
    | String a r => if code a =? 48 then Some ("0", r) else digits1 s1
    | EmptyString => None
    end in
  match int with
  | None => None
  | Some (i, s2) =>
      match frac_part s2 with
      | None => None
      | Some (fr, s3) =>
          match exp_part s3 with
          | None => None
          | Some (ex, s4) => Some (sign +:+ i +:+ fr +:+ ex, s4)
          end
      end
  end.

(** ** Values *)

Fixpoint parse_value (fuel : nat) (depth : Z) (s : string) : option (JSON * string) :=
  match fuel with
  | O => None
  | S f =>
      let s := skip_space s in
      match s with
      | EmptyString => None
      | String a s1 =>
          let c := code a in
          if c =? 34 then
            match string_literal s1 with
            | Some (x, r) => Some (JStr x, r)
            | None => None
            end
          else if c =? 91 then
            if maxNestingDepth <=? depth then None
            else match strip "]" (skip_space s1) with
                 | Some r => Some (JArr [], r)
                 | None => match parse_elems f (depth + 1) s1 with
                           | Some (l, r) => Some (JArr l, r)
                           | None => None
                           end
                 end
          else if c =? 123 then
            if maxNestingDepth <=? depth then None
            else match strip "}" (skip_space s1) with
                 | Some r => Some (JObj [], r)
                 | None => match parse_members f (depth + 1) s1 with
                           | Some (l, r) => Some (JObj l, r)
                           | None => None
                           end
                 end
          else match strip "true" s, strip "false" s, strip "null" s with
               | Some r, _, _ => Some (JBool true, r)
               | _, Some r, _ => Some (JBool false, r)
               | _, _, Some r => Some (JNull, r)
               | _, _, _ => match parse_number s with
                            | Some (n, r) => Some (JNum n, r)
                            | None => None
                            end
               end
      end
  end
(** The elements of an array, up to and including the closing bracket. *)
with parse_elems (fuel : nat) (depth : Z) (s : string) : option (list JSON * string) :=
  match fuel with
  | O => None
  | S f =>
      match parse_value f depth s with
      | None => None
      | Some (v, r) =>
          let r := skip_space r in
          match strip "," r, strip "]" r with
          | Some r', _ => match parse_elems f depth r' with
                          | Some (l, r'') => Some (v :: l, r'')
                          | None => None
                          end
          | None, Some r' => Some ([v], r')
          | None, None => None
          end
      end
  end
(** The members of an object, up to and including the closing brace. *)
with parse_members (fuel : nat) (depth : Z) (s : string) : option (list (string * JSON) * string) :=
  match fuel with
  | O => None
  | S f =>
      match skip_space s with
      | String q s1 =>
          if negb (code q =? 34) then None
          else match string_literal s1 with
          | None => None
          | Some (k, r) =>
              match strip ":" (skip_space r) with
              | None => None
              | Some r1 =>
                  match parse_value f depth r1 with
                  | None => None
                  | Some (v, r2) =>
                      let r2 := skip_space r2 in
                      match strip "," r2, strip "}" r2 with
                      | Some r', _ => match parse_members f depth r' with
                                      | Some (l, r'') => Some ((k, v) :: l, r'')
                                      | None => None
                                      end
                      | None, Some r' => Some ([(k, v)], r')
                      | None, None => None
                      end
                  end
              end
          end
      | EmptyString => None
      end
  end.

(** A whole text: one value and nothing but space after it. *)
Definition parse_json (s : string) : option JSON :=
  match parse_value (S (2 * String.length s)) 0 s with
  | Some (v, r) => if skip_space r == "" then Some v else None
  | None => None
  end.

(** ** Fuel

    Every parser consumes what it recognises, so the fuel given is enough: any
    larger amount gives the same answer. *)

Abbreviation slen := String.length.

Lemma strip_len p s r : strip p s = Some r -> (slen s = slen p + slen r)%nat.
Proof. intros ->%strip_Some. apply length_app_s. Qed.

Lemma skip_space_len s : (slen (skip_space s) <= slen s)%nat.
Proof. induction s as [|a s IH]; simpl; [lia|]. destruct (json_space a); simpl; lia. Qed.

Lemma drop_s_len n s : (slen (drop_s n s) <= slen s - n)%nat.
Proof. revert s. induction n as [|n IH]; intros [|a s]; simpl; try lia. apply IH. Qed.

Lemma rune_len_pos s n : rune_len s = Some n -> (0 < n)%nat.
Proof. unfold rune_len. intros E. repeat case_match; simplify_eq; lia. Qed.

Lemma hex4_len s r rest : hex4 s = Some (r, rest) -> (slen rest < slen s)%nat.
Proof. unfold hex4. intros E. repeat case_match; simplify_eq/=; lia. Qed.

Lemma unicode_escape_len s x rest : unicode_escape s = Some (x, rest) -> (slen rest < slen s)%nat.
Proof.
  unfold unicode_escape. destruct (hex4 s) as [[r r0]|] eqn:E; [|done]. apply hex4_len in E.
  destruct (is_surrogate r); [|by intros [= _ <-]].
  destruct (strip "\u" r0) as [r1|] eqn:E1; [|by intros [= _ <-]]. apply strip_len in E1. simpl in E1.
  destruct (hex4 r1) as [[r2 rest2]|] eqn:E2; [|by intros [= _ <-]]. apply hex4_len in E2.
  destruct (_ && _); intros [= _ <-]; lia.
Qed.

Lemma parse_string_len f s acc x r : parse_string f s acc = Some (x, r) -> (slen r < slen s)%nat.
Proof.
  revert s acc. induction f as [|f IH]; intros s acc; simpl; [done|].
  destruct s as [|a s1]; [done|]. simpl slen.
  destruct (code a =? 34); [intros [= _ <-]; lia|]. destruct (code a <? 32); [done|].
  destruct (code a =? 92).
  - destruct s1 as [|e s2]; [done|]. simpl slen. destruct (code e =? 117).
    + destruct (unicode_escape s2) as [[y rest]|] eqn:E; [|done]. apply unicode_escape_len in E.
      intros H%IH. lia.
    + destruct (simple_escape e); [|done]. intros H%IH. lia.
  - destruct (rune_len (String a s1)) as [n|] eqn:E.
    + apply rune_len_pos in E. intros H%IH. pose proof (drop_s_len n (String a s1)) as Hd.
      simpl slen in Hd. lia.
    + intros H%IH. lia.
Qed.

Lemma parse_string_fuel f f' s acc :
  (slen s < f)%nat -> (slen s < f')%nat -> parse_string f s acc = parse_string f' s acc.
Proof.
  revert f' s acc. induction f as [|f IH]; intros [|f'] s acc Hf Hf'; [lia..|]. simpl.
  destruct s as [|a s1]; [done|]. simpl slen in *.
  destruct (code a =? 34); [done|]. destruct (code a <? 32); [done|]. destruct (code a =? 92).
  - destruct s1 as [|e s2]; [done|]. simpl slen in *. destruct (code e =? 117).
    + destruct (unicode_escape s2) as [[y rest]|] eqn:E; [|done]. apply unicode_escape_len in E.
      apply IH; lia.
    + destruct (simple_escape e); [|done]. apply IH; lia.
  - destruct (rune_len (String a s1)) as [n|] eqn:E; [|apply IH; lia]. apply rune_len_pos in E.
    pose proof (drop_s_len n (String a s1)) as Hd. simpl slen in Hd. apply IH; lia.
Qed.

Lemma span_digits_len s : (slen s = slen (span_digits s).1 + slen (span_digits s).2)%nat.
Proof.
  induction s as [|a s IH]; [done|]. simpl. destruct (is_digit a); [|done].
  destruct (span_digits s). simpl in *. lia.
Qed.

Lemma digits1_len s d r : digits1 s = Some (d, r) -> (slen r < slen s)%nat.
Proof.
  unfold digits1. pose proof (span_digits_len s) as H. destruct (span_digits s) as [d' r'].
  case_bool_decide as E; [done|]. intros [= <- <-]. simpl in H. destruct d'; [done|]. simpl in H. lia.
Qed.

Lemma frac_part_len s x r : frac_part s = Some (x, r) -> (slen r <= slen s)%nat.
Proof.
  unfold frac_part. destruct (strip "." s) as [r0|] eqn:E; [|by intros [= _ <-]].
  apply strip_len in E. destruct (digits1 r0) as [[d r1]|] eqn:Ed; [|done].
  apply digits1_len in Ed. intros [= _ <-]. simpl in E. lia.
Qed.

Lemma exp_part_len s x r : exp_part s = Some (x, r) -> (slen r <= slen s)%nat.
Proof.
  unfold exp_part. destruct s as [|a s]; [by intros [= _ <-]|].
  destruct ((code a =? 101) || (code a =? 69)); [|by intros [= _ <-]].
  set (p := match s with EmptyString => _ | String b r' => _ end).
  assert (slen p.2 <= slen s)%nat as Hp.
  { unfold p. destruct s as [|b s]; simpl; [lia|]. destruct (_ || _); simpl; lia. }
  destruct p as [sg r0]. destruct (digits1 r0) as [[d r1]|] eqn:Ed; [|done].
  apply digits1_len in Ed. intros [= _ <-]. simpl in *. lia.
Qed.

Lemma parse_number_len s x r : parse_number s = Some (x, r) -> (slen r < slen s)%nat.
Proof.
  unfold parse_number.
  set (p := match strip "-" s with Some r => _ | None => _ end).
  assert (slen p.2 <= slen s)%nat as Hp.
  { unfold p. destruct (strip "-" s) eqn:E; simpl; [apply strip_len in E; lia|lia]. }
  destruct p as [sign s1]. simpl in Hp.
  destruct (match s1 with EmptyString => _ | String a r => _ end) as [[i s2]|] eqn:Ei; [|done].
  assert (slen s2 < slen s1)%nat.
  { destruct s1 as [|a s1]; [done|]. destruct (code a =? 48); [injection Ei as _ <-; simpl; lia|].
    by apply digits1_len in Ei. }
  destruct (frac_part s2) as [[fr s3]|] eqn:Ef; [|done]. apply frac_part_len in Ef.
  destruct (exp_part s3) as [[ex s4]|] eqn:Ee; [|done]. apply exp_part_len in Ee.
  intros [= _ <-]. lia.
Qed.

(** The parser leaves less than it was given. *)
Definition consumes {D A} (parse : D -> string -> option (A * string)) : Prop :=
  forall d s v r, parse d s = Some (v, r) -> (slen r < slen s)%nat.

Lemma parse_value_len f :
  consumes (parse_elems f) -> consumes (parse_members f) -> consumes (parse_value (S f)).
Proof.
  intros IHe IHm d s v r. simpl.
  pose proof (skip_space_len s). destruct (skip_space s) as [|a s1]; [done|].
  pose proof (skip_space_len s1). destruct (code a =? 34).
  { destruct (string_literal s1) as [[x r0]|] eqn:E; [|done]. intros [= _ <-].
    apply parse_string_len in E. simpl slen in *. lia. }
  destruct (code a =? 91).
  { destruct (maxNestingDepth <=? d); [done|].
    destruct (strip "]" _) as [r0|] eqn:E0.
    - intros [= _ <-]. apply strip_len in E0. simpl slen in *. lia.
    - destruct (parse_elems f (d + 1) s1) as [[l r0]|] eqn:E; [|done]. intros [= _ <-].
      apply IHe in E. simpl slen in *. lia. }
  destruct (code a =? 123).
  { destruct (maxNestingDepth <=? d); [done|].
    destruct (strip "}" _) as [r0|] eqn:E0.
    - intros [= _ <-]. apply strip_len in E0. simpl slen in *. lia.
    - destruct (parse_members f (d + 1) s1) as [[l r0]|] eqn:E; [|done]. intros [= _ <-].
      apply IHm in E. simpl slen in *. lia. }
  set (t := String a s1) in *.
  destruct (strip "true" t) as [r0|] eqn:E1;
    [intros [= _ <-]; apply strip_len in E1; simpl slen in *; lia|].
  destruct (strip "false" t) as [r0|] eqn:E2;
    [intros [= _ <-]; apply strip_len in E2; simpl slen in *; lia|].
  destruct (strip "null" t) as [r0|] eqn:E3;
    [intros [= _ <-]; apply strip_len in E3; simpl slen in *; lia|].
  destruct (parse_number t) as [[n r0]|] eqn:E4; [|done]. intros [= _ <-].
  apply parse_number_len in E4. lia.
Qed.

Lemma parse_elems_len f :
  consumes (parse_value f) -> consumes (parse_elems f) -> consumes (parse_elems (S f)).
Proof.
  intros IHv IHe d s v r. simpl.
  destruct (parse_value f d s) as [[x r0]|] eqn:Ev; [|done]. apply IHv in Ev.
  pose proof (skip_space_len r0).
  destruct (strip "," (skip_space r0)) as [r'|] eqn:Ec.
  + apply strip_len in Ec. simpl slen in Ec.
    destruct (parse_elems f d r') as [[l r'']|] eqn:El; [|done]. apply IHe in El.
    intros [= _ <-]. lia.
  + destruct (strip "]" (skip_space r0)) as [r'|] eqn:Eb; [|done]. apply strip_len in Eb.
    intros [= _ <-]. lia.
Qed.

Lemma parse_members_len f :
  consumes (parse_value f) -> consumes (parse_members f) -> consumes (parse_members (S f)).
Proof.
  intros IHv IHm d s v r. simpl.
  pose proof (skip_space_len s). destruct (skip_space s) as [|a s1]; [done|]. simpl slen in *.
  destruct (negb (code a =? 34)); [done|].
  destruct (string_literal s1) as [[k r0]|] eqn:Ek; [|done]. apply parse_string_len in Ek.
  pose proof (skip_space_len r0).
  destruct (strip ":" (skip_space r0)) as [r1|] eqn:Ec; [|done]. apply strip_len in Ec. simpl slen in Ec.
  destruct (parse_value f d r1) as [[x r2]|] eqn:Ev; [|done]. apply IHv in Ev.
  pose proof (skip_space_len r2).
  destruct (strip "," (skip_space r2)) as [r'|] eqn:Ec2.
  + apply strip_len in Ec2. simpl slen in Ec2.
    destruct (parse_members f d r') as [[l r'']|] eqn:El; [|done]. apply IHm in El.
    intros [= _ <-]. lia.
  + destruct (strip "}" (skip_space r2)) as [r'|] eqn:Eb; [|done]. apply strip_len in Eb.
    intros [= _ <-]. lia.
Qed.

Lemma parse_len f :
  consumes (parse_value f) /\ consumes (parse_elems f) /\ consumes (parse_members f).
Proof.
  induction f as [|f (IHv & IHe & IHm)]; [by split_and!|].
  auto using parse_value_len, parse_elems_len, parse_members_len.
Qed.

Lemma parse_fuel f :
  (forall f' d s, (2 * slen s < f)%nat -> (2 * slen s < f')%nat -> parse_value f d s = parse_value f' d s)
  /\ (forall f' d s, (2 * slen s + 1 < f)%nat -> (2 * slen s + 1 < f')%nat ->
        parse_elems f d s = parse_elems f' d s)
  /\ (forall f' d s, (2 * slen s + 1 < f)%nat -> (2 * slen s + 1 < f')%nat ->
        parse_members f d s = parse_members f' d s).
Proof.
  induction f as [|f (IHv & IHe & IHm)]; [split_and!; intros; lia|].
  split_and!; intros [|f'] d s Hf Hf'; try lia; simpl.
  - pose proof (skip_space_len s). destruct (skip_space s) as [|a s1] eqn:Es; [done|]. simpl slen in *.
    destruct (code a =? 34); [done|]. destruct (code a =? 91).
    + destruct (maxNestingDepth <=? d); [done|]. destruct (strip "]" _); [done|].
      by rewrite (IHe f') by lia.
    + destruct (code a =? 123); [|done].
      destruct (maxNestingDepth <=? d); [done|]. destruct (strip "}" _); [done|].
      by rewrite (IHm f') by lia.
  - rewrite <- (IHv f') by lia. destruct (parse_value f d s) as [[x r0]|] eqn:Ev; [|done].
    apply (proj1 (parse_len f)) in Ev. pose proof (skip_space_len r0).
    destruct (strip "," (skip_space r0)) as [r'|] eqn:Ec; [|done]. apply strip_len in Ec. simpl slen in Ec.
    by rewrite (IHe f') by lia.
  - pose proof (skip_space_len s). destruct (skip_space s) as [|a s1] eqn:Es; [done|]. simpl slen in *.
    destruct (negb (code a =? 34)); [done|].
    destruct (string_literal s1) as [[k r0]|] eqn:Ek; [|done]. apply parse_string_len in Ek.
    pose proof (skip_space_len r0).
    destruct (strip ":" (skip_space r0)) as [r1|] eqn:Ec; [|done]. apply strip_len in Ec. simpl slen in Ec.
    rewrite <- (IHv f') by lia. destruct (parse_value f d r1) as [[x r2]|] eqn:Ev; [|done].
    apply (proj1 (parse_len f)) in Ev. pose proof (skip_space_len r2).
    destruct (strip "," (skip_space r2)) as [r'|] eqn:Ec2; [|done]. apply strip_len in Ec2. simpl slen in Ec2.
    by rewrite (IHm f') by lia.
Qed.

(** The fuel of [parse_json] decides nothing. *)
Lemma parse_json_fuel fuel s :
  (2 * slen s < fuel)%nat -> parse_value fuel 0 s = parse_value (S (2 * slen s)) 0 s.
Proof. intros Hf. apply parse_fuel; lia. Qed.
