(* ===== verification/Unstructured.v ===== *)
(** * Unstructured objects of the infrastructure cluster

    The guests, seed profiles and Machines are reached without their Go types:
    as [map[string]any] with metadata accessors. The standard library's part,
    [json.Unmarshal] into such a map, is a definition; the client and the nested
    accessors of apimachinery are an interface with their documented behaviour. *)

From S2P Require Import Prelude GoStd Api KubeApi Json Provisioner.
Local Open Scope Z_scope.
Local Open Scope go_scope.

(** ** map[string]any

    The members of an object; of two with the same key the later one counts. *)
Abbreviation object := (list (string * JSON)) (only parsing).

Definition field (k : string) (o : object) : option JSON :=
  foldl (fun acc '(k', v) => if k' == k then Some v else acc) None o.

Definition set_field (k : string) (v : JSON) (o : object) : object :=
  List.filter (fun '(k', _) => k' != k) o ++ [(k, v)].

Definition as_string (v : option JSON) : string := match v with Some (JStr s) => s | _ => "" end.
Definition as_bool (v : option JSON) : bool := match v with Some (JBool b) => b | _ => false end.

(** ** Numbers

    Every number of a text is decoded to a float64, the one nearest to the decimal
    (ties to even), as strconv.ParseFloat; a number that rounds beyond the largest
    is an error of Unmarshal. The exponent stops growing at five digits, as in
    strconv. The rounding is that of IEEE 754 in the Standard Library's
    [SpecFloat], applied to the exact value of the literal. *)
Fixpoint exponent_digits (e : Z) (s : string) : Z :=
  match s with
  | String a s' => exponent_digits (if e <? 10000 then e * 10 + digit_val a else e) s'
  | EmptyString => e
  end.

Definition float_exponent (s : string) : Z :=
  match s with
  | String _ r =>
      match strip "-" r with
      | Some d => - exponent_digits 0 d
      | None => exponent_digits 0 (TrimPrefix r "+")
      end
  | EmptyString => 0
  end.

(** The digits of a literal without its sign, and the power of ten they count. *)
Definition decimal (lit : string) : Z * Z :=
  let '(i, s) := span_digits (TrimPrefix lit "-") in
  let '(fr, s) := match strip "." s with Some r => span_digits r | None => ("", s) end in
  (default 0 (digits_val 0 (i +:+ fr)), float_exponent s - Z.of_nat (String.length fr)).

Definition float64_prec : Z := 53.
Definition float64_emax : Z := 1024.

(** The float64 nearest to [m * 10 ^ e], with a sign. Past 400 the value is beyond
    the largest whatever the digits. *)
Definition nearest_float64 (neg : bool) (m e : Z) : SpecFloat.spec_float :=
  if m =? 0 then SpecFloat.S754_zero neg
  else if 400 <? e then SpecFloat.S754_infinity neg
  else if 0 <=? e
  then SpecFloat.binary_normalize float64_prec float64_emax (if neg then - (m * 10 ^ e) else m * 10 ^ e) 0 neg
  else let '(q, e', rest) := SpecFloat.SFdiv_core_binary float64_prec float64_emax m 0 (10 ^ (- e)) 0 in
       SpecFloat.binary_round_aux float64_prec float64_emax neg q e' rest.

Definition ParseFloat (lit : string) : option SpecFloat.spec_float :=
  let '(m, e) := decimal lit in
  match nearest_float64 (bool_decide (is_Some (strip "-" lit))) m e with
  | SpecFloat.S754_infinity _ | SpecFloat.S754_nan => None
  | f => Some f
  end.

(** A value of a text decoded into an [any]; [None] is an error. *)
Fixpoint decode_any (v : JSON) : option JSON :=
  match v with
  | JNum lit => JFloat <$> ParseFloat lit
  | JArr l => JArr <$> mapM decode_any l
  | JObj kvs => JObj <$> mapM (fun kv => pair kv.1 <$> decode_any kv.2) kvs
  | _ => Some v
  end.

(** [json.Unmarshal] into a [map[string]any]; [None] is an error. A null leaves a
    nil map, which reads like an empty one. *)
Definition unmarshal_object (raw : string) : option object :=
  match parse_json raw with
  | Some (JObj kvs) => match decode_any (JObj kvs) with Some (JObj o) => Some o | _ => None end
  | Some JNull => Some []
  | _ => None
  end.

(** ** unstructured.Unstructured *)

Record GVK := mkGVK { g_Group : string; g_Version : string; g_Kind : string }.

#[export] Instance GVK_eq_dec : EqDecision GVK.
Proof. solve_decision. Defined.

(** The metadata the sources read or write; [u_Object] is the rest. *)
Record UObject := mkUObject {
  u_GVK : GVK;
  u_Namespace : string;
  u_Name : string;
  u_UID : string;
  u_Labels : gmap string string;
  u_Annotations : gmap string string;
  u_OwnerReferences : list OwnerReference;
  u_Finalizers : list string;
  u_CreationTimestamp : Time;
  u_DeletionTimestamp : option Time;
  u_Object : object
}.

Definition newUnstructured (gvk : GVK) : UObject :=
  mkUObject gvk "" "" "" ∅ ∅ [] [] 0 None [].

(** The accessors of apimachinery the sources call, without the error they all
    discard: the zero value, or [None], for a path that is missing or leads to
    another type. *)
Class Nested := {
  NestedString : object -> list string -> string;
  NestedStringSlice : object -> list string -> option (list string);
  NestedSlice : object -> list string -> option (list JSON);
  NestedMap : object -> list string -> option object
}.

(** Where a path leads. *)
Fixpoint descend (v : JSON) (path : list string) : option JSON :=
  match path with
  | [] => Some v
  | k :: rest =>
      match v with
      | JObj o => match field k o with Some v' => descend v' rest | None => None end
      | _ => None
      end
  end.

Definition string_of (v : JSON) : option string := match v with JStr s => Some s | _ => None end.

(** Their documentation. *)
Class NestedLaws `{Nested} : Prop := {
  NestedString_spec : forall o path, NestedString o path = as_string (descend (JObj o) path);
  NestedStringSlice_spec : forall o path,
    NestedStringSlice o path =
      match descend (JObj o) path with Some (JArr l) => mapM string_of l | _ => None end;
  NestedSlice_spec : forall o path,
    NestedSlice o path = match descend (JObj o) path with Some (JArr l) => Some l | _ => None end;
  NestedMap_spec : forall o path,
    NestedMap o path = match descend (JObj o) path with Some (JObj m) => Some m | _ => None end
}.

#[export] Instance descend_nested : Nested := {
  NestedString o path := as_string (descend (JObj o) path);
  NestedStringSlice o path :=
    match descend (JObj o) path with Some (JArr l) => mapM string_of l | _ => None end;
  NestedSlice o path := match descend (JObj o) path with Some (JArr l) => Some l | _ => None end;
  NestedMap o path := match descend (JObj o) path with Some (JObj m) => Some m | _ => None end
}.

#[export] Instance descend_nested_laws : NestedLaws (H := descend_nested).
Proof. by split. Qed.

(** ** The client *)

(** client.Client on unstructured objects. A write returns the object as the
    server stored it, and the world also when it fails. *)
Class InfraCluster (W : Type) := {
  get_object : GVK -> string -> string -> W -> result APIError UObject;
  list_objects : GVK -> string -> gmap string string -> W -> result APIError (list UObject);
  create_object : UObject -> W -> result APIError UObject * W;
  update_object : UObject -> W -> result APIError UObject * W;
  delete_object : GVK -> string -> string -> W -> result APIError unit * W
}.

Definition object_at (o : UObject) (gvk : GVK) (ns n : string) : Prop :=
  u_GVK o = gvk /\ u_Namespace o = ns /\ u_Name o = n.

(** What the server keeps of the metadata of an object sent to it; it may default
    and prune the rest. *)
Definition same_sent (o o' : UObject) : Prop :=
  object_at o' (u_GVK o) (u_Namespace o) (u_Name o)
  /\ u_Labels o' = u_Labels o /\ u_Annotations o' = u_Annotations o
  /\ u_OwnerReferences o' = u_OwnerReferences o /\ u_Finalizers o' = u_Finalizers o.

Definition elsewhere (o : UObject) (gvk : GVK) (ns n : string) : Prop := ~ object_at o gvk ns n.

(** What the API server documents of objects: a read finds the object of that
    name, a successful write is what the next read sees, other objects stay, a
    deletion waits for the finalizers, and the last finalizer of an object
    being deleted takes it away. *)
Class InfraLaws (W : Type) `{InfraCluster W} : Prop := {
  get_object_at : forall gvk ns n (w : W) o, get_object gvk ns n w = Ok o -> object_at o gvk ns n;
  create_object_ok : forall o (w w' : W) o',
    create_object o w = (Ok o', w') ->
    get_object (u_GVK o) (u_Namespace o) (u_Name o) w' = Ok o'
    /\ same_sent o o' /\ u_DeletionTimestamp o' = None;
  create_object_frame : forall o (w w' : W) r gvk ns n,
    create_object o w = (r, w') -> elsewhere o gvk ns n ->
    get_object gvk ns n w' = get_object gvk ns n w;
  update_object_ok : forall o (w w' : W) o',
    update_object o w = (Ok o', w') ->
    if bool_decide (u_Finalizers o = []) && negb (PtrIsZero (u_DeletionTimestamp o))
    then get_object (u_GVK o) (u_Namespace o) (u_Name o) w' = Err NotFound
    else get_object (u_GVK o) (u_Namespace o) (u_Name o) w' = Ok o'
         /\ same_sent o o' /\ u_DeletionTimestamp o' = u_DeletionTimestamp o;
  update_object_frame : forall o (w w' : W) r gvk ns n,
    update_object o w = (r, w') -> elsewhere o gvk ns n ->
    get_object gvk ns n w' = get_object gvk ns n w;
  delete_object_ok : forall gvk ns n (w w' : W) o,
    get_object gvk ns n w = Ok o -> delete_object gvk ns n w = (Ok tt, w') ->
    if bool_decide (u_Finalizers o = []) then get_object gvk ns n w' = Err NotFound
    else exists o', get_object gvk ns n w' = Ok o' /\ PtrIsZero (u_DeletionTimestamp o') = false;
  delete_object_held : forall gvk ns n (w w' : W) r o,
    get_object gvk ns n w = Ok o -> u_Finalizers o <> [] -> delete_object gvk ns n w = (r, w') ->
    exists o', get_object gvk ns n w' = Ok o' /\ same_sent o o';
  delete_object_notfound : forall gvk ns n (w w' : W),
    delete_object gvk ns n w = (Err NotFound, w') -> get_object gvk ns n w' = Err NotFound;
  delete_object_missing : forall gvk ns n (w w' : W) r,
    get_object gvk ns n w = Err NotFound -> delete_object gvk ns n w = (r, w') ->
    get_object gvk ns n w' = Err NotFound;
  delete_object_frame : forall gvk ns n (w w' : W) r gvk' ns' n',
    delete_object gvk ns n w = (r, w') -> ~ (gvk' = gvk /\ ns' = ns /\ n' = n) ->
    get_object gvk' ns' n' w' = get_object gvk' ns' n' w
}.

(** ** An infrastructure cluster in memory

    It never fails but for a missing or an existing object. It shows that the
    laws can hold. *)
#[export] Instance GVK_countable : Countable GVK.
Proof.
  refine (inj_countable' (fun g => (g_Group g, g_Version g, g_Kind g))
            (fun '(a, b, c) => mkGVK a b c) _). by intros [].
Defined.

Abbreviation Objects := (gmap (GVK * string * string) UObject) (only parsing).

Definition key_of (o : UObject) : GVK * string * string := (u_GVK o, u_Namespace o, u_Name o).

Definition mem_get (gvk : GVK) (ns n : string) (w : Objects) : result APIError UObject :=
  match w !! (gvk, ns, n) with
  | Some o => if key_of o == (gvk, ns, n) then Ok o else Err NotFound
  | None => Err NotFound
  end.
Definition mem_created (o : UObject) : UObject :=
  {| o with u_UID := "uid-" +:+ u_Name o; u_CreationTimestamp := 1; u_DeletionTimestamp := None |}.
Definition mem_create (o : UObject) (w : Objects) : result APIError UObject * Objects :=
  match mem_get (u_GVK o) (u_Namespace o) (u_Name o) w with
  | Ok _ => (Err (OtherError "already exists"), w)
  | Err _ => (Ok (mem_created o), <[key_of o := mem_created o]> w)
  end.
Definition mem_update (o : UObject) (w : Objects) : result APIError UObject * Objects :=
  if bool_decide (u_Finalizers o = []) && negb (PtrIsZero (u_DeletionTimestamp o))
  then (Ok o, delete (key_of o) w) else (Ok o, <[key_of o := o]> w).
Definition mem_delete (gvk : GVK) (ns n : string) (w : Objects) : result APIError unit * Objects :=
  match mem_get gvk ns n w with
  | Err _ => (Err NotFound, w)
  | Ok o =>
      if bool_decide (u_Finalizers o = []) then (Ok tt, delete (gvk, ns, n) w)
      else (Ok tt, <[(gvk, ns, n) := {| o with u_DeletionTimestamp := Some 1 |}]> w)
  end.

#[export] Instance mem_infra : InfraCluster Objects := {
  get_object := mem_get;
  list_objects gvk ns sel w :=
    Ok (omap (fun '(k, o) => if decide (k = key_of o /\ k.1 = (gvk, ns) /\ sel ⊆ u_Labels o)
                             then Some o else None) (map_to_list w));
  create_object := mem_create;
  update_object := mem_update;
  delete_object := mem_delete
}.

(** The list has the objects that can be read, and only those. *)
Lemma mem_get_ok (gvk : GVK) (ns n : string) (w : Objects) (o : UObject) :
  mem_get gvk ns n w = Ok o <-> w !! (gvk, ns, n) = Some o /\ key_of o = (gvk, ns, n).
Proof. unfold mem_get. destruct (w !! _) as [x|]; [case_bool_decide|]; naive_solver. Qed.

Lemma mem_listed (gvk : GVK) (ns : string) (sel : gmap string string) (w : Objects) items (o : UObject) :
  list_objects gvk ns sel w = Ok items ->
  o ∈ items <-> mem_get gvk ns (u_Name o) w = Ok o /\ sel ⊆ u_Labels o.
Proof.
  intros [= <-]. rewrite mem_get_ok, list_elem_of_omap. split.
  - intros ([k x] & Hk & Hx). apply elem_of_map_to_list in Hk.
    case_decide as Hd; [|done]. injection Hx as ->. destruct Hd as (-> & E & Hs). cbn in E.
    injection E as E1 E2. unfold key_of in *. rewrite E1, E2 in *. done.
  - intros [[Hw Hk] Hs]. exists ((gvk, ns, u_Name o), o). rewrite elem_of_map_to_list. split; [done|].
    by rewrite decide_True.
Qed.

Lemma mem_get_key gvk ns n w o : mem_get gvk ns n w = Ok o -> key_of o = (gvk, ns, n).
Proof.
  unfold mem_get. destruct (w !! _) as [x|]; [|done]. case_bool_decide; [|done]. by intros [= <-].
Qed.

Lemma mem_get_insert o w : mem_get (u_GVK o) (u_Namespace o) (u_Name o) (<[key_of o := o]> w) = Ok o.
Proof. unfold mem_get, key_of. by rewrite lookup_insert_eq, bool_decide_eq_true_2. Qed.

Lemma mem_get_insert_ne k o w gvk ns n :
  k <> (gvk, ns, n) -> mem_get gvk ns n (<[k := o]> w) = mem_get gvk ns n w.
Proof. intros Hk. unfold mem_get. by rewrite lookup_insert_ne. Qed.

Lemma mem_get_delete k w gvk ns n :
  mem_get gvk ns n (delete k w) = if k == (gvk, ns, n) then Err NotFound else mem_get gvk ns n w.
Proof.
  unfold mem_get. case_bool_decide as E; [by rewrite E, lookup_delete_eq|by rewrite lookup_delete_ne].
Qed.

Lemma elsewhere_key o gvk ns n : elsewhere o gvk ns n -> key_of o <> (gvk, ns, n).
Proof. unfold elsewhere, object_at, key_of. naive_solver. Qed.

#[export] Instance mem_infra_laws : InfraLaws Objects.
Proof.
  split; simpl.
  - intros gvk ns n w o H. apply mem_get_key in H. unfold key_of, object_at in *. naive_solver.
  - intros o w w' o'. unfold mem_create. destruct (mem_get _ _ _ w); [done|]. intros [= <- <-].
    split; [exact (mem_get_insert (mem_created o) w)|]. by repeat split.
  - intros o w w' r gvk ns n. unfold mem_create. intros H Hk%elsewhere_key.
    destruct (mem_get _ _ _ w); simplify_eq; [done|]. by apply mem_get_insert_ne.
  - intros o w w' o'. unfold mem_update. destruct (_ && _); intros [= <- <-].
    + unfold key_of. by rewrite mem_get_delete, bool_decide_eq_true_2.
    + rewrite mem_get_insert. by repeat split.
  - intros o w w' r gvk ns n. unfold mem_update. intros H Hk%elsewhere_key.
    destruct (_ && _); simplify_eq; [|by apply mem_get_insert_ne].
    by rewrite mem_get_delete, bool_decide_eq_false_2.
  - intros gvk ns n w w' o Hg. unfold mem_delete. rewrite Hg.
    case_bool_decide; intros [= <-]; [by rewrite mem_get_delete, bool_decide_eq_true_2|].
    eexists. apply mem_get_key in Hg. unfold mem_get. rewrite lookup_insert_eq.
    unfold key_of in *. simpl. by rewrite bool_decide_eq_true_2.
  - intros gvk ns n w w' r o Hg Hf. unfold mem_delete. rewrite Hg.
    case_bool_decide; [done|]. intros [= <- <-].
    eexists. apply mem_get_key in Hg. unfold mem_get. rewrite lookup_insert_eq.
    unfold key_of, same_sent, object_at in *. simpl. rewrite bool_decide_eq_true_2 by done. by simplify_eq.
  - intros gvk ns n w w'. unfold mem_delete. destruct (mem_get gvk ns n w) as [o|] eqn:E.
    + by case_bool_decide.
    + intros [= <-]. revert E. unfold mem_get. destruct (w !! _) as [x|]; [case_bool_decide|]; naive_solver.
  - intros gvk ns n w w' r Hg. unfold mem_delete. rewrite Hg. by intros [= <- <-].
  - intros gvk ns n w w' r gvk' ns' n'. unfold mem_delete. intros H Hk.
    assert ((gvk, ns, n) <> (gvk', ns', n')) by naive_solver.
    destruct (mem_get _ _ _ w); [case_bool_decide|]; simplify_eq; [|by apply mem_get_insert_ne|done].
    by rewrite mem_get_delete, bool_decide_eq_false_2.
Qed.

(** ** Lemmas on objects *)

Lemma field_app k o1 o2 :
  field k (o1 ++ o2) = match field k o2 with Some v => Some v | None => field k o1 end.
Proof.
  unfold field. rewrite foldl_app. generalize (foldl (fun acc '(k', v) => if k' == k then Some v else acc) None o1).
  induction o2 as [|[k' v] o2 IH] using rev_ind; intros acc; [done|].
  rewrite !foldl_app. simpl. destruct (bool_decide_reflect (k' = k)); [done|apply IH].
Qed.

Lemma field_none k o : field k o = None <-> forall v, ((k, v) ∉ o).
Proof.
  induction o as [|[k' v'] o IH] using rev_ind; [split; [intros _ v ?%elem_of_nil|]; done|].
  rewrite field_app. unfold field at 1. simpl. destruct (bool_decide_reflect (k' = k)) as [->|Hk].
  - split; [done|]. intros H. destruct (H v'). apply elem_of_app. right. left.
  - rewrite IH. split; intros H v Hv; apply (H v).
    + apply elem_of_app in Hv as [?|[= ? ?]%list_elem_of_singleton]; congruence.
    + apply elem_of_app. by left.
Qed.

Lemma field_filter k k' o :
  field k (List.filter (fun '(j, _) => j != k') o) = if k == k' then None else field k o.
Proof.
  induction o as [|[j v] o IH] using rev_ind; [by case_bool_decide|].
  rewrite List.filter_app, !field_app. simpl.
  destruct (bool_decide_reflect (j = k')) as [->|Hj]; simpl.
  - rewrite IH. unfold field at 2. simpl. rewrite (bool_decide_ext (k' = k) (k = k')) by done.
    by case_bool_decide.
  - unfold field at 1 3. simpl. rewrite IH.
    destruct (bool_decide_reflect (j = k)) as [->|]; [|done]. by rewrite bool_decide_eq_false_2.
Qed.

Lemma field_set k k' v o : field k (set_field k' v o) = if k == k' then Some v else field k o.
Proof.
  unfold set_field. rewrite field_app, field_filter. unfold field at 1. simpl.
  rewrite (bool_decide_ext (k' = k) (k = k')) by done. by case_bool_decide.
Qed.

#[export] Hint Rewrite field_set : go.

(** Setting a list of fields, first to last. *)
Definition set_fields (o : object) (kvs : list (string * JSON)) : object :=
  foldl (fun o '(k, v) => set_field k v o) o kvs.

(** ** Examples *)

Definition float_value (lit : string) : option (bool * Z * Z) :=
  match ParseFloat lit with
  | Some (SpecFloat.S754_finite neg m e) => Some (neg, Z.pos m, e)
  | Some (SpecFloat.S754_zero neg) => Some (neg, 0, 0)
  | _ => None
  end.

(** The last odd number of 54 bits is not a float64; the largest one and the
    smallest one are; beyond half a step more is an error, below half of the
    smallest is zero. *)
Example ParseFloat_examples :
  map float_value ["1"; "-2.5"; "0.1"; "9007199254740993"; "1.7976931348623157e308"; "1.7976931348623159e308";
                   "-2e308"; "0e999999"; "-0"; "5e-324"; "2e-324"; "1e400"]
  = [Some (false, 2 ^ 52, -52); Some (true, 5 * 2 ^ 50, -51); Some (false, 7205759403792794, -56);
     Some (false, 2 ^ 52, 1); Some (false, 2 ^ 53 - 1, 971); None;
     None; Some (false, 0, 0); Some (true, 0, 0); Some (false, 1, -1074); Some (false, 0, 0); None].
Proof. vm_compute. reflexivity. Qed.

(** A large integer of a text is another one in the map. *)
Example large_number_rounded :
  unmarshal_object ("{" +:+ bytes [34; 97; 34]%nat +:+ ":9007199254740993}")
  = unmarshal_object ("{" +:+ bytes [34; 97; 34]%nat +:+ ":9007199254740992}").
Proof. vm_compute. reflexivity. Qed.
