(* ===== verification/Template.v ===== *)
(** * The guest template (internal/provisioner/template.go)

    The field contract of spec.cell.guestTemplate, the GPU binding's consistency,
    and the specs of the guest and its seed profile rendered from them. *)

From S2P Require Import Prelude GoStd Api Json CellId Provisioner Unstructured.
Local Open Scope Z_scope.
Local Open Scope go_scope.

Definition ownedFields : list string :=
  ["seedProfileRef"; "gpuProfileRef"; "gpuResourceClaim"; "nodeName"; "migration"; "runPolicy"].

Definition deniedFields : gmap string string :=
  {[ "kernelRef" := "a GPU cell is a disk boot; KubeSwift makes kernelRef and GPU passthrough mutually exclusive";
     "cloneFromSnapshot" := "VFIO state cannot be restored from a snapshot";
     "vhostUserDevices" := "KubeSwift rejects vhost-user devices on the GPU path";
     "filesystems" := "KubeSwift rejects virtio-fs shares on the GPU path" ]}.

Definition requiredFields : list string := ["guestClassRef"; "imageRef"].

(** [strings.EqualFold] against a lower-case ASCII word. Two runes outside ASCII
    fold into it: the long s and the Kelvin sign. *)
Definition fold_variants (a : ascii) : list string :=
  let c := code a in
  [String a ""]
  ++ (if (97 <=? c) && (c <=? 122) then [String (chr (c - 32)) ""] else [])
  ++ (if c =? 115 then [bytes [197; 191]%nat] else [])
  ++ (if c =? 107 then [bytes [226; 132; 170]%nat] else []).

Fixpoint EqualFold (s word : string) : bool :=
  match word with
  | EmptyString => s == ""
  | String a word' =>
      existsb (fun v => match strip v s with Some s' => EqualFold s' word' | None => false end)
        (fold_variants a)
  end.

(** ** Validation *)

Definition owned_problem (f : string) : string :=
  "cell.guestTemplate." +:+ f +:+ " is set by the operator and must not be set here".
Definition denied_problem (f why : string) : string :=
  "cell.guestTemplate." +:+ f +:+ " is not supported: " +:+ why.
Definition windows_problem : string :=
  "cell.guestTemplate.osType: windows is not supported for GPU cells".
Definition required_problem (f : string) : string :=
  "cell.guestTemplate." +:+ f +:+ " is required".

Definition is_set (tmpl : object) (f : string) : bool := bool_decide (is_Some (field f tmpl)).

Definition owned_problems (tmpl : object) : list string :=
  map owned_problem (List.filter (is_set tmpl) ownedFields).
Definition denied_problems (tmpl : object) : list string :=
  map (fun '(f, why) => denied_problem f why)
    (List.filter (fun kv => is_set tmpl kv.1) (map_to_list deniedFields)).
Definition os_problems (tmpl : object) : list string :=
  match field "osType" tmpl with
  | Some (JStr os) => if EqualFold os "windows" then [windows_problem] else []
  | _ => []
  end.
Definition is_missing (tmpl : object) (f : string) : bool :=
  match field f tmpl with None | Some JNull => true | Some _ => false end.
Definition required_problems (tmpl : object) : list string :=
  map required_problem (List.filter (is_missing tmpl) requiredFields).

Definition template_problems (tmpl : object) : list string :=
  owned_problems tmpl ++ denied_problems tmpl ++ os_problems tmpl ++ required_problems tmpl.

Definition ValidateTemplate (raw : string) : result RenderError unit :=
  if raw == "" then
    Err (RenderMsg "cell.guestTemplate is empty: guestClassRef and imageRef are required")
  else
    match unmarshal_object raw with
    | None => Err (RenderJSON "cell.guestTemplate is not a valid SwiftGuestSpec object")
    | Some tmpl =>
        let problems := template_problems tmpl in
        if 0 <? len problems then Err (RenderMsg (Join (sort_strings problems) "; ")) else Ok tt
    end.

Definition ValidateGPU (g : GPUBinding) : result RenderError unit :=
  if gb_Backend g == GPUBackendDRA then
    let hasTemplate := gb_ResourceClaimTemplateName g != "" in
    let hasClaim := gb_ResourceClaimName g != "" in
    if hasTemplate == hasClaim
    then Err (RenderMsg "cell.gpu.dra: set exactly one of resourceClaimTemplateName or resourceClaimName")
    else if (gb_Tier g != "") && (gb_Tier g != "pcie")
    then Err (RenderMsg "cell.gpu.dra.tier: only pcie is supported (hgx tiers need QEMU and a host Fabric Manager)")
    else Ok tt
  else if gb_Backend g == GPUBackendNative then
    if gb_GPUProfileName g == ""
    then Err (RenderMsg "cell.gpu.native.gpuProfileRef is required for the Native backend")
    else Ok tt
  else Err (RenderBackend (gb_Backend g)).

(** ** Rendering *)

Definition set_if (k v : string) (o : object) : object :=
  if v != "" then set_field k (JStr v) o else o.

Definition dra_claim (g : GPUBinding) : object :=
  let claim := if gb_ResourceClaimTemplateName g != ""
               then [("resourceClaimTemplateName", JStr (gb_ResourceClaimTemplateName g))]
               else [("resourceClaimName", JStr (gb_ResourceClaimName g))] in
  set_if "hugepages" (gb_Hugepages g)
    (set_if "tier" (gb_Tier g) (set_if "requestName" (gb_RequestName g) claim)).

Definition set_gpu (g : GPUBinding) (spec : object) : object :=
  if gb_Backend g == GPUBackendDRA then set_field "gpuResourceClaim" (JObj (dra_claim g)) spec
  else if gb_Backend g == GPUBackendNative
  then set_field "gpuProfileRef" (JObj [("name", JStr (gb_GPUProfileName g))]) spec
  else spec.

Definition spread_constraint (pool : string) : JSON :=
  JArr [JObj [("maxSkew", JInt 1);
              ("topologyKey", JStr "kubernetes.io/hostname");
              ("whenUnsatisfiable", JStr "ScheduleAnyway");
              ("labelSelector", JObj [("matchLabels", JObj [(LabelPool, JStr pool)])])]].

Definition set_spread (policy pool : string) (spec : object) : object :=
  if (policy == "Spread") && negb (is_set spec "topologySpreadConstraints")
  then set_field "topologySpreadConstraints" (spread_constraint pool) spec
  else spec.

Definition renderGuestSpec (req : CellRequest) : result RenderError object :=
  let* _ := ValidateTemplate (cr_GuestTemplate req) in
  let* _ := ValidateGPU (cr_GPU req) in
  match unmarshal_object (cr_GuestTemplate req) with
  | None => Err (RenderJSON "cell.guestTemplate")
  | Some spec =>
      let spec := set_field "seedProfileRef" (JObj [("name", JStr (SeedName (cr_CellName req)))]) spec in
      let spec := set_field "runPolicy" (JStr "Always") spec in
      let spec := set_field "migration" (JObj [("enabled", JBool false)]) spec in
      let spec := set_gpu (cr_GPU req) spec in
      Ok (set_spread (cr_SpreadPolicy req) (cr_Pool req) spec)
  end.

Definition newline : string := String (ascii_of_nat 10) "".

Definition renderSeedSpec (req : CellRequest) : object :=
  let key := if cr_BootstrapSecretKey req == "" then "user-data" else cr_BootstrapSecretKey req in
  let spec := [("datasource", JStr "NoCloud");
               ("userData", JStr "");
               ("userDataFrom",
                 JObj [("secretKeyRef", JObj [("name", JStr (cr_BootstrapSecretName req));
                                              ("key", JStr key)])])] in
  if cr_Hostname req != ""
  then set_field "metaData"
         (JStr ("instance-id: " +:+ cr_CellName req +:+ newline
                +:+ "local-hostname: " +:+ cr_Hostname req +:+ newline)) spec
  else spec.

(** ** What validation accepts *)

Lemma map_filter_nil {A B} (f : A -> B) (p : A -> bool) l :
  map f (List.filter p l) = [] <-> forall x, x ∈ l -> p x = false.
Proof.
  rewrite fmap_nil_iff_b. split.
  - intros E x Hx. destruct (p x) eqn:Ep; [|done].
    assert (x ∈ List.filter p l) as H by (by apply elem_of_filter_b). rewrite E in H.
    by apply elem_of_nil in H.
  - intros H. destruct (List.filter p l) as [|x k] eqn:E; [done|].
    assert (x ∈ List.filter p l) as [Hx Hp]%elem_of_filter_b by (rewrite E; left).
    by rewrite H in Hp.
Qed.

Lemma is_set_false tmpl f : is_set tmpl f = false <-> field f tmpl = None.
Proof. unfold is_set. rewrite bool_decide_eq_false. by rewrite eq_None_not_Some. Qed.

(** The field contract: nothing the operator owns, nothing a GPU cell cannot have,
    not Windows, and both references there. *)
Record template_ok (tmpl : object) : Prop := {
  to_owned : forall f, f ∈ ownedFields -> field f tmpl = None;
  to_denied : forall f, is_Some (deniedFields !! f) -> field f tmpl = None;
  to_os : forall os, field "osType" tmpl = Some (JStr os) -> EqualFold os "windows" = false;
  to_required : forall f, f ∈ requiredFields -> exists v, field f tmpl = Some v /\ v <> JNull
}.

#[local] Opaque deniedFields ownedFields requiredFields.

Lemma owned_problems_nil tmpl :
  owned_problems tmpl = [] <-> forall f, f ∈ ownedFields -> field f tmpl = None.
Proof.
  unfold owned_problems. rewrite map_filter_nil.
  split; intros H f Hf; by apply is_set_false, H.
Qed.

Lemma denied_problems_nil tmpl :
  denied_problems tmpl = [] <-> forall f, is_Some (deniedFields !! f) -> field f tmpl = None.
Proof.
  unfold denied_problems. rewrite map_filter_nil. split.
  - intros H f [why Hf]. by apply is_set_false, (H (f, why)), elem_of_map_to_list.
  - intros H [f why] Hf%elem_of_map_to_list. apply is_set_false, H. by exists why.
Qed.

Lemma os_problems_nil tmpl :
  os_problems tmpl = [] <->
  forall os, field "osType" tmpl = Some (JStr os) -> EqualFold os "windows" = false.
Proof.
  unfold os_problems. split.
  - intros H os E. rewrite E in H. by destruct (EqualFold os "windows").
  - intros H. destruct (field "osType" tmpl) as [[]|]; try done. by rewrite H.
Qed.

Lemma required_problems_nil tmpl :
  required_problems tmpl = [] <->
  forall f, f ∈ requiredFields -> exists v, field f tmpl = Some v /\ v <> JNull.
Proof.
  unfold required_problems. rewrite map_filter_nil. unfold is_missing.
  split; intros H f Hf; specialize (H f Hf).
  - destruct (field f tmpl) as [v|]; [|done]. exists v. split; [done|]. by destruct v.
  - destruct H as (v & -> & Hv). by destruct v.
Qed.

Lemma template_problems_nil tmpl : template_problems tmpl = [] <-> template_ok tmpl.
Proof.
  unfold template_problems. split.
  - intros (A & (B & (C & D)%app_nil)%app_nil)%app_nil.
    split; [by apply owned_problems_nil|by apply denied_problems_nil|by apply os_problems_nil|
            by apply required_problems_nil].
  - intros [A B C D]. rewrite (proj2 (owned_problems_nil tmpl)), (proj2 (denied_problems_nil tmpl)),
      (proj2 (os_problems_nil tmpl)), (proj2 (required_problems_nil tmpl)); done.
Qed.

(** ValidateTemplate accepts exactly the templates that keep the field contract. *)
Lemma ValidateTemplate_ok_iff raw :
  ValidateTemplate raw = Ok tt <-> exists tmpl, unmarshal_object raw = Some tmpl /\ template_ok tmpl.
Proof.
  unfold ValidateTemplate. destruct (bool_decide_reflect (raw = "")) as [->|].
  { split; [done|]. intros (tmpl & H & _). by vm_compute in H. }
  destruct (unmarshal_object raw) as [tmpl|]; [|split; [done|by intros (? & ? & _)]].
  destruct (template_problems tmpl) as [|x l] eqn:E.
  - split; [|done]. intros _. exists tmpl. split; [done|]. by apply template_problems_nil.
  - rewrite (proj2 (Z.ltb_lt _ _)) by (rewrite len_cons; pose proof (len_nonneg l); lia).
    split; [done|]. intros (? & [= <-] & Ht%template_problems_nil). by rewrite E in Ht.
Qed.

(** Exactly one consistent binding. *)
Definition gpu_ok (g : GPUBinding) : Prop :=
  (gb_Backend g = GPUBackendDRA
   /\ (gb_ResourceClaimTemplateName g = "" <-> gb_ResourceClaimName g <> "")
   /\ (gb_Tier g = "" \/ gb_Tier g = "pcie"))
  \/ (gb_Backend g = GPUBackendNative /\ gb_GPUProfileName g <> "").

Lemma ValidateGPU_ok_iff g : ValidateGPU g = Ok tt <-> gpu_ok g.
Proof.
  unfold ValidateGPU, gpu_ok.
  destruct (bool_decide_reflect (gb_Backend g = GPUBackendDRA)) as [->|];
    [|destruct (bool_decide_reflect (gb_Backend g = GPUBackendNative)) as [->|]].
  - destruct (bool_decide_reflect (gb_ResourceClaimTemplateName g = ""));
      destruct (bool_decide_reflect (gb_ResourceClaimName g = ""));
      destruct (bool_decide_reflect (gb_Tier g = ""));
      destruct (bool_decide_reflect (gb_Tier g = "pcie")); simpl; split; intros; try done; naive_solver.
  - case_bool_decide; naive_solver.
  - naive_solver.
Qed.

(** ** What rendering writes *)

Definition overlaidFields : list string :=
  ["seedProfileRef"; "runPolicy"; "migration"; "gpuResourceClaim"; "gpuProfileRef";
   "topologySpreadConstraints"].

Lemma field_set_gpu f g spec :
  f <> "gpuResourceClaim" -> f <> "gpuProfileRef" -> field f (set_gpu g spec) = field f spec.
Proof.
  intros ??. unfold set_gpu. repeat case_bool_decide; rewrite ?field_set, ?bool_decide_eq_false_2; done.
Qed.

Lemma field_set_spread f policy pool spec :
  f <> "topologySpreadConstraints" \/ field f spec <> None ->
  field f (set_spread policy pool spec) = field f spec.
Proof.
  intros Hf. unfold set_spread. destruct (is_set spec "topologySpreadConstraints") eqn:E;
    rewrite ?andb_false_r; [done|]. apply is_set_false in E.
  destruct (_ && _); [|done]. rewrite field_set. case_bool_decide; [|done]. subst. naive_solver.
Qed.

Lemma renderGuestSpec_inv req spec :
  renderGuestSpec req = Ok spec ->
  exists tmpl, unmarshal_object (cr_GuestTemplate req) = Some tmpl /\ template_ok tmpl
    /\ gpu_ok (cr_GPU req)
    /\ spec = set_spread (cr_SpreadPolicy req) (cr_Pool req)
                (set_gpu (cr_GPU req)
                   (set_field "migration" (JObj [("enabled", JBool false)])
                      (set_field "runPolicy" (JStr "Always")
                         (set_field "seedProfileRef" (JObj [("name", JStr (SeedName (cr_CellName req)))]) tmpl)))).
Proof.
  unfold renderGuestSpec.
  destruct (ValidateTemplate _) as [[]|] eqn:E; [|done]. apply ValidateTemplate_ok_iff in E as (tmpl & -> & Ht).
  simpl. destruct (ValidateGPU _) as [[]|] eqn:Eg; [|done]. apply ValidateGPU_ok_iff in Eg.
  simpl. intros [= <-]. eauto.
Qed.

Lemma field_set_if k k' v o :
  field k (set_if k' v o) = if (k == k') && (v != "") then Some (JStr v) else field k o.
Proof.
  unfold set_if. destruct (bool_decide_reflect (v = "")) as [->|]; simpl; rewrite ?andb_false_r; [done|].
  rewrite field_set, andb_true_r. done.
Qed.

Lemma field_overlay f req tmpl :
  (f ∉ ["seedProfileRef"; "runPolicy"; "migration"]) ->
  field f (set_field "migration" (JObj [("enabled", JBool false)])
             (set_field "runPolicy" (JStr "Always")
                (set_field "seedProfileRef" (JObj [("name", JStr (SeedName (cr_CellName req)))]) tmpl)))
  = field f tmpl.
Proof. intros Hf. rewrite !field_set, !bool_decide_eq_false_2 by set_solver. done. Qed.

Lemma overlaid_owned f :
  f ∈ overlaidFields -> f <> "topologySpreadConstraints" -> f ∈ ownedFields.
Proof. unfold overlaidFields. intros Hf ?. Transparent ownedFields. unfold ownedFields. set_solver. Qed.

(** The members a DRA claim of a guest can have, and what the binding says of each. *)
Definition claim_members (g : GPUBinding) : list (string * string) :=
  [("resourceClaimTemplateName", gb_ResourceClaimTemplateName g);
   ("resourceClaimName", gb_ResourceClaimName g);
   ("requestName", gb_RequestName g); ("tier", gb_Tier g); ("hugepages", gb_Hugepages g)].

Lemma dra_claim_members g k v :
  (gb_ResourceClaimTemplateName g = "" <-> gb_ResourceClaimName g <> "") ->
  field k (dra_claim g) = Some v <-> exists s, (k, s) ∈ claim_members g /\ s <> "" /\ v = JStr s.
Proof.
  intros Hx. unfold dra_claim, claim_members. rewrite !field_set_if.
  destruct (bool_decide_reflect (gb_ResourceClaimTemplateName g = "")) as [Et|Et]; cbn [negb];
    [pose proof (proj1 Hx Et) as Ec|
     assert (gb_ResourceClaimName g = "") as Ec by (destruct (decide (gb_ResourceClaimName g = "")); tauto)];
    unfold field; simpl; setoid_rewrite elem_of_cons; setoid_rewrite elem_of_cons; setoid_rewrite elem_of_cons;
    setoid_rewrite elem_of_cons; setoid_rewrite list_elem_of_singleton;
    repeat case_bool_decide; simpl; subst; naive_solver.
Qed.

Lemma field_spread policy pool spec :
  field "topologySpreadConstraints" (set_spread policy pool spec)
  = match field "topologySpreadConstraints" spec with
    | Some v => Some v
    | None => if policy == "Spread" then Some (spread_constraint pool) else None
    end.
Proof.
  unfold set_spread. destruct (is_set spec "topologySpreadConstraints") eqn:E.
  - rewrite andb_false_r. unfold is_set in E. apply bool_decide_eq_true in E as [v ->]. done.
  - apply is_set_false in E. rewrite andb_true_r, E. case_bool_decide; [by rewrite field_set|done].
Qed.

Lemma gpu_bound g p q req tmpl :
  gpu_ok g -> template_ok tmpl ->
  let spec := set_spread p q (set_gpu g
                (set_field "migration" (JObj [("enabled", JBool false)])
                   (set_field "runPolicy" (JStr "Always")
                      (set_field "seedProfileRef" (JObj [("name", JStr (SeedName (cr_CellName req)))]) tmpl)))) in
  (gb_Backend g = GPUBackendDRA /\ field "gpuProfileRef" spec = None
   /\ exists claim, field "gpuResourceClaim" spec = Some (JObj claim)
        /\ forall k v, field k claim = Some v <-> exists s, (k, s) ∈ claim_members g /\ s <> "" /\ v = JStr s)
  \/ (gb_Backend g = GPUBackendNative /\ field "gpuResourceClaim" spec = None
      /\ field "gpuProfileRef" spec = Some (JObj [("name", JStr (gb_GPUProfileName g))])).
Proof.
  intros Hg Ht spec.
  assert (forall f, f ∈ ["gpuProfileRef"; "gpuResourceClaim"] -> field f tmpl = None) as Hn
    by (intros f Hin; apply (to_owned _ Ht); set_unfold; naive_solver).
  unfold spec. rewrite !field_set_spread by (by left).
  unfold set_gpu. destruct Hg as [(-> & Hx & Hr)|(-> & Hr)]; [left|right]; (split; [done|]).
  - rewrite (bool_decide_eq_true_2 (GPUBackendDRA = GPUBackendDRA)) by done.
    rewrite (field_set "gpuProfileRef" "gpuResourceClaim"), (field_set "gpuResourceClaim"), field_overlay by decide_elem.
    split; [by apply Hn; decide_elem|]. exists (dra_claim g). split; [done|]. intros. by apply dra_claim_members.
  - rewrite (bool_decide_eq_false_2 (GPUBackendNative = GPUBackendDRA)) by done.
    rewrite (bool_decide_eq_true_2 (GPUBackendNative = GPUBackendNative)) by done.
    rewrite (field_set "gpuResourceClaim" "gpuProfileRef"), (field_set "gpuProfileRef"), field_overlay by decide_elem.
    split; [by apply Hn; decide_elem|done].
Qed.

(** C22. The rendered spec is the user's template, as encoding/json decodes it into a
    map (a number is the nearest float64), under the operator's overlay. What the
    decoded template has is there unchanged; the operator adds the seed
    reference, the run policy, the migration switch, the one binding of the
    pool's backend (for DRA a claim with every name the binding sets, under its
    own key, and no other member; for Native the profile's name), and, under the
    policy Spread and where the template has none, the constraint that spreads
    the pool's cells over hosts; nothing else. *)
Theorem renderGuestSpec_overlay req spec :
  renderGuestSpec req = Ok spec ->
  let g := cr_GPU req in
  exists tmpl, unmarshal_object (cr_GuestTemplate req) = Some tmpl
    /\ (forall f v, field f tmpl = Some v -> field f spec = Some v)
    /\ (forall f, (f ∉ overlaidFields) -> field f spec = field f tmpl)
    /\ field "seedProfileRef" spec = Some (JObj [("name", JStr (SeedName (cr_CellName req)))])
    /\ field "runPolicy" spec = Some (JStr "Always")
    /\ field "migration" spec = Some (JObj [("enabled", JBool false)])
    /\ ((gb_Backend g = GPUBackendDRA /\ field "gpuProfileRef" spec = None
         /\ exists claim, field "gpuResourceClaim" spec = Some (JObj claim)
              /\ forall k v, field k claim = Some v <-> exists s, (k, s) ∈ claim_members g /\ s <> "" /\ v = JStr s)
        \/ (gb_Backend g = GPUBackendNative /\ field "gpuResourceClaim" spec = None
            /\ field "gpuProfileRef" spec = Some (JObj [("name", JStr (gb_GPUProfileName g))])))
    /\ field "topologySpreadConstraints" spec
       = match field "topologySpreadConstraints" tmpl with
         | Some v => Some v
         | None =>
             if cr_SpreadPolicy req == "Spread" then
               Some (JArr [JObj [("maxSkew", JInt 1); ("topologyKey", JStr "kubernetes.io/hostname");
                                 ("whenUnsatisfiable", JStr "ScheduleAnyway");
                                 ("labelSelector", JObj [("matchLabels", JObj [(LabelPool, JStr (cr_Pool req))])])]])
             else None
         end.
Proof.
  intros (tmpl & Hu & Ht & Hg & ->)%renderGuestSpec_inv. exists tmpl. split; [done|].
  assert (forall f, f <> "topologySpreadConstraints" -> forall p q o, field f (set_spread p q o) = field f o)
    as Hs by (intros; apply field_set_spread; by left).
  assert (forall f, (f ∉ overlaidFields) -> f <> "topologySpreadConstraints"
            /\ f <> "gpuResourceClaim" /\ f <> "gpuProfileRef"
            /\ (f ∉ ["seedProfileRef"; "runPolicy"; "migration"])) as Hout
    by (unfold overlaidFields; set_solver).
  split_and!.
  - intros f v Hf. destruct (decide (f = "topologySpreadConstraints")) as [->|Hn].
    + rewrite field_spread, field_set_gpu, field_overlay by (decide_elem || done). by rewrite Hf.
    + assert (f ∉ overlaidFields) as (? & ? & ? & ?)%Hout.
      { intros Ho. rewrite (to_owned _ Ht) in Hf by (by apply overlaid_owned). done. }
      by rewrite Hs, field_set_gpu, field_overlay.
  - intros f (? & ? & ? & ?)%Hout. by rewrite Hs, field_set_gpu, field_overlay.
  - rewrite Hs, field_set_gpu, !field_set by done. done.
  - rewrite Hs, field_set_gpu, !field_set by done. done.
  - rewrite Hs, field_set_gpu, !field_set by done. done.
  - by apply gpu_bound.
  - rewrite field_spread, field_set_gpu, field_overlay by (decide_elem || done). done.
Qed.

(** ** Witnesses *)

Definition ex_request : CellRequest :=
  {| cr_Pool := "inference"; cr_Namespace := "gpu"; cr_Index := 0; cr_CellName := "inference-0";
     cr_GuestTemplate := ex_template;
     cr_GPU := mkGPUBinding GPUBackendDRA "gpu-claim" "" "gpu" "pcie" "" "";
     cr_BootstrapSecretName := "inference-0-bootstrap"; cr_BootstrapSecretKey := "user-data";
     cr_Hostname := "inference-0"; cr_NodeIPFrom := ""; cr_SpreadPolicy := "Spread";
     cr_ClusterAPI := None; cr_TemplateHash := "h"; cr_OwnerRefs := [] |}.

Lemma renderGuestSpec_overlay_witness :
  exists spec, renderGuestSpec ex_request = Ok spec
    /\ field "runPolicy" spec = Some (JStr "Always")
    /\ exists claim, field "gpuResourceClaim" spec = Some (JObj claim)
         /\ field "resourceClaimTemplateName" claim = Some (JStr "gpu-claim").
Proof.
  destruct (renderGuestSpec ex_request) as [spec|e] eqn:E; [|exfalso; by vm_compute in E].
  exists spec. split; [done|].
  destruct (renderGuestSpec_overlay ex_request spec E)
    as (tmpl & _ & _ & _ & _ & Hr & _ & [(_ & _ & claim & Hc & Hm)|(Hb & _)] & _); [|done].
  split; [exact Hr|]. exists claim. split; [exact Hc|]. apply Hm. exists "gpu-claim".
  split_and!; [left|done..].
Defined.
