(* ===== verification/CellObjects.v ===== *)
(** * The objects of a cell (internal/provisioner)

    What the two provisioners do with one object of the infrastructure cluster:
    read it or make it, delete it, list the pool's, clear its drain finalizer. *)

From S2P Require Import Prelude GoStd Api KubeApi Provisioner Unstructured.
Local Open Scope Z_scope.
Local Open Scope go_scope.

Definition withoutDrainFinalizer (fs : list string) : list string * bool :=
  (List.filter (fun f => f != FinalizerCellDrain) fs, bool_decide (FinalizerCellDrain ∈ fs)).

Section objects.
Context {W : Type} `{InfraCluster W}.

(** client.Get: what is done with the object when it is there, and when the
    server says that it is not; any other error is returned. *)
Definition get_or {A} (gvk : GVK) (ns name context : string) (found : UObject -> PM W A)
    (absent : PM W A) : PM W A :=
  r ← pask (get_object gvk ns name);
  match r with
  | Ok o => found o
  | Err e => if IsNotFound e then absent else pfail (api_error context e)
  end.

Definition create (o : UObject) : PM W UObject :=
  r ← pdo (create_object o); plift (api_error "") r.

(** client.Delete, for which an object that is gone is deleted. *)
Definition delete_ignoring_absent (gvk : GVK) (ns name context : string) : PM W unit :=
  r ← pdo (delete_object gvk ns name);
  match r with
  | Ok _ => mret tt
  | Err e => if IsNotFound e then mret tt else pfail (api_error context e)
  end.

Definition listCellNames (gvk : GVK) (namespace pool : string) (w : W) : result ProvError (list string) :=
  match list_objects gvk namespace {[ LabelPool := pool ]} w with
  | Err e => Err (api_error ("listing cell " +:+ g_Kind gvk +:+ "s") e)
  | Ok items => Ok (map u_Name items)
  end.

(** Shared with the Cluster API provisioner, which keeps the finalizer on its
    Machine. *)
Definition clear_drain_finalizer (gvk : GVK) (reading clearing : string) (req : CellRequest) : PM W unit :=
  get_or gvk (cr_Namespace req) (cr_CellName req) reading
    (fun o =>
       let '(kept, found) := withoutDrainFinalizer (u_Finalizers o) in
       if negb found then mret tt
       else
         r ← pdo (update_object {| o with u_Finalizers := kept |});
         _ ← plift (api_error clearing) r;
         mret tt)
    (mret tt).

(** ** What they do to the world *)

Definition there (gvk : GVK) (ns n : string) (w : W) (o : UObject) : Prop :=
  get_object gvk ns n w = Ok o.
Definition gone (gvk : GVK) (ns n : string) (w : W) : Prop := get_object gvk ns n w = Err NotFound.

Lemma get_or_there {A} gvk ns n c (f : UObject -> PM W A) g w o :
  there gvk ns n w o -> get_or gvk ns n c f g w = f o w.
Proof. unfold there, get_or. intros E. unfold_pm. by rewrite E. Qed.

Lemma get_or_gone {A} gvk ns n c (f : UObject -> PM W A) g w :
  gone gvk ns n w -> get_or gvk ns n c f g w = g w.
Proof. unfold gone, get_or. intros E. unfold_pm. by rewrite E. Qed.

Lemma get_or_ok {A} gvk ns n c (f : UObject -> PM W A) g w a w' :
  get_or gvk ns n c f g w = (Ok a, w') ->
  (exists o, there gvk ns n w o /\ f o w = (Ok a, w')) \/ (gone gvk ns n w /\ g w = (Ok a, w')).
Proof.
  unfold get_or, there, gone. unfold_pm.
  destruct (get_object gvk ns n w) as [o|[]]; simpl; eauto; done.
Qed.

Lemma withoutDrainFinalizer_spec fs :
  (FinalizerCellDrain ∉ (withoutDrainFinalizer fs).1)
  /\ (forall f, f <> FinalizerCellDrain -> f ∈ (withoutDrainFinalizer fs).1 <-> f ∈ fs)
  /\ ((withoutDrainFinalizer fs).2 = true <-> FinalizerCellDrain ∈ fs).
Proof.
  unfold withoutDrainFinalizer. simpl. split_and!.
  - intros [_ Hf]%elem_of_filter_b. guards. done.
  - intros f Hf. rewrite elem_of_filter_b. rewrite bool_decide_eq_false_2 by done. tauto.
  - by rewrite bool_decide_eq_true.
Qed.

Section laws.
Context `{!InfraLaws W}.

Lemma create_ok o w o' w' :
  create o w = (Ok o', w') ->
  there (u_GVK o) (u_Namespace o) (u_Name o) w' o' /\ same_sent o o' /\ u_DeletionTimestamp o' = None.
Proof.
  unfold create. unfold_pm. destruct (create_object o w) as [[x|e] w1] eqn:E; [|done].
  intros [= <- <-]. by apply create_object_ok in E.
Qed.

Lemma create_frame o w r w' gvk ns n :
  create o w = (r, w') -> elsewhere o gvk ns n ->
  get_object gvk ns n w' = get_object gvk ns n w.
Proof.
  unfold create. unfold_pm. destruct (create_object o w) as [[x|e] w1] eqn:E; simpl;
    intros [= <- <-]; by apply (create_object_frame _ _ _ _ _ _ _ E).
Qed.

Lemma delete_frame gvk ns n c w r w' gvk' ns' n' :
  delete_ignoring_absent gvk ns n c w = (r, w') -> ~ (gvk' = gvk /\ ns' = ns /\ n' = n) ->
  get_object gvk' ns' n' w' = get_object gvk' ns' n' w.
Proof.
  unfold delete_ignoring_absent. unfold_pm.
  destruct (delete_object gvk ns n w) as [[x|[]] w1] eqn:E; cbn;
    intros [= <- <-]; by apply (delete_object_frame _ _ _ _ _ _ _ _ _ E).
Qed.

(** A deletion never ends an object with a finalizer, whatever it answers. *)
Lemma delete_held gvk ns n c w r w' o :
  there gvk ns n w o -> u_Finalizers o <> [] -> delete_ignoring_absent gvk ns n c w = (r, w') ->
  exists o', there gvk ns n w' o' /\ u_Finalizers o' = u_Finalizers o.
Proof.
  unfold there, delete_ignoring_absent. unfold_pm. intros Hg Hf.
  destruct (delete_object gvk ns n w) as [[x|[]] w1] eqn:E; cbn; intros [= <- <-];
    destruct (delete_object_held _ _ _ _ _ _ _ Hg Hf E) as (o' & -> & (_ & _ & _ & _ & Hs)); by exists o'.
Qed.

Lemma delete_ends gvk ns n c w w' :
  gone gvk ns n w \/ (exists o, there gvk ns n w o /\ u_Finalizers o = []) ->
  delete_ignoring_absent gvk ns n c w = (Ok tt, w') -> gone gvk ns n w'.
Proof.
  unfold there, gone, delete_ignoring_absent. unfold_pm. intros Hg.
  destruct (delete_object gvk ns n w) as [[[]|[]] w1] eqn:E; cbn; intros [= <-];
    [|by apply delete_object_notfound in E].
  destruct Hg as [Hg|(o & Hg & Hf)]; [by apply (delete_object_missing _ _ _ _ _ _ Hg E)|].
  pose proof (delete_object_ok _ _ _ _ _ _ Hg E) as Hd. by rewrite Hf in Hd.
Qed.

Lemma clear_there gvk c1 c2 req w w' o :
  there gvk (cr_Namespace req) (cr_CellName req) w o ->
  clear_drain_finalizer gvk c1 c2 req w = (Ok tt, w') ->
  let kept := (withoutDrainFinalizer (u_Finalizers o)).1 in
  (FinalizerCellDrain ∉ u_Finalizers o) /\ w' = w
  \/ FinalizerCellDrain ∈ u_Finalizers o
     /\ if bool_decide (kept = []) && negb (PtrIsZero (u_DeletionTimestamp o))
        then gone gvk (cr_Namespace req) (cr_CellName req) w'
        else exists o', there gvk (cr_Namespace req) (cr_CellName req) w' o'
               /\ u_Finalizers o' = kept /\ u_DeletionTimestamp o' = u_DeletionTimestamp o.
Proof.
  intros Ho. unfold clear_drain_finalizer. rewrite (get_or_there _ _ _ _ _ _ _ _ Ho).
  destruct (get_object_at _ _ _ _ _ Ho) as (Hgvk & Hns & Hn).
  destruct (withoutDrainFinalizer_spec (u_Finalizers o)) as (_ & _ & Hfound).
  destruct (withoutDrainFinalizer (u_Finalizers o)) as [kept found]. simpl in *.
  destruct found; simpl; [|intros [= <-]; left; split; [|done]; intros Hi%Hfound; done].
  unfold_pm. set (sent := {| u_GVK := u_GVK o |}).
  destruct (update_object sent w) as [[o'|e] w1] eqn:E; [|done]. intros [= <-].
  right. split; [by apply Hfound|]. apply update_object_ok in E.
  subst sent. simpl in *. rewrite Hgvk, Hns, Hn in *.
  destruct (_ && _); [done|]. destruct E as (? & (_ & _ & _ & _ & ?) & ?). by exists o'.
Qed.

Lemma clear_gone gvk c1 c2 req w w' r :
  gone gvk (cr_Namespace req) (cr_CellName req) w ->
  clear_drain_finalizer gvk c1 c2 req w = (r, w') -> r = Ok tt /\ w' = w.
Proof. intros Hg. unfold clear_drain_finalizer. rewrite (get_or_gone _ _ _ _ _ _ _ Hg). by intros [= <- <-]. Qed.

Lemma clear_frame gvk c1 c2 req w r w' gvk' ns' n' :
  clear_drain_finalizer gvk c1 c2 req w = (r, w') ->
  ~ (gvk' = gvk /\ ns' = cr_Namespace req /\ n' = cr_CellName req) ->
  get_object gvk' ns' n' w' = get_object gvk' ns' n' w.
Proof.
  unfold clear_drain_finalizer, get_or. unfold_pm.
  destruct (get_object gvk (cr_Namespace req) (cr_CellName req) w) as [o|e] eqn:Ho.
  2: { destruct (IsNotFound e); by intros [= <- <-]. }
  destruct (withoutDrainFinalizer (u_Finalizers o)) as [kept []]; [|by intros [= <- <-]].
  simpl. set (sent := {| u_GVK := u_GVK o |}).
  destruct (update_object sent w) as [[o'|e] w1] eqn:E; intros [= <- <-] Hne;
    apply (update_object_frame _ _ _ _ _ _ _ E);
    destruct (get_object_at _ _ _ _ _ Ho) as (? & ? & ?); unfold elsewhere, object_at; subst sent;
    simpl; intros (? & ? & ?); apply Hne; split_and!; congruence.
Qed.
End laws.
End objects.
