(* ===== verification/SwiftGuest.v ===== *)
(** * The SwiftGuest provisioner (internal/provisioner/swiftguest.go)

    A cell backed by a KubeSwift virtual machine: a seed profile that points at the
    bootstrap Secret, and a guest that carries the drain finalizer. *)

From S2P Require Import Prelude GoStd Api KubeApi Json CellId Provisioner Unstructured Template.
From S2P Require Import CellObjects.
Local Open Scope Z_scope.
Local Open Scope go_scope.

Definition SwiftGuestGVK : GVK := mkGVK "swift.kubeswift.io" "v1alpha1" "SwiftGuest".
Definition SwiftSeedProfileGVK : GVK := mkGVK "seed.kubeswift.io" "v1alpha1" "SwiftSeedProfile".

(** ** What a guest's status says *)

Section observe.
Context `{Nested}.

(** The string member of a decoded object. *)
Definition member (k : string) (m : object) : string := as_string (field k m).

Fixpoint interface_ip (nodeIPFrom : string) (ifaces : list JSON) : string :=
  match ifaces with
  | [] => ""
  | JObj m :: rest =>
      if member "name" m == nodeIPFrom then member "ip" m else interface_ip nodeIPFrom rest
  | _ :: rest => interface_ip nodeIPFrom rest
  end.

Definition address (guest : UObject) (nodeIPFrom : string) : string :=
  if nodeIPFrom != "" then
    match NestedSlice (u_Object guest) ["status"; "network"; "interfaces"] with
    | None => ""
    | Some ifaces => interface_ip nodeIPFrom ifaces
    end
  else NestedString (u_Object guest) ["status"; "network"; "primaryIP"].

Fixpoint first_complaint (conds : list JSON) : string :=
  match conds with
  | [] => ""
  | JObj m :: rest =>
      if member "status" m == "True" then first_complaint rest
      else
        let msg := member "message" m in
        let reason := member "reason" m in
        if (msg != "") && (reason != "") then reason +:+ ": " +:+ msg
        else if msg != "" then msg
        else if reason != "" then reason
        else first_complaint rest
  | _ :: rest => first_complaint rest
  end.

Definition conditionMessage (guest : UObject) : string :=
  match NestedSlice (u_Object guest) ["status"; "conditions"] with
  | None => ""
  | Some conds => first_complaint conds
  end.

Definition created_at (o : UObject) : option Time :=
  if IsZero (u_CreationTimestamp o) then None else Some (u_CreationTimestamp o).
Definition template_hash (o : UObject) : string :=
  default "" (u_Annotations o !! AnnotationTemplateHash).

Definition observe (guest : UObject) (nodeIPFrom : string) : OuterState :=
  let o := u_Object guest in
  let phase := NestedString o ["status"; "phase"] in
  let gpuNode := NestedString o ["status"; "gpu"; "nodeName"] in
  let routable := address guest nodeIPFrom in
  let addr := if routable == "" then NestedString o ["status"; "network"; "primaryIP"] else routable in
  let complaint := conditionMessage guest in
  {| o_Exists := true;
     o_Phase := phase;
     o_Provisioned := (phase == "Running") && (addr != "");
     o_Failed := phase == "Failed";
     o_Reason := if phase == "Failed" then ReasonCellProvisionTimeout else "";
     o_Message := if phase == "Failed"
                  then if complaint == "" then "SwiftGuest reported phase Failed" else complaint
                  else "";
     o_GPUDevices := default [] (NestedStringSlice o ["status"; "gpu"; "devices"]);
     o_HostNode := if gpuNode == "" then NestedString o ["status"; "nodeName"] else gpuNode;
     o_Address := addr;
     o_RoutableAddress := routable;
     o_CreatedAt := created_at guest;
     o_UID := u_UID guest;
     o_TemplateHash := template_hash guest |}.
End observe.

(** ** The operations *)

Section swiftguest.
Context {W : Type} `{InfraCluster W} `{Nested}.

Definition seed_object (req : CellRequest) : UObject :=
  let o := newUnstructured SwiftSeedProfileGVK in
  {| o with
     u_Namespace := cr_Namespace req;
     u_Name := SeedName (cr_CellName req);
     u_Labels := GuestLabels (cr_Pool req) (cr_Index req);
     u_OwnerReferences := cr_OwnerRefs req;
     u_Object := [("spec", JObj (renderSeedSpec req))] |}.

Definition ensureSeedProfile (req : CellRequest) : PM W unit :=
  get_or SwiftSeedProfileGVK (cr_Namespace req) (SeedName (cr_CellName req)) ""
    (fun _ => mret tt)
    (_ ← create (seed_object req); mret tt).

Definition guest_object (req : CellRequest) (spec : object) : UObject :=
  let o := newUnstructured SwiftGuestGVK in
  {| o with
     u_Namespace := cr_Namespace req;
     u_Name := cr_CellName req;
     u_Labels := GuestLabels (cr_Pool req) (cr_Index req);
     u_Annotations := {[ AnnotationTemplateHash := cr_TemplateHash req ]};
     u_OwnerReferences := cr_OwnerRefs req;
     u_Finalizers := [FinalizerCellDrain];
     u_Object := [("spec", JObj spec)] |}.

Definition ensureGuest (req : CellRequest) : PM W UObject :=
  get_or SwiftGuestGVK (cr_Namespace req) (cr_CellName req) ""
    mret
    (spec ← plift (ProvRender "") (renderGuestSpec req);
     create (guest_object req spec)).

Definition SwiftGuest_Ensure (req : CellRequest) : PM W OuterState :=
  pwrap "ensuring SwiftSeedProfile" (ensureSeedProfile req);;
  guest ← pwrap "ensuring SwiftGuest" (ensureGuest req);
  mret (observe guest (cr_NodeIPFrom req)).

(** Whether the cell is really gone. *)
Definition SwiftGuest_Delete (req : CellRequest) : PM W bool :=
  get_or SwiftGuestGVK (cr_Namespace req) (cr_CellName req)
    ("reading SwiftGuest " +:+ cr_CellName req)
    (fun guest =>
       (if PtrIsZero (u_DeletionTimestamp guest)
        then delete_ignoring_absent SwiftGuestGVK (u_Namespace guest) (u_Name guest)
               ("deleting SwiftGuest " +:+ cr_CellName req)
        else mret tt);;
       mret false)
    (delete_ignoring_absent SwiftSeedProfileGVK (cr_Namespace req) (SeedName (cr_CellName req))
       ("deleting SwiftSeedProfile for " +:+ cr_CellName req);;
     mret true).

Definition SwiftGuest_ClearDrainFinalizer (req : CellRequest) : PM W unit :=
  clear_drain_finalizer SwiftGuestGVK ("reading SwiftGuest " +:+ cr_CellName req)
    ("clearing drain finalizer on " +:+ cr_CellName req) req.

Definition SwiftGuestProvisioner : ProvisionerOps W :=
  mkProvisionerOps W ProvisionerSwiftGuest
    (listCellNames SwiftGuestGVK)
    SwiftGuest_Ensure SwiftGuest_Delete (Some SwiftGuest_ClearDrainFinalizer).
End swiftguest.

(** ** What a provisioner promises of the cell's guest *)

Section theorems.
Context {W : Type} `{InfraCluster W} `{!InfraLaws W} `{Nested}.

Abbreviation the_guest req := (there SwiftGuestGVK (cr_Namespace req) (cr_CellName req)) (only parsing).
Abbreviation the_seed req := (there SwiftSeedProfileGVK (cr_Namespace req) (SeedName (cr_CellName req))) (only parsing).

(** The guest as the provisioner makes it. *)
Definition guest_made (req : CellRequest) (o : UObject) : Prop :=
  FinalizerCellDrain ∈ u_Finalizers o
  /\ u_Labels o = GuestLabels (cr_Pool req) (cr_Index req)
  /\ template_hash o = cr_TemplateHash req
  /\ u_OwnerReferences o = cr_OwnerRefs req /\ u_DeletionTimestamp o = None.

Lemma ensureSeedProfile_ok req w w' :
  ensureSeedProfile req w = (Ok tt, w') ->
  (exists s, the_seed req w' s)
  /\ forall gvk ns n, gvk <> SwiftSeedProfileGVK -> get_object gvk ns n w' = get_object gvk ns n w.
Proof.
  unfold ensureSeedProfile. intros [(s & Hs & [= ->])|[Hg Hc]]%get_or_ok; [eauto|].
  apply PM_bind_ok in Hc as (s & w1 & Hc & [= ->]). split.
  - exists s. exact (proj1 (create_ok _ _ _ _ Hc)).
  - intros gvk ns n Hne. apply (create_frame _ _ _ _ _ _ _ Hc). intros (E & _). by apply Hne.
Qed.

Lemma ensureGuest_ok req w w' o :
  ensureGuest req w = (Ok o, w') ->
  the_guest req w' o
  /\ (w' = w \/ gone SwiftGuestGVK (cr_Namespace req) (cr_CellName req) w /\ guest_made req o)
  /\ forall gvk ns n, gvk <> SwiftGuestGVK -> get_object gvk ns n w' = get_object gvk ns n w.
Proof.
  unfold ensureGuest. intros [(g & Hs & [= -> ->])|[Hg Hc]]%get_or_ok; [by auto|].
  apply PM_bind_ok in Hc as (spec & w1 & Hr & Hc).
  assert (w1 = w) as -> by (revert Hr; unfold plift; destruct (renderGuestSpec req); by intros [= _ ->]).
  destruct (create_ok _ _ _ _ Hc) as (Ht & (_ & Hl & Ha & Ho & Hf) & Hd). split_and!; [done| |].
  - right. split; [done|]. unfold guest_made, template_hash. rewrite Hl, Ha, Ho, Hf, Hd.
    split_and!; [left|done| |done..]. simpl. by rewrite lookup_singleton_eq.
  - intros gvk ns n Hne. apply (create_frame _ _ _ _ _ _ _ Hc). intros (E & _). by apply Hne.
Qed.

(** C17. Ensure converges. After a call that returns, the guest and its seed profile
    exist, and the same call again changes nothing and observes the same. A
    guest the call made carries the drain finalizer, the pool's labels, its
    owner and the hash of the template. *)
Theorem SwiftGuest_Ensure_converges req w st w' :
  SwiftGuest_Ensure req w = (Ok st, w') ->
  (exists g s, the_guest req w' g /\ the_seed req w' s /\ st = observe g (cr_NodeIPFrom req)
     /\ (gone SwiftGuestGVK (cr_Namespace req) (cr_CellName req) w -> guest_made req g))
  /\ SwiftGuest_Ensure req w' = (Ok st, w').
Proof.
  unfold SwiftGuest_Ensure. intros ([] & w1 & Hs%pwrap_ok & Hr)%PM_bind_ok.
  apply PM_bind_ok in Hr as (g & w2 & Hg%pwrap_ok & [= <- <-]).
  destruct (ensureSeedProfile_ok _ _ _ Hs) as [(s & Hs1) Hf1].
  destruct (ensureGuest_ok _ _ _ _ Hg) as (Hg2 & Hm & Hf2).
  assert (the_seed req w2 s) as Hs2 by (unfold there; by rewrite Hf2).
  split.
  - exists g, s. split_and!; [done..|]. intros Hgone. destruct Hm as [->|[_ ?]]; [|done].
    unfold there, gone in *. rewrite Hf1 in Hg2 by done. congruence.
  - unfold pwrap, ensureSeedProfile, ensureGuest, mbind, PM_bind.
    rewrite (get_or_there _ _ _ _ _ _ _ _ Hs2). cbn.
    rewrite (get_or_there _ _ _ _ _ _ _ _ Hg2). done.
Qed.

(** The drain gate holds on the objects: while the guest carries the drain
    finalizer, Delete neither ends it nor reports it gone, whatever the API
    answers. *)
Theorem SwiftGuest_Delete_held req w g r w' :
  the_guest req w g -> FinalizerCellDrain ∈ u_Finalizers g ->
  SwiftGuest_Delete req w = (r, w') ->
  r <> Ok true /\ exists g', the_guest req w' g' /\ u_Finalizers g' = u_Finalizers g.
Proof.
  intros Hg Hf. unfold SwiftGuest_Delete. rewrite (get_or_there _ _ _ _ _ _ _ _ Hg).
  destruct (get_object_at _ _ _ _ _ Hg) as (_ & Hns & Hn).
  destruct (PtrIsZero (u_DeletionTimestamp g)); [|intros [= <- <-]; eauto].
  unfold mbind, PM_bind. destruct (delete_ignoring_absent _ _ _ _ w) as [d w1] eqn:E.
  rewrite Hns, Hn in E. assert (u_Finalizers g <> []) as Hnil by (intros E'; by rewrite E', elem_of_nil in Hf).
  pose proof (delete_held _ _ _ _ _ _ _ _ Hg Hnil E) as Hh.
  destruct d as [[]|e]; intros [= <- <-]; done.
Qed.

(** An object, if there, that nothing holds. *)
Definition unheld (gvk : GVK) (ns n : string) (w : W) : Prop :=
  gone gvk ns n w \/ exists o, there gvk ns n w o /\ u_Finalizers o = [].

Lemma Delete_gone req w b w' :
  gone SwiftGuestGVK (cr_Namespace req) (cr_CellName req) w ->
  SwiftGuest_Delete req w = (Ok b, w') ->
  b = true /\ gone SwiftGuestGVK (cr_Namespace req) (cr_CellName req) w'
  /\ (unheld SwiftSeedProfileGVK (cr_Namespace req) (SeedName (cr_CellName req)) w ->
      gone SwiftSeedProfileGVK (cr_Namespace req) (SeedName (cr_CellName req)) w').
Proof.
  intros Hg. unfold SwiftGuest_Delete. rewrite (get_or_gone _ _ _ _ _ _ _ Hg).
  intros ([] & w1 & Hd & [= <- <-])%PM_bind_ok. split_and!; [done| |].
  - unfold gone. by rewrite (delete_frame _ _ _ _ _ _ _ _ _ _ Hd) by (by intros (? & _)).
  - intros Hs. by apply (delete_ends _ _ _ _ _ _ Hs Hd).
Qed.

Lemma Delete_unheld req w b w' g :
  the_guest req w g -> u_Finalizers g = [] -> PtrIsZero (u_DeletionTimestamp g) = true ->
  SwiftGuest_Delete req w = (Ok b, w') ->
  gone SwiftGuestGVK (cr_Namespace req) (cr_CellName req) w'
  /\ forall gvk ns n, gvk <> SwiftGuestGVK -> get_object gvk ns n w' = get_object gvk ns n w.
Proof.
  intros Hg Hf Ht. unfold SwiftGuest_Delete. rewrite (get_or_there _ _ _ _ _ _ _ _ Hg), Ht.
  destruct (get_object_at _ _ _ _ _ Hg) as (_ & -> & ->).
  intros ([] & w1 & Hd & [= <- <-])%PM_bind_ok. split.
  - apply (delete_ends _ _ _ _ _ _ (or_intror (ex_intro _ g (conj Hg Hf))) Hd).
  - intros gvk ns n Hne. apply (delete_frame _ _ _ _ _ _ _ _ _ _ Hd). by intros (? & _).
Qed.

(** Once the drain finalizer is cleared, the removal of a cell ends: if nothing
    else holds the guest and the seed profile, two calls of Delete that return
    have removed both, and the second says so. *)
Theorem SwiftGuest_teardown req w g w1 w2 w3 b2 b3 :
  the_guest req w g -> u_Finalizers g = [FinalizerCellDrain] ->
  unheld SwiftSeedProfileGVK (cr_Namespace req) (SeedName (cr_CellName req)) w ->
  SwiftGuest_ClearDrainFinalizer req w = (Ok tt, w1) ->
  SwiftGuest_Delete req w1 = (Ok b2, w2) -> SwiftGuest_Delete req w2 = (Ok b3, w3) ->
  b3 = true
  /\ gone SwiftGuestGVK (cr_Namespace req) (cr_CellName req) w3
  /\ gone SwiftSeedProfileGVK (cr_Namespace req) (SeedName (cr_CellName req)) w3.
Proof.
  intros Hg Hf Hseed Hc H2 H3.
  assert (gone SwiftGuestGVK (cr_Namespace req) (cr_CellName req) w2
          /\ unheld SwiftSeedProfileGVK (cr_Namespace req) (SeedName (cr_CellName req)) w2) as [Hg2 Hs2].
  { assert (unheld SwiftSeedProfileGVK (cr_Namespace req) (SeedName (cr_CellName req)) w1) as Hs1.
    { unfold unheld, gone, there in *. by rewrite (clear_frame _ _ _ _ _ _ _ _ _ _ Hc) by (by intros (? & _)). }
    destruct (clear_there _ _ _ _ _ _ _ Hg Hc) as [[Hn _]|[_ Hr]];
      [rewrite Hf in Hn; destruct Hn; left|].
    rewrite Hf in Hr. simpl in Hr. destruct (PtrIsZero (u_DeletionTimestamp g)) eqn:Ht; simpl in Hr.
    - destruct Hr as (o & Ho & Hfo & Hto). rewrite <- Hto in Ht.
      destruct (Delete_unheld _ _ _ _ _ Ho Hfo Ht H2) as [? Hframe]. split; [done|].
      unfold unheld, gone, there in *. by rewrite Hframe.
    - destruct (Delete_gone _ _ _ _ Hr H2) as (_ & ? & Hs). split; [done|]. left. auto. }
  destruct (Delete_gone _ _ _ _ Hg2 H3) as (? & ? & Hs3). auto.
Qed.
End theorems.

(** ** Witnesses *)

Definition ex_created : result ProvError OuterState * Objects := SwiftGuest_Ensure ex_request ∅.

Definition ex_observed : OuterState :=
  match ex_created.1 with Ok st => st | Err _ => zeroOuterState end.

Lemma SwiftGuest_Ensure_converges_witness :
  o_UID ex_observed = "uid-inference-0"
  /\ SwiftGuest_Ensure ex_request ex_created.2 = (Ok ex_observed, ex_created.2).
Proof.
  split; [by_vm|].
  refine (proj2 (SwiftGuest_Ensure_converges ex_request ∅ ex_observed ex_created.2 _)).
  by_vm.
Defined.

Definition ex_guest : UObject :=
  default (newUnstructured SwiftGuestGVK) (ex_created.2 !! (SwiftGuestGVK, "gpu", "inference-0")).

Lemma SwiftGuest_Delete_held_witness :
  (SwiftGuest_Delete ex_request ex_created.2).1 = Ok false
  /\ exists g', there SwiftGuestGVK "gpu" "inference-0" (SwiftGuest_Delete ex_request ex_created.2).2 g'
         /\ u_Finalizers g' = [FinalizerCellDrain].
Proof.
  split; [by_vm|].
  destruct (SwiftGuest_Delete ex_request ex_created.2) as [r w'] eqn:E.
  assert (there SwiftGuestGVK "gpu" "inference-0" ex_created.2 ex_guest) as Hg by (unfold there; by_vm).
  assert (u_Finalizers ex_guest = [FinalizerCellDrain]) as Hf by (by_vm).
  destruct (SwiftGuest_Delete_held ex_request ex_created.2 ex_guest r w' Hg) as (_ & g' & Hg' & Hf').
  - rewrite Hf. left.
  - exact E.
  - exists g'. split; [exact Hg'|]. by rewrite Hf'.
Defined.

Lemma SwiftGuest_teardown_witness :
  let w1 := (SwiftGuest_ClearDrainFinalizer ex_request ex_created.2).2 in
  let w2 := (SwiftGuest_Delete ex_request w1).2 in
  let w3 := (SwiftGuest_Delete ex_request w2).2 in
  (SwiftGuest_Delete ex_request w2).1 = Ok true
  /\ gone SwiftGuestGVK "gpu" "inference-0" w3 /\ gone SwiftSeedProfileGVK "gpu" "inference-0-seed" w3.
Proof.
  intros w1 w2 w3. split; [by_vm|].
  refine (proj2 (SwiftGuest_teardown ex_request ex_created.2 ex_guest w1 w2 w3 false true _ _ _ _ _ _)).
  - unfold there. by_vm.
  - by_vm.
  - right. exists (default ex_guest (ex_created.2 !! (SwiftSeedProfileGVK, "gpu", "inference-0-seed"))).
    split; [unfold there; by_vm|by_vm].
  - by_vm.
  - by_vm.
  - by_vm.
Defined.
