(* ===== verification/ClusterApi.v ===== *)
(** * The Cluster API provisioner (internal/provisioner/clusterapi.go)

    A cell backed by a Cluster API Machine, with its KubeSwiftMachine and, when
    the pool names a template, its own bootstrap config. The backing guest is read
    through the Machine's provider id. *)

From S2P Require Import Prelude GoStd Api KubeApi Json CellId Provisioner Unstructured Template.
From S2P Require Import CellObjects SwiftGuest.
Local Open Scope Z_scope.
Local Open Scope go_scope.

Definition MachineGVK : GVK := mkGVK "cluster.x-k8s.io" "v1beta2" "Machine".
Definition KubeSwiftMachineGVK : GVK :=
  mkGVK "infrastructure.cluster.x-k8s.io" "v1alpha1" "KubeSwiftMachine".
Definition clusterNameLabel : string := "cluster.x-k8s.io/cluster-name".
Definition bootstrapTemplateVersion : string := "v1beta2".

(** [strings.TrimSuffix]. *)
Definition TrimSuffix (s suffix : string) : string :=
  match strip (rev_string suffix "") (rev_string s "") with
  | Some r => rev_string r ""
  | None => s
  end.

Definition bootstrapConfigGVK (ref : ClusterAPIObjectRef) : GVK :=
  mkGVK (ref_APIGroup ref) bootstrapTemplateVersion (TrimSuffix (ref_Kind ref) "Template").

Definition bootstrapTemplateRef (req : CellRequest) : option ClusterAPIObjectRef :=
  match cr_ClusterAPI req with None => None | Some c => capi_BootstrapConfigTemplateRef c end.

Definition coOwnerRefs (refs : list OwnerReference) : list OwnerReference :=
  map (fun r => {| r with or_Controller := None; or_BlockOwnerDeletion := None |}) refs.

Definition labels (req : CellRequest) (cfg : CellClusterAPISpec) : gmap string string :=
  <[clusterNameLabel := capi_ClusterName cfg]> (GuestLabels (cr_Pool req) (cr_Index req)).

(** ** Provider ids *)

Definition providerPrefix : string := "kubeswift://".

(** The two parts [strings.SplitN] cuts at the first slash. *)
Fixpoint cut_slash (s : string) : option (string * string) :=
  match s with
  | EmptyString => None
  | String c s' =>
      if c == "/"%char then Some ("", s')
      else match cut_slash s' with Some (a, b) => Some (String c a, b) | None => None end
  end.

Definition parseKubeSwiftProviderID (id : string) : string * string :=
  match strip providerPrefix id with
  | None => ("", "")
  | Some rest =>
      match cut_slash rest with
      | None => ("", "")
      | Some (ns, name) => if (ns == "") || (name == "") then ("", "") else (ns, name)
      end
  end.

(** ** The machine's backend *)

Definition nestedRefName (tmpl : object) (f : string) : string :=
  match field f tmpl with Some (JObj ref) => as_string (field "name" ref) | _ => "" end.

Definition add_network (st : string * string) (raw : JSON) : string * string :=
  match raw with
  | JObj m =>
      let '(primary, secondary) := st in
      let net := nestedRefName m "networkRef" in
      let isPrimary := as_bool (field "primary" m) in
      if net == "" then st
      else if isPrimary && (primary == "") then (net, secondary)
      else if negb isPrimary && (secondary == "") then (primary, net)
      else st
  | _ => st
  end.

Definition interfaceNetworks (tmpl : object) : string * string :=
  match field "interfaces" tmpl with
  | Some (JArr ifaces) => foldl add_network ("", "") ifaces
  | _ => ("", "")
  end.

Definition machineGPU (g : GPUBinding) : option object :=
  let finish out := Some (set_if "hugepages" (gb_Hugepages g) (set_if "tier" (gb_Tier g) out)) in
  if gb_Backend g == GPUBackendDRA then
    let named out := finish (set_if "requestName" (gb_RequestName g) out) in
    if gb_ResourceClaimTemplateName g != ""
    then named [("resourceClaimTemplateName", JStr (gb_ResourceClaimTemplateName g))]
    else if gb_ResourceClaimName g != ""
    then named [("resourceClaimName", JStr (gb_ResourceClaimName g))]
    else None
  else if gb_Backend g == GPUBackendNative then
    if gb_GPUProfileName g == "" then None
    else finish [("gpuProfileRef", JStr (gb_GPUProfileName g))]
  else None.

Definition machine_backend (g : GPUBinding) (tmpl : object) : object :=
  let '(primary, secondary) := interfaceNetworks tmpl in
  let sg := set_if "imageRef" (nestedRefName tmpl "imageRef") [] in
  let sg := set_if "guestClassRef" (nestedRefName tmpl "guestClassRef") sg in
  let sg := set_if "networkRef" primary sg in
  let sg := set_if "nodeNetworkRef" secondary sg in
  match machineGPU g with Some gpu => set_field "gpu" (JObj gpu) sg | None => sg end.

Definition renderMachineBackend (req : CellRequest) : result RenderError object :=
  let backend tmpl :=
    Ok [("type", JStr "SwiftGuest"); ("swiftGuest", JObj (machine_backend (cr_GPU req) tmpl))] in
  if cr_GuestTemplate req == "" then backend []
  else match unmarshal_object (cr_GuestTemplate req) with
       | None => Err (RenderJSON "parsing guestTemplate")
       | Some tmpl => backend tmpl
       end.

(** ** The operations *)

Section clusterapi.
Context {W : Type} `{InfraCluster W} `{Nested}.

Definition config_object (req : CellRequest) (cfg : CellClusterAPISpec) (gvk : GVK) (spec : object)
    : UObject :=
  let o := newUnstructured gvk in
  {| o with
     u_Namespace := cr_Namespace req;
     u_Name := cr_CellName req;
     u_Labels := labels req cfg;
     u_OwnerReferences := coOwnerRefs (cr_OwnerRefs req);
     u_Object := [("spec", JObj spec)] |}.

Definition template_name (ref : ClusterAPIObjectRef) : string := ref_Kind ref +:+ "/" +:+ ref_Name ref.

(** The reference to put on the Machine; none means the rendered Secret. *)
Definition ensureBootstrapConfig (req : CellRequest) (cfg : CellClusterAPISpec)
    : PM W (option ClusterAPIObjectRef) :=
  match bootstrapTemplateRef req with
  | None => mret None
  | Some tmplRef =>
      let gvk := bootstrapConfigGVK tmplRef in
      let ref := mkClusterAPIObjectRef (g_Group gvk) (g_Kind gvk) (cr_CellName req) in
      get_or gvk (cr_Namespace req) (cr_CellName req) ""
        (fun _ => mret (Some ref))
        (r ← pask (get_object (mkGVK (ref_APIGroup tmplRef) bootstrapTemplateVersion (ref_Kind tmplRef))
                     (cr_Namespace req) (ref_Name tmplRef));
         tmpl ← plift (api_error ("reading bootstrap template " +:+ template_name tmplRef)) r;
         match NestedMap (u_Object tmpl) ["spec"; "template"; "spec"] with
         | None => pfail (ProvInvalid ("bootstrap template " +:+ template_name tmplRef
                                       +:+ " has no spec.template.spec"))
         | Some spec => _ ← create (config_object req cfg gvk spec); mret (Some ref)
         end)
  end.

Definition infra_object (req : CellRequest) (cfg : CellClusterAPISpec) (backend : object) : UObject :=
  let o := newUnstructured KubeSwiftMachineGVK in
  {| o with
     u_Namespace := cr_Namespace req;
     u_Name := cr_CellName req;
     u_Labels := labels req cfg;
     u_Annotations := {[ AnnotationTemplateHash := cr_TemplateHash req ]};
     u_OwnerReferences := coOwnerRefs (cr_OwnerRefs req);
     u_Object := [("spec", JObj [("backend", JObj backend)])] |}.

Definition ensureInfraMachine (req : CellRequest) (cfg : CellClusterAPISpec) : PM W unit :=
  get_or KubeSwiftMachineGVK (cr_Namespace req) (cr_CellName req) ""
    (fun _ => mret tt)
    (backend ← plift (ProvRender "") (renderMachineBackend req);
     _ ← create (infra_object req cfg backend);
     mret tt).

Definition object_ref (ref : ClusterAPIObjectRef) : JSON :=
  JObj [("apiGroup", JStr (ref_APIGroup ref)); ("kind", JStr (ref_Kind ref)); ("name", JStr (ref_Name ref))].

Definition machine_spec (req : CellRequest) (cfg : CellClusterAPISpec)
    (bootstrapRef : option ClusterAPIObjectRef) : object :=
  let bootstrap :=
    match bootstrapRef with
    | Some ref => [("configRef", object_ref ref)]
    | None => [("dataSecretName", JStr (cr_BootstrapSecretName req))]
    end in
  set_if "version" (capi_Version cfg)
    [("clusterName", JStr (capi_ClusterName cfg));
     ("bootstrap", JObj bootstrap);
     ("infrastructureRef",
       object_ref (mkClusterAPIObjectRef (g_Group KubeSwiftMachineGVK) (g_Kind KubeSwiftMachineGVK)
                     (cr_CellName req)))].

Definition machine_object (req : CellRequest) (cfg : CellClusterAPISpec)
    (bootstrapRef : option ClusterAPIObjectRef) : UObject :=
  let o := newUnstructured MachineGVK in
  {| o with
     u_Namespace := cr_Namespace req;
     u_Name := cr_CellName req;
     u_Labels := labels req cfg;
     u_Annotations := {[ AnnotationTemplateHash := cr_TemplateHash req ]};
     u_OwnerReferences := coOwnerRefs (cr_OwnerRefs req);
     u_Finalizers := [FinalizerCellDrain];
     u_Object := [("spec", JObj (machine_spec req cfg bootstrapRef))] |}.

Definition ensureMachine (req : CellRequest) (cfg : CellClusterAPISpec)
    (bootstrapRef : option ClusterAPIObjectRef) : PM W UObject :=
  get_or MachineGVK (cr_Namespace req) (cr_CellName req) ""
    mret (create (machine_object req cfg bootstrapRef)).

Definition providerID (req : CellRequest) (w : W) : string :=
  let of_infra :=
    match get_object KubeSwiftMachineGVK (cr_Namespace req) (cr_CellName req) w with
    | Ok infra => NestedString (u_Object infra) ["spec"; "providerID"]
    | Err _ => ""
    end in
  if of_infra != "" then of_infra
  else match get_object MachineGVK (cr_Namespace req) (cr_CellName req) w with
       | Ok machine => NestedString (u_Object machine) ["spec"; "providerID"]
       | Err _ => ""
       end.

(** What the Machine itself says. *)
Definition machine_state (machine : UObject) : OuterState :=
  let st := zeroOuterState in
  {| st with o_Exists := true;
             o_UID := u_UID machine;
             o_CreatedAt := created_at machine;
             o_TemplateHash := template_hash machine;
             o_Phase := NestedString (u_Object machine) ["status"; "phase"] |}.

(** What the backing guest adds. *)
Definition join_guest (st guest : OuterState) : OuterState :=
  {| st with o_GPUDevices := o_GPUDevices guest;
             o_HostNode := o_HostNode guest;
             o_Address := o_Address guest;
             o_RoutableAddress := o_RoutableAddress guest;
             o_Provisioned := o_Provisioned guest;
             o_Failed := if o_Failed guest then true else o_Failed st;
             o_Reason := if o_Failed guest then o_Reason guest else o_Reason st;
             o_Message := if o_Failed guest then o_Message guest else o_Message st |}.

(** The phases in which a backing guest exists. *)
Definition has_guest (phase : string) : bool :=
  (phase == "Provisioned") || (phase == "Running") || (phase == "Updating").

Definition observeMachine (req : CellRequest) (machine : UObject) : PM W OuterState :=
  let st := machine_state machine in
  if o_Phase st == "Failed" then
    let complaint := conditionMessage machine in
    mret {| st with o_Failed := true;
                    o_Reason := ReasonCellProvisionTimeout;
                    o_Message := if complaint == "" then "Cluster API Machine reported phase Failed"
                                 else complaint |}
  else if negb (has_guest (o_Phase st)) then mret st
  else
    id ← pask (providerID req);
    let '(guestNS, guestName) := parseKubeSwiftProviderID id in
    if guestName == "" then mret st
    else
      get_or SwiftGuestGVK guestNS guestName
        ("reading backing SwiftGuest " +:+ guestNS +:+ "/" +:+ guestName)
        (fun guest => mret (join_guest st (observe guest (cr_NodeIPFrom req))))
        (mret st).

Definition ClusterAPI_Ensure (req : CellRequest) : PM W OuterState :=
  match cr_ClusterAPI req with
  | None => pfail (ProvInvalid ("cell " +:+ cr_CellName req +:+ ": provisioner ClusterAPI needs spec.cell.clusterAPI"))
  | Some cfg =>
      bootstrapRef ← pwrap ("ensuring bootstrap config for " +:+ cr_CellName req)
                       (ensureBootstrapConfig req cfg);
      pwrap ("ensuring KubeSwiftMachine " +:+ cr_CellName req) (ensureInfraMachine req cfg);;
      machine ← pwrap ("ensuring Machine " +:+ cr_CellName req) (ensureMachine req cfg bootstrapRef);
      observeMachine req machine
  end.

(** Every object of the cell is asked to go in the same call; the answer is
    whether the Machine already was. *)
Definition ClusterAPI_Delete (req : CellRequest) : PM W bool :=
  machineGone ← get_or MachineGVK (cr_Namespace req) (cr_CellName req)
    ("reading Machine " +:+ cr_CellName req)
    (fun machine =>
       (if PtrIsZero (u_DeletionTimestamp machine)
        then delete_ignoring_absent MachineGVK (u_Namespace machine) (u_Name machine)
               ("deleting Machine " +:+ cr_CellName req)
        else mret tt);;
       mret false)
    (mret true);
  delete_ignoring_absent KubeSwiftMachineGVK (cr_Namespace req) (cr_CellName req)
    ("deleting KubeSwiftMachine " +:+ cr_CellName req);;
  match bootstrapTemplateRef req with
  | None => mret tt
  | Some ref =>
      delete_ignoring_absent (bootstrapConfigGVK ref) (cr_Namespace req) (cr_CellName req)
        ("deleting bootstrap config " +:+ cr_CellName req)
  end;;
  mret machineGone.

Definition ClusterAPI_ClearDrainFinalizer (req : CellRequest) : PM W unit :=
  clear_drain_finalizer MachineGVK ("reading Machine " +:+ cr_CellName req)
    ("clearing drain finalizer on Machine " +:+ cr_CellName req) req.

Definition ClusterAPIProvisioner : ProvisionerOps W :=
  mkProvisionerOps W ProvisionerClusterAPI
    (listCellNames MachineGVK)
    ClusterAPI_Ensure ClusterAPI_Delete (Some ClusterAPI_ClearDrainFinalizer).
End clusterapi.

(** ** Provider ids *)

Lemma cut_slash_Some s a b : cut_slash s = Some (a, b) <-> s = a +:+ String "/" b /\ lacks "/" a = true.
Proof.
  revert a b. induction s as [|c s IH]; intros a b; simpl.
  - split; [done|]. intros [E _]. by destruct a.
  - destruct (bool_decide_reflect (c = "/"%char)) as [->|Hc].
    + split; [by intros [= <- <-]|]. intros [E Ha]. destruct a as [|x a].
      * rewrite app_nil_s in E. by injection E as ->.
      * rewrite app_cons_s in E. injection E as <- _. by simpl in Ha.
    + split.
      * destruct (cut_slash s) as [[x y]|] eqn:E; [|done]. intros [= <- <-].
        destruct (proj1 (IH x y) eq_refl) as [-> Hl]. rewrite app_cons_s. simpl. rewrite Hl.
        by rewrite bool_decide_eq_false_2.
      * intros [E Ha]. destruct a as [|x a].
        { rewrite app_nil_s in E. by injection E as ->. }
        rewrite app_cons_s in E. injection E as <- ->. simpl in Ha. guards.
        by rewrite (proj2 (IH a b)).
Qed.

(** parseKubeSwiftProviderID reads exactly the documented format,
    kubeswift://<namespace>/<name> with both parts; any other text gives two
    empty parts. *)
Theorem parseKubeSwiftProviderID_iff id ns name :
  name <> "" ->
  parseKubeSwiftProviderID id = (ns, name) <->
  ns <> "" /\ lacks "/" ns = true /\ id = providerPrefix +:+ ns +:+ String "/" name.
Proof.
  intros Hn. unfold parseKubeSwiftProviderID. split.
  - destruct (strip providerPrefix id) as [rest|] eqn:E; [|by intros [= _ <-]].
    apply strip_Some in E as ->. destruct (cut_slash rest) as [[a b]|] eqn:Ec; [|by intros [= _ <-]].
    apply cut_slash_Some in Ec as [-> Hl]. repeat case_bool_decide; simpl; intros [= <- <-]; done.
  - intros (Hns & Hl & ->). rewrite (proj2 (strip_Some _ _ _) eq_refl).
    rewrite (proj2 (cut_slash_Some _ ns name)) by done.
    by rewrite !bool_decide_eq_false_2.
Qed.

(** ** What a Machine carries *)

(** For a consistent binding the machine asks for exactly one device source. *)
Lemma machineGPU_one g :
  gpu_ok g ->
  exists out, machineGPU g = Some out
    /\ ((gb_Backend g = GPUBackendNative /\ field "gpuProfileRef" out = Some (JStr (gb_GPUProfileName g))
         /\ field "resourceClaimTemplateName" out = None /\ field "resourceClaimName" out = None)
        \/ (gb_Backend g = GPUBackendDRA /\ field "gpuProfileRef" out = None
            /\ (field "resourceClaimTemplateName" out = None <-> field "resourceClaimName" out <> None))).
Proof.
  unfold machineGPU. intros [(-> & Hx & _)|(-> & Hn)].
  - rewrite (bool_decide_eq_true_2 (GPUBackendDRA = GPUBackendDRA)) by done.
    destruct (bool_decide_reflect (gb_ResourceClaimTemplateName g = "")) as [E|E]; simpl.
    + rewrite bool_decide_eq_false_2 by tauto. eexists. split; [done|]. right.
      rewrite !field_set_if. done.
    + eexists. split; [done|]. right. rewrite !field_set_if. done.
  - rewrite (bool_decide_eq_false_2 (GPUBackendNative = GPUBackendDRA)) by done.
    rewrite (bool_decide_eq_true_2 (GPUBackendNative = GPUBackendNative)) by done.
    rewrite bool_decide_eq_false_2 by done.
    eexists. split; [done|]. left. rewrite !field_set_if. done.
Qed.

(** No owner reference claims to be the controller. *)
Lemma coOwnerRefs_never_controller refs r :
  r ∈ coOwnerRefs refs -> or_Controller r = None /\ or_BlockOwnerDeletion r = None.
Proof. unfold coOwnerRefs. rewrite elem_of_map_b. by intros (x & -> & _). Qed.

(** ** What the operations do *)

Section theorems.
Context {W : Type} `{InfraCluster W} `{!InfraLaws W} `{Nested}.

Abbreviation the_object gvk req := (there gvk (cr_Namespace req) (cr_CellName req)) (only parsing).

(** The bootstrap config of a cell is an object of its own. *)
Definition config_apart (req : CellRequest) : Prop :=
  forall ref, bootstrapTemplateRef req = Some ref ->
    bootstrapConfigGVK ref <> MachineGVK /\ bootstrapConfigGVK ref <> KubeSwiftMachineGVK.

(** Everything the Machine will reference is there. *)
Definition config_there (req : CellRequest) (w : W) : Prop :=
  forall ref, bootstrapTemplateRef req = Some ref -> exists o, the_object (bootstrapConfigGVK ref) req w o.

(** The world moved on objects of one kind only. *)
Definition only_kind (gvk : GVK) (w w' : W) : Prop :=
  forall gvk' ns n, gvk' <> gvk -> get_object gvk' ns n w' = get_object gvk' ns n w.

Lemma create_only_kind o w r w' gvk : u_GVK o = gvk -> create o w = (r, w') -> only_kind gvk w w'.
Proof. intros <- Hc gvk' ns n Hne. apply (create_frame _ _ _ _ _ _ _ Hc). intros (E & _). by apply Hne. Qed.

Lemma ensureBootstrapConfig_frame req cfg w r w' ref :
  bootstrapTemplateRef req = Some ref ->
  ensureBootstrapConfig req cfg w = (r, w') -> only_kind (bootstrapConfigGVK ref) w w'.
Proof.
  intros Hr. unfold ensureBootstrapConfig, get_or. rewrite Hr. unfold_pm.
  destruct (get_object (bootstrapConfigGVK ref) _ _ w) as [o|e]; [by intros [= <- <-]|].
  destruct (IsNotFound e); [|by intros [= <- <-]].
  destruct (get_object _ _ (ref_Name ref) w) as [tmpl|?]; [|by intros [= <- <-]].
  destruct (NestedMap _ _) as [spec|]; [|by intros [= <- <-]].
  destruct (create _ w) as [[x|x] w1] eqn:Hc; intros [= <- <-]; by apply (create_only_kind _ _ _ _ _ eq_refl Hc).
Qed.

Lemma ensureBootstrapConfig_ok req cfg w ref w' :
  ensureBootstrapConfig req cfg w = (Ok ref, w') -> config_there req w'.
Proof.
  unfold ensureBootstrapConfig, config_there. destruct (bootstrapTemplateRef req) as [t|]; [|done].
  intros [(o & Ho & [= _ <-])|[_ Hc]]%get_or_ok t' [= <-]; [eauto|].
  apply PM_bind_ok in Hc as (r & w1 & [= <- <-] & Hc).
  apply PM_bind_ok in Hc as (tmpl & w1 & Ht & Hc).
  destruct (NestedMap _ _) as [spec|]; [|done].
  apply PM_bind_ok in Hc as (o & w2 & Hc & [= _ <-]).
  exists o. exact (proj1 (create_ok _ _ _ _ Hc)).
Qed.

Lemma ensureInfraMachine_frame req cfg w r w' :
  ensureInfraMachine req cfg w = (r, w') -> only_kind KubeSwiftMachineGVK w w'.
Proof.
  unfold ensureInfraMachine, get_or. unfold_pm.
  destruct (get_object _ _ _ w) as [o|e]; [by intros [= <- <-]|].
  destruct (IsNotFound e); [|by intros [= <- <-]].
  destruct (renderMachineBackend req) as [b|?]; [|by intros [= <- <-]].
  destruct (create _ w) as [[x|x] w1] eqn:Hc; intros [= <- <-]; by apply (create_only_kind _ _ _ _ _ eq_refl Hc).
Qed.

Lemma ensureInfraMachine_ok req cfg w w' :
  ensureInfraMachine req cfg w = (Ok tt, w') -> exists o, the_object KubeSwiftMachineGVK req w' o.
Proof.
  unfold ensureInfraMachine. intros [(o & Ho & [= <-])|[_ Hc]]%get_or_ok; [eauto|].
  apply PM_bind_ok in Hc as (b & w1 & _ & Hc). apply PM_bind_ok in Hc as (o & w2 & Hc & [= <-]).
  exists o. exact (proj1 (create_ok _ _ _ _ Hc)).
Qed.

Lemma ensureMachine_frame req cfg ref w r w' :
  ensureMachine req cfg ref w = (r, w') -> only_kind MachineGVK w w'.
Proof.
  unfold ensureMachine, get_or. unfold_pm.
  destruct (get_object _ _ _ w) as [o|e]; [by intros [= <- <-]|].
  destruct (IsNotFound e); [|by intros [= <- <-]].
  intros Hc. by apply (create_only_kind _ _ _ _ _ eq_refl Hc).
Qed.

Lemma ensureMachine_ok req cfg ref w o w' :
  ensureMachine req cfg ref w = (Ok o, w') -> the_object MachineGVK req w' o.
Proof.
  unfold ensureMachine. intros [(g & Hs & [= -> ->])|[_ Hc]]%get_or_ok; [done|].
  exact (proj1 (create_ok _ _ _ _ Hc)).
Qed.

Lemma observeMachine_uid req m w st w' :
  observeMachine req m w = (Ok st, w') -> o_UID st = u_UID m.
Proof.
  unfold observeMachine, get_or. unfold_pm.
  destruct (bool_decide _); [by intros [= <- _]|]. destruct (negb _); [by intros [= <- _]|].
  destruct (parseKubeSwiftProviderID _) as [ns n]. destruct (bool_decide _); [by intros [= <- _]|].
  destruct (get_object SwiftGuestGVK ns n w) as [o|e]; [by intros [= <- _]|].
  by destruct (IsNotFound e); intros [= <- _].
Qed.

Lemma observeMachine_reads req m w r w' : observeMachine req m w = (r, w') -> w' = w.
Proof.
  unfold observeMachine, get_or. unfold_pm.
  destruct (bool_decide _); [by intros [= _ <-]|]. destruct (negb _); [by intros [= _ <-]|].
  destruct (parseKubeSwiftProviderID _) as [ns n]. destruct (bool_decide _); [by intros [= _ <-]|].
  destruct (get_object SwiftGuestGVK ns n w) as [o|e]; [by intros [= _ <-]|].
  by destruct (IsNotFound e); intros [= _ <-].
Qed.

(** The first two steps of Ensure leave the Machine alone, the last one the
    objects it references. *)
Lemma ensureBootstrapConfig_other req cfg w r w' gvk ns n :
  config_apart req -> gvk = MachineGVK \/ gvk = KubeSwiftMachineGVK ->
  ensureBootstrapConfig req cfg w = (r, w') -> get_object gvk ns n w' = get_object gvk ns n w.
Proof.
  intros Ha Hg He. destruct (bootstrapTemplateRef req) as [ref|] eqn:Hr.
  - destruct (Ha ref Hr). apply (ensureBootstrapConfig_frame _ _ _ _ _ _ Hr He). naive_solver.
  - unfold ensureBootstrapConfig in He. rewrite Hr in He. by injection He as _ <-.
Qed.

Lemma config_there_frame req w w' gvk :
  (gvk = MachineGVK \/ gvk = KubeSwiftMachineGVK) -> config_apart req -> only_kind gvk w w' ->
  config_there req w -> config_there req w'.
Proof.
  intros Hg Ha Hk Hc ref Hr. destruct (Hc ref Hr) as [o Ho]. exists o. unfold there.
  destruct (Ha ref Hr). rewrite Hk; [done|]. naive_solver.
Qed.

(** C19. Cluster API acts on a Machine the moment it exists, so a call of Ensure that
    made one, even a failing call, has made everything it references before. *)
Theorem ClusterAPI_Machine_last req w r w' m :
  config_apart req -> gone MachineGVK (cr_Namespace req) (cr_CellName req) w ->
  ClusterAPI_Ensure req w = (r, w') -> the_object MachineGVK req w' m ->
  config_there req w' /\ exists o, the_object KubeSwiftMachineGVK req w' o.
Proof.
  intros Ha Hg. unfold ClusterAPI_Ensure, pwrap, gone, there in *. unfold_pm.
  destruct (cr_ClusterAPI req) as [cfg|]; [|intros [= _ <-]; congruence].
  destruct (ensureBootstrapConfig req cfg w) as [rc w1] eqn:Ec.
  pose proof (ensureBootstrapConfig_other _ _ _ _ _ MachineGVK (cr_Namespace req) (cr_CellName req)
                Ha (or_introl eq_refl) Ec) as Hm1.
  destruct rc as [ref|]; [|intros [= _ <-]; congruence].
  destruct (ensureInfraMachine req cfg w1) as [ri w2] eqn:Ei.
  pose proof (ensureInfraMachine_frame _ _ _ _ _ Ei) as Hi.
  assert (get_object MachineGVK (cr_Namespace req) (cr_CellName req) w2 = Err NotFound) as Hm2
    by (rewrite Hi, Hm1; done).
  destruct ri as [[]|]; [|intros [= _ <-]; congruence].
  destruct (ensureInfraMachine_ok _ _ _ _ Ei) as [o Ho].
  destruct (ensureMachine req cfg ref w2) as [rm w3] eqn:Em.
  pose proof (ensureMachine_frame _ _ _ _ _ _ Em) as Hf.
  intros Hend Hthere. assert (w' = w3) as ->.
  { destruct rm; [by apply observeMachine_reads in Hend|by injection Hend]. }
  split.
  - apply (config_there_frame _ _ _ _ (or_introl eq_refl) Ha Hf).
    apply (config_there_frame _ _ _ _ (or_intror eq_refl) Ha Hi). by apply ensureBootstrapConfig_ok in Ec.
  - exists o. by rewrite Hf.
Qed.

Lemma ensureBootstrapConfig_again req cfg w ref w' w2 :
  ensureBootstrapConfig req cfg w = (Ok ref, w') -> config_there req w2 ->
  ensureBootstrapConfig req cfg w2 = (Ok ref, w2).
Proof.
  unfold ensureBootstrapConfig, config_there. destruct (bootstrapTemplateRef req) as [t|]; [|by intros [= <-]].
  intros Hr Hc. destruct (Hc t eq_refl) as [o Ho]. rewrite (get_or_there _ _ _ _ _ _ _ _ Ho).
  apply get_or_ok in Hr as [(g & _ & [= <- _])|[_ Hr]]; [done|].
  apply PM_bind_ok in Hr as (r & w1 & _ & Hr). apply PM_bind_ok in Hr as (tmpl & w3 & _ & Hr).
  destruct (NestedMap _ _) as [spec|]; [|done].
  by apply PM_bind_ok in Hr as (x & w4 & _ & [= <- _]).
Qed.

(** What a Machine the call made carries. *)
Definition machine_made (req : CellRequest) (m : UObject) : Prop :=
  exists cfg, cr_ClusterAPI req = Some cfg
    /\ u_Finalizers m = [FinalizerCellDrain] /\ u_Labels m = labels req cfg
    /\ u_Annotations m = {[ AnnotationTemplateHash := cr_TemplateHash req ]}
    /\ u_OwnerReferences m = coOwnerRefs (cr_OwnerRefs req) /\ u_DeletionTimestamp m = None.

Lemma ensureMachine_made req cfg ref w m w' :
  cr_ClusterAPI req = Some cfg -> gone MachineGVK (cr_Namespace req) (cr_CellName req) w ->
  ensureMachine req cfg ref w = (Ok m, w') -> machine_made req m.
Proof.
  intros Hcfg Hg. unfold ensureMachine. intros [(g & Hs & _)|[_ Hc]]%get_or_ok; [unfold gone, there in *; congruence|].
  destruct (create_ok _ _ _ _ Hc) as (_ & (_ & Hl & Ha & Ho & Hf) & Hd).
  exists cfg. rewrite Hl, Ha, Ho, Hf, Hd. by split_and!.
Qed.

(** C15. Ensure of the Cluster API provisioner converges: after a call that returns, the
    Machine and everything it references (the KubeSwiftMachine and, where the pool
    names a template, the bootstrap config) exist, and the same call again
    changes nothing and observes the same, under the Machine's own UID. A Machine
    the call made carries the drain finalizer, the pool's and the cluster's
    labels, its owners and the hash of the template. The bootstrap template must
    be of a kind whose objects are neither Machines nor KubeSwiftMachines. *)
Theorem ClusterAPI_Ensure_converges req w st w' :
  config_apart req -> ClusterAPI_Ensure req w = (Ok st, w') ->
  (exists m o, the_object MachineGVK req w' m /\ the_object KubeSwiftMachineGVK req w' o
     /\ o_UID st = u_UID m
     /\ (gone MachineGVK (cr_Namespace req) (cr_CellName req) w -> machine_made req m))
  /\ config_there req w' /\ ClusterAPI_Ensure req w' = (Ok st, w').
Proof.
  intros Ha. unfold ClusterAPI_Ensure. destruct (cr_ClusterAPI req) as [cfg|] eqn:Hcfg; [|done].
  intros (ref & w1 & Hc%pwrap_ok & Hr)%PM_bind_ok.
  apply PM_bind_ok in Hr as ([] & w2 & Hi%pwrap_ok & Hr).
  apply PM_bind_ok in Hr as (m & w3 & Hm%pwrap_ok & Ho).
  pose proof (observeMachine_reads _ _ _ _ _ Ho) as ->.
  destruct (ensureInfraMachine_ok _ _ _ _ Hi) as [o Hio].
  pose proof (ensureMachine_ok _ _ _ _ _ _ Hm) as Hmm.
  pose proof (ensureMachine_frame _ _ _ _ _ _ Hm) as Hf.
  pose proof (ensureInfraMachine_frame _ _ _ _ _ Hi) as Hfi.
  assert (config_there req w3) as Hct.
  { apply (config_there_frame _ _ _ _ (or_introl eq_refl) Ha Hf).
    apply (config_there_frame _ _ _ _ (or_intror eq_refl) Ha Hfi).
    by apply ensureBootstrapConfig_ok in Hc. }
  assert (the_object KubeSwiftMachineGVK req w3 o) as Hio3 by (unfold there; by rewrite Hf).
  split_and!; [|done|].
  - exists m, o. split_and!; [done|done|by apply observeMachine_uid in Ho|]. intros Hg.
    apply (ensureMachine_made _ _ _ _ _ _ Hcfg) in Hm; [done|]. unfold gone in *. rewrite Hfi by done.
    by rewrite (ensureBootstrapConfig_other _ _ _ _ _ MachineGVK _ _ Ha (or_introl eq_refl) Hc).
  - apply PM_bind_ok. exists ref, w3. split; [apply pwrap_ok; by apply (ensureBootstrapConfig_again _ _ _ _ _ _ Hc)|].
    apply PM_bind_ok. exists tt, w3. split.
    { apply pwrap_ok. unfold ensureInfraMachine. by rewrite (get_or_there _ _ _ _ _ _ _ _ Hio3). }
    apply PM_bind_ok. exists m, w3. split; [|done].
    apply pwrap_ok. unfold ensureMachine. by rewrite (get_or_there _ _ _ _ _ _ _ _ Hmm).
Qed.

(** The drain gate holds on the Machine: while it carries the drain finalizer,
    Delete neither ends it nor reports the cell gone, whatever the API answers. *)
Theorem ClusterAPI_Delete_held req w m r w' :
  config_apart req -> the_object MachineGVK req w m -> FinalizerCellDrain ∈ u_Finalizers m ->
  ClusterAPI_Delete req w = (r, w') ->
  r <> Ok true /\ exists m', the_object MachineGVK req w' m' /\ u_Finalizers m' = u_Finalizers m.
Proof.
  intros Ha Hm Hf. unfold ClusterAPI_Delete, mbind at 1, PM_bind at 1.
  rewrite (get_or_there _ _ _ _ _ _ _ _ Hm). destruct (get_object_at _ _ _ _ _ Hm) as (_ & -> & ->).
  set (first := (if PtrIsZero _ then _ else _) ≫= _).
  assert (forall r1 w1, first w = (r1, w1) ->
            r1 <> Ok true /\ exists m', the_object MachineGVK req w1 m' /\ u_Finalizers m' = u_Finalizers m) as Hfirst.
  { intros r1 w1. unfold first. unfold_pm.
    destruct (PtrIsZero _); [|intros [= <- <-]; eauto].
    assert (u_Finalizers m <> []) as Hnil by (intros E'; by rewrite E', elem_of_nil in Hf).
    destruct (delete_ignoring_absent _ _ _ _ w) as [d w2] eqn:E.
    pose proof (delete_held _ _ _ _ _ _ _ _ Hm Hnil E) as Hh. by destruct d as [[]|e]; intros [= <- <-]. }
  destruct (first w) as [[[]|e] w1] eqn:E1; destruct (Hfirst _ _ eq_refl) as (Hne & m' & Hm' & Hf'); [done| |].
  2: { intros [= <- <-]. split; [done|]. by exists m'. }
  unfold_pm. destruct (delete_ignoring_absent KubeSwiftMachineGVK _ _ _ w1) as [di w2] eqn:E2.
  assert (the_object MachineGVK req w2 m') as Hm2
    by (unfold there; by rewrite (delete_frame _ _ _ _ _ _ _ _ _ _ E2) by (by intros (? & _))).
  destruct di as [[]|e]; [|intros [= <- <-]; split; [done|]; by exists m'].
  destruct (bootstrapTemplateRef req) as [ref|] eqn:Hr; [|intros [= <- <-]; split; [done|]; by exists m'].
  destruct (delete_ignoring_absent (bootstrapConfigGVK ref) _ _ _ w2) as [dc w3] eqn:E3.
  assert (the_object MachineGVK req w3 m') as Hm3.
  { unfold there. rewrite (delete_frame _ _ _ _ _ _ _ _ _ _ E3); [done|].
    intros (E & _). by destruct (Ha ref Hr). }
  by destruct dc as [[]|e]; intros [= <- <-]; split; [done| |done|]; exists m'.
Qed.

(** A Delete that reports the cell gone leaves nothing of it behind: the Machine
    had gone, and the KubeSwiftMachine and the bootstrap config go with it unless
    somebody else holds them. *)
Theorem ClusterAPI_Delete_done req w w' :
  config_apart req -> ClusterAPI_Delete req w = (Ok true, w') ->
  gone MachineGVK (cr_Namespace req) (cr_CellName req) w'
  /\ (unheld KubeSwiftMachineGVK (cr_Namespace req) (cr_CellName req) w ->
      gone KubeSwiftMachineGVK (cr_Namespace req) (cr_CellName req) w')
  /\ forall ref, bootstrapTemplateRef req = Some ref ->
       unheld (bootstrapConfigGVK ref) (cr_Namespace req) (cr_CellName req) w ->
       gone (bootstrapConfigGVK ref) (cr_Namespace req) (cr_CellName req) w'.
Proof.
  intros Ha (b & w1 & Hm & Hr)%PM_bind_ok.
  apply PM_bind_ok in Hr as ([] & w2 & Hi & Hr). apply PM_bind_ok in Hr as ([] & w3 & Hc & [= -> ->]).
  apply get_or_ok in Hm as [(m & _ & Hm)|[Hg [= <-]]].
  { apply PM_bind_ok in Hm as ([] & w4 & _ & Hm). done. }
  assert (forall gvk, gvk <> KubeSwiftMachineGVK ->
            get_object gvk (cr_Namespace req) (cr_CellName req) w2
            = get_object gvk (cr_Namespace req) (cr_CellName req) w) as F2
    by (intros gvk Hne; apply (delete_frame _ _ _ _ _ _ _ _ _ _ Hi); by intros (? & _)).
  destruct (bootstrapTemplateRef req) as [ref|] eqn:Hr.
  - destruct (Ha ref Hr) as [Hne1 Hne2].
    assert (forall gvk, gvk <> bootstrapConfigGVK ref ->
              get_object gvk (cr_Namespace req) (cr_CellName req) w'
              = get_object gvk (cr_Namespace req) (cr_CellName req) w2) as F3
      by (intros gvk Hne; apply (delete_frame _ _ _ _ _ _ _ _ _ _ Hc); by intros (? & _)).
    unfold gone, unheld, there in *. split_and!.
    + by rewrite F3, F2.
    + intros Hu. rewrite F3 by done. by apply (delete_ends _ _ _ _ _ _ Hu Hi).
    + intros ref' [= <-] Hu. apply (delete_ends _ _ _ _ _ _) in Hc; [done|].
      unfold gone, there. by rewrite F2.
  - injection Hc as <-. unfold gone in *. split_and!; [by rewrite F2| |done].
    intros Hu. by apply (delete_ends _ _ _ _ _ _ Hu Hi).
Qed.
End theorems.

(** ** Witnesses *)

Definition ex_capi : CellClusterAPISpec :=
  mkCellClusterAPISpec "workload" "v1.33.0"
    (Some (mkClusterAPIObjectRef "bootstrap.cluster.x-k8s.io" "KubeadmConfigTemplate" "gpu-cells")).
Definition ex_capi_request : CellRequest :=
  let r := ex_request in {| r with cr_ClusterAPI := Some ex_capi |}.
Definition ex_config_template : UObject :=
  let o := newUnstructured (mkGVK "bootstrap.cluster.x-k8s.io" bootstrapTemplateVersion "KubeadmConfigTemplate") in
  {| o with u_Namespace := "gpu"; u_Name := "gpu-cells";
            u_Object := [("spec", JObj [("template", JObj [("spec", JObj [("joinConfiguration", JObj [])])])])] |}.
Definition ex_config_GVK : GVK := mkGVK "bootstrap.cluster.x-k8s.io" bootstrapTemplateVersion "KubeadmConfig".

(** A cluster that holds the bootstrap template only. *)
Definition ex_capi_cluster : Objects := {[ key_of ex_config_template := ex_config_template ]}.
Definition ex_capi_created : result ProvError OuterState * Objects :=
  ClusterAPI_Ensure ex_capi_request ex_capi_cluster.
Definition ex_capi_observed : OuterState :=
  match ex_capi_created.1 with Ok st => st | Err _ => zeroOuterState end.
Definition ex_machine : UObject :=
  default (newUnstructured MachineGVK) (ex_capi_created.2 !! (MachineGVK, "gpu", "inference-0")).

Lemma ex_config_apart : config_apart ex_capi_request.
Proof. intros ref [= <-]. split; by vm_compute. Qed.

Lemma ClusterAPI_Machine_last_witness :
  exists o, there ex_config_GVK "gpu" "inference-0" ex_capi_created.2 o.
Proof.
  destruct (ClusterAPI_Machine_last ex_capi_request ex_capi_cluster (Ok ex_capi_observed) ex_capi_created.2
              ex_machine) as [Hc _].
  - exact ex_config_apart.
  - unfold gone. by_vm.
  - by_vm.
  - unfold there. by_vm.
  - exact (Hc (mkClusterAPIObjectRef "bootstrap.cluster.x-k8s.io" "KubeadmConfigTemplate" "gpu-cells") eq_refl).
Defined.

Lemma ClusterAPI_Ensure_converges_witness :
  ClusterAPI_Ensure ex_capi_request ex_capi_created.2 = (Ok ex_capi_observed, ex_capi_created.2).
Proof.
  refine (proj2 (proj2 (ClusterAPI_Ensure_converges ex_capi_request ex_capi_cluster ex_capi_observed
                          ex_capi_created.2 ex_config_apart _))).
  by_vm.
Defined.

Lemma ClusterAPI_Delete_held_witness :
  (ClusterAPI_Delete ex_capi_request ex_capi_created.2).1 = Ok false
  /\ exists m', there MachineGVK "gpu" "inference-0" (ClusterAPI_Delete ex_capi_request ex_capi_created.2).2 m'
         /\ u_Finalizers m' = [FinalizerCellDrain].
Proof.
  split; [by_vm|].
  destruct (ClusterAPI_Delete ex_capi_request ex_capi_created.2) as [r w'] eqn:E.
  assert (there MachineGVK "gpu" "inference-0" ex_capi_created.2 ex_machine) as Hm by (unfold there; by_vm).
  assert (u_Finalizers ex_machine = [FinalizerCellDrain]) as Hf by by_vm.
  destruct (ClusterAPI_Delete_held ex_capi_request ex_capi_created.2 ex_machine r w' ex_config_apart Hm)
    as (_ & m' & Hm' & Hf').
  - rewrite Hf. left.
  - exact E.
  - exists m'. split; [exact Hm'|]. by rewrite Hf'.
Defined.

Lemma ClusterAPI_Delete_done_witness :
  let w1 := (ClusterAPI_ClearDrainFinalizer ex_capi_request ex_capi_created.2).2 in
  let w2 := (ClusterAPI_Delete ex_capi_request w1).2 in
  gone MachineGVK "gpu" "inference-0" (ClusterAPI_Delete ex_capi_request w2).2.
Proof.
  intros w1 w2.
  refine (proj1 (ClusterAPI_Delete_done ex_capi_request w2 (ClusterAPI_Delete ex_capi_request w2).2
                   ex_config_apart _)).
  by_vm.
Defined.

Lemma parseKubeSwiftProviderID_iff_witness :
  "inference-0" <> "" /\ parseKubeSwiftProviderID "kubeswift://gpu/inference-0" = ("gpu", "inference-0").
Proof.
  split; [done|]. apply (parseKubeSwiftProviderID_iff "kubeswift://gpu/inference-0" "gpu" "inference-0"); [done|].
  split; [done|]. split; vm_compute; reflexivity.
Defined.
