(* ===== verification/Hami.v ===== *)
(** * HAMi's annotations and request surface (internal/capacity/hami.go, hami_demand.go) *)

From S2P Require Import Prelude GoStd Api KubeApi Provider Json.
Local Open Scope Z_scope.
Local Open Scope go_scope.

Definition AnnotationNodeRegistration : string := "hami.io/node-nvidia-register".
Definition AnnotationDevicesAllocated : string := "hami.io/vgpu-devices-allocated".
Definition AnnotationDevicesToAllocate : string := "hami.io/vgpu-devices-to-allocate".
Definition NodeLabelGate : string := "gpu".

(** ** The node registration *)

Record rawDevice := mkRawDevice {
  raw_ID : option string;
  raw_Count : option int;
  raw_DevMem : option int64;
  raw_DevCore : option int64;
  raw_Type : string;
  raw_Mode : string;
  raw_Health : option bool
}.
Definition zeroRawDevice : rawDevice := mkRawDevice None None None None "" "" None.

(** encoding/json matches a member to a field by its name up to case. *)
Definition lower_ascii (a : ascii) : ascii :=
  let c := code a in if (65 <=? c) && (c <=? 90) then chr (c + 32) else a.
Fixpoint lower (s : string) : string :=
  match s with String a s' => String (lower_ascii a) (lower s') | EmptyString => "" end.

(** Decoding one value: null clears a pointer and leaves a plain field alone; a
    value of another type is an error that does not stop the decoding. *)
Definition decode_ptr {A} (dec : JSON -> option A) (old : option A) (v : JSON) : option A * bool :=
  match v with
  | JNull => (None, true)
  | _ => match dec v with Some a => (Some a, true) | None => (old, false) end
  end.
Definition decode_str (v : JSON) : option string := match v with JStr s => Some s | _ => None end.
Definition decode_int (v : JSON) : option Z := match v with JNum lit => ParseInt 64 lit | _ => None end.
Definition decode_bool (v : JSON) : option bool := match v with JBool b => Some b | _ => None end.
Definition decode_plain_str (old : string) (v : JSON) : string * bool :=
  match v with JStr s => (s, true) | JNull => (old, true) | _ => (old, false) end.

(** One member of a device object; the flag says that no type error was met. *)
Definition decode_field (st : rawDevice * bool) (kv : string * JSON) : rawDevice * bool :=
  let '(rd, ok) := st in
  let '(k, v) := kv in
  let k := lower k in
  if k == "id" then
    let '(x, ok') := decode_ptr decode_str (raw_ID rd) v in ({| rd with raw_ID := x |}, ok && ok')
  else if k == "count" then
    let '(x, ok') := decode_ptr decode_int (raw_Count rd) v in ({| rd with raw_Count := x |}, ok && ok')
  else if k == "devmem" then
    let '(x, ok') := decode_ptr decode_int (raw_DevMem rd) v in ({| rd with raw_DevMem := x |}, ok && ok')
  else if k == "devcore" then
    let '(x, ok') := decode_ptr decode_int (raw_DevCore rd) v in ({| rd with raw_DevCore := x |}, ok && ok')
  else if k == "type" then
    let '(x, ok') := decode_plain_str (raw_Type rd) v in ({| rd with raw_Type := x |}, ok && ok')
  else if k == "mode" then
    let '(x, ok') := decode_plain_str (raw_Mode rd) v in ({| rd with raw_Mode := x |}, ok && ok')
  else if k == "health" then
    let '(x, ok') := decode_ptr decode_bool (raw_Health rd) v in ({| rd with raw_Health := x |}, ok && ok')
  else st.

Definition decode_device (v : JSON) : rawDevice * bool :=
  match v with
  | JObj kvs => foldl decode_field (zeroRawDevice, true) kvs
  | JNull => (zeroRawDevice, true)
  | _ => (zeroRawDevice, false)
  end.

(** [json.Unmarshal] into a slice of rawDevice; [None] is an error. *)
Definition unmarshal_devices (raw : string) : option (list rawDevice) :=
  match parse_json raw with
  | None => None
  | Some JNull => Some []
  | Some (JArr l) =>
      let ds := map decode_device l in
      if forallb snd ds then Some (map fst ds) else None
  | Some _ => None
  end.

(** The loop that requires each device's fields. *)
Fixpoint convert_devices (i : int) (rds : list rawDevice) : result RegError (list Device) :=
  match rds with
  | [] => Ok []
  | rd :: rest =>
      match raw_ID rd with
      | None => Err (RegNoID i)
      | Some id =>
          if id == "" then Err (RegNoID i)
          else match raw_DevMem rd with
          | None => Err (RegNoField id "devmem")
          | Some mem =>
              match raw_DevCore rd with
              | None => Err (RegNoField id "devcore")
              | Some core =>
                  match raw_Health rd with
                  | None => Err (RegNoField id "health")
                  | Some healthy =>
                      let* out := convert_devices (i + 1) rest in
                      Ok (mkDevice id (default 0 (raw_Count rd)) mem core (raw_Type rd) (raw_Mode rd)
                            healthy :: out)
                  end
              end
          end
      end
  end.

(** The devices and whether the annotation was there. *)
Definition ParseNodeRegistration (annotations : gmap string string)
    : result RegError (list Device * bool) :=
  match annotations !! AnnotationNodeRegistration with
  | None => Ok ([], false)
  | Some raw =>
      if TrimSpace raw == "" then Ok ([], false)
      else match unmarshal_devices raw with
           | None => Err (RegJSON raw)
           | Some rds => let* out := convert_devices 0 rds in Ok (out, true)
           end
  end.

Definition HealthyDevices (devices : list Device) : list Device := List.filter dev_Healthy devices.

(** ** Allocations *)

Record Allocation := mkAllocation {
  a_UUID : string; a_Vendor : string; a_MemoryMiB : int64; a_CorePercent : int64
}.

Definition parse_record (record : string) : result AllocError Allocation :=
  match Split "," record with
  | uuid :: vendor :: mem :: cores :: _ =>
      match ParseInt 64 (TrimSpace mem) with
      | None => Err (AllocMemory record)
      | Some m =>
          match ParseInt 64 (TrimSpace cores) with
          | None => Err (AllocCores record)
          | Some c => Ok (mkAllocation (TrimSpace uuid) (TrimSpace vendor) m c)
          end
      end
  | fields => Err (AllocFields record (len fields))
  end.

Fixpoint parse_records (records : list string) : result AllocError (list Allocation) :=
  match records with
  | [] => Ok []
  | record :: rest =>
      let record := TrimSpace record in
      if record == "" then parse_records rest
      else
        let* a := parse_record record in
        let* out := parse_records rest in
        Ok (a :: out)
  end.

Fixpoint parse_groups (groups : list string) : result AllocError (list Allocation) :=
  match groups with
  | [] => Ok []
  | group :: rest =>
      if TrimSpace group == "" then parse_groups rest
      else
        let* a := parse_records (Split ":" group) in
        let* out := parse_groups rest in
        Ok (a ++ out)
  end.

Definition ParseAllocations (value : string) : result AllocError (list Allocation) :=
  let value := TrimSpace value in
  if value == "" then Ok [] else parse_groups (Split ";" value).

Definition SumAllocations (allocs : list Allocation) : int64 * int64 :=
  foldl (fun '(m, c) a => (wrap64 (m + a_MemoryMiB a), wrap64 (c + a_CorePercent a))) (0, 0) allocs.

(** ** Demand (hami_demand.go) *)

Definition ResourceGPU : string := "nvidia.com/gpu".
Definition ResourceGPUMemory : string := "nvidia.com/gpumem".
Definition ResourceGPUCores : string := "nvidia.com/gpucores".

(** corev1.PodReasonUnschedulable. *)
Definition PodReasonUnschedulable : string := "Unschedulable".

Fixpoint unschedulable_loop (conds : list PodCondition) : bool :=
  match conds with
  | [] => false
  | c :: rest =>
      if pcond_Type c == PodScheduledType
      then (pcond_Status c == ConditionFalse)
           && ((pcond_Reason c == PodReasonUnschedulable) || (pcond_Reason c == "SchedulerError"))
      else unschedulable_loop rest
  end.
Definition unschedulable (pod : Pod) : bool := unschedulable_loop (pod_Conditions pod).

Record gpuReq := mkGpuReq { gr_devices : int64; gr_memoryMiB : int64; gr_cores : int64 }.

(** One resource list; the flag is the pod's [found], which the loop shares. *)
Definition add_list (st : gpuReq * bool) (rl : gmap string int64) : gpuReq * bool :=
  let '(out, found) := st in
  let '(out, found) :=
    match rl !! ResourceGPU with
    | Some q => ({| out with gr_devices := wrap64 (gr_devices out + q) |}, true)
    | None => (out, found)
    end in
  let '(out, found) :=
    match rl !! ResourceGPUMemory with
    | Some q => ({| out with gr_memoryMiB := wrap64 (gr_memoryMiB out + q) |}, true)
    | None => (out, found)
    end in
  match rl !! ResourceGPUCores with
  | Some q => ({| out with gr_cores := wrap64 (gr_cores out + q) |}, true)
  | None => (out, found)
  end.

(** A container: its limits, and its requests unless [found] is already set. *)
Definition add_container (st : gpuReq * bool) (c : Container) : gpuReq * bool :=
  let st := add_list st (ctr_Limits c) in
  if st.2 : bool then st else add_list st (ctr_Requests c).

Definition gpuRequest (pod : Pod) : gpuReq * bool :=
  foldl add_container (mkGpuReq 0 0 0, false) (pod_Containers pod).

Definition fitsOneCell (req : gpuReq) (ref : Device) : bool :=
  if 1 <? gr_devices req then false
  else if dev_MemoryMiB ref <? gr_memoryMiB req then false
  else if dev_CorePercent ref <? gr_cores req then false
  else true.

(** [gpuReq.String]. *)
Definition gpuReq_String (r : gpuReq) : string :=
  "devices=" +:+ FormatInt (gr_devices r) +:+ " memoryMiB=" +:+ FormatInt (gr_memoryMiB r)
  +:+ " cores=" +:+ FormatInt (gr_cores r).

(** The loop of [PendingDemand] over the pending pods. *)
Definition demand_of (ref : option Device) (out : Demand) (req : gpuReq) : Demand :=
  let out := {| out with d_PendingRequests := d_PendingRequests out + 1 |} in
  match ref with
  | Some r => if fitsOneCell req r
              then {| out with d_SatisfiableByOneCell := d_SatisfiableByOneCell out + 1 |} else out
  | None => out
  end.

Definition add_pod (ref : option Device) (out : Demand) (pod : Pod) : Demand :=
  if (pod_NodeName pod != "") || negb (unschedulable pod) then out
  else
    let '(req, wantsGPU) := gpuRequest pod in
    if wantsGPU : bool then demand_of ref out req else out.

Definition pod_demand {W} `{InnerCluster W} (ref : option Device) (w : W) : result ProviderError Demand :=
  match list_pods_pending w with
  | Err e => Err (ProviderAPI (mkOpError "listing pending pods" e))
  | Ok pods => Ok (foldl (add_pod ref) zeroDemand pods)
  end.

(** ** The format HAMi writes *)

Definition print_record (a : Allocation) : string :=
  a_UUID a +:+ "," +:+ a_Vendor a +:+ "," +:+ FormatInt (a_MemoryMiB a) +:+ ","
  +:+ FormatInt (a_CorePercent a).

(** A container's records, each closed by a colon. *)
Definition print_group (g : list Allocation) : string :=
  foldr (fun a s => print_record a +:+ String ":" s) "" g.

(** A pod's containers, each closed by a semicolon. *)
Definition print_allocations (groups : list (list Allocation)) : string :=
  foldr (fun g s => print_group g +:+ String ";" s) "" groups.

(** A field HAMi can write: visible ASCII without the separators. *)
Definition field_ok (s : string) : Prop :=
  all_visible s = true /\ lacks "," s = true /\ lacks ":" s = true /\ lacks ";" s = true.

Definition allocation_ok (a : Allocation) : Prop :=
  field_ok (a_UUID a) /\ field_ok (a_Vendor a)
  /\ int64_ok (a_MemoryMiB a) /\ int64_ok (a_CorePercent a).

(** ** Lemmas *)

Lemma print_record_clean a c :
  allocation_ok a -> c = ":"%char \/ c = ";"%char ->
  all_visible (print_record a) = true /\ lacks c (print_record a) = true.
Proof.
  intros ((Hu & _ & Hu1 & Hu2) & (Hv & _ & Hv1 & Hv2) & Hm & Hc) Hsep. unfold print_record.
  rewrite !all_visible_app, !lacks_app, Hu, Hv, !FormatInt_visible by done.
  rewrite !FormatInt_lacks by (done || destruct Hsep; subst; done).
  split; [done|]. destruct Hsep; subst; rewrite ?Hu1, ?Hu2, ?Hv1, ?Hv2; done.
Qed.

Lemma print_record_nonempty a : print_record a <> "".
Proof. unfold print_record. destruct (a_UUID a); rewrite ?app_cons_s, ?app_nil_s; done. Qed.

Lemma parse_record_print a : allocation_ok a -> parse_record (print_record a) = Ok a.
Proof.
  intros ((Hu & Hu0 & _) & (Hv & Hv0 & _) & Hm & Hc). unfold parse_record, print_record.
  assert (forall x y, x +:+ "," +:+ y = x +:+ String "," y) as Hs by done.
  rewrite !Hs, Split_sep, Split_sep, Split_sep, Split_lacks by (done || by apply FormatInt_lacks).
  rewrite !TrimSpace_visible by (done || by apply FormatInt_visible).
  rewrite !ParseInt_FormatInt_neg by done. by destruct a.
Qed.

Lemma parse_records_print g :
  Forall allocation_ok g -> parse_records (Split ":" (print_group g)) = Ok g.
Proof.
  induction 1 as [|a g Ha Hg IH]; [done|]. simpl print_group.
  destruct (print_record_clean a ":"%char Ha ltac:(by left)) as [Hvis Hl].
  rewrite Split_sep by done. simpl. rewrite TrimSpace_visible by done.
  rewrite bool_decide_eq_false_2 by apply print_record_nonempty.
  rewrite parse_record_print by done. simpl. by rewrite IH.
Qed.

Lemma print_group_clean g :
  Forall allocation_ok g -> all_visible (print_group g) = true /\ lacks ";" (print_group g) = true.
Proof.
  induction 1 as [|a g Ha Hg [IH1 IH2]]; [done|]. simpl print_group.
  destruct (print_record_clean a ";"%char Ha ltac:(by right)) as [Hv Hl].
  rewrite all_visible_app, lacks_app, Hv, Hl. simpl. by rewrite IH1, IH2.
Qed.

Lemma parse_groups_print gs :
  Forall (Forall allocation_ok) gs -> parse_groups (Split ";" (print_allocations gs)) = Ok (concat gs).
Proof.
  induction 1 as [|g gs Hg Hgs IH]; [done|]. simpl print_allocations.
  destruct (print_group_clean g Hg) as [Hv Hl]. rewrite Split_sep by done. simpl.
  rewrite TrimSpace_visible by done. destruct Hg as [|a g Ha Hg]; simpl; [done|].
  rewrite bool_decide_eq_false_2
    by (pose proof (print_record_nonempty a); destruct (print_record a); rewrite ?app_cons_s; done).
  change (print_record a +:+ String ":" (print_group g)) with (print_group (a :: g)).
  rewrite parse_records_print by (by constructor). simpl. by rewrite IH.
Qed.

Lemma print_allocations_visible gs :
  Forall (Forall allocation_ok) gs -> all_visible (print_allocations gs) = true.
Proof.
  induction 1 as [|g gs Hg Hgs IH]; [done|]. simpl print_allocations.
  rewrite all_visible_app, (proj1 (print_group_clean g Hg)). simpl. by rewrite IH.
Qed.

(** What an object registers under a key: the last member of that name up to case
    counts. For a string, null leaves what was there. *)
Definition last_member (k : string) (kvs : list (string * JSON)) : option JSON :=
  foldl (fun acc kv => if lower kv.1 == k then Some kv.2 else acc) None kvs.
Definition last_string (k : string) (kvs : list (string * JSON)) : string :=
  foldl (fun acc kv => if lower kv.1 == k then match kv.2 with JStr s => s | _ => acc end else acc) "" kvs.

Record decoded (kvs : list (string * JSON)) (rd : rawDevice) : Prop := {
  de_id : raw_ID rd = last_member "id" kvs ≫= decode_str;
  de_count : raw_Count rd = last_member "count" kvs ≫= decode_int;
  de_mem : raw_DevMem rd = last_member "devmem" kvs ≫= decode_int;
  de_core : raw_DevCore rd = last_member "devcore" kvs ≫= decode_int;
  de_type : raw_Type rd = last_string "type" kvs;
  de_mode : raw_Mode rd = last_string "mode" kvs;
  de_health : raw_Health rd = last_member "health" kvs ≫= decode_bool
}.

Lemma decode_ptr_ok {A} (dec : JSON -> option A) old v x :
  dec JNull = None -> decode_ptr dec old v = (x, true) -> x = dec v.
Proof.
  unfold decode_ptr. intros Hn E.
  destruct v; [|case_match..]; congruence.
Qed.

Lemma decode_plain_str_ok old v x :
  decode_plain_str old v = (x, true) -> x = match v with JStr s => s | _ => old end.
Proof. destruct v; naive_solver. Qed.

Lemma decode_fields_spec kvs rd : foldl decode_field (zeroRawDevice, true) kvs = (rd, true) -> decoded kvs rd.
Proof.
  revert rd. induction kvs as [|[k v] kvs IH] using rev_ind; intros rd; [by intros [= <-]|].
  rewrite foldl_app. destruct (foldl decode_field _ kvs) as [rd1 ok1] eqn:E. simpl.
  assert (ok1 = true -> decoded kvs rd1) as Hd by (intros ->; by apply IH). clear IH E.
  assert (forall x, last_member x (kvs ++ [(k, v)]) = if lower k == x then Some v else last_member x kvs) as Hm
    by (intros; unfold last_member; by rewrite foldl_app).
  assert (forall x, last_string x (kvs ++ [(k, v)])
            = if lower k == x then match v with JStr s => s | _ => last_string x kvs end else last_string x kvs) as Hs
    by (intros; unfold last_string; by rewrite foldl_app).
  repeat match goal with
  | |- context [lower k == ?x] => destruct (bool_decide_reflect (lower k = x)) as [Hk|?]; simpl; [rewrite Hk in *|]
  end.
  8: { intros [= <- ->]. destruct (Hd eq_refl). by split; rewrite ?Hm, ?Hs, bool_decide_eq_false_2. }
  all: lazymatch goal with |- context [let '(_, _) := ?d in _] => destruct d as [x ok'] eqn:Ex end;
    intros [= <- [-> ->]%andb_true_iff];
    first [apply decode_ptr_ok in Ex; [|done]|apply decode_plain_str_ok in Ex]; subst x;
    destruct (Hd eq_refl) as [H1 H2 H3 H4 H5 H6 H7]; rewrite <- ?H5, <- ?H6 in Hs;
    split; rewrite ?Hm, ?Hs; simpl; try done; by rewrite <- ?H5, <- ?H6.
Qed.

(** The device an element of a registration stands for, member by member: the four
    required ones are there and have their type. *)
Record registered (kvs : list (string * JSON)) (d : Device) : Prop := {
  rg_id : last_member "id" kvs ≫= decode_str = Some (dev_UUID d) /\ dev_UUID d <> "";
  rg_mem : last_member "devmem" kvs ≫= decode_int = Some (dev_MemoryMiB d);
  rg_core : last_member "devcore" kvs ≫= decode_int = Some (dev_CorePercent d);
  rg_health : last_member "health" kvs ≫= decode_bool = Some (dev_Healthy d);
  rg_slots : dev_LogicalSlots d = default 0 (last_member "count" kvs ≫= decode_int);
  rg_model : dev_Model d = last_string "type" kvs;
  rg_mode : dev_Mode d = last_string "mode" kvs
}.

Definition registers (v : JSON) (d : Device) : Prop := exists kvs, v = JObj kvs /\ registered kvs d.

Lemma convert_devices_spec i l out :
  forallb snd (map decode_device l) = true ->
  convert_devices i (map fst (map decode_device l)) = Ok out -> Forall2 registers l out.
Proof.
  revert i out. induction l as [|v l IH]; intros i out; simpl; [by intros _ [= <-]|].
  intros [Hv Hl]%andb_true_iff. destruct (decode_device v) as [rd ok] eqn:Ev. simpl in *. subst ok.
  destruct (raw_ID rd) as [id|] eqn:Eid; [|done]. case_bool_decide as Hid; [done|].
  destruct (raw_DevMem rd) as [mem|] eqn:Em, (raw_DevCore rd) as [core|] eqn:Ec, (raw_Health rd) as [h|] eqn:Eh; try done.
  destruct (convert_devices (i + 1) _) as [out'|] eqn:E; simpl; [|done]. intros [= <-].
  constructor; [|by apply (IH (i + 1))].
  destruct v as [| | | | | | |kvs]; try done; [by injection Ev as <-|].
  apply decode_fields_spec in Ev as []. exists kvs. split; [done|].
  by split; simpl; [split; [congruence|]|congruence|congruence|congruence|by f_equal|congruence|congruence].
Qed.

(** What [PendingDemand] counts: a request the scheduler tried and could not place. *)
Definition wants_gpu (pod : Pod) : bool :=
  (pod_NodeName pod == "") && unschedulable pod && (gpuRequest pod).2.
Definition satisfiable (ref : option Device) (pod : Pod) : bool :=
  wants_gpu pod && match ref with Some r => fitsOneCell (gpuRequest pod).1 r | None => false end.

Lemma add_pods_spec ref pods out :
  foldl (add_pod ref) out pods =
  mkDemand (d_PendingRequests out + len (List.filter wants_gpu pods))
           (d_SatisfiableByOneCell out + len (List.filter (satisfiable ref) pods)).
Proof.
  revert out. induction pods as [|p pods IH]; intros out; simpl.
  { rewrite !len_nil, !Z.add_0_r. by destruct out. }
  rewrite IH. unfold add_pod, satisfiable, wants_gpu, demand_of.
  destruct (pod_NodeName p == ""), (unschedulable p); simpl; try done.
  destruct (gpuRequest p) as [req []]; simpl; [|done].
  destruct ref as [r|]; [destruct (fitsOneCell req r)|]; simpl; rewrite ?len_cons; f_equal; lia.
Qed.

(** ** Theorems *)

(** C36. Reading back what HAMi writes on a pod, container by container, gives the
    allocations written, in order, the empty list (";;") included. *)
Theorem ParseAllocations_print groups :
  Forall (Forall allocation_ok) groups ->
  ParseAllocations (print_allocations groups) = Ok (concat groups).
Proof.
  intros Hg. unfold ParseAllocations.
  rewrite TrimSpace_visible by (by apply print_allocations_visible).
  case_bool_decide as E; [|by apply parse_groups_print].
  destruct groups as [|g groups]; [done|]. exfalso. revert E. simpl.
  destruct (print_group g); rewrite ?app_cons_s; done.
Qed.

(** C37. What is read from a node's registration is what it registers, never a
    silent zero. A node counts as not registered only when the annotation is
    absent or blank. A registration is read as devices only when it is the JSON
    null (no device) or an array: then there is one device per element, in order,
    whose id, memory, cores and health are the element's own members, all four
    there. Anything else (text that is not JSON, another value, an element
    without a required member) is an error. *)
Theorem registration_never_zero_by_accident ann :
  match ParseNodeRegistration ann with
  | Ok (devices, false) =>
      devices = [] /\ forall raw, ann !! AnnotationNodeRegistration = Some raw -> TrimSpace raw = ""
  | Ok (devices, true) =>
      exists raw, ann !! AnnotationNodeRegistration = Some raw /\ TrimSpace raw <> ""
        /\ ((parse_json raw = Some JNull /\ devices = [])
            \/ exists l, parse_json raw = Some (JArr l) /\ Forall2 registers l devices)
  | Err _ => exists raw, ann !! AnnotationNodeRegistration = Some raw /\ TrimSpace raw <> ""
  end.
Proof.
  unfold ParseNodeRegistration. destruct (ann !! _) as [raw|]; [|by split].
  case_bool_decide as Eb; [by split; [|intros ? [= <-]]|].
  destruct (unmarshal_devices raw) as [rds|] eqn:Eu; [|by eauto].
  destruct (convert_devices 0 rds) as [out|] eqn:Ec; simpl; [|by eauto].
  exists raw. split_and!; [done..|].
  unfold unmarshal_devices in Eu. destruct (parse_json raw) as [v|]; [|done].
  destruct v as [| | | | | |l|]; try done.
  - left. simplify_eq. simpl in Ec. by injection Ec as <-.
  - right. exists l. split; [done|]. destruct (forallb _ _) eqn:Ef; [|done]. simplify_eq.
    by apply (convert_devices_spec 0).
Qed.

(** Demand counts the unscheduled pods the scheduler refused that ask for a GPU;
    those a fresh cell satisfies are among them, and without a known cell shape
    there are none. *)
Theorem pod_demand_counts {W} `{InnerCluster W} (w : W) ref pods :
  list_pods_pending w = Ok pods ->
  exists d, pod_demand ref w = Ok d
    /\ d_PendingRequests d = len (List.filter wants_gpu pods)
    /\ d_SatisfiableByOneCell d = len (List.filter (satisfiable ref) pods)
    /\ 0 <= d_SatisfiableByOneCell d <= d_PendingRequests d
    /\ (ref = None -> d_SatisfiableByOneCell d = 0).
Proof.
  intros Hp. unfold pod_demand. rewrite Hp, add_pods_spec. simpl.
  eexists. split; [done|]. simpl. split_and!; [done|done|apply len_nonneg| |].
  - clear Hp. induction pods as [|p pods IH]; simpl; [done|].
    assert (satisfiable ref p = true -> wants_gpu p = true) as Himp
      by (unfold satisfiable; intros; by guards).
    destruct (satisfiable ref p), (wants_gpu p); rewrite ?len_cons;
      try specialize (Himp eq_refl); (done || lia).
  - clear Hp. intros ->. induction pods as [|p pods IH]; simpl; [done|].
    unfold satisfiable at 1. by rewrite andb_false_r.
Qed.

(** ** Witnesses *)

(** The registration measured on a cell, and the allocation of one workload. *)
Definition ex_registration : string :=
  let q s := String "034" (s +:+ String "034" "") in
  "[{" +:+ q "id" +:+ ":" +:+ q "GPU-e71afe85" +:+ "," +:+ q "count" +:+ ":10," +:+ q "devmem" +:+ ":8192,"
  +:+ q "devcore" +:+ ":100," +:+ q "type" +:+ ":" +:+ q "NVIDIA GeForce GTX 1080" +:+ ","
  +:+ q "mode" +:+ ":" +:+ q "hami-core" +:+ "," +:+ q "health" +:+ ":true,"
  +:+ q "devicepairscore" +:+ ":{}}]".

Definition ex_device : Device :=
  mkDevice "GPU-e71afe85" 10 8192 100 "NVIDIA GeForce GTX 1080" "hami-core" true.

Example ex_registration_read :
  ParseNodeRegistration {[ AnnotationNodeRegistration := ex_registration ]} = Ok ([ex_device], true)
  /\ ParseNodeRegistration {[ AnnotationNodeRegistration := "[{}]" ]} = Err (RegNoID 0).
Proof. split; vm_compute; reflexivity. Qed.

Lemma ParseAllocations_print_witness :
  ParseAllocations "GPU-e71afe85,NVIDIA,3000,30:;"
  = Ok [mkAllocation "GPU-e71afe85" "NVIDIA" 3000 30].
Proof.
  apply (ParseAllocations_print [[mkAllocation "GPU-e71afe85" "NVIDIA" 3000 30]]).
  repeat constructor; vm_compute; (reflexivity || discriminate).
Defined.

Definition ex_pending_pod : Pod :=
  mkPod "default" "train" "" PodPending ∅
    [mkPodCondition PodScheduledType ConditionFalse PodReasonUnschedulable]
    [mkContainer {[ ResourceGPU := 1; ResourceGPUMemory := 3000 ]} ∅].
Definition ex_pending : MemCluster := mkMemCluster ∅ ∅ [ex_pending_pod].

Lemma pod_demand_counts_witness :
  exists d, pod_demand (Some ex_device) ex_pending = Ok d /\ d_SatisfiableByOneCell d = 1.
Proof.
  destruct (pod_demand_counts ex_pending (Some ex_device) [ex_pending_pod]) as (d & Hd & _ & Hs & _);
    [vm_compute; reflexivity|]. exists d. split; [exact Hd|]. rewrite Hs. vm_compute. reflexivity.
Defined.
