(* ===== verification/HamiDra.v ===== *)
(** * HAMi's DRA mode (internal/capacity/hami_dra.go)

    Capacity and allocations read from the ResourceSlices and claims of the
    workload cluster. *)

From S2P Require Import Prelude GoStd Api KubeApi Provider Hami.
Local Open Scope Z_scope.
Local Open Scope go_scope.

Definition DRADriverName : string := "hami-core-gpu.project-hami.io".
Definition draCapCores : string := "cores".
Definition draCapMemory : string := "memory".
Definition mib : int64 := 1024 * 1024.

Definition deviceClassName (deviceClass : string) : string :=
  if deviceClass != "" then deviceClass else DRADriverName.

(** The driver's slices of one pool, which is a node: the index of draSlices. *)
Definition slices_of (slices : list ResourceSlice) (node : string) : list ResourceSlice :=
  List.filter (fun s => (rs_Driver s == DRADriverName) && (rs_Pool s == node)) slices.

Definition draModel (d : SliceDevice) : string :=
  match sld_productName d with
  | Some p => if p != "" then p else "unknown"
  | None => "unknown"
  end.

(** What the allocated claims have taken of one device. *)
Record draConsumed := mkDraConsumed {
  dc_cores : int64; dc_memoryMiB : int64; dc_claims : int; dc_unreserved : int
}.

Definition consume_result (reservedFor : int) (out : gmap string draConsumed) (res : AllocationResult)
    : gmap string draConsumed :=
  if ar_Driver res != DRADriverName then out
  else
    let key := ar_Pool res +:+ "/" +:+ ar_Device res in
    let e := default (mkDraConsumed 0 0 0 0) (out !! key) in
    let e := {| e with dc_claims := dc_claims e + 1 |} in
    let e := if reservedFor =? 0 then {| e with dc_unreserved := dc_unreserved e + 1 |} else e in
    let e := match ar_Consumed res !! draCapCores with
             | Some q => {| e with dc_cores := wrap64 (dc_cores e + q) |} | None => e end in
    let e := match ar_Consumed res !! draCapMemory with
             | Some q => {| e with dc_memoryMiB := wrap64 (dc_memoryMiB e + Z.quot q mib) |}
             | None => e end in
    <[key := e]> out.

Definition consume_claim (out : gmap string draConsumed) (c : ResourceClaim) : gmap string draConsumed :=
  match rc_Allocation c with
  | None => out
  | Some results => foldl (consume_result (rc_ReservedFor c)) out results
  end.

(** Model rows by name, and the order sort.Slice gives them. *)
Definition model_le (a b : ModelCapacity) : Prop := String.le (m_Model a) (m_Model b).
#[export] Instance model_le_dec : RelDecision model_le.
Proof. intros a b. unfold model_le. apply _. Defined.

Definition sort_models (byModel : gmap string ModelCapacity) : list ModelCapacity :=
  merge_sort model_le (map_to_list byModel).*2.

Definition zeroModel (model : string) : ModelCapacity := mkModelCapacity model 0 0 0 0 0.

(** A request reduced to what one cell is judged by: the loop returns early on a
    request for all the devices of a node. *)
Fixpoint draRequest_loop (class : string) (requests : list DeviceRequest) (req : gpuReq) (wants : bool)
    : gpuReq * bool :=
  match requests with
  | [] => (req, wants)
  | r :: rest =>
      match dr_Exactly r with
      | None => draRequest_loop class rest req wants
      | Some ex =>
          if er_DeviceClassName ex != class then draRequest_loop class rest req wants
          else if er_AllocationMode ex == AllocationModeAll then (mkGpuReq 2 0 0, true)
          else
            let count := if er_Count ex <=? 0 then 1 else er_Count ex in
            let req := {| req with gr_devices := wrap64 (gr_devices req + count) |} in
            match er_Capacity ex with
            | None => draRequest_loop class rest req true
            | Some cap =>
                let req := match cap !! draCapCores with
                           | Some q => {| req with gr_cores := wrap64 (gr_cores req + q) |}
                           | None => req end in
                let req := match cap !! draCapMemory with
                           | Some q => {| req with gr_memoryMiB :=
                                            wrap64 (gr_memoryMiB req + Z.quot q mib) |}
                           | None => req end in
                draRequest_loop class rest req true
            end
      end
  end.
Definition draRequest (c : ResourceClaim) (class : string) : gpuReq * bool :=
  draRequest_loop class (rc_Requests c) (mkGpuReq 0 0 0) false.

(** One device of a cell node added to the pool's capacity. *)
Definition dra_add_device (consumed : gmap string draConsumed) (pool : string)
    (st : gmap string ModelCapacity * int) (d : SliceDevice) : gmap string ModelCapacity * int :=
  let '(byModel, devices) := st in
  let model := draModel d in
  let m := default (zeroModel model) (byModel !! model) in
  let m := {| m with m_Devices := m_Devices m + 1 |} in
  let m := match sld_Capacity d !! draCapCores with
           | Some q => {| m with m_ComputeTotal := wrap64 (m_ComputeTotal m + q) |} | None => m end in
  let m := match sld_Capacity d !! draCapMemory with
           | Some q => {| m with m_MemoryTotalMiB := wrap64 (m_MemoryTotalMiB m + Z.quot q mib) |}
           | None => m end in
  let m := match consumed !! (pool +:+ "/" +:+ sld_Name d) with
           | Some e => {| m with m_ComputeAllocated := wrap64 (m_ComputeAllocated m + dc_cores e);
                           m_MemoryAllocatedMiB := wrap64 (m_MemoryAllocatedMiB m + dc_memoryMiB e) |}
           | None => m end in
  (<[model := m]> byModel, devices + 1).

(** Totals over the rows: memory always, compute only for a single model. *)
Definition dra_totals (rows : list ModelCapacity) (devices : int) : Capacity :=
  let homogeneous := len rows <=? 1 in
  let c := {| cap_Devices := devices; cap_Homogeneous := homogeneous; cap_ByModel := rows;
              cap_MemoryTotalMiB := foldl (fun t m => wrap64 (t + m_MemoryTotalMiB m)) 0 rows;
              cap_MemoryAllocatedMiB := foldl (fun t m => wrap64 (t + m_MemoryAllocatedMiB m)) 0 rows;
              cap_ComputeTotal := 0; cap_ComputeAllocated := 0 |} in
  match rows with
  | [m] => {| c with cap_ComputeTotal := m_ComputeTotal m; cap_ComputeAllocated := m_ComputeAllocated m |}
  | _ => c
  end.

Definition hold_device (consumed : gmap string draConsumed) (pool : string) (out : Allocations)
    (d : SliceDevice) : Allocations :=
  match consumed !! (pool +:+ "/" +:+ sld_Name d) with
  | None => out
  | Some e =>
      {| al_Consumers := al_Consumers out + dc_claims e;
         al_CorePercent := wrap64 (al_CorePercent out + dc_cores e);
         al_MemoryMiB := wrap64 (al_MemoryMiB out + dc_memoryMiB e);
         al_InFlight := if 0 <? dc_unreserved e then true else al_InFlight out |}
  end.

Definition add_claim (class : string) (ref : option Device) (out : Demand) (c : ResourceClaim) : Demand :=
  match rc_Allocation c with
  | Some _ => out
  | None =>
      let '(req, wants) := draRequest c class in
      if wants : bool then demand_of ref out req else out
  end.

Section dra.
Context {W : Type} `{DRACluster W}.

Definition draSlices (w : W) : result OpError (list ResourceSlice) :=
  match inner_slices w with
  | Err e => Err (mkOpError "listing ResourceSlices" e)
  | Ok l => Ok l
  end.

Definition draAllocated (w : W) : result OpError (gmap string draConsumed) :=
  match inner_claims w with
  | Err e => Err (mkOpError "listing ResourceClaims" e)
  | Ok claims => Ok (foldl consume_claim ∅ claims)
  end.

(** Devices of the nodes' slices, and those published with a capacity. *)
Definition node_devices (slices : list ResourceSlice) (nodes : list string) : list SliceDevice :=
  concat (map (fun n => concat (map rs_Devices (slices_of slices n))) nodes).

Definition draHealth (deviceClass : string) (nodes : list string) (w : W)
    : result OpError Health :=
  match draSlices w with
  | Err e =>
      if IsNotFound (oe_cause e)
      then Ok (mkHealth false ReasonDRAFeatureGateMissing
             ("the resource.k8s.io/v1 API is not served by the workload cluster; "
              +:+ "HAMi DRA mode needs Kubernetes >= 1.34 with DynamicResourceAllocation enabled"))
      else Err e
  | Ok slices =>
      let class := deviceClassName deviceClass in
      match get_device_class class w with
      | Err e =>
          if IsNotFound e
          then Ok (mkHealth false ReasonDRADeviceClassMissing
                 ("DeviceClass " +:+ class +:+ " does not exist in the workload cluster; "
                  +:+ "install Project-HAMi's DRA driver, or set capacity.hami.deviceClassName "
                  +:+ "to the class your driver ships"))
          else Err (mkOpError ("reading DeviceClass " +:+ class) e)
      | Ok _ =>
          if len nodes =? 0 then Ok (mkHealth true ReasonHAMiDetected "")
          else
            let devices := node_devices slices nodes in
            let detected := len devices in
            let withCapacity := len (List.filter (fun d => 0 <? Z.of_nat (size (sld_Capacity d))) devices) in
            if detected =? 0 then
              Ok (mkHealth false ReasonHAMiNotDetected
                    ("no ResourceSlices published by driver " +:+ DRADriverName
                     +:+ " for any cell node; is the DRA driver's DaemonSet running on the cells?"))
            else if withCapacity =? 0 then
              Ok (mkHealth false ReasonDRAFeatureGateMissing
                    ("the DRA driver publishes devices with no capacity, which means the "
                     +:+ "DRAConsumableCapacity feature gate is off (it is beta and on by default "
                     +:+ "from Kubernetes 1.36; enable it explicitly on 1.34 and 1.35)"))
            else Ok (mkHealth true ReasonHAMiDetected "")
      end
  end.

Definition draDevices (node : string) (w : W) : result OpError int :=
  let* slices := draSlices w in
  Ok (foldl (fun n s => n + len (rs_Devices s)) 0 (slices_of slices node)).

Definition draCapacity (nodes : list string) (w : W) : result OpError Capacity :=
  let* slices := draSlices w in
  let* consumed := draAllocated w in
  let '(byModel, devices) :=
    foldl (fun st n =>
             foldl (fun st s => foldl (dra_add_device consumed (rs_Pool s)) st (rs_Devices s))
               st (slices_of slices n))
      (∅, 0) nodes in
  Ok (dra_totals (sort_models byModel) devices).

Definition draAllocations (node : string) (w : W) : result OpError Allocations :=
  let* slices := draSlices w in
  let* consumed := draAllocated w in
  Ok (foldl (fun out s => foldl (hold_device consumed (rs_Pool s)) out (rs_Devices s))
        zeroAllocations (slices_of slices node)).

Definition draPendingDemand (deviceClass : string) (ref : option Device) (w : W)
    : result OpError Demand :=
  match inner_claims w with
  | Err e => Err (mkOpError "listing ResourceClaims" e)
  | Ok claims => Ok (foldl (add_claim (deviceClassName deviceClass) ref) zeroDemand claims)
  end.
End dra.

(** ** Lemmas *)

Definition device_name (pool device : string) : string := pool +:+ "/" +:+ device.

(** The claim holds a share of the device. *)
Definition holds (claims : list ResourceClaim) (key : string) : Prop :=
  exists c rs r, c ∈ claims /\ rc_Allocation c = Some rs /\ r ∈ rs
            /\ ar_Driver r = DRADriverName /\ device_name (ar_Pool r) (ar_Device r) = key.

(** What an index of consumption knows: the held keys, each with a holder. *)
Definition indexes (m : gmap string draConsumed) (P : string -> Prop) : Prop :=
  forall k, (is_Some (m !! k) <-> P k) /\ (forall e, m !! k = Some e -> 0 < dc_claims e).

Lemma indexes_ext m P Q : (forall k, P k <-> Q k) -> indexes m P -> indexes m Q.
Proof. intros E Hm k. rewrite <- E. apply Hm. Qed.

Lemma consume_result_indexes reserved m P r :
  indexes m P ->
  indexes (consume_result reserved m r)
    (fun k => P k \/ (ar_Driver r = DRADriverName /\ device_name (ar_Pool r) (ar_Device r) = k)).
Proof.
  intros Hm. unfold consume_result. case_bool_decide as Ed; simpl.
  2: { eapply indexes_ext; [|exact Hm]. intros k. tauto. }
  set (key := ar_Pool r +:+ "/" +:+ ar_Device r).
  set (e := match ar_Consumed r !! draCapMemory with Some _ => _ | None => _ end).
  assert (0 < dc_claims e) as He.
  { assert (0 <= dc_claims (default (mkDraConsumed 0 0 0 0) (m !! key))) as H0.
    { destruct (Hm key) as [_ Hp]. destruct (m !! key) as [e0|]; simpl; [|lia].
      specialize (Hp e0 eq_refl). lia. }
    unfold e. destruct (ar_Consumed r !! draCapMemory), (ar_Consumed r !! draCapCores);
      destruct (reserved =? 0); simpl; lia. }
  intros k. destruct (decide (k = key)) as [->|Hk].
  - rewrite lookup_insert_eq. split; [split; [intros _; right; by split|by intros _; exists e]|].
    by intros e' [= <-].
  - rewrite lookup_insert_ne by done. destruct (Hm k) as [Hi Hp]. split; [|done].
    rewrite Hi. unfold device_name. fold key. naive_solver.
Qed.

Lemma consume_results_indexes reserved m P rs :
  indexes m P ->
  indexes (foldl (consume_result reserved) m rs)
    (fun k => P k \/ exists r, r ∈ rs /\ ar_Driver r = DRADriverName /\ device_name (ar_Pool r) (ar_Device r) = k).
Proof.
  revert m P. induction rs as [|r rs IH]; intros m P Hm; simpl.
  - eapply indexes_ext; [|exact Hm]. intros k. split; [by left|].
    intros [?|(r & Hr & _)]; [done|by apply elem_of_nil in Hr].
  - eapply indexes_ext; [|exact (IH _ _ (consume_result_indexes reserved m P r Hm))].
    intros k. setoid_rewrite elem_of_cons. naive_solver.
Qed.

Lemma consume_claims_indexes claims m P :
  indexes m P -> indexes (foldl consume_claim m claims) (fun k => P k \/ holds claims k).
Proof.
  revert m P. induction claims as [|c claims IH]; intros m P Hm; simpl.
  - eapply indexes_ext; [|exact Hm]. intros k. split; [by left|].
    intros [?|(c & rs & r & Hc & _)]; [done|by apply elem_of_nil in Hc].
  - unfold consume_claim at 2. destruct (rc_Allocation c) as [rs|] eqn:Ea.
    + eapply indexes_ext; [|exact (IH _ _ (consume_results_indexes (rc_ReservedFor c) m P rs Hm))].
      intros k. unfold holds. setoid_rewrite elem_of_cons. naive_solver.
    + eapply indexes_ext; [|exact (IH _ _ Hm)].
      intros k. unfold holds. setoid_rewrite elem_of_cons. naive_solver.
Qed.

Lemma hold_devices_spec consumed P pool out devs :
  indexes consumed P -> 0 <= al_Consumers out ->
  let a := foldl (hold_device consumed pool) out devs in
  al_Consumers out <= al_Consumers a
  /\ (al_Consumers a = 0 <-> al_Consumers out = 0 /\ forall d, d ∈ devs -> ~ P (device_name pool (sld_Name d))).
Proof.
  intros Hi. revert out. induction devs as [|d devs IH]; intros out H0; simpl.
  { split; [lia|]. split; [intros ?; split; [done|]; by intros ? ?%elem_of_nil|tauto]. }
  set (out' := hold_device consumed pool out d).
  assert (al_Consumers out <= al_Consumers out'
          /\ (al_Consumers out' = 0 <-> al_Consumers out = 0 /\ ~ P (device_name pool (sld_Name d)))) as [Hle Hz].
  { unfold out', hold_device. fold (device_name pool (sld_Name d)).
    destruct (Hi (device_name pool (sld_Name d))) as [Hs Hp].
    destruct (consumed !! device_name pool (sld_Name d)) as [e|]; simpl.
    - specialize (Hp e eq_refl). split; [lia|]. split; [lia|]. intros [_ Hn].
      destruct Hn. apply Hs. eauto.
    - split; [lia|]. rewrite <- Hs. split; [intros ?; split; [done|by intros [? ?]]|tauto]. }
  destruct (IH out' ltac:(lia)) as [IH1 IH2]. split; [lia|].
  rewrite IH2, Hz. setoid_rewrite elem_of_cons. naive_solver.
Qed.

Lemma hold_slices_spec consumed P out slices :
  indexes consumed P -> 0 <= al_Consumers out ->
  let a := foldl (fun out s => foldl (hold_device consumed (rs_Pool s)) out (rs_Devices s)) out slices in
  al_Consumers a = 0 <-> al_Consumers out = 0 /\
    forall s d, s ∈ slices -> d ∈ rs_Devices s -> ~ P (device_name (rs_Pool s) (sld_Name d)).
Proof.
  intros Hi. revert out. induction slices as [|s slices IH]; intros out H0; simpl.
  { split; [intros ?; split; [done|]; by intros ? ? ?%elem_of_nil|tauto]. }
  destruct (hold_devices_spec consumed P (rs_Pool s) out (rs_Devices s) Hi H0) as [Hle Hz].
  rewrite IH by lia. rewrite Hz. setoid_rewrite elem_of_cons. naive_solver.
Qed.

(** ** Theorems *)

Section dra_theorems.
Context {W : Type} `{DRACluster W}.

(** In DRA mode a cell reads as holding nothing exactly when no allocated
    claim, reserved or not, holds a device its node publishes. *)
Theorem draAllocations_none_iff (w : W) node slices claims :
  inner_slices w = Ok slices -> inner_claims w = Ok claims ->
  exists a, draAllocations node w = Ok a /\
  (al_Consumers a = 0 <->
   forall s d, s ∈ slices_of slices node -> d ∈ rs_Devices s ->
     ~ holds claims (device_name (rs_Pool s) (sld_Name d))).
Proof.
  intros Hs Hc. unfold draAllocations, draSlices, draAllocated. rewrite Hs, Hc. simpl.
  eexists. split; [done|].
  assert (indexes (foldl consume_claim ∅ claims) (holds claims)) as Hi.
  { eapply indexes_ext; [|apply (consume_claims_indexes claims ∅ (fun _ => False))].
    - intros k. tauto.
    - intros k. rewrite lookup_empty. split; [split; [by intros [? ?]|done]|done]. }
  rewrite (hold_slices_spec _ (holds claims)) by done. simpl. tauto.
Qed.

(** A node whose slices are not published reads as holding nothing, whatever
    the claims say: the drain gate is then open although a claim may still name
    a device of that node. *)
Theorem draAllocations_unpublished (w : W) node slices claims :
  inner_slices w = Ok slices -> inner_claims w = Ok claims ->
  (forall s, s ∈ slices -> rs_Driver s = DRADriverName -> rs_Pool s <> node) ->
  draAllocations node w = Ok zeroAllocations.
Proof.
  intros Hs Hc Hn. unfold draAllocations, draSlices, draAllocated. rewrite Hs, Hc. simpl.
  assert (slices_of slices node = []) as ->; [|done].
  unfold slices_of. clear Hs. induction slices as [|s slices IH]; simpl; [done|].
  rewrite IH by (intros; apply Hn; [by right|done]).
  repeat case_bool_decide; simpl; try done. by destruct (Hn s ltac:(left)).
Qed.
End dra_theorems.

(** ** Witnesses *)

Record MemDRA := mkMemDRA { md_slices : list ResourceSlice; md_claims : list ResourceClaim }.
#[export] Instance mem_dra : DRACluster MemDRA := {
  inner_slices w := Ok (md_slices w);
  inner_claims w := Ok (md_claims w);
  get_device_class _ _ := Ok tt
}.

(** A claim holds the GPU of node inference-0. *)
Definition ex_claim : ResourceClaim :=
  mkResourceClaim (Some [mkAllocationResult DRADriverName "inference-0" "hami-gpu-0" {[ draCapCores := 30 ]}])
    1 [].
Definition ex_slice : ResourceSlice :=
  mkResourceSlice DRADriverName "inference-0"
    [mkSliceDevice "hami-gpu-0" None (Some "Tesla T4") {[ draCapCores := 100 ]}].

Lemma draAllocations_none_iff_witness :
  exists a, draAllocations "inference-0" (mkMemDRA [ex_slice] [ex_claim]) = Ok a /\ al_Consumers a <> 0.
Proof.
  destruct (draAllocations_none_iff (mkMemDRA [ex_slice] [ex_claim]) "inference-0" [ex_slice] [ex_claim])
    as (a & Ha & Hz); [reflexivity|reflexivity|].
  exists a. split; [exact Ha|]. intros E.
  refine (proj1 Hz E ex_slice
            (mkSliceDevice "hami-gpu-0" None (Some "Tesla T4") {[ draCapCores := 100 ]}) _ _ _).
  - assert (slices_of [ex_slice] "inference-0" = [ex_slice]) as -> by reflexivity. left.
  - left.
  - exists ex_claim. do 2 eexists. split; [left|]. split; [reflexivity|]. split; [left|]. done.
Defined.

Lemma draAllocations_unpublished_witness :
  draAllocations "inference-0" (mkMemDRA [] [ex_claim]) = Ok zeroAllocations.
Proof.
  apply (draAllocations_unpublished (mkMemDRA [] [ex_claim]) "inference-0" [] [ex_claim]);
    [reflexivity|reflexivity|]. by intros ? ?%elem_of_nil.
Defined.
