(* ===== verification/HamiProvider.v ===== *)
(** * The HAMi provider (internal/capacity/hami_provider.go)

    The device-plugin mode, read from node annotations and pods, and the choice
    between it and the DRA mode. *)

From S2P Require Import Prelude GoStd Api KubeApi Provider Hami HamiDra.
Local Open Scope Z_scope.
Local Open Scope go_scope.

Definition ModeDevicePlugin : string := HAMiModeDevicePlugin.
Definition ModeDRA : string := HAMiModeDRA.

Record HAMiProvider := mkHAMiProvider {
  hp_Mode : string; hp_GateLabel : string; hp_DeviceClass : string
}.

Definition NewHAMiProvider (mode deviceClass : string) : HAMiProvider :=
  mkHAMiProvider (if mode == "" then ModeDevicePlugin else mode) NodeLabelGate deviceClass.

(** ** What pods hold *)

(** A pod the accounting skips: elsewhere, or terminal. *)
Definition skip_pod (node : string) (pod : Pod) : bool :=
  (pod_NodeName pod != node) || (pod_Phase pod == PodSucceeded) || (pod_Phase pod == PodFailed).

(** A missing annotation reads as the empty string. *)
Definition annotation (pod : Pod) (key : string) : string := default "" (pod_Annotations pod !! key).

(** What a pod holds and what is being bound to it. *)
Definition pod_allocations (pod : Pod) : result ProviderError (list Allocation * list Allocation) :=
  match ParseAllocations (annotation pod AnnotationDevicesAllocated) with
  | Err e => Err (BadAllocation (pod_Namespace pod) (pod_Name pod) e)
  | Ok allocated =>
      match ParseAllocations (annotation pod AnnotationDevicesToAllocate) with
      | Err e => Err (BadAllocation (pod_Namespace pod) (pod_Name pod) e)
      | Ok inFlight => Ok (allocated, inFlight)
      end
  end.

Definition add_allocation (st : Allocations * gmap string Allocation) (a : Allocation)
    : Allocations * gmap string Allocation :=
  let '(out, byUUID) := st in
  let out := {| out with al_MemoryMiB := wrap64 (al_MemoryMiB out + a_MemoryMiB a);
                         al_CorePercent := wrap64 (al_CorePercent out + a_CorePercent a) |} in
  let agg := default (mkAllocation "" "" 0 0) (byUUID !! a_UUID a) in
  let agg := mkAllocation (a_UUID a) (a_Vendor agg) (wrap64 (a_MemoryMiB agg + a_MemoryMiB a))
               (wrap64 (a_CorePercent agg + a_CorePercent a)) in
  (out, <[a_UUID a := agg]> byUUID).

Fixpoint hold_pods (node : string) (pods : list Pod) (st : Allocations * gmap string Allocation)
    : result ProviderError (Allocations * gmap string Allocation) :=
  match pods with
  | [] => Ok st
  | pod :: rest =>
      if skip_pod node pod then hold_pods node rest st
      else
        let* (allocated, inFlight) := pod_allocations pod in
        if (len allocated =? 0) && (len inFlight =? 0) then hold_pods node rest st
        else
          let '(out, byUUID) := st in
          let out := {| out with
                        al_InFlight := if 0 <? len inFlight then true else al_InFlight out;
                        al_Consumers := al_Consumers out + 1 |} in
          hold_pods node rest (foldl add_allocation (out, byUUID) (allocated ++ inFlight))
  end.

(** ** Capacity *)

Definition add_device (st : gmap string ModelCapacity * Capacity) (d : Device)
    : gmap string ModelCapacity * Capacity :=
  let '(byModel, out) := st in
  let m := default (zeroModel (dev_Model d)) (byModel !! dev_Model d) in
  let m := {| m with m_Devices := m_Devices m + 1;
                     m_MemoryTotalMiB := wrap64 (m_MemoryTotalMiB m + dev_MemoryMiB d);
                     m_ComputeTotal := wrap64 (m_ComputeTotal m + dev_CorePercent d) |} in
  let out := {| out with cap_Devices := cap_Devices out + 1;
                         cap_MemoryTotalMiB := wrap64 (cap_MemoryTotalMiB out + dev_MemoryMiB d);
                         cap_ComputeTotal := wrap64 (cap_ComputeTotal out + dev_CorePercent d) |} in
  (<[dev_Model d := m]> byModel, out).

Definition modelOf (devices : list Device) : gmap string string :=
  foldl (fun m d => <[dev_UUID d := dev_Model d]> m) ∅ devices.

(** One entry of the per-device breakdown, attributed to its device's model. *)
Definition attribute (models : gmap string string) (byModel : gmap string ModelCapacity)
    (entry : string * Allocation) : gmap string ModelCapacity :=
  let '(uuid, a) := entry in
  let model := default "" (models !! uuid) in
  match byModel !! model with
  | None => byModel
  | Some m =>
      <[model := {| m with m_MemoryAllocatedMiB := wrap64 (m_MemoryAllocatedMiB m + a_MemoryMiB a);
                           m_ComputeAllocated := wrap64 (m_ComputeAllocated m + a_CorePercent a) |}]> byModel
  end.

Section provider.
Context {W : Type} `{InnerCluster W} `{DRACluster W}.
(** The wording of an encoding/json error, which nothing depends on. *)
Context (json_error_text : string -> string).

Definition reg_error_text (e : RegError) : string :=
  "parsing " +:+ AnnotationNodeRegistration +:+ ": " +:+
  match e with
  | RegJSON raw => json_error_text raw
  | RegNoID i => "device " +:+ FormatInt i +:+ " has no id"
  | RegNoField id field => "device " +:+ id +:+ " has no " +:+ field
  end.

Definition nodeAllocations (node : string) (w : W)
    : result ProviderError (Allocations * gmap string Allocation) :=
  match list_pods_on node w with
  | Err e => Err (ProviderAPI (mkOpError ("listing pods on node " +:+ node) e))
  | Ok pods => hold_pods node pods (zeroAllocations, ∅)
  end.

(** The loop of Health; [detected] counts the registered, gated nodes. *)
Fixpoint health_loop (p : HAMiProvider) (nodes : list string) (detected : int) (w : W)
    : result ProviderError Health :=
  match nodes with
  | [] =>
      if detected =? 0 then
        Ok (mkHealth false ReasonHAMiNotDetected
              ("no cell node carries a HAMi device registration "
               +:+ "(is HAMi installed in the workload cluster, and do its DaemonSets tolerate the pool's taints?)"))
      else Ok (mkHealth true ReasonHAMiDetected "")
  | name :: rest =>
      match get_node name w with
      | Err e => if IsNotFound e then health_loop p rest detected w
                 else Err (ProviderAPI (mkOpError ("reading node " +:+ name) e))
      | Ok node =>
          match ParseNodeRegistration (node_Annotations node) with
          | Err e => Ok (mkHealth false ReasonRegistrationUnparseable (reg_error_text e))
          | Ok (_, found) =>
              if negb found then health_loop p rest detected w
              else match node_Labels node !! hp_GateLabel p with
                   | None =>
                       Ok (mkHealth false ReasonHAMiNotDetected
                             ("node " +:+ name +:+ " has a HAMi registration but no " +:+
                              String "034" (hp_GateLabel p +:+ String "034" " label: ") +:+
                              "HAMi's scheduler will not place GPU workloads on it " +:+
                              "(declare it in spec.workloadCluster.node.labels)"))
                   | Some _ => health_loop p rest (detected + 1) w
                   end
          end
      end
  end.

Definition lift {A} (r : result OpError A) : result ProviderError A :=
  match r with Ok a => Ok a | Err e => Err (ProviderAPI e) end.

Definition HAMi_Health (p : HAMiProvider) (nodes : list string) (w : W) : result ProviderError Health :=
  if hp_Mode p == ModeDRA then lift (draHealth (hp_DeviceClass p) nodes w)
  else if len nodes =? 0 then Ok (mkHealth true ReasonHAMiDetected "")
  else health_loop p nodes 0 w.

Definition HAMi_Devices (p : HAMiProvider) (name : string) (w : W) : result ProviderError int :=
  if hp_Mode p == ModeDRA then lift (draDevices name w)
  else match get_node name w with
       | Err e => if IsNotFound e then Ok 0
                  else Err (ProviderAPI (mkOpError ("reading node " +:+ name) e))
       | Ok node =>
           match ParseNodeRegistration (node_Annotations node) with
           | Err e => Err (BadRegistration e)
           | Ok (devices, found) => if found : bool then Ok (len (HealthyDevices devices)) else Ok 0
           end
       end.

(** The loop of Capacity over the cell nodes. *)
Fixpoint capacity_loop (nodes : list string) (st : gmap string ModelCapacity * Capacity) (w : W)
    : result ProviderError (gmap string ModelCapacity * Capacity) :=
  match nodes with
  | [] => Ok st
  | name :: rest =>
      match get_node name w with
      | Err e => if IsNotFound e then capacity_loop rest st w
                 else Err (ProviderAPI (mkOpError ("reading node " +:+ name) e))
      | Ok node =>
          match ParseNodeRegistration (node_Annotations node) with
          | Err e => Err (BadRegistration e)
          | Ok (devices, found) =>
              if negb found then capacity_loop rest st w
              else
                let '(byModel, out) := foldl add_device st (HealthyDevices devices) in
                let* (alloc, byUUID) := nodeAllocations name w in
                let out :=
                  {| out with
                     cap_MemoryAllocatedMiB := wrap64 (cap_MemoryAllocatedMiB out + al_MemoryMiB alloc);
                     cap_ComputeAllocated := wrap64 (cap_ComputeAllocated out + al_CorePercent alloc) |} in
                let byModel := foldl (attribute (modelOf devices)) byModel (map_to_list byUUID) in
                capacity_loop rest (byModel, out) w
          end
      end
  end.

Definition HAMi_Capacity (p : HAMiProvider) (nodes : list string) (w : W) : result ProviderError Capacity :=
  if hp_Mode p == ModeDRA then lift (draCapacity nodes w)
  else
    let* (byModel, out) := capacity_loop nodes (∅, zeroCapacity) w in
    Ok {| out with cap_ByModel := sort_models byModel;
                   cap_Homogeneous := Z.of_nat (size byModel) <=? 1 |}.

Definition HAMi_Allocations (p : HAMiProvider) (node : string) (w : W) : result ProviderError Allocations :=
  if hp_Mode p == ModeDRA then lift (draAllocations node w)
  else let* (a, _) := nodeAllocations node w in Ok a.

Definition HAMi_PendingDemand (p : HAMiProvider) (ref : option Device) (w : W) : result ProviderError Demand :=
  if hp_Mode p == ModeDRA then lift (draPendingDemand (hp_DeviceClass p) ref w)
  else pod_demand ref w.

(** The provider over a client: what the interface answers in one world. *)
Definition hami_provider (p : HAMiProvider) (w : W) : Provider :=
  mkProvider CapacityProviderHAMi (fun nodes => HAMi_Health p nodes w) (fun n => HAMi_Devices p n w)
    (fun nodes => HAMi_Capacity p nodes w) (fun n => HAMi_Allocations p n w)
    (fun ref => HAMi_PendingDemand p ref w).
End provider.

(** ** What pods hold: lemmas *)

Definition live_pods (node : string) (pods : list Pod) : list Pod :=
  List.filter (fun p => negb (skip_pod node p)) pods.

(** A live pod that holds a share, or is being given one. *)
Definition pod_holds (p : Pod) : Prop :=
  exists allocated inFlight, pod_allocations p = Ok (allocated, inFlight)
                        /\ (allocated <> [] \/ inFlight <> []).

Lemma add_allocations_consumers l st :
  al_Consumers (foldl add_allocation st l).1 = al_Consumers st.1
  /\ al_InFlight (foldl add_allocation st l).1 = al_InFlight st.1.
Proof.
  revert st. induction l as [|a l IH]; intros st; simpl; [done|].
  destruct (IH (add_allocation st a)) as [-> ->]. by destruct st.
Qed.

Lemma hold_pods_spec node pods st st' :
  hold_pods node pods st = Ok st' -> 0 <= al_Consumers st.1 ->
  al_Consumers st.1 <= al_Consumers st'.1
  /\ (forall p, p ∈ live_pods node pods -> is_ok (pod_allocations p) = true)
  /\ (al_Consumers st'.1 = 0 <->
      al_Consumers st.1 = 0 /\ forall p, p ∈ live_pods node pods -> ~ pod_holds p)
  /\ (al_Consumers st'.1 = 0 -> al_InFlight st'.1 = al_InFlight st.1).
Proof.
  unfold live_pods. revert st. induction pods as [|p pods IH]; intros st; simpl.
  { intros [= <-] ?. split_and!; try done.
    - by intros ? ?%elem_of_nil.
    - split; [intros ->; split; [done|]; by intros ? ?%elem_of_nil|tauto]. }
  destruct (skip_pod node p); simpl; [apply IH|].
  destruct (pod_allocations p) as [[allocated inFlight]|] eqn:Ep; simpl; [|done].
  destruct (bool_decide_reflect (allocated = [] /\ inFlight = [])) as [[-> ->]|Hne].
  - rewrite len_nil. simpl. intros E H0. destruct (IH st E H0) as (H1 & H2 & H3 & H4).
    split_and!; auto.
    + intros p' [->|?]%elem_of_cons; [by rewrite Ep|auto].
    + rewrite H3. split; intros [? Hp]; split; auto.
      * intros p' [->|?]%elem_of_cons; [|auto]. intros (x & y & E' & Hx).
        rewrite Ep in E'. simplify_eq. tauto.
      * intros p' ?. apply Hp. by right.
  - assert ((len allocated =? 0) && (len inFlight =? 0) = false) as ->.
    { apply not_true_iff_false. intros Hb. guards. apply Hne. rewrite <- !len_zero. auto. }
    destruct st as [out byUUID]. intros E H0. simpl in H0.
    set (st1 := foldl add_allocation _ _) in E.
    assert (al_Consumers st1.1 = al_Consumers out + 1) as Hc
      by (unfold st1; by rewrite (proj1 (add_allocations_consumers _ _))).
    destruct (IH st1 E ltac:(lia)) as (H1 & H2 & H3 & H4). simpl in *.
    split_and!; [lia| | |lia].
    + intros p' [->|?]%elem_of_cons; [by rewrite Ep|auto].
    + split; [lia|]. intros [_ Hp]. destruct (Hp p ltac:(left)). exists allocated, inFlight.
      split; [done|]. destruct allocated; [|by left]. destruct inFlight; [|by right]. tauto.
Qed.

(** ** Capacity rows: lemmas *)

Definition sum_models (f : ModelCapacity -> Z) (m : gmap string ModelCapacity) : Z :=
  map_fold (fun _ x acc => f x + acc) 0 m.

Lemma sum_models_insert f m k v :
  sum_models f (<[k := v]> m) = sum_models f m - default 0 (f <$> m !! k) + f v.
Proof.
  unfold sum_models.
  assert (forall m' : gmap string ModelCapacity, m' !! k = None ->
            map_fold (fun _ x acc => f x + acc) 0 (<[k := v]> m')
            = f v + map_fold (fun _ x acc => f x + acc) 0 m') as Hi.
  { intros m' Hm. apply (map_fold_insert_L (fun _ x acc => f x + acc)); [|done]. intros. lia. }
  destruct (m !! k) as [x|] eqn:E; simpl.
  - assert (map_fold (fun _ x acc => f x + acc) 0 m
            = f x + map_fold (fun _ x acc => f x + acc) 0 (delete k m)) as ->.
    { apply (map_fold_delete_L (fun _ x acc => f x + acc)); [|done]. intros. lia. }
    rewrite <- insert_delete_eq, Hi by apply lookup_delete_eq. lia.
  - rewrite Hi by done. lia.
Qed.

(** One total of the pool against the same total of its rows, through the
    normalisation the field's width imposes. *)
Section totals.
Context (norm : Z -> Z) (f : ModelCapacity -> Z) (g : Capacity -> Z) (h : Device -> Z).
Context (norm_add : forall a b, norm (a + norm b) = norm (a + b)).
Context (f_zero : forall k, f (zeroModel k) = 0).

Definition tracks (st : gmap string ModelCapacity * Capacity) : Prop :=
  norm (g st.2) = norm (sum_models f st.1).

Context (f_attr : forall m a b, f {| m with m_MemoryAllocatedMiB := a; m_ComputeAllocated := b |} = f m).
Context (g_alloc : forall c a b,
  g {| c with cap_MemoryAllocatedMiB := a; cap_ComputeAllocated := b |} = g c).
Context (step_f : forall m d,
  f {| m with m_Devices := m_Devices m + 1;
              m_MemoryTotalMiB := wrap64 (m_MemoryTotalMiB m + dev_MemoryMiB d);
              m_ComputeTotal := wrap64 (m_ComputeTotal m + dev_CorePercent d) |}
  = norm (f m + h d)).
Context (step_g : forall c d,
  g {| c with cap_Devices := cap_Devices c + 1;
              cap_MemoryTotalMiB := wrap64 (cap_MemoryTotalMiB c + dev_MemoryMiB d);
              cap_ComputeTotal := wrap64 (cap_ComputeTotal c + dev_CorePercent d) |}
  = norm (g c + h d)).

Lemma add_device_tracks st d : tracks st -> tracks (add_device st d).
Proof.
  destruct st as [byModel out]. unfold tracks, add_device. simpl. intros Ht.
  rewrite step_g, sum_models_insert, step_f.
  set (old := default (zeroModel (dev_Model d)) (byModel !! dev_Model d)).
  assert (default 0 (f <$> byModel !! dev_Model d) = f old) as ->
    by (unfold old; destruct (byModel !! dev_Model d); simpl; rewrite ?f_zero; done).
  rewrite norm_add. rewrite <- (Z.add_0_l (norm (g out + h d))), norm_add, Z.add_0_l.
  rewrite (Z.add_comm (g out)), <- norm_add, Ht, norm_add. f_equal. lia.
Qed.

Lemma attribute_tracks models st entry : tracks st -> tracks (attribute models st.1 entry, st.2).
Proof.
  destruct st as [byModel out], entry as [uuid a]. unfold tracks, attribute. simpl. intros Ht.
  destruct (byModel !! default "" (models !! uuid)) as [m|] eqn:E; [|done].
  rewrite sum_models_insert, f_attr, E. simpl. rewrite Ht. f_equal. lia.
Qed.

Lemma add_devices_tracks l st : tracks st -> tracks (foldl add_device st l).
Proof. revert st. induction l; simpl; auto using add_device_tracks. Qed.

Lemma attributes_tracks models l byModel out :
  tracks (byModel, out) -> tracks (foldl (attribute models) byModel l, out).
Proof.
  revert byModel. induction l as [|e l IH]; intros byModel Ht; simpl; [done|].
  apply IH. apply (attribute_tracks models (byModel, out) e Ht).
Qed.

Lemma capacity_loop_tracks {W} `{InnerCluster W} nodes st st' (w : W) :
  tracks st -> capacity_loop nodes st w = Ok st' -> tracks st'.
Proof.
  revert st. induction nodes as [|name nodes IH]; intros st Ht; simpl; [by intros [= <-]|].
  destruct (get_node name w) as [node|e]; [|destruct (IsNotFound e); [by apply IH|done]].
  destruct (ParseNodeRegistration _) as [[devices []]|]; simpl; [|by apply IH|done].
  pose proof (add_devices_tracks (HealthyDevices devices) st Ht) as Ha.
  destruct (foldl add_device st _) as [byModel out].
  destruct (nodeAllocations name w) as [[alloc byUUID]|]; simpl; [|done].
  apply IH. apply attributes_tracks. unfold tracks in *. simpl in *. by rewrite g_alloc.
Qed.
End totals.

Definition sum_rows (f : ModelCapacity -> Z) (rows : list ModelCapacity) : Z :=
  foldr (fun m acc => f m + acc) 0 rows.

Lemma sum_rows_perm f l k : l ≡ₚ k -> sum_rows f l = sum_rows f k.
Proof. induction 1; simpl; lia. Qed.

Lemma sum_rows_sorted f byModel : sum_rows f (sort_models byModel) = sum_models f byModel.
Proof.
  unfold sort_models. rewrite (sum_rows_perm f _ _ (merge_sort_Permutation model_le _)).
  unfold sum_models, sum_rows. rewrite map_fold_foldr.
  induction (map_to_list byModel) as [|[k m] l IH]; csimpl; [done|]. by rewrite IH.
Qed.

(** Every row is filed under its model. *)
Definition filed (byModel : gmap string ModelCapacity) : Prop :=
  forall k m, byModel !! k = Some m -> m_Model m = k.

Lemma filed_insert byModel k m : filed byModel -> m_Model m = k -> filed (<[k := m]> byModel).
Proof. intros Hf Hm k' m' [[-> ->]|[_ ?]]%lookup_insert_Some; auto. Qed.

Lemma add_device_filed st d : filed st.1 -> filed (add_device st d).1.
Proof.
  destruct st as [byModel out]. simpl. intros Hf. apply filed_insert; [done|]. simpl.
  destruct (byModel !! dev_Model d) as [m|] eqn:E; simpl; [by apply Hf|done].
Qed.

Lemma attribute_filed models byModel entry : filed byModel -> filed (attribute models byModel entry).
Proof.
  destruct entry as [uuid a]. unfold attribute. intros Hf.
  destruct (byModel !! default "" (models !! uuid)) as [m|] eqn:E; [|done].
  apply filed_insert; [done|]. simpl. by apply Hf.
Qed.

Lemma capacity_loop_filed {W} `{InnerCluster W} nodes st st' (w : W) :
  filed st.1 -> capacity_loop nodes st w = Ok st' -> filed st'.1.
Proof.
  revert st. induction nodes as [|name nodes IH]; intros st Hf; simpl; [by intros [= <-]|].
  destruct (get_node name w) as [node|e]; [|destruct (IsNotFound e); [by apply IH|done]].
  destruct (ParseNodeRegistration _) as [[devices []]|]; simpl; [|by apply IH|done].
  assert (filed (foldl add_device st (HealthyDevices devices)).1) as Ha.
  { clear IH. revert st Hf. induction (HealthyDevices devices); simpl; auto using add_device_filed. }
  destruct (foldl add_device st _) as [byModel out]. simpl in Ha.
  destruct (nodeAllocations name w) as [[alloc byUUID]|]; simpl; [|done].
  apply IH. simpl. revert Ha. generalize byModel. clear.
  induction (map_to_list byUUID); simpl; auto using attribute_filed.
Qed.

Lemma sort_models_rows byModel :
  filed byModel ->
  Sorted model_le (sort_models byModel) /\ NoDup (map m_Model (sort_models byModel)).
Proof.
  intros Hf. unfold sort_models. split.
  - apply Sorted_merge_sort. intros a b. unfold model_le. apply (total String.le).
  - assert (map m_Model (merge_sort model_le (map_to_list byModel).*2) ≡ₚ (map_to_list byModel).*1) as ->.
    { etransitivity; [apply Permutation_map, merge_sort_Permutation|].
      assert (forall l, (forall k m, (k, m) ∈ l -> byModel !! k = Some m) -> map m_Model l.*2 = l.*1) as Hl.
      { induction l as [|[k m] l IH]; intros Hl; simpl; [done|].
        rewrite (Hf k m) by (apply Hl; left). f_equal. apply IH. intros ? ? ?. apply Hl. by right. }
      rewrite Hl; [done|]. intros k m. apply elem_of_map_to_list. }
    apply NoDup_fst_map_to_list.
Qed.

(** ** Theorems *)

(** C30. In device-plugin mode a cell reads as holding nothing exactly if every live
    pod on its node allocates nothing and binds nothing by its annotations; a
    single pod with unreadable ones is an error, never emptiness. The DRA mode is
    excluded: there the reading is of slices and claims, no pod is looked at, and
    an unpublished node reads as empty while claims hold its devices, which is a
    finding (HamiDra.draAllocations_unpublished). *)
Theorem HAMi_Allocations_Empty_iff {W} `{InnerCluster W} `{DRACluster W} p node (w : W) pods a :
  hp_Mode p <> ModeDRA -> list_pods_on node w = Ok pods -> HAMi_Allocations p node w = Ok a ->
  (forall q, q ∈ live_pods node pods -> is_ok (pod_allocations q) = true)
  /\ (Empty a = true <-> forall q, q ∈ live_pods node pods -> ~ pod_holds q).
Proof.
  intros Hm Hp. unfold HAMi_Allocations, nodeAllocations.
  rewrite bool_decide_eq_false_2, Hp by done.
  destruct (hold_pods node pods _) as [[a' m]|] eqn:E; simpl; [|done]. intros [= <-].
  apply hold_pods_spec in E as (_ & Hok & Hz & Hi); [|done]. simpl in *. split; [done|].
  rewrite Empty_spec. split; [intros [Hc _]; by apply Hz|].
  intros Hn. assert (al_Consumers a' = 0) as Hc by (by apply Hz). split; [done|]. rewrite Hi; done.
Qed.

(** The published capacity is consistent: one row per model, sorted, and the
    pool's device, memory and compute totals are the sums of the rows (in the
    fields' width); the pool is homogeneous exactly with at most one row. *)
Theorem HAMi_Capacity_rows {W} `{InnerCluster W} `{DRACluster W} p nodes (w : W) c :
  hp_Mode p <> ModeDRA -> HAMi_Capacity p nodes w = Ok c ->
  Sorted model_le (cap_ByModel c) /\ NoDup (map m_Model (cap_ByModel c))
  /\ cap_Devices c = sum_rows m_Devices (cap_ByModel c)
  /\ wrap64 (cap_MemoryTotalMiB c) = wrap64 (sum_rows m_MemoryTotalMiB (cap_ByModel c))
  /\ wrap64 (cap_ComputeTotal c) = wrap64 (sum_rows m_ComputeTotal (cap_ByModel c))
  /\ (cap_Homogeneous c = true <-> len (cap_ByModel c) <= 1).
Proof.
  intros Hm. unfold HAMi_Capacity. rewrite bool_decide_eq_false_2 by done.
  destruct (capacity_loop nodes _ w) as [[byModel out]|] eqn:E; simpl; [|done]. intros [= <-]. simpl.
  assert (forall a b, wrap64 (a + wrap64 b) = wrap64 (a + b)) as Hw
    by (intros; rewrite Z.add_comm, wrap64_add_l; f_equal; lia).
  assert (filed byModel) as Hf by (apply (capacity_loop_filed nodes _ _ w) in E; [done|by intros ? ? ?]).
  destruct (sort_models_rows byModel Hf) as [Hs Hn]. rewrite !sum_rows_sorted. split_and!; try done.
  - apply (capacity_loop_tracks id m_Devices cap_Devices (fun _ => 1)) in E; done.
  - apply (capacity_loop_tracks wrap64 m_MemoryTotalMiB cap_MemoryTotalMiB dev_MemoryMiB) in E; done.
  - apply (capacity_loop_tracks wrap64 m_ComputeTotal cap_ComputeTotal dev_CorePercent) in E; done.
  - rewrite Z.leb_le. unfold len, sort_models.
    rewrite merge_sort_Permutation, length_fmap, length_map_to_list. done.
Qed.

(** ** Witnesses *)

#[local] Instance mem_cluster_dra : DRACluster MemCluster := {
  inner_slices _ := Err NotFound; inner_claims _ := Err NotFound; get_device_class _ _ := Err NotFound
}.

(** One cell node with one GPU, and one workload holding part of it. *)
Definition ex_gpu_node : Node :=
  mkNode "inference-0" {[ "gpu" := "on" ]} {[ AnnotationNodeRegistration := ex_registration ]} [] false [].
Definition ex_gpu_pod : Pod :=
  mkPod "default" "serve" "inference-0" PodRunning
    {[ AnnotationDevicesAllocated := "GPU-e71afe85,NVIDIA,3000,30:;" ]} [] [].
Definition ex_gpu_world : MemCluster :=
  mkMemCluster {[ "inference-0" := ex_gpu_node ]} ∅ [ex_gpu_pod].
Definition ex_provider : HAMiProvider := NewHAMiProvider "" "".

Lemma HAMi_Allocations_Empty_iff_witness :
  exists a, HAMi_Allocations ex_provider "inference-0" ex_gpu_world = Ok a /\ Empty a = false.
Proof.
  eexists. split; [vm_compute; reflexivity|]. apply not_true_iff_false. intros E.
  refine (proj1 (proj2 (HAMi_Allocations_Empty_iff ex_provider "inference-0" ex_gpu_world [ex_gpu_pod] _
            _ _ _)) E ex_gpu_pod _ _).
  - discriminate.
  - vm_compute. reflexivity.
  - vm_compute. reflexivity.
  - assert (live_pods "inference-0" [ex_gpu_pod] = [ex_gpu_pod]) as -> by reflexivity. left.
  - exists [mkAllocation "GPU-e71afe85" "NVIDIA" 3000 30], []. split; [vm_compute; reflexivity|by left].
Defined.

Lemma HAMi_Capacity_rows_witness :
  exists c, HAMi_Capacity ex_provider ["inference-0"] ex_gpu_world = Ok c
       /\ cap_Devices c = 1 /\ cap_Devices c = sum_rows m_Devices (cap_ByModel c).
Proof.
  eexists. split; [vm_compute; reflexivity|]. split; [reflexivity|].
  apply (HAMi_Capacity_rows ex_provider ["inference-0"] ex_gpu_world); [discriminate|].
  vm_compute. reflexivity.
Defined.
