(* ===== verification/FakeProvider.v ===== *)
(** * The scripted provider (internal/capacity/fake.go)

    A provider whose answers are given and whose calls are recorded, and the
    sense in which it is a [Provider] like the two real ones. *)

From S2P Require Import Prelude GoStd Api KubeApi Provider.
Local Open Scope Z_scope.
Local Open Scope go_scope.

(** A Go pair of a result and an error: both fields of the script. *)
Record FakeProvider := mkFakeProvider {
  fk_ProviderName : string;
  fk_HealthResult : Health;
  fk_HealthErr : option ProviderError;
  fk_DevicesByNode : gmap string int;
  fk_DevicesErr : option ProviderError;
  fk_CapacityResult : Capacity;
  fk_CapacityErr : option ProviderError;
  fk_AllocationsByNode : gmap string Allocations;
  fk_AllocationsErr : option ProviderError;
  fk_DemandResult : Demand;
  fk_DemandErr : option ProviderError;
  fk_Calls : list string
}.

Definition NewFakeProvider : FakeProvider :=
  mkFakeProvider "Fake" (mkHealth true "FakeDetected" "") None ∅ None zeroCapacity None ∅ None
    zeroDemand None [].

Definition record (name : string) (f : FakeProvider) : FakeProvider :=
  {| f with fk_Calls := fk_Calls f ++ [name] |}.

Definition fake_Name (f : FakeProvider) : string :=
  if fk_ProviderName f == "" then "Fake" else fk_ProviderName f.

(** What a caller sees of a result and an error. *)
Definition scripted {A} (a : A) (e : option ProviderError) : result ProviderError A :=
  match e with Some e => Err e | None => Ok a end.

Definition fake_Health (nodes : list string) (f : FakeProvider) : result ProviderError Health * FakeProvider :=
  let f := record "Health" f in (scripted (fk_HealthResult f) (fk_HealthErr f), f).

Definition fake_Devices (node : string) (f : FakeProvider) : result ProviderError int * FakeProvider :=
  let f := record "Devices" f in
  (match fk_DevicesErr f with
   | Some e => Err e
   | None => Ok (default 0 (fk_DevicesByNode f !! node))
   end, f).

Definition fake_Capacity (nodes : list string) (f : FakeProvider) : result ProviderError Capacity * FakeProvider :=
  let f := record "Capacity" f in (scripted (fk_CapacityResult f) (fk_CapacityErr f), f).

Definition fake_Allocations (node : string) (f : FakeProvider)
    : result ProviderError Allocations * FakeProvider :=
  let f := record "Allocations" f in
  (match fk_AllocationsErr f with
   | Some e => Err e
   | None => Ok (default zeroAllocations (fk_AllocationsByNode f !! node))
   end, f).

Definition fake_PendingDemand (ref : option Device) (f : FakeProvider)
    : result ProviderError Demand * FakeProvider :=
  let f := record "PendingDemand" f in (scripted (fk_DemandResult f) (fk_DemandErr f), f).

(** The answers at one moment, as the loop sees them. *)
Definition fake_provider (f : FakeProvider) : Provider :=
  mkProvider (fake_Name f) (fun n => (fake_Health n f).1) (fun n => (fake_Devices n f).1)
    (fun n => (fake_Capacity n f).1) (fun n => (fake_Allocations n f).1)
    (fun r => (fake_PendingDemand r f).1).

(** ** The calls do not change the answers *)

(** The scripts of two fakes agree. *)
Definition same_script (f g : FakeProvider) : Prop :=
  let f' := f in let g' := g in {| f' with fk_Calls := [] |} = {| g' with fk_Calls := [] |}.

#[export] Instance same_script_equiv : Equivalence same_script.
Proof. unfold same_script. split; [by intros f|by intros f g|]. intros f g h ??. congruence. Qed.

Lemma record_script name f : same_script (record name f) f.
Proof. done. Qed.

#[export] Instance fake_provider_proper : Proper (same_script ==> eq) fake_provider.
Proof. intros f g Hfg. destruct f, g. unfold same_script in Hfg. simpl in Hfg. by injection Hfg as -> -> -> -> -> -> -> -> -> -> ->. Qed.

(** One call of each kind. *)
Inductive FakeCall :=
| AskHealth (nodes : list string)
| AskDevices (node : string)
| AskCapacity (nodes : list string)
| AskAllocations (node : string)
| AskDemand (ref : option Device).

Definition call_name (c : FakeCall) : string :=
  match c with
  | AskHealth _ => "Health" | AskDevices _ => "Devices" | AskCapacity _ => "Capacity"
  | AskAllocations _ => "Allocations" | AskDemand _ => "PendingDemand"
  end.

Definition fake_call (c : FakeCall) (f : FakeProvider) : FakeProvider :=
  match c with
  | AskHealth n => (fake_Health n f).2
  | AskDevices n => (fake_Devices n f).2
  | AskCapacity n => (fake_Capacity n f).2
  | AskAllocations n => (fake_Allocations n f).2
  | AskDemand r => (fake_PendingDemand r f).2
  end.

Lemma fake_call_script c f : same_script (fake_call c f) f.
Proof. by destruct c. Qed.

(** Whatever was asked before, the scripted provider gives the same answers, and
    its record is the calls in their order: the destructive paths it is used to
    test see one provider throughout, and an empty record means nothing was
    asked. *)
Theorem fake_is_a_provider calls f :
  let f' := foldl (fun f c => fake_call c f) f calls in
  fake_provider f' = fake_provider f /\ fk_Calls f' = fk_Calls f ++ map call_name calls.
Proof.
  revert f. induction calls as [|c calls IH]; intros f; simpl; [by rewrite app_nil_r|].
  destruct (IH (fake_call c f)) as [IHp IHc]. split.
  - rewrite IHp. by rewrite (fake_call_script c f).
  - rewrite IHc. by destruct c; simpl; rewrite <- app_assoc.
Qed.

(** An unscripted node is empty, so a drain gated on the new fake opens. *)
Lemma new_fake_empty node :
  prov_Allocations (fake_provider NewFakeProvider) node = Ok zeroAllocations
  /\ prov_Devices (fake_provider NewFakeProvider) node = Ok 0 /\ Empty zeroAllocations = true.
Proof. done. Qed.
