(* ===== verification/Bootstrap.v ===== *)
(** * Rendering a cell's cloud-init (internal/bootstrap/render.go)

    [Render] substitutes a closed set of tokens into the user's template; any
    other token is an error. *)

From S2P Require Import Prelude GoStd Api.
Local Open Scope Z_scope.
Local Open Scope go_scope.

Definition KeyCellName : string := "cellName".
Definition KeyPoolName : string := "poolName".
Definition KeyNodeLabels : string := "nodeLabels".
Definition KeyNodeIPInterface : string := "nodeIPInterface".
Definition KeyExpectedGPUs : string := "expectedGPUs".
Definition SecretKey : string := "user-data".
Definition CAPISecretKey : string := "value".

Record Values := mkValues {
  v_CellName : string;
  v_PoolName : string;
  v_NodeLabels : string;
  v_NodeIPInterface : string;
  v_ExpectedGPUs : int
}.

(** ** The token expression

    Two opening braces, spaces, a letter and then letters and digits (the name
    it captures), spaces, two closing braces. The classes are disjoint, so the
    greedy match is the only one. *)

Definition re_space (a : ascii) : bool :=
  let c := nat_of_ascii a in
  (c =? 9)%nat || (c =? 10)%nat || (c =? 12)%nat || (c =? 13)%nat || (c =? 32)%nat.
Definition re_letter (a : ascii) : bool :=
  let c := Z.of_nat (nat_of_ascii a) in ((65 <=? c) && (c <=? 90)) || ((97 <=? c) && (c <=? 122)).
Definition re_alnum (a : ascii) : bool := re_letter a || is_digit a.

(** The longest prefix in a class, and the rest. *)
Fixpoint span (p : ascii -> bool) (s : string) : string * string :=
  match s with
  | String a s' => if p a then let '(x, r) := span p s' in (String a x, r) else ("", s)
  | EmptyString => ("", "")
  end.

(** A match at the head: the name it captures and what follows it. *)
Definition match_token (s : string) : option (string * string) :=
  match strip "{{" s with
  | None => None
  | Some s1 =>
      let s2 := (span re_space s1).2 in
      match s2 with
      | String a _ =>
          if re_letter a then
            let '(name, s3) := span re_alnum s2 in
            match strip "}}" (span re_space s3).2 with
            | Some rest => Some (name, rest)
            | None => None
            end
          else None
      | EmptyString => None
      end
  end.

Fixpoint prefix_len (n : nat) (s : string) : string :=
  match n, s with S n', String a s' => String a (prefix_len n' s') | _, _ => "" end.

(** ReplaceAllStringFunc with the closure of [Render]: the text, and the unknown
    names in order. Every turn consumes a byte. *)
Fixpoint replace_loop (subs : gmap string string) (fuel : nat) (s : string) : string * list string :=
  match fuel with
  | O => (s, [])
  | S f =>
      match s with
      | EmptyString => ("", [])
      | String a s' =>
          match match_token s with
          | Some (name, rest) =>
              let '(out, unknown) := replace_loop subs f rest in
              match subs !! name with
              | Some val => (val +:+ out, unknown)
              | None => (prefix_len (String.length s - String.length rest) s +:+ out, name :: unknown)
              end
          | None => let '(out, unknown) := replace_loop subs f s' in (String a out, unknown)
          end
      end
  end.

Definition substitutions (v : Values) : gmap string string :=
  {[ KeyCellName := v_CellName v; KeyPoolName := v_PoolName v; KeyNodeLabels := v_NodeLabels v;
     KeyNodeIPInterface := v_NodeIPInterface v; KeyExpectedGPUs := FormatInt (v_ExpectedGPUs v) ]}.

Definition SupportedKeys : list string :=
  [KeyCellName; KeyExpectedGPUs; KeyNodeIPInterface; KeyNodeLabels; KeyPoolName].

Fixpoint dedupe_loop (seen : gset string) (l : list string) : list string :=
  match l with
  | [] => []
  | s :: rest => if bool_decide (s ∈ seen) then dedupe_loop seen rest
                 else s :: dedupe_loop ({[ s ]} ∪ seen) rest
  end.
Definition dedupe (l : list string) : list string := dedupe_loop ∅ l.

Definition Render (template : string) (v : Values) : result string string :=
  if template == "" then Err "bootstrap template is empty"
  else
    let '(out, unknown) := replace_loop (substitutions v) (String.length template) template in
    if 0 <? len unknown
    then Err ("unknown substitution(s) " +:+ Join (dedupe (sort_strings unknown)) ", "
              +:+ " in the bootstrap template; supported: " +:+ Join SupportedKeys ", ")
    else Ok out.

(** The --node-labels value: the pairs sorted by key. *)
Definition NodeLabelArg (labels : gmap string string) : string :=
  Join (map (fun k => k +:+ "=" +:+ default "" (labels !! k)) (sort_strings (map_to_list labels).*1)) ",".

(** ** Templates as segments

    A template is plain text, without an opening brace, and tokens. *)
Inductive segment :=
| Text (s : string)
| Token (before name after : string).

Definition print_segment (x : segment) : string :=
  match x with
  | Text s => s
  | Token b n a => "{{" +:+ b +:+ n +:+ a +:+ "}}"
  end.
Definition print_segments (l : list segment) : string := foldr (fun x s => print_segment x +:+ s) "" l.

Fixpoint all_chars (p : ascii -> bool) (s : string) : bool :=
  match s with String a s' => p a && all_chars p s' | EmptyString => true end.

Definition segment_ok (x : segment) : Prop :=
  match x with
  | Text s => lacks "{" s = true
  | Token b n a => all_chars re_space b = true /\ all_chars re_space a = true
                   /\ all_chars re_alnum n = true
                   /\ match n with String c _ => re_letter c = true | EmptyString => False end
  end.

(** What rendering makes of a segment; [None] for an unknown token. *)
Definition subst_segment (v : Values) (x : segment) : option string :=
  match x with Text s => Some s | Token _ n _ => substitutions v !! n end.

(** ** Lemmas *)

Lemma span_all p x r :
  all_chars p x = true -> match r with String a _ => p a = false | EmptyString => True end ->
  span p (x +:+ r) = (x, r).
Proof.
  induction x as [|c x IH]; simpl; intros Hx Hr.
  - rewrite ?app_nil_s. destruct r as [|a r]; simpl; [done|]. by rewrite Hr.
  - guards. rewrite ?app_cons_s. simpl. rewrite H. by rewrite IH.
Qed.

Lemma letter_not_space c : re_letter c = true -> re_space c = false.
Proof.
  unfold re_letter, re_space. intros H. apply not_true_iff_false. intros Hs.
  rewrite !orb_true_iff, !Nat.eqb_eq in Hs. rewrite orb_true_iff, !andb_true_iff, !Z.leb_le in H. lia.
Qed.

Lemma space_not_alnum c : re_space c = true -> re_alnum c = false.
Proof.
  unfold re_alnum, re_letter, is_digit, re_space. intros Hs. rewrite !orb_true_iff, !Nat.eqb_eq in Hs.
  apply not_true_iff_false. intros Ha. rewrite !orb_true_iff, !andb_true_iff, !Z.leb_le in Ha. lia.
Qed.

Lemma match_token_print b n a rest :
  segment_ok (Token b n a) -> match_token (print_segment (Token b n a) +:+ rest) = Some (n, rest).
Proof.
  intros (Hb & Ha & Hn & Hhd). unfold match_token, print_segment.
  rewrite !app_assoc_s.
  assert (strip "{{" ("{{" +:+ b +:+ n +:+ a +:+ "}}" +:+ rest) = Some (b +:+ n +:+ a +:+ "}}" +:+ rest)) as ->
    by (by apply strip_Some).
  destruct n as [|c n]; [done|].
  rewrite (span_all re_space b) by (done || by apply letter_not_space).
  cbn [snd]. rewrite ?app_cons_s. simpl in Hn. guards. rewrite Hhd.
  rewrite <- app_cons_s, (span_all re_alnum (String c n)).
  - rewrite (span_all re_space a) by done. cbn [snd].
    by rewrite (proj2 (strip_Some "}}" (String "}" (String "}" ("" +:+ rest))) rest) eq_refl).
  - simpl. by rewrite H, H0.
  - destruct a as [|x a]; [done|]. rewrite ?app_cons_s. simpl in Ha. guards. by apply space_not_alnum.
Qed.

#[local] Arguments strip : simpl never.

Lemma match_token_len s n r : match_token s = Some (n, r) -> (String.length r < String.length s)%nat.
Proof.
  assert (forall p x, (String.length (span p x).2 <= String.length x)%nat) as Hs.
  { intros p. induction x as [|c x IH]; simpl; [done|]. destruct (p c); [|done].
    destruct (span p x). simpl in *. lia. }
  unfold match_token. destruct (strip "{{" s) as [s1|] eqn:E1; [|done].
  apply strip_Some in E1 as ->. rewrite length_app_s. simpl.
  pose proof (Hs re_space s1). destruct (span re_space s1).2 as [|c s2] eqn:E2; [done|].
  destruct (re_letter c); [|done].
  pose proof (Hs re_alnum (String c s2)). destruct (span re_alnum (String c s2)) as [name s3].
  pose proof (Hs re_space s3). destruct (strip "}}" _) as [rest|] eqn:E3; [|done].
  intros [= <- <-]. apply strip_Some in E3. rewrite E3, length_app_s in *. simpl in *. lia.
Qed.

(** The fuel decides nothing beyond the length of the text. *)
Lemma replace_loop_fuel subs f f' s :
  (String.length s <= f)%nat -> (String.length s <= f')%nat -> replace_loop subs f s = replace_loop subs f' s.
Proof.
  revert f' s. induction f as [|f IH]; intros [|f'] [|a s] Hf Hf'; simpl in Hf, Hf'; try lia; try done.
  simpl. destruct (match_token (String a s)) as [[n r]|] eqn:E.
  - apply match_token_len in E. simpl in E. by rewrite (IH f') by lia.
  - by rewrite (IH f') by lia.
Qed.

Lemma match_token_text c s : c <> "{"%char -> match_token (String c s) = None.
Proof.
  intros Hc. unfold match_token. destruct (strip "{{" (String c s)) eqn:E; [|done].
  apply strip_Some in E. by injection E as -> _.
Qed.

Lemma replace_text subs s f rest :
  lacks "{" s = true -> (String.length (s +:+ rest) <= f)%nat ->
  replace_loop subs f (s +:+ rest) =
  let r := replace_loop subs (String.length rest) rest in (s +:+ r.1, r.2).
Proof.
  revert f. induction s as [|c s IH]; intros f Hl Hf.
  - rewrite ?app_nil_s in *. rewrite (replace_loop_fuel subs f (String.length rest)) by done.
    by destruct (replace_loop _ _ _).
  - simpl in Hl. guards. rewrite ?app_cons_s in *. destruct f as [|f]; simpl in Hf; [lia|].
    cbn [replace_loop]. rewrite match_token_text by congruence.
    rewrite IH by (done || lia). simpl. by rewrite ?app_cons_s.
Qed.

Lemma replace_segments v l :
  Forall segment_ok l ->
  let r := replace_loop (substitutions v) (String.length (print_segments l)) (print_segments l) in
  (r.2 = [] <-> Forall (fun x => is_Some (subst_segment v x)) l)
  /\ (r.2 = [] -> Some r.1 = foldr (fun x acc => s ← subst_segment v x; t ← acc; Some (s +:+ t)) (Some "") l).
Proof.
  induction 1 as [|x l Hx Hl [IH1 IH2]]; [split; [split; [constructor|done]|done]|].
  simpl print_segments. destruct x as [s|b n a].
  - simpl print_segment. rewrite replace_text by done. simpl. rewrite Forall_cons.
    split; [rewrite IH1; split; [intros; split; [by eexists|done]|tauto]|].
    intros E. rewrite <- (IH2 E). done.
  - set (txt := print_segment (Token b n a) +:+ print_segments l).
    destruct (String.length txt) as [|f] eqn:Ef.
    { exfalso. unfold txt, print_segment in Ef. simpl in Ef. lia. }
    assert (match_token txt = Some (n, print_segments l)) as Hm by (by apply match_token_print).
    pose proof (match_token_len _ _ _ Hm) as Hlen.
    destruct txt as [|c txt'] eqn:Et; [done|]. cbn [replace_loop]. rewrite Hm.
    rewrite (replace_loop_fuel _ f (String.length (print_segments l))) by lia.
    destruct (replace_loop _ _ (print_segments l)) as [out unknown]. simpl in *.
    rewrite Forall_cons. simpl. destruct (substitutions v !! n) as [val|] eqn:Es; simpl.
    + split; [rewrite IH1; split; [intros; split; [by eexists|done]|tauto]|].
      intros E. rewrite <- (IH2 E). done.
    + split; [|done]. split; [done|]. intros [[? ?] _]. done.
Qed.

(** ** Theorems *)

(** Rendering a non-empty template succeeds exactly when every token of it is
    one of the supported ones, and then replaces each token by its value and
    nothing else. *)
Theorem Render_segments v l :
  Forall segment_ok l -> print_segments l <> "" ->
  match foldr (fun x acc => s ← subst_segment v x; t ← acc; Some (s +:+ t)) (Some "") l with
  | Some out => Render (print_segments l) v = Ok out
  | None => is_ok (Render (print_segments l) v) = false
  end.
Proof.
  intros Hl Hne. destruct (replace_segments v l Hl) as [H1 H2]. unfold Render.
  rewrite bool_decide_eq_false_2 by done.
  destruct (replace_loop _ _ (print_segments l)) as [out unknown]. simpl in *.
  destruct (foldr _ _ l) as [o|] eqn:E.
  - assert (unknown = []) as ->.
    { apply H1. clear -E. revert o E. induction l as [|x l IH]; intros o E; simpl in *; [constructor|].
      destruct (subst_segment v x) eqn:Es; simpl in E; [|done].
      destruct (foldr _ _ l) eqn:Ef; simpl in E; [|done]. constructor; [rewrite Es; by eexists|eauto]. }
    specialize (H2 eq_refl). simpl. congruence.
  - destruct (Z.ltb_spec 0 (len unknown)) as [|Hz]; [done|].
    assert (unknown = []) as Hu by (pose proof (len_nonneg unknown); apply len_zero; lia).
    specialize (H2 Hu). congruence.
Qed.

(** ** Witness *)

Definition ex_values : Values := mkValues "inference-0" "inference" "a=b" "eth0" 1.
Lemma Render_segments_witness :
  Render "hostname: {{ cellName }}, gpus {{expectedGPUs}}" ex_values = Ok "hostname: inference-0, gpus 1".
Proof.
  refine (Render_segments ex_values
            [Text "hostname: "; Token " " KeyCellName " "; Text ", gpus "; Token "" KeyExpectedGPUs ""] _ _).
  - repeat (apply List.Forall_cons; [vm_compute; auto|]). apply List.Forall_nil.
  - discriminate.
Defined.
