(* ===== verification/CellRow.v ===== *)
(** * The status row of a cell (internal/controller/controller.go)

    The pure parts of discoverCells: which previous row a guest continues, the
    observation made of it, the row a decision is folded into, and the rows
    carried forward for cells whose guest is gone. *)

From S2P Require Import Prelude GoStd Api Provider Workload Provisioner Fsm Helpers.
Local Open Scope Z_scope.
Local Open Scope go_scope.

(** The rows of the last status by name; a later row overwrites an earlier one. *)
Definition previous_rows (cells : list CellStatus) : gmap string CellStatus :=
  foldl (fun m c => <[cs_Name c := c]> m) ∅ cells.

(** A row of another incarnation lends only its name, index and failure count. *)
Definition continue_row (prev : CellStatus) (outer : OuterState) : CellStatus :=
  if (cs_GuestUID prev != "") && (o_UID outer != "") && (cs_GuestUID prev != o_UID outer)
  then {| zeroCellStatus with cs_Name := cs_Name prev; cs_Index := cs_Index prev;
          cs_FailureCount := cs_FailureCount prev |}
  else prev.

(** What the loop knows before it reads the workload cluster. The clock is read
    twice: [started] stands in for a row that has no transition yet. *)
Definition base_observation (pool : GPUCellPool) (prev : CellStatus) (outer : OuterState)
    (reachable : bool) (started now : Time) : Observation :=
  {| obs_Current := phaseOr (cs_Phase prev) CellPhasePending;
     obs_LastTransition := transitionOr (cs_LastTransitionTime prev) started;
     obs_Now := now;
     obs_Outer := outer;
     obs_WorkloadReachable := reachable;
     obs_Node := zeroNodeState;
     obs_StaleNode := false;
     obs_ProviderReady := false;
     obs_CapacityDevices := 0;
     obs_ExpectedDevices := expectedDevices pool;
     obs_BootstrapTimeout := durationOr (boot_ReadyTimeout (spec_Bootstrap (pool_Spec pool))) (15 * Minute);
     obs_CapacityTimeout := durationOr (cap_ReadyTimeout (spec_Capacity (pool_Spec pool))) (5 * Minute) |}.

(** The row starts a new phase, or has no transition yet. *)
Definition row_moved (prev : CellStatus) (dec : Decision) : bool :=
  (cs_Phase prev != dec_Phase dec)
  || match cs_LastTransitionTime prev with None => true | Some _ => false end.

(** [cellStatus]: a decision folded into the row. [now] is only used when the row
    moved. *)
Definition cellStatus (prev : CellStatus) (name : string) (idx : int32) (outer : OuterState)
    (obs : Observation) (dec : Decision) (now : Time) : CellStatus :=
  let keeps := (dec_Phase dec == cs_Phase prev) && (dec_Reason dec == "") && (dec_Message dec == "") in
  let moved := row_moved prev dec in
  {| cs_Name := name;
     cs_Index := idx;
     cs_Phase := dec_Phase dec;
     cs_GuestUID := o_UID outer;
     cs_HostNode := o_HostNode outer;
     cs_Devices := o_GPUDevices outer;
     cs_NodeName := if ns_Exists (obs_Node obs) then name else "";
     cs_NodeReady := ns_Ready (obs_Node obs);
     cs_CapacityDevices := wrap32 (obs_CapacityDevices obs);
     cs_Message := if keeps then cs_Message prev else dec_Message dec;
     cs_Reason := if keeps then cs_Reason prev else dec_Reason dec;
     cs_FailureCount :=
       if moved && (dec_Phase dec == CellPhaseFailed) && (cs_Phase prev != CellPhaseFailed)
       then wrap32 (cs_FailureCount prev + 1) else cs_FailureCount prev;
     cs_ReadyOnce := cs_ReadyOnce prev || (dec_Phase dec == CellPhaseReady);
     cs_TemplateHash := o_TemplateHash outer;
     cs_LastTransitionTime := if moved then Some now else cs_LastTransitionTime prev |}.

Lemma cellStatus_still prev name idx outer obs dec t t' :
  row_moved prev dec = false ->
  cellStatus prev name idx outer obs dec t = cellStatus prev name idx outer obs dec t'.
Proof. intros Hm. unfold cellStatus. by rewrite Hm. Qed.

(** The row kept for a failed cell whose guest is gone. *)
Definition tombstone (prev : CellStatus) : CellStatus :=
  {| prev with cs_GuestUID := ""; cs_NodeName := ""; cs_Devices := []; cs_CapacityDevices := 0 |}.

Definition keepTombstone (pool : GPUCellPool) (prev : CellStatus) : bool :=
  (cs_Phase prev == CellPhaseFailed) && (cs_Index prev <? spec_Replicas (pool_Spec pool)).

(** The tombstones of the previous rows that have no live one. Go ranges over the
    map in any order; the result is sorted afterwards. *)
Definition tombstones (pool : GPUCellPool) (previous : gmap string CellStatus) (live : gset string)
    : list CellStatus :=
  omap (fun '(name, prev) =>
          if bool_decide (name ∈ live) then None
          else if keepTombstone pool prev then Some (tombstone prev) else None)
    (map_to_list previous).

(** The order sort.Slice gives the rows. *)
Definition index_le (a b : CellStatus) : Prop := cs_Index a <= cs_Index b.
#[export] Instance index_le_dec : RelDecision index_le.
Proof. intros a b. unfold index_le. apply _. Defined.
Definition sort_rows (rows : list CellStatus) : list CellStatus := merge_sort index_le rows.

(** [failureEventReason]. *)
Definition failureEventReason (reason : string) : string :=
  if reason == "" then ReasonCellProvisionTimeout else reason.

(** [markDraining]: every row of the name. *)
Definition markDraining (now : Time) (name : string) (cells : list CellStatus) : list CellStatus :=
  map (fun c => if cs_Name c == name
                then {| c with cs_Phase := CellPhaseDraining; cs_LastTransitionTime := Some now |}
                else c) cells.

(** ** The row of a cell over time

    One observation of a cell: what both clusters show, and the clock's readings:
    before the observation, for it, and for the row. A run of observations folds
    each decision into the row, as consecutive reconciles do. *)
Record Sight := mkSight {
  sg_outer : OuterState;
  sg_obs : Observation;
  sg_started : Time;
  sg_now : Time;
  sg_moved : Time
}.

(** The observation of the sight, with the row's phase and transition. *)
Definition sight_observation (prev : CellStatus) (s : Sight) : Observation :=
  let obs := sg_obs s in
  {| obs with obs_Current := phaseOr (cs_Phase prev) CellPhasePending;
     obs_LastTransition := transitionOr (cs_LastTransitionTime prev) (sg_started s);
     obs_Now := sg_now s; obs_Outer := sg_outer s |}.

Definition step_row (name : string) (idx : int32) (prev : CellStatus) (s : Sight) : CellStatus :=
  let prev := continue_row prev (sg_outer s) in
  let obs := sight_observation prev s in
  cellStatus prev name idx (sg_outer s) obs (AdvanceCell obs) (sg_moved s).

Definition run_row (name : string) (idx : int32) (prev : CellStatus) (sights : list Sight) : CellStatus :=
  foldl (step_row name idx) prev sights.

(** ** Lemmas *)

(** The sight is of the incarnation the row is about. *)
Definition same_incarnation (prev : CellStatus) (s : Sight) : Prop :=
  cs_GuestUID prev = "" \/ o_UID (sg_outer s) = "" \/ cs_GuestUID prev = o_UID (sg_outer s).

Lemma continue_row_same prev s : same_incarnation prev s -> continue_row prev (sg_outer s) = prev.
Proof.
  unfold continue_row. intros [E|[E|E]]; rewrite E; repeat case_bool_decide; simpl; try done; congruence.
Qed.

(** Sights of one guest. *)
Definition of_guest (uid : string) (s : Sight) : Prop := o_UID (sg_outer s) = uid.

Lemma step_row_guest name idx prev s : cs_GuestUID (step_row name idx prev s) = o_UID (sg_outer s).
Proof. done. Qed.

Lemma step_row_failed name idx prev s :
  cs_Phase prev = CellPhaseFailed -> cs_GuestUID prev = o_UID (sg_outer s) ->
  o_Failed (sg_outer s) = false -> cs_LastTransitionTime prev <> None ->
  let row := step_row name idx prev s in
  cs_Phase row = CellPhaseFailed /\ cs_FailureCount row = cs_FailureCount prev
  /\ cs_LastTransitionTime row = cs_LastTransitionTime prev
  /\ (if obs_WorkloadReachable (sg_obs s)
      then cs_Reason row = cs_Reason prev /\ cs_Message row = cs_Message prev
      else cs_Reason row = ReasonUnreachable).
Proof.
  intros Hp Hu Hf Ht row. unfold row, step_row.
  rewrite continue_row_same by (right; right; done).
  unfold AdvanceCell. simpl. unfold phaseOr. rewrite Hp, Hf.
  rewrite !(bool_decide_eq_false_2 (CellPhaseFailed = _)) by done. simpl.
  destruct (obs_WorkloadReachable (sg_obs s)); simpl; unfold cellStatus, row_moved; simpl; rewrite ?Hp; simpl;
    destruct (cs_LastTransitionTime prev); done.
Qed.

Lemma run_row_failed name idx prev sights :
  cs_Phase prev = CellPhaseFailed -> cs_LastTransitionTime prev <> None ->
  Forall (fun s => o_UID (sg_outer s) = cs_GuestUID prev /\ o_Failed (sg_outer s) = false
                /\ obs_WorkloadReachable (sg_obs s) = true) sights ->
  let row := run_row name idx prev sights in
  cs_Phase row = CellPhaseFailed /\ cs_FailureCount row = cs_FailureCount prev
  /\ cs_LastTransitionTime row = cs_LastTransitionTime prev
  /\ cs_Reason row = cs_Reason prev /\ cs_Message row = cs_Message prev.
Proof.
  unfold run_row. intros Hp Ht Hall. revert prev Hp Ht Hall.
  induction sights as [|s sights IH]; intros prev Hp Ht Hall; [done|].
  apply Forall_cons in Hall as [(Hu & Hf & Hr) Hall].
  destruct (step_row_failed name idx prev s Hp (eq_sym Hu) Hf Ht) as (H1 & H2 & H3 & H4).
  rewrite Hr in H4. destruct H4 as [H4 H5]. cbn [foldl].
  destruct (IH (step_row name idx prev s)) as (I1 & I2 & I3 & I4 & I5).
  - done.
  - by rewrite H3.
  - by rewrite step_row_guest, Hu.
  - split_and!; [done|by rewrite I2|by rewrite I3|by rewrite I4|by rewrite I5].
Qed.

(** The failures a run enters. *)
Fixpoint entered_failed (name : string) (idx : int32) (prev : CellStatus) (sights : list Sight) : Z :=
  match sights with
  | [] => 0
  | s :: rest =>
      let prev' := continue_row prev (sg_outer s) in
      let row := step_row name idx prev s in
      (if (cs_Phase row == CellPhaseFailed) && (cs_Phase prev' != CellPhaseFailed) then 1 else 0)
      + entered_failed name idx row rest
  end.

Lemma continue_row_failures prev o : cs_FailureCount (continue_row prev o) = cs_FailureCount prev.
Proof. unfold continue_row. by destruct (_ && _). Qed.

Lemma step_row_failures name idx prev s :
  int32_ok (cs_FailureCount prev) ->
  cs_FailureCount (step_row name idx prev s)
  = wrap32 (cs_FailureCount prev
            + if (cs_Phase (step_row name idx prev s) == CellPhaseFailed)
                 && (cs_Phase (continue_row prev (sg_outer s)) != CellPhaseFailed) then 1 else 0).
Proof.
  intros Hok. unfold step_row. set (prev' := continue_row prev (sg_outer s)).
  assert (cs_FailureCount prev' = cs_FailureCount prev) as E by apply continue_row_failures.
  unfold cellStatus, row_moved. simpl. rewrite E.
  set (ph := dec_Phase (AdvanceCell _)).
  destruct (bool_decide_reflect (ph = CellPhaseFailed)) as [->|]; simpl.
  - destruct (bool_decide_reflect (cs_Phase prev' = CellPhaseFailed)) as [E2|E2]; simpl.
    + rewrite andb_false_r, Z.add_0_r, wrap32_id by done. done.
    + done.
  - rewrite andb_false_r. simpl. by rewrite Z.add_0_r, wrap32_id.
Qed.

(** ** A stuck cell *)

(** The evidence of the sight is that of phase [p], with budget [b], and nothing
    but time decides. *)
Record stuck_sight (uid : string) (p : CellPhase) (b : Duration) (s : Sight) : Prop := {
  sk_uid : o_UID (sg_outer s) = uid;
  sk_outer : o_Failed (sg_outer s) = false;
  sk_reach : obs_WorkloadReachable (sg_obs s) = true;
  sk_stale : obs_StaleNode (sg_obs s) = false;
  sk_supports : forall prev, Supports (sight_observation prev s) p;
  sk_budget : forall prev, phase_budget (sight_observation prev s) p = Some b
}.

(** The row waits in [p] since at most [t1], or has failed. *)
Definition waiting (uid : string) (p : CellPhase) (t1 : Time) (row : CellStatus) : Prop :=
  cs_GuestUID row = uid /\
  (cs_Phase row = CellPhaseFailed
   \/ (cs_Phase row = p /\ exists t, cs_LastTransitionTime row = Some t /\ t <> 0 /\ t <= t1)).

Lemma budget_waits p obs b :
  phase_budget obs p = Some b ->
  p <> CellPhaseFailed /\ p <> CellPhaseNone /\ ~ torn_down p.
Proof. unfold torn_down. destruct p; try done; intros _; naive_solver. Qed.

Lemma stuck_decision uid p b prev s :
  stuck_sight uid p b s -> 0 < b -> ~ torn_down (cs_Phase prev) ->
  let obs := sight_observation prev s in
  if bool_decide (phaseOr (cs_Phase prev) CellPhasePending = CellPhaseFailed)
  then dec_Phase (AdvanceCell obs) = CellPhaseFailed
  else (Overdue obs p /\ dec_Phase (AdvanceCell obs) = CellPhaseFailed)
       \/ (~ Overdue obs p /\ dec_Phase (AdvanceCell obs) = p).
Proof.
  intros [Hu Ho Hr Hs Hsup Hbud] Hb Ht obs.
  assert (obs_Current obs = phaseOr (cs_Phase prev) CellPhasePending) as Hc by done.
  assert (~ torn_down (obs_Current obs)) as Ht'.
  { rewrite Hc. unfold phaseOr. case_bool_decide; [|done]. unfold torn_down. naive_solver. }
  case_bool_decide as Ef.
  - apply (AdvanceCell_phase _ _ false). by apply adv_stays_failed.
  - assert (Overdue obs p \/ ~ Overdue obs p) as [Hov|Hov].
    { destruct (expireOr_view obs p b "" "" (Hbud prev)) as [[? _]|[? _]]; auto. }
    + left. split; [done|]. apply (AdvanceCell_phase _ _ false). eapply adv_overdue; eauto.
    + right. split; [done|]. eapply AdvanceCell_phase. apply adv_supported; eauto.
Qed.

Lemma step_stuck name idx uid p b t1 prev s :
  stuck_sight uid p b s -> 0 < b < MaxInt64 -> waiting uid p t1 prev ->
  waiting uid p t1 (step_row name idx prev s)
  /\ (b < sg_now s - t1 -> cs_Phase (step_row name idx prev s) = CellPhaseFailed).
Proof.
  intros Hk [Hb Hmax] [Hu Hw]. destruct (budget_waits p _ b (sk_budget _ _ _ _ Hk prev)) as (Hpf & Hpn & Hpt).
  assert (continue_row prev (sg_outer s) = prev) as Ec.
  { apply continue_row_same. right. right. by rewrite (sk_uid _ _ _ _ Hk). }
  unfold waiting, step_row. rewrite Ec. cbn [cs_GuestUID cs_Phase cellStatus cs_LastTransitionTime]; unfold row_moved.
  assert (~ torn_down (cs_Phase prev)) as Ht.
  { destruct Hw as [->|[-> _]]; [unfold torn_down; naive_solver|done]. }
  pose proof (stuck_decision uid p b prev s Hk Hb Ht) as Hd. cbv zeta in Hd.
  destruct Hw as [Hf|(Hp & t & Et & Hz & Hle)].
  - assert (phaseOr (cs_Phase prev) CellPhasePending = CellPhaseFailed) as E by (by rewrite Hf).
    rewrite E in Hd.
    rewrite bool_decide_eq_true_2 in Hd by done. split; [|done].
    split; [apply (sk_uid _ _ _ _ Hk)|by left].
  - assert (phaseOr (cs_Phase prev) CellPhasePending = p) as Eph
      by (unfold phaseOr; rewrite Hp; by rewrite bool_decide_eq_false_2).
    rewrite Eph, bool_decide_eq_false_2 in Hd by done. split.
    + split; [apply (sk_uid _ _ _ _ Hk)|]. destruct Hd as [[_ ->]|[_ ->]]; [by left|right].
      split; [done|]. exists t. rewrite Hp, Et. rewrite bool_decide_eq_true_2 by done. done.
    + intros Hlt.
      destruct Hd as [[_ ->]|[Hno _]]; [done|]. exfalso. apply Hno.
      split; [done|]. split.
      { intros [_ Hs]. simpl in Hs. by rewrite (sk_stale _ _ _ _ Hk) in Hs. }
      exists b. split; [apply (sk_budget _ _ _ _ Hk)|]. split; [done|].
      simpl. unfold transitionOr. rewrite Et. simpl. split; [done|].
      apply Sub_gt; [unfold MinInt64; lia|lia].
Qed.

Lemma first_stuck name idx uid p b prev s :
  stuck_sight uid p b s -> 0 < b -> sg_moved s <> 0 ->
  ~ torn_down (cs_Phase prev) -> cs_Phase prev <> CellPhaseFailed -> same_incarnation prev s ->
  (forall t, cs_LastTransitionTime prev = Some t -> t <> 0 /\ t <= sg_moved s) ->
  waiting uid p (sg_moved s) (step_row name idx prev s).
Proof.
  intros Hk Hb Hn Ht Hf Hi Htt. unfold waiting, step_row. rewrite continue_row_same by done.
  cbn [cs_GuestUID cs_Phase cellStatus cs_LastTransitionTime]; unfold row_moved.
  split; [apply (sk_uid _ _ _ _ Hk)|].
  assert (phaseOr (cs_Phase prev) CellPhasePending <> CellPhaseFailed) as Hph
    by (unfold phaseOr; by case_bool_decide).
  pose proof (stuck_decision uid p b prev s Hk Hb Ht) as Hd. cbv zeta in Hd.
  rewrite (bool_decide_eq_false_2 _ Hph) in Hd.
  destruct Hd as [[_ ->]|[_ ->]]; [by left|right]. split; [done|].
  destruct (cs_LastTransitionTime prev) as [t|]; [|exists (sg_moved s); rewrite orb_true_r; done].
  destruct (bool_decide_reflect (cs_Phase prev = p)) as [E|E]; simpl.
  - exists t. by destruct (Htt t eq_refl).
  - by exists (sg_moved s).
Qed.

Lemma run_stuck name idx uid p b t1 prev sights :
  Forall (stuck_sight uid p b) sights -> 0 < b < MaxInt64 -> waiting uid p t1 prev ->
  waiting uid p t1 (run_row name idx prev sights).
Proof.
  unfold run_row. intros Hall Hb. revert prev. induction Hall as [|s sights Hs Hall IH]; intros prev Hw; [done|].
  apply IH. by apply (step_stuck name idx uid p b t1 prev s).
Qed.

(** ** Theorems *)

(** C16. No silent permanent pending. Take the row of a live cell, one that is not Failed and not
    being drained or deleted, of the same guest as the sights that follow, and with no
    transition in their future. If the evidence stays that of one timed phase, whatever live
    phase the row was in before, the cell is Failed by the first observation made more than
    the phase's budget after the first one. *)
Theorem stuck_cell_fails name idx uid p b prev s1 sights s2 :
  stuck_sight uid p b s1 -> Forall (stuck_sight uid p b) sights -> stuck_sight uid p b s2 ->
  0 < b < MaxInt64 -> sg_moved s1 <> 0 -> b < sg_now s2 - sg_moved s1 ->
  ~ torn_down (cs_Phase prev) -> cs_Phase prev <> CellPhaseFailed -> same_incarnation prev s1 ->
  (forall t, cs_LastTransitionTime prev = Some t -> t <> 0 /\ t <= sg_moved s1) ->
  cs_Phase (run_row name idx prev (s1 :: sights ++ [s2])) = CellPhaseFailed.
Proof.
  intros H1 Hs H2 Hb Hn Hlate Ht Hf Hi Htt. unfold run_row. cbn [foldl].
  rewrite foldl_app. cbn [foldl].
  pose proof (first_stuck name idx uid p b prev s1 H1 (proj1 Hb) Hn Ht Hf Hi Htt) as Hw.
  pose proof (run_stuck name idx uid p b _ _ sights Hs Hb Hw) as Hw'.
  by apply (step_stuck name idx uid p b _ _ s2 H2 Hb Hw').
Qed.

(** A failed cell keeps its diagnosis: while the workload cluster answers and
    the outer layer reports nothing new, the row stays Failed with the same
    reason, message, failure count and time, however often it is reconciled. *)
Theorem failed_row_keeps_diagnosis name idx prev sights :
  cs_Phase prev = CellPhaseFailed -> cs_LastTransitionTime prev <> None ->
  Forall (fun s => o_UID (sg_outer s) = cs_GuestUID prev /\ o_Failed (sg_outer s) = false
                /\ obs_WorkloadReachable (sg_obs s) = true) sights ->
  let row := run_row name idx prev sights in
  cs_Phase row = CellPhaseFailed /\ cs_FailureCount row = cs_FailureCount prev
  /\ cs_LastTransitionTime row = cs_LastTransitionTime prev
  /\ cs_Reason row = cs_Reason prev /\ cs_Message row = cs_Message prev.
Proof. apply run_row_failed. Qed.

(** One reconcile during an outage of the workload cluster replaces the reason
    of a failed cell by Unreachable, and it is not restored afterwards: the
    evidence the suspect-credential guard counts is gone. *)
Theorem outage_erases_diagnosis name idx prev s sights :
  cs_Phase prev = CellPhaseFailed -> cs_LastTransitionTime prev <> None ->
  o_UID (sg_outer s) = cs_GuestUID prev -> o_Failed (sg_outer s) = false ->
  obs_WorkloadReachable (sg_obs s) = false ->
  Forall (fun s => o_UID (sg_outer s) = cs_GuestUID prev /\ o_Failed (sg_outer s) = false
                /\ obs_WorkloadReachable (sg_obs s) = true) sights ->
  let row := run_row name idx prev (s :: sights) in
  cs_Phase row = CellPhaseFailed /\ cs_Reason row = ReasonUnreachable.
Proof.
  intros Hp Ht Hu Hf Hr Hall. cbv zeta. unfold run_row. cbn [foldl].
  destruct (step_row_failed name idx prev s Hp (eq_sym Hu) Hf Ht) as (H1 & H2 & H3 & H4).
  rewrite Hr in H4.
  destruct (run_row_failed name idx (step_row name idx prev s) sights) as (I1 & _ & _ & I4 & _).
  - done.
  - by rewrite H3.
  - by rewrite step_row_guest, Hu.
  - split; [exact I1|]. unfold run_row in I4. by rewrite I4.
Qed.

(** The failure count is exactly the number of times the cell entered Failed,
    over any observations and across incarnations: nothing else counts, nothing
    is counted twice, and a new guest does not reset it. *)
Theorem failure_count_exact name idx prev sights :
  int32_ok (cs_FailureCount prev) ->
  cs_FailureCount (run_row name idx prev sights)
  = wrap32 (cs_FailureCount prev + entered_failed name idx prev sights).
Proof.
  unfold run_row. revert prev. induction sights as [|s sights IH]; intros prev Hok; cbn [foldl entered_failed].
  { by rewrite Z.add_0_r, wrap32_id. }
  rewrite IH, step_row_failures by (done || (rewrite step_row_failures by done; apply wrap32_ok)).
  rewrite wrap32_add_l. f_equal. lia.
Qed.

(** A guest other than the one the row is about starts from nothing: whatever
    the old row's phase, even Draining, the new cell is observed as Pending, its
    transition as new and as never Ready; only the failure count survives. *)
Theorem new_incarnation_starts_over name idx prev s :
  cs_GuestUID prev <> "" -> o_UID (sg_outer s) <> "" -> cs_GuestUID prev <> o_UID (sg_outer s) ->
  let c := continue_row prev (sg_outer s) in
  obs_Current (sight_observation c s) = CellPhasePending
  /\ obs_LastTransition (sight_observation c s) = sg_started s
  /\ cs_FailureCount c = cs_FailureCount prev
  /\ (cs_ReadyOnce (step_row name idx prev s) = true ->
      cs_Phase (step_row name idx prev s) = CellPhaseReady)
  /\ cs_LastTransitionTime (step_row name idx prev s) = Some (sg_moved s).
Proof.
  intros Hp Ho Hne c.
  assert (c = {| zeroCellStatus with cs_Name := cs_Name prev; cs_Index := cs_Index prev;
                 cs_FailureCount := cs_FailureCount prev |}) as Ec.
  { unfold c, continue_row. by rewrite !bool_decide_eq_false_2. }
  unfold step_row. fold c. rewrite Ec. split_and!; try done.
  - unfold cellStatus, row_moved. simpl. by rewrite bool_decide_eq_true.
  - unfold cellStatus, row_moved. simpl. by rewrite orb_true_r.
Qed.

(** The rows carried forward are those of failed cells without a guest whose
    index the spec's replicas still cover; they keep the failure count, the
    reason and the time of the failure. *)
Theorem tombstones_iff pool previous live c :
  c ∈ tombstones pool previous live <->
  exists name prev, previous !! name = Some prev /\ (name ∉ live)
    /\ cs_Phase prev = CellPhaseFailed /\ cs_Index prev < spec_Replicas (pool_Spec pool)
    /\ c = tombstone prev /\ cs_FailureCount c = cs_FailureCount prev
    /\ cs_Reason c = cs_Reason prev /\ cs_LastTransitionTime c = cs_LastTransitionTime prev.
Proof.
  unfold tombstones, keepTombstone. rewrite list_elem_of_omap. split.
  - intros ([name prev] & Hin%elem_of_map_to_list & E). exists name, prev.
    case_bool_decide as Hl; [done|].
    destruct (_ && _) eqn:Ek; [|done]. injection E as <-. guards. by split_and!.
  - intros (name & prev & Hp & Hl & Hf & Hi & -> & _). exists (name, prev).
    split; [by apply elem_of_map_to_list|].
    rewrite bool_decide_eq_false_2, Hf, bool_decide_eq_true_2, (proj2 (Z.ltb_lt _ _)) by done. done.
Qed.

(** ** Witnesses *)

Definition ex_joining_outer : OuterState :=
  {| zeroOuterState with o_Exists := true; o_Phase := "Running"; o_Provisioned := true;
     o_GPUDevices := ["0000:01:00.0"]; o_UID := "uid-1" |}.
(** The VM runs, no workload Node has registered. *)
Definition ex_sight (reachable : bool) (now : Time) : Sight :=
  mkSight ex_joining_outer
    (mkObservation CellPhaseNone 0 now ex_joining_outer reachable zeroNodeState false false 0 1
       (15 * Minute) (5 * Minute)) now now now.

Lemma ex_stuck now : stuck_sight "uid-1" CellPhaseJoining (15 * Minute) (ex_sight true now).
Proof.
  split; try done. intros prev. apply sup_joining; [by split_and!|]. by intros (_ & ? & _).
Qed.

Lemma stuck_cell_fails_witness :
  cs_Phase (run_row "inference-0" 0 zeroCellStatus
              [ex_sight true Minute; ex_sight true (10 * Minute); ex_sight true (17 * Minute)])
  = CellPhaseFailed.
Proof.
  apply (stuck_cell_fails "inference-0" 0 "uid-1" CellPhaseJoining (15 * Minute) zeroCellStatus
           (ex_sight true Minute) [ex_sight true (10 * Minute)] (ex_sight true (17 * Minute))).
  - apply ex_stuck.
  - apply List.Forall_cons; [apply ex_stuck|apply List.Forall_nil].
  - apply ex_stuck.
  - by split.
  - discriminate.
  - reflexivity.
  - intros [?|?]; discriminate.
  - discriminate.
  - by left.
  - discriminate.
Defined.

(** A cell that failed to join, with the reason the guard looks for. *)
Definition ex_failed_row : CellStatus :=
  {| zeroCellStatus with cs_Name := "inference-0"; cs_Phase := CellPhaseFailed;
     cs_GuestUID := "uid-1"; cs_Reason := ReasonNodeNeverRegistered; cs_FailureCount := 2;
     cs_LastTransitionTime := Some Minute |}.

Lemma failed_row_keeps_diagnosis_witness :
  let row := run_row "inference-0" 0 ex_failed_row [ex_sight true (20 * Minute); ex_sight true (30 * Minute)] in
  cs_Phase row = CellPhaseFailed /\ cs_FailureCount row = 2
  /\ cs_LastTransitionTime row = Some Minute
  /\ cs_Reason row = ReasonNodeNeverRegistered /\ cs_Message row = "".
Proof.
  apply (failed_row_keeps_diagnosis "inference-0" 0 ex_failed_row
           [ex_sight true (20 * Minute); ex_sight true (30 * Minute)]).
  - reflexivity.
  - discriminate.
  - repeat (apply List.Forall_cons; [by split_and!|]). apply List.Forall_nil.
Defined.

Lemma outage_erases_diagnosis_witness :
  let row := run_row "inference-0" 0 ex_failed_row [ex_sight false (20 * Minute); ex_sight true (30 * Minute)] in
  cs_Phase row = CellPhaseFailed /\ cs_Reason row = ReasonUnreachable.
Proof.
  apply (outage_erases_diagnosis "inference-0" 0 ex_failed_row (ex_sight false (20 * Minute))
           [ex_sight true (30 * Minute)]); try reflexivity.
  - discriminate.
  - repeat (apply List.Forall_cons; [by split_and!|]). apply List.Forall_nil.
Defined.

Lemma failure_count_exact_witness :
  cs_FailureCount (run_row "inference-0" 0 zeroCellStatus
    [ex_sight true Minute; ex_sight true (17 * Minute); ex_sight true (18 * Minute)]) = 1.
Proof.
  rewrite (failure_count_exact "inference-0" 0 zeroCellStatus
    [ex_sight true Minute; ex_sight true (17 * Minute); ex_sight true (18 * Minute)]).
  - vm_compute. reflexivity.
  - by split.
Defined.

Lemma new_incarnation_starts_over_witness :
  let prev := {| ex_failed_row with cs_GuestUID := "uid-0" |} in
  obs_Current (sight_observation (continue_row prev ex_joining_outer) (ex_sight true Minute))
  = CellPhasePending.
Proof.
  apply (new_incarnation_starts_over "inference-0" 0 {| ex_failed_row with cs_GuestUID := "uid-0" |}
           (ex_sight true Minute)); discriminate.
Defined.
