(* ===== verification/Metrics.v ===== *)
(** * Metrics

    internal/metrics/metrics.go, internal/controller/metrics.go and what the
    handlers of controller.go count. The Prometheus client is outside the
    repository: what the operator does to it is a list of updates, in the order
    of the calls, and what a series reads afterwards is stated over any registry
    with the documented laws of a vector. The loop ([Controller]) makes these
    updates; [ControllerMetrics] has the theorems on a whole pass.

    - the series: [Vec] and one definition per vector;
    - the updates: [publishMetrics] (metrics.go), [row_updates] (cellStatus),
      [scrape_updates], [reach_updates], [decision_updates] (Reconcile) and
      [ForgetPool];
    - the theorems: what a published pool reads, that no label list panics, that
      a forgotten pool leaves nothing, and that the transition counters account
      for the phases of a row. *)

From S2P Require Import Prelude GoStd Api KubeApi Provider Workload Provisioner Fsm Scaling Helpers.
From S2P Require Import Status CellRow.
Local Open Scope Z_scope.
Local Open Scope go_scope.

(** ** Numbers

    A gauge holds a float64, and the operator only sets it to integers: the
    conversion keeps 53 bits and rounds to the nearest, ties to even. *)
Definition float64 (z : Z) : Z :=
  let a := Z.abs z in
  if a <=? 2 ^ 53 then z
  else
    let ulp := 2 ^ (Z.log2 a - 52) in
    let down := a / ulp in
    let rest := a mod ulp in
    let up := (ulp <? 2 * rest) || ((2 * rest =? ulp) && Z.odd down) in
    Z.sgn z * ((if up then down + 1 else down) * ulp).

Lemma float64_exact z : Z.abs z <= 2 ^ 53 -> float64 z = z.
Proof. intros Hz. unfold float64. by rewrite (proj2 (Z.leb_le _ _) Hz). Qed.

(** A rounded count is off by at most one part in 2^53. *)
Lemma float64_close z : Z.abs (float64 z - z) * 2 ^ 53 <= Z.abs z.
Proof.
  unfold float64. destruct (Z.leb_spec (Z.abs z) (2 ^ 53)) as [Hz|Hz]; [lia|].
  set (a := Z.abs z) in *. set (ulp := 2 ^ (Z.log2 a - 52)).
  assert (Hlog : 53 <= Z.log2 a) by (apply Z.log2_le_pow2; lia).
  assert (Hulp : 0 < ulp) by (apply Z.pow_pos_nonneg; lia).
  assert (Ha : ulp * 2 ^ 52 <= a).
  { unfold ulp. rewrite <- Z.pow_add_r by lia. replace (Z.log2 a - 52 + 52) with (Z.log2 a) by lia.
    apply Z.log2_spec. lia. }
  pose proof (Z.div_mod a ulp ltac:(lia)) as Hd. pose proof (Z.mod_pos_bound a ulp Hulp) as Hm.
  set (down := a / ulp) in *. set (rest := a mod ulp) in *.
  assert (Hr : forall r, 2 * Z.abs (r - a) <= ulp -> Z.abs (Z.sgn z * r - z) * 2 ^ 53 <= a).
  { intros r Hr. replace (Z.sgn z * r - z) with (Z.sgn z * (r - a)) by (unfold a; lia).
    rewrite Z.abs_mul. unfold a in *. assert (Z.abs (Z.sgn z) = 1) as -> by lia. lia. }
  apply Hr. destruct ((ulp <? 2 * rest) || _) eqn:Hup.
  - assert (ulp <= 2 * rest) by (apply orb_true_iff in Hup as [Hup|Hup]; guards; lia). nia.
  - guards. nia.
Qed.

(** ** The vectors *)

Inductive VecKind := GaugeVec | CounterVec | HistogramVec (buckets : list Z).

Record Vec := mkVec { vec_Name : string; vec_Kind : VecKind; vec_Labels : list string }.

Definition metric_prefix : string := "gpucell_".
Definition CellsDesired : Vec := mkVec (metric_prefix +:+ "cells_desired") GaugeVec ["pool"; "namespace"].
Definition Cells : Vec := mkVec (metric_prefix +:+ "cells") GaugeVec ["pool"; "namespace"; "phase"].
Definition CellStartupSeconds : Vec :=
  mkVec (metric_prefix +:+ "cell_startup_seconds")
    (HistogramVec [30; 60; 120; 180; 300; 600; 900; 1800]) ["pool"; "namespace"].
Definition CellTransitionsTotal : Vec :=
  mkVec (metric_prefix +:+ "cell_transitions_total") CounterVec ["pool"; "namespace"; "from"; "to"].
Definition PhysicalGPUs : Vec :=
  mkVec (metric_prefix +:+ "physical_gpus") GaugeVec ["pool"; "namespace"; "state"].
Definition CapacityGPUDevices : Vec :=
  mkVec (metric_prefix +:+ "capacity_gpu_devices") GaugeVec ["pool"; "namespace"].
Definition CapacityGPUMemoryBytes : Vec :=
  mkVec (metric_prefix +:+ "capacity_gpu_memory_bytes") GaugeVec ["pool"; "namespace"; "state"].
Definition CapacityGPUComputePercent : Vec :=
  mkVec (metric_prefix +:+ "capacity_gpu_compute_percent") GaugeVec ["pool"; "namespace"; "state"].
Definition WorkloadClusterReachable : Vec :=
  mkVec (metric_prefix +:+ "workload_cluster_reachable") GaugeVec ["pool"; "namespace"].
Definition CapacityScrapeErrorsTotal : Vec :=
  mkVec (metric_prefix +:+ "capacity_scrape_errors_total") CounterVec ["pool"; "namespace"; "reason"].
Definition ScaleDecisionsTotal : Vec :=
  mkVec (metric_prefix +:+ "scale_decisions_total") CounterVec
    ["pool"; "namespace"; "reason"; "scaled_up"].
Definition ReconcileErrorsTotal : Vec :=
  mkVec (metric_prefix +:+ "reconcile_errors_total") CounterVec ["pool"; "namespace"].

(** The vectors init registers. *)
Definition registered : list Vec :=
  [CellsDesired; Cells; CellStartupSeconds; CellTransitionsTotal;
   PhysicalGPUs; CapacityGPUDevices; CapacityGPUMemoryBytes; CapacityGPUComputePercent;
   WorkloadClusterReachable; CapacityScrapeErrorsTotal; ScaleDecisionsTotal;
   ReconcileErrorsTotal].

(** ** The updates *)

Inductive Update :=
| Set_ (v : Vec) (labels : list string) (x : Z)
| Inc (v : Vec) (labels : list string)
| Observe (v : Vec) (labels : list string) (d : Duration)
| DeletePartialMatch (v : Vec) (labels : list (string * string)).

(** [allCellPhases]. *)
Definition allCellPhases : list CellPhase :=
  [CellPhasePending; CellPhaseAllocatingGPU;
   CellPhaseGuestProvisioning; CellPhaseBooting;
   CellPhaseJoining; CellPhaseAwaitingGPUCapacity;
   CellPhaseReady; CellPhaseDraining;
   CellPhaseDeleting; CellPhaseFailed].

(** [byPhase], the loop's count of a phase. *)
Definition byPhase (cells : list CellStatus) (p : CellPhase) : int :=
  foldl (fun n c => if cs_Phase c == p then n + 1 else n) 0 cells.

(** The loop's count of the devices held. *)
Definition held_devices (cells : list CellStatus) : int :=
  foldl (fun n c => n + len (cs_Devices c)) 0 cells.

Definition publishMetrics (pool : GPUCellPool) (cells : list CellStatus) (scale : ScaleDecision)
    (freeGPUs : option int) (cap0 : Capacity) (capacityKnown : bool) : list Update :=
  let own := [pool_Name pool; pool_Namespace pool] in
  let total := cap_MemoryTotalMiB cap0 in
  let allocated := cap_MemoryAllocatedMiB cap0 in
  [Set_ CellsDesired own (float64 (sd_Desired scale))]
  ++ map (fun p => Set_ Cells (own ++ [phase_string p]) (float64 (byPhase cells p))) allCellPhases
  ++ [Set_ PhysicalGPUs (own ++ ["held"]) (float64 (held_devices cells))]
  ++ match freeGPUs with
     | Some f => [Set_ PhysicalGPUs (own ++ ["free"]) (float64 f)]
     | None => []
     end
  ++ if negb capacityKnown then []
     else
       [Set_ CapacityGPUDevices own (float64 (cap_Devices cap0));
        Set_ CapacityGPUMemoryBytes (own ++ ["total"]) (float64 (wrap64 (total * mib)));
        Set_ CapacityGPUMemoryBytes (own ++ ["allocated"]) (float64 (wrap64 (allocated * mib)));
        Set_ CapacityGPUMemoryBytes (own ++ ["available"])
          (float64 (wrap64 (wrap64 (total - allocated) * mib)))]
       ++ if cap_Homogeneous cap0 then
            [Set_ CapacityGPUComputePercent (own ++ ["total"]) (float64 (cap_ComputeTotal cap0));
             Set_ CapacityGPUComputePercent (own ++ ["allocated"]) (float64 (cap_ComputeAllocated cap0));
             Set_ CapacityGPUComputePercent (own ++ ["available"])
               (float64 (wrap64 (cap_ComputeTotal cap0 - cap_ComputeAllocated cap0)))]
          else [].

Definition boolGauge (b : bool) : Z := if b then 1 else 0.

(** The counters of cellStatus, for a row that moved: the transition, unless the
    row is new, *)
Definition transition_updates (pool namespace : string) (prev : CellStatus) (dec : Decision) : list Update :=
  if cs_Phase prev != CellPhaseNone
  then [Inc CellTransitionsTotal
          [pool; namespace; phase_string (cs_Phase prev); phase_string (dec_Phase dec)]]
  else [].

(** and the startup, the first time it is Ready: the creation it is measured from. *)
Definition startup_due (prev : CellStatus) (outer : OuterState) (dec : Decision) : option Time :=
  match o_CreatedAt outer with
  | Some created =>
      if (dec_Phase dec == CellPhaseReady) && (cs_Phase prev != CellPhaseReady)
         && negb (IsZero created) && negb (cs_ReadyOnce prev)
      then Some created else None
  | None => None
  end.

Definition startup_update (pool namespace : string) (created t : Time) : Update :=
  Observe CellStartupSeconds [pool; namespace] (Sub t created).

(** Both, [t] being the clock's reading for the startup. *)
Definition row_updates (pool namespace : string) (prev : CellStatus) (outer : OuterState)
    (dec : Decision) (t : Time) : list Update :=
  if row_moved prev dec then
    transition_updates pool namespace prev dec
    ++ match startup_due prev outer dec with
       | Some created => [startup_update pool namespace created t]
       | None => []
       end
  else [].

(** Reconcile's counters of unreadable answers, of a provider that was asked. *)
Definition scrape_updates (pool : GPUCellPool) (capacityKnown demandKnown : bool) : list Update :=
  let own := [pool_Name pool; pool_Namespace pool] in
  (if capacityKnown then [] else [Inc CapacityScrapeErrorsTotal (own ++ ["capacity"])])
  ++ (if autoscalingEnabled pool && negb demandKnown
      then [Inc CapacityScrapeErrorsTotal (own ++ ["demand"])] else []).

Definition reach_updates (pool : GPUCellPool) (reachable : bool) : list Update :=
  [Set_ WorkloadClusterReachable [pool_Name pool; pool_Namespace pool] (boolGauge reachable)].

Definition FormatBool (b : bool) : string := if b then "true" else "false".

Definition decision_updates (pool : GPUCellPool) (scale : ScaleDecision) : list Update :=
  if autoscalingEnabled pool
  then [Inc ScaleDecisionsTotal
          [pool_Name pool; pool_Namespace pool; sd_Reason scale; FormatBool (sd_ScaledUp scale)]]
  else [].

Definition ForgetPool (namespace name : string) : list Update :=
  let labels := [("pool", name); ("namespace", namespace)] in
  map (fun v => DeletePartialMatch v labels)
    [CellsDesired; Cells; CellTransitionsTotal; PhysicalGPUs; CapacityGPUDevices;
     CapacityGPUMemoryBytes; CapacityGPUComputePercent; WorkloadClusterReachable;
     CapacityScrapeErrorsTotal; ScaleDecisionsTotal; ReconcileErrorsTotal;
     CellStartupSeconds].

(** ** A row over time

    The counters of consecutive observations of one row ([CellRow.run_row]). *)
Fixpoint run_updates (pool namespace name : string) (idx : int32) (prev : CellStatus)
    (sights : list Sight) : list Update :=
  match sights with
  | [] => []
  | s :: rest =>
      let same := continue_row prev (sg_outer s) in
      row_updates pool namespace same (sg_outer s) (AdvanceCell (sight_observation same s)) (sg_moved s)
      ++ run_updates pool namespace name idx (step_row name idx prev s) rest
  end.

(** ** The registry *)

(** The labels a DeletePartialMatch names, read off a series of the vector. *)
Definition partial_match (v : Vec) (values : list string) (labels : list (string * string)) : bool :=
  forallb (fun '(k, x) => existsb (fun '(k', x') => (k' == k) && (x' == x))
                            (combine (vec_Labels v) values)) labels.

(** The Prometheus client. [sample] reads a series, of a histogram the number of
    its observations. *)
Class Registry (R : Type) := {
  sample : R -> string -> list string -> option Z;
  update : Update -> R -> R
}.

(** What one update does to one series. *)
Definition moves (v : string) (values : list string) (u : Update) (cur : option Z) : option Z :=
  match u with
  | Set_ v' l x => if bool_decide ((vec_Name v', l) = (v, values)) then Some x else cur
  | Inc v' l | Observe v' l _ =>
      if bool_decide ((vec_Name v', l) = (v, values)) then Some (default 0 cur + 1) else cur
  | DeletePartialMatch v' m => if bool_decide (vec_Name v' = v) && partial_match v' values m then None else cur
  end.

(** What the client documents: With(..).Set, Inc and Observe act on the series of
    these label values and create it, DeletePartialMatch deletes the series of
    its vector that carry all the labels. *)
Class RegistryLaws R `{Registry R} : Prop := {
  sample_update : forall u r v values, sample (update u r) v values = moves v values u (sample r v values)
}.

Definition updates `{Registry R} (us : list Update) (r : R) : R := foldl (fun r u => update u r) r us.

(** WithLabelValues panics on a wrong number of values. *)
Definition well_labelled (u : Update) : Prop :=
  match u with
  | Set_ v l _ | Inc v l | Observe v l _ => length l = length (vec_Labels v)
  | DeletePartialMatch _ _ => True
  end.

(** The update is about series of one pool. *)
Definition about_pool (name ns : string) (u : Update) : Prop :=
  match u with
  | Set_ v l _ | Inc v l | Observe v l _ => take 2 l = [name; ns] /\ v ∈ registered
  | DeletePartialMatch _ _ => False
  end.

(** ** Lemmas *)

Section lemmas.
Context `{REG : Registry R} `{!RegistryLaws R}.

Lemma sample_updates us r v values :
  sample (updates us r) v values = foldl (fun cur u => moves v values u cur) (sample r v values) us.
Proof.
  revert r. induction us as [|u us IH]; intros r; simpl; [done|].
  by rewrite IH, sample_update.
Qed.

Lemma updates_app us us' r : updates (us ++ us') r = updates us' (updates us r).
Proof. apply foldl_app. Qed.

(** Updates of another vector leave a series alone. *)
Definition update_vec (u : Update) : Vec :=
  match u with Set_ v _ _ | Inc v _ | Observe v _ _ | DeletePartialMatch v _ => v end.

Lemma moves_other v values u cur : vec_Name (update_vec u) <> v -> moves v values u cur = cur.
Proof.
  destruct u; simpl; intros Hv;
    by rewrite bool_decide_eq_false_2 by (try intros [= Hn _]; congruence).
Qed.

(** Updates of other series leave a series alone. *)
Lemma sample_frame us r v values :
  Forall (fun u => forall cur, moves v values u cur = cur) us ->
  sample (updates us r) v values = sample r v values.
Proof.
  intros Hus. rewrite sample_updates. induction Hus as [|u us Hu _ IH]; simpl; [done|]. by rewrite Hu.
Qed.

Lemma sample_other_pool name ns us r v values :
  Forall (about_pool name ns) us -> take 2 values <> [name; ns] ->
  sample (updates us r) v values = sample r v values.
Proof.
  intros Hus Hv. apply sample_frame. eapply Forall_impl; [exact Hus|].
  intros [w l x|w l|w l d|w m] Hu cur; simpl in *; try done;
    rewrite bool_decide_eq_false_2; try done; intros [= _ <-]; tauto.
Qed.
End lemmas.

Lemma phase_string_inj p q : phase_string p = phase_string q -> p = q.
Proof. by destruct p, q. Qed.

(** The gauge a list of phases gives one of them. *)
Lemma moves_phases name ns cells ps p cur :
  foldl (fun cur u => moves (vec_Name Cells) [name; ns; phase_string p] u cur) cur
    (map (fun q => Set_ Cells ([name; ns] ++ [phase_string q]) (float64 (byPhase cells q))) ps)
  = if bool_decide (p ∈ ps) then Some (float64 (byPhase cells p)) else cur.
Proof.
  revert cur. induction ps as [|q ps IH]; intros cur; simpl; [done|]. rewrite IH.
  destruct (decide (p = q)) as [->|Hpq].
  - rewrite (bool_decide_eq_true_2 (q ∈ q :: ps)) by set_solver.
    rewrite (bool_decide_eq_true_2 (_ = _)) by done. by case_bool_decide.
  - rewrite (bool_decide_eq_false_2 (_ = (_, [name; ns; phase_string p]))).
    2: { intros [= Hl]. symmetry in Hl. by apply phase_string_inj in Hl. }
    by rewrite (bool_decide_ext (p ∈ q :: ps) (p ∈ ps)) by set_solver.
Qed.

(** Other vectors are not among them. *)
Lemma moves_phases_other name ns cells ps v values cur :
  v <> vec_Name Cells ->
  foldl (fun cur u => moves v values u cur) cur
    (map (fun q => Set_ Cells ([name; ns] ++ [phase_string q]) (float64 (byPhase cells q))) ps) = cur.
Proof.
  intros Hv. revert cur. induction ps as [|q ps IH]; intros cur; simpl; [done|]. rewrite IH.
  rewrite bool_decide_eq_false_2; [done|]. intros [= Hn _]. by rewrite <- Hn in Hv.
Qed.

Lemma byPhase_from cells p n :
  foldl (fun n c => if cs_Phase c == p then n + 1 else n) n cells = n + byPhase cells p.
Proof.
  unfold byPhase. revert n. induction cells as [|c cells IH]; intros n; simpl; [lia|].
  rewrite IH, (IH (if bool_decide _ then _ else _)). case_bool_decide; lia.
Qed.

Lemma byPhase_cons c cells p :
  byPhase (c :: cells) p = (if cs_Phase c == p then 1 else 0) + byPhase cells p.
Proof.
  unfold byPhase at 1. simpl. rewrite byPhase_from. by case_bool_decide.
Qed.

(** The ten phases count every row once. *)
Lemma phases_partition cells :
  Forall (fun c => cs_Phase c ∈ allCellPhases) cells ->
  foldr Z.add 0 (map (byPhase cells) allCellPhases) = len cells.
Proof.
  induction 1 as [|c cells Hc _ IH]; [done|].
  transitivity (1 + foldr Z.add 0 (map (byPhase cells) allCellPhases)).
  - simpl. rewrite !byPhase_cons. unfold allCellPhases in Hc.
    destruct (cs_Phase c); simpl; try lia. exfalso. set_solver.
  - rewrite IH. unfold len. simpl. lia.
Qed.

Lemma byPhase_bounds cells p : 0 <= byPhase cells p <= len cells.
Proof.
  induction cells as [|c cells IH]; [done|]. rewrite byPhase_cons.
  unfold len in *. simpl length. case_bool_decide; lia.
Qed.

Lemma byPhase_small cells p : len cells <= 2 ^ 53 -> Z.abs (byPhase cells p) <= 2 ^ 53.
Proof. pose proof (byPhase_bounds cells p). lia. Qed.

(** The last update of a series decides; the registry is the client's. *)
Ltac read_series :=
  rewrite sample_updates; unfold publishMetrics; cbv zeta; rewrite ?foldl_app;
  rewrite ?moves_phases_other by done; simpl;
  repeat (first [case_bool_decide | case_match]; simplify_eq/=); try done.

(** ** What a pool's series read *)

(** The series of a pool. *)
Definition series `{Registry R} (r : R) (pool : GPUCellPool) (v : Vec) (rest : list string) : option Z :=
  sample r (vec_Name v) (pool_Name pool :: pool_Namespace pool :: rest).

(** The capacity series of a published pool. *)
Record capacity_read `{Registry R} (r : R) (pool : GPUCellPool) (cap0 : Capacity) : Prop := {
  cr_devices : series r pool CapacityGPUDevices [] = Some (float64 (cap_Devices cap0));
  cr_total : series r pool CapacityGPUMemoryBytes ["total"]
             = Some (float64 (wrap64 (cap_MemoryTotalMiB cap0 * mib)));
  cr_allocated : series r pool CapacityGPUMemoryBytes ["allocated"]
             = Some (float64 (wrap64 (cap_MemoryAllocatedMiB cap0 * mib)));
  cr_available : series r pool CapacityGPUMemoryBytes ["available"]
             = Some (float64 (wrap64 (wrap64 (cap_MemoryTotalMiB cap0 - cap_MemoryAllocatedMiB cap0) * mib)))
}.

(** The capacity vectors. *)
Definition capacity_vecs : list Vec :=
  [CapacityGPUDevices; CapacityGPUMemoryBytes; CapacityGPUComputePercent].

Section reads.
Context `{REG : Registry R} `{!RegistryLaws R}.
Implicit Types (pool : GPUCellPool) (r : R).

Lemma read_phase pool cells scale free cap0 known r p :
  series (updates (publishMetrics pool cells scale free cap0 known) r) pool Cells [phase_string p]
  = if bool_decide (p ∈ allCellPhases) then Some (float64 (byPhase cells p))
    else series r pool Cells [phase_string p].
Proof.
  unfold series. rewrite sample_updates. unfold publishMetrics.
  cbv zeta. rewrite !foldl_app, moves_phases. destruct free; simpl; rewrite ?(bool_decide_eq_false_2 (_ = (vec_Name Cells, _))) by (by intros [=]).
  all: destruct known, (cap_Homogeneous cap0); simpl; done.
Qed.

Lemma read_desired pool cells scale free cap0 known r :
  series (updates (publishMetrics pool cells scale free cap0 known) r) pool CellsDesired []
  = Some (float64 (sd_Desired scale)).
Proof. unfold series. read_series. Qed.

Lemma read_held pool cells scale free cap0 known r :
  series (updates (publishMetrics pool cells scale free cap0 known) r) pool PhysicalGPUs ["held"]
  = Some (float64 (held_devices cells)).
Proof. unfold series. read_series. Qed.

Lemma read_free pool cells scale free cap0 known r :
  series (updates (publishMetrics pool cells scale free cap0 known) r) pool PhysicalGPUs ["free"]
  = match free with Some f => Some (float64 f) | None => series r pool PhysicalGPUs ["free"] end.
Proof. unfold series. read_series. Qed.

Lemma read_capacity pool cells scale free cap0 r :
  capacity_read (updates (publishMetrics pool cells scale free cap0 true) r) pool cap0.
Proof. split; unfold series; read_series. Qed.

(** An unreadable provider leaves every capacity series as it was. *)
Lemma read_capacity_unknown pool cells scale free cap0 r v values :
  v ∈ capacity_vecs ->
  sample (updates (publishMetrics pool cells scale free cap0 false) r) (vec_Name v) values
  = sample r (vec_Name v) values.
Proof.
  intros Hv. assert (vec_Name v <> vec_Name Cells /\ vec_Name v <> vec_Name CellsDesired
                     /\ vec_Name v <> vec_Name PhysicalGPUs) as (H1 & H2 & H3).
  { unfold capacity_vecs in Hv. rewrite !elem_of_cons, elem_of_nil in Hv.
    destruct Hv as [->|[->|[->|[]]]]; vm_compute; repeat split; discriminate. }
  rewrite sample_updates. unfold publishMetrics. cbv zeta. rewrite !foldl_app.
  rewrite moves_phases_other by done. destruct free; cbn [foldl moves negb];
    repeat (rewrite bool_decide_eq_false_2; [|by intros [=]]); done.
Qed.

(** A pool of several models leaves the compute series as it was. *)
Lemma read_compute_mixed pool cells scale free cap0 known r values :
  cap_Homogeneous cap0 = false ->
  sample (updates (publishMetrics pool cells scale free cap0 known) r)
    (vec_Name CapacityGPUComputePercent) values
  = sample r (vec_Name CapacityGPUComputePercent) values.
Proof. intros Hh. read_series; congruence. Qed.
End reads.

(** ** No label list panics, and every update is about its own pool *)

(** Both facts of one update. *)
Definition proper_update (name ns : string) (u : Update) : Prop :=
  well_labelled u /\ about_pool name ns u.

Ltac proper :=
  repeat first [apply Forall_app_2 | apply Forall_nil_2 | apply Forall_cons_2 | case_match];
  try (split; [reflexivity | split; [reflexivity | unfold registered; set_solver]]).

Lemma publishMetrics_proper pool cells scale free cap0 known :
  Forall (proper_update (pool_Name pool) (pool_Namespace pool))
    (publishMetrics pool cells scale free cap0 known).
Proof. unfold publishMetrics. cbv zeta. cbn [map allCellPhases]. proper. Qed.

Lemma row_updates_proper name ns prev outer dec t :
  Forall (proper_update name ns) (row_updates name ns prev outer dec t).
Proof. unfold row_updates, transition_updates, startup_due, startup_update. proper. Qed.

Lemma scrape_updates_proper pool c d :
  Forall (proper_update (pool_Name pool) (pool_Namespace pool)) (scrape_updates pool c d).
Proof. unfold scrape_updates. cbv zeta. proper. Qed.

Lemma reach_updates_proper pool b :
  Forall (proper_update (pool_Name pool) (pool_Namespace pool)) (reach_updates pool b).
Proof. unfold reach_updates. proper. Qed.

Lemma decision_updates_proper pool scale :
  Forall (proper_update (pool_Name pool) (pool_Namespace pool)) (decision_updates pool scale).
Proof. unfold decision_updates. proper. Qed.

(** ** Forgetting a pool *)

(** A series of a registered vector carries the pool's labels exactly when its
    first two values are the pool's. *)
Lemma partial_match_pool v values name ns :
  v ∈ registered -> length values = length (vec_Labels v) ->
  partial_match v values [("pool", name); ("namespace", ns)] = bool_decide (take 2 values = [name; ns]).
Proof.
  intros Hv Hl. assert (exists rest, vec_Labels v = "pool" :: "namespace" :: rest
                                     /\ ("pool" ∉ rest) /\ ("namespace" ∉ rest)) as (rest & Hr & Hp & Hn).
  { unfold registered in Hv. rewrite !elem_of_cons, elem_of_nil in Hv.
    naive_solver (eexists; split; [reflexivity | split; apply (bool_decide_unpack _); vm_compute; exact I]). }
  rewrite Hr in Hl. destruct values as [|a [|b values]]; try done. unfold partial_match. rewrite Hr. simpl.
  assert (forall k x, k ∉ rest -> existsb (fun '(k', x') => (k' == k) && (x' == x)) (combine rest values) = false)
    as Hfree.
  { clear. intros k x Hk. revert values. induction rest as [|k' rest IH]; intros values; [done|].
    destruct values as [|y values]; [done|]. simpl.
    rewrite bool_decide_eq_false_2 by set_solver. apply IH. set_solver. }
  rewrite !Hfree by done. rewrite !orb_false_r, andb_true_r, (take_0 values).
  repeat case_bool_decide; simplify_eq/=; done.
Qed.

Section forget.
Context `{REG : Registry R} `{!RegistryLaws R}.

Lemma sample_ForgetPool ns name (r : R) v values :
  v ∈ registered ->
  sample (updates (ForgetPool ns name) r) (vec_Name v) values
  = if partial_match v values [("pool", name); ("namespace", ns)] then None
    else sample r (vec_Name v) values.
Proof.
  intros Hv. rewrite sample_updates. unfold ForgetPool. cbn [foldl map moves].
  unfold registered in Hv. rewrite !elem_of_cons, elem_of_nil in Hv. destruct_or! Hv; subst; [..|done].
  all: destruct (partial_match _ _ _) eqn:Hm; by_vm || (rewrite ?Hm; vm_compute; reflexivity).
Qed.
End forget.

(** ** The counters of a row *)

(** The increments that enter and leave a phase, and the startups. *)
Definition enters (p : CellPhase) (u : Update) : bool :=
  match u with
  | Inc v [_; _; _; to] => (vec_Name v == vec_Name CellTransitionsTotal) && (to == phase_string p)
  | _ => false
  end.
Definition leaves (p : CellPhase) (u : Update) : bool :=
  match u with
  | Inc v [_; _; from; _] => (vec_Name v == vec_Name CellTransitionsTotal) && (from == phase_string p)
  | _ => false
  end.
Definition starts (u : Update) : bool := match u with Observe _ _ _ => true | _ => false end.

Definition how_many (f : Update -> bool) (us : list Update) : Z := len (List.filter f us).
Definition one_if (b : bool) : Z := if b then 1 else 0.

Lemma how_many_app f us us' : how_many f (us ++ us') = how_many f us + how_many f us'.
Proof. unfold how_many, len. rewrite List.filter_app, length_app. lia. Qed.

Lemma phase_string_eqb p q : (phase_string p == phase_string q) = (p == q).
Proof. apply bool_decide_ext. split; [apply phase_string_inj | congruence]. Qed.

(** AdvanceCell never answers the empty phase to a row that has one. *)
Lemma row_phase_known name idx prev s : cs_Phase (step_row name idx prev s) <> CellPhaseNone.
Proof.
  unfold step_row. simpl. set (p := continue_row prev (sg_outer s)).
  unfold AdvanceCell. cbn [obs_Current sight_observation].
  assert (phaseOr (cs_Phase p) CellPhasePending <> CellPhaseNone) as Hp
    by (unfold phaseOr; case_bool_decide; done).
  unfold expireOr. branches; simpl; congruence.
Qed.

(** One observation: what enters a phase less what leaves it is the change of
    the row. *)
Lemma row_updates_flow pool ns prev outer dec t p :
  cs_Phase prev <> CellPhaseNone ->
  let us := row_updates pool ns prev outer dec t in
  how_many (enters p) us - how_many (leaves p) us
  = one_if (dec_Phase dec == p) - one_if (cs_Phase prev == p).
Proof.
  intros Hprev. unfold row_updates, transition_updates, row_moved.
  rewrite (bool_decide_eq_false_2 (cs_Phase prev = CellPhaseNone)) by done. cbn [negb].
  destruct (_ || _) eqn:Hmoved.
  - rewrite !how_many_app.
    assert (forall f us, (us = [] \/ exists v l d, us = [Observe v l d]) ->
              f = enters p \/ f = leaves p -> how_many f us = 0) as Hobs.
    { by intros f us [->|(v & l & d & ->)] [-> | ->]. }
    set (obs := match startup_due prev outer dec with Some _ => _ | None => _ end).
    assert (obs = [] \/ exists v l d, obs = [Observe v l d]) as Hshape
      by (unfold obs; repeat case_match; first [by left | right; by do 3 eexists]).
    rewrite !(Hobs _ obs) by auto.
    unfold how_many. simpl. rewrite !phase_string_eqb. unfold len.
    repeat case_bool_decide; simpl; lia.
  - apply orb_false_iff in Hmoved as [Hsame _]. apply negb_false_iff, bool_decide_eq_true in Hsame.
    rewrite Hsame. unfold how_many, len. simpl. lia.
Qed.

Lemma row_updates_starts pool ns prev outer dec t :
  how_many starts (row_updates pool ns prev outer dec t)
  <= one_if (negb (cs_ReadyOnce prev) && (dec_Phase dec == CellPhaseReady)).
Proof.
  unfold row_updates, transition_updates, startup_due, row_moved, how_many, len.
  destruct (cs_ReadyOnce prev), (bool_decide (dec_Phase dec = CellPhaseReady)) eqn:?; simpl;
    repeat (case_match; simplify_eq/=; try lia); rewrite ?andb_false_r, ?andb_false_l in *; simplify_eq/=; lia.
Qed.

(** ** A registry in memory *)

Abbreviation MemoryRegistry := (gmap (string * list string) Z) (only parsing).

#[export] Instance memory_registry : Registry MemoryRegistry := {
  sample := fun r v values => r !! (v, values);
  update := fun u r =>
    match u with
    | Set_ v l x => <[(vec_Name v, l) := x]> r
    | Inc v l | Observe v l _ => <[(vec_Name v, l) := default 0 (r !! (vec_Name v, l)) + 1]> r
    | DeletePartialMatch v m =>
        base.filter (fun kv => (vec_Name v == kv.1.1) && partial_match v kv.1.2 m = false) r
    end
}.

#[export] Instance memory_registry_laws : RegistryLaws MemoryRegistry.
Proof.
  split. intros [v' l x|v' l|v' l d|v' m] r v values; simpl.
  1-3: case_bool_decide as Hk; [rewrite Hk; by rewrite lookup_insert_eq | by rewrite lookup_insert_ne].
  rewrite map_lookup_filter. destruct (r !! (v, values)); simpl; [|by destruct (_ && _)].
  case_guard as Hg; simpl in Hg; destruct (_ && _); done.
Qed.

(** ** The theorems *)

(** What Prometheus reads of a pool after a pass published it: the
    decided size; every phase, an empty one as zero, so that the ten gauges add
    up to the rows; the GPUs held, and those free when they could be read. The
    capacity of a provider that answered is published in full, the memory
    as the 64-bit product with a mebibyte; one that did not answer leaves every
    capacity series as it was. The series of every other pool stay. *)
Theorem publishMetrics_accounts `{RegistryLaws R} pool cells scale free cap0 known (r : R) :
  Forall (fun c => cs_Phase c ∈ allCellPhases) cells -> len cells <= 2 ^ 53 ->
  let r' := updates (publishMetrics pool cells scale free cap0 known) r in
  series r' pool CellsDesired [] = Some (float64 (sd_Desired scale))
  /\ (forall p, p ∈ allCellPhases ->
        series r' pool Cells [phase_string p] = Some (byPhase cells p))
  /\ foldr Z.add 0 (map (fun p => default 0 (series r' pool Cells [phase_string p])) allCellPhases)
     = len cells
  /\ series r' pool PhysicalGPUs ["held"] = Some (float64 (held_devices cells))
  /\ series r' pool PhysicalGPUs ["free"]
     = match free with Some f => Some (float64 f) | None => series r pool PhysicalGPUs ["free"] end
  /\ (if known then capacity_read r' pool cap0
      else forall v values, v ∈ capacity_vecs ->
             sample r' (vec_Name v) values = sample r (vec_Name v) values)
  /\ (forall v values, take 2 values <> [pool_Name pool; pool_Namespace pool] ->
        sample r' v values = sample r v values).
Proof.
  intros Hphases Hlen r'.
  assert (forall p, p ∈ allCellPhases -> series r' pool Cells [phase_string p] = Some (byPhase cells p)) as Hread.
  { intros p Hp. unfold r'. rewrite read_phase, bool_decide_eq_true_2, float64_exact by (done || apply byPhase_small, Hlen).
    done. }
  split_and!.
  - apply read_desired.
  - exact Hread.
  - rewrite <- (phases_partition cells Hphases). f_equal. apply map_ext_in.
    intros p Hp%list_elem_of_In. by rewrite Hread.
  - apply read_held.
  - apply read_free.
  - destruct known; [apply read_capacity | intros v values Hv; by apply read_capacity_unknown].
  - intros v values Hv. eapply sample_other_pool; [|exact Hv].
    eapply Forall_impl; [apply publishMetrics_proper|]. by intros u [_ Hu].
Qed.

(** Two rows, one Ready and one failed, of a pool with one free GPU whose
    provider answered. *)
Definition metrics_rows : list CellStatus :=
  let z := zeroCellStatus in
  [{| z with cs_Phase := CellPhaseReady; cs_Devices := ["gpu-0"] |};
   {| z with cs_Phase := CellPhaseFailed |}].

Lemma publishMetrics_accounts_witness :
  let r' := updates (publishMetrics ex_pool metrics_rows (mkScaleDecision 2 false false [] "" "")
                       (Some 1) (mkCapacity 1 true [] 24576 0 100 0) true) (∅ : MemoryRegistry) in
  series r' ex_pool Cells ["Ready"] = Some 1 /\ series r' ex_pool Cells ["Booting"] = Some 0
  /\ series r' ex_pool CapacityGPUMemoryBytes ["total"] = Some 25769803776
  /\ foldr Z.add 0 (map (fun p => default 0 (series r' ex_pool Cells [phase_string p])) allCellPhases) = 2.
Proof.
  intros r'. split_and!; [vm_compute; reflexivity..|].
  eapply (publishMetrics_accounts ex_pool metrics_rows (mkScaleDecision 2 false false [] "" "")
            (Some 1) (mkCapacity 1 true [] 24576 0 100 0) true (∅ : MemoryRegistry)).
  - repeat constructor; simpl; decide_elem.
  - vm_compute. discriminate.
Defined.

(** A pool that is forgotten leaves no series, whatever its passes published
    before; the series of every other pool read as if it had never been. *)
Theorem pool_forgotten `{RegistryLaws R} ns name us (r : R) v values :
  Forall (proper_update name ns) us -> v ∈ registered -> length values = length (vec_Labels v) ->
  sample (updates (us ++ ForgetPool ns name) r) (vec_Name v) values
  = if take 2 values == [name; ns] then None else sample r (vec_Name v) values.
Proof.
  intros Hus Hv Hl. rewrite updates_app, sample_ForgetPool, partial_match_pool by done.
  case_bool_decide; [done|]. eapply sample_other_pool; [|done].
  eapply Forall_impl; [exact Hus|]. by intros u [_ Hu].
Qed.

Lemma pool_forgotten_witness :
  let us := publishMetrics ex_pool metrics_rows (mkScaleDecision 2 false false [] "" "") (Some 1)
              zeroCapacity true in
  series (updates us (∅ : MemoryRegistry)) ex_pool Cells ["Ready"] = Some 1
  /\ series (updates (us ++ ForgetPool "gpu" "inference") (∅ : MemoryRegistry)) ex_pool Cells ["Ready"] = None.
Proof.
  intros us. split; [vm_compute; reflexivity|].
  refine (pool_forgotten "gpu" "inference" us (∅ : MemoryRegistry) Cells ["inference"; "gpu"; "Ready"] _ _ _).
  - apply (publishMetrics_proper ex_pool).
  - unfold registered. set_solver.
  - reflexivity.
Defined.

(** The counters of a cell over any run of observations of one guest: for every
    phase, the transitions counted into it less those counted out of it are the
    change of the row, so the counters and the phases never disagree; and
    the startup is observed at most once, never for a row that has been Ready. *)
Theorem row_counters_account pool ns name idx uid prev sights p :
  cs_Phase prev <> CellPhaseNone -> cs_GuestUID prev = "" \/ cs_GuestUID prev = uid ->
  Forall (of_guest uid) sights ->
  let us := run_updates pool ns name idx prev sights in
  how_many (enters p) us - how_many (leaves p) us
  = one_if (cs_Phase (run_row name idx prev sights) == p) - one_if (cs_Phase prev == p)
  /\ how_many starts us <= one_if (negb (cs_ReadyOnce prev)).
Proof.
  unfold run_row. intros Hphase Huid Hall. revert prev Hphase Huid.
  induction Hall as [|s sights Hs _ IH]; intros prev Hphase Huid; simpl.
  { unfold how_many, len. simpl. unfold one_if. destruct (negb _); lia. }
  rewrite !how_many_app. unfold of_guest in Hs.
  rewrite continue_row_same by (unfold same_incarnation; rewrite Hs; tauto).
  destruct (IH (step_row name idx prev s)) as [IHflow IHstarts];
    [apply row_phase_known | right; by rewrite step_row_guest|].
  set (obs := sight_observation prev s) in *.
  assert (cs_Phase (step_row name idx prev s) = dec_Phase (AdvanceCell obs)
          /\ cs_ReadyOnce (step_row name idx prev s)
             = cs_ReadyOnce prev || (dec_Phase (AdvanceCell obs) == CellPhaseReady)) as [Hp Hr].
  { unfold step_row. by rewrite continue_row_same by (unfold same_incarnation; rewrite Hs; tauto). }
  pose proof (row_updates_flow pool ns prev (sg_outer s) (AdvanceCell obs) (sg_moved s) p Hphase) as Hflow.
  pose proof (row_updates_starts pool ns prev (sg_outer s) (AdvanceCell obs) (sg_moved s)) as Hstarts.
  rewrite Hp in IHflow. rewrite Hr in IHstarts. cbv zeta in Hflow. split; [lia|].
  clear - IHstarts Hstarts. unfold one_if in *.
  destruct (cs_ReadyOnce prev), (dec_Phase (AdvanceCell obs) == CellPhaseReady); simpl in *; lia.
Qed.

(** A cell that boots, fails and is not observed again. *)
Definition metrics_row : CellStatus :=
  let z := zeroCellStatus in
  {| z with cs_Name := "inference-0"; cs_Phase := CellPhaseBooting; cs_GuestUID := "uid-1";
     cs_LastTransitionTime := Some Minute |}.

Lemma row_counters_account_witness :
  let us := run_updates "inference" "gpu" "inference-0" 0 metrics_row
              [ex_sight true Minute; ex_sight true (10 * Minute); ex_sight true (27 * Minute)] in
  how_many (enters CellPhaseFailed) us = 1
  /\ how_many (enters CellPhaseFailed) us - how_many (leaves CellPhaseFailed) us = 1
  /\ how_many starts us <= 1.
Proof.
  intros us. split; [vm_compute; reflexivity|].
  eapply (row_counters_account "inference" "gpu" "inference-0" 0 "uid-1" metrics_row
            [ex_sight true Minute; ex_sight true (10 * Minute); ex_sight true (27 * Minute)] CellPhaseFailed).
  - discriminate.
  - by right.
  - by repeat constructor.
Defined.

(** A pool that turns to several models keeps reporting the compute of the one
    it had. *)
Example mixed_pool_keeps_compute :
  let scale := mkScaleDecision 1 false false [] "" "" in
  let one := mkCapacity 1 true [] 24576 0 100 0 in
  let two := mkCapacity 2 false [] 49152 0 200 0 in
  let r := updates (publishMetrics ex_pool [] scale None one true
                    ++ publishMetrics ex_pool [] scale None two true) (∅ : MemoryRegistry) in
  series r ex_pool CapacityGPUDevices [] = Some 2
  /\ series r ex_pool CapacityGPUComputePercent ["total"] = Some 100.
Proof. split; by_vm. Qed.
