(* ===== verification/Reconciler.v ===== *)
(** * The reconciler's environment and effects

    Everything the reconcile loop of internal/controller/controller.go acts on
    is outside the repository: the two API servers, the clock and the libraries.
    They are the fields of one class, [Environment]. The loop
    itself runs in a state-and-error monad over the abstract world and the
    client cache, which records each call that changes something, and each read
    a removal is justified by, in a log the theorems are stated on. *)

From S2P Require Import Prelude GoStd Api KubeApi Provider Workload Provisioner Inventory.
From S2P Require Import CellId Unstructured Metrics.
Local Open Scope Z_scope.
Local Open Scope go_scope.

(** corev1.Secret, as the operator writes it. *)
Record SecretObject := mkSecretObject {
  so_Namespace : string;
  so_Name : string;
  so_Labels : gmap string string;
  so_OwnerReferences : list OwnerReference;
  so_ResourceVersion : string;
  so_Data : gmap string string
}.

(** What the client cache reads of it. *)
Definition cache_view (s : SecretObject) : Secret := mkSecret (so_ResourceVersion s) (so_Data s).

(** ** Errors

    An error of the loop: what failed, wrapped with what was being done. *)
Inductive RError :=
| RAPI (context : string) (e : APIError)
| ROp (context : string) (e : OpError)
| RProv (context : string) (e : ProvError)
| RName (e : NameError)
| RCache (e : CacheError)
| RProvider (e : ProviderError)
| RRender (context msg : string)
| RNoJoinSecret
| RNoJoinKey (namespace name key : string)
| RUnknownProvisioner (name : string).

(** ** The environment *)

Class Environment (W Client Config : Type) := {
  (** The infrastructure cluster: pools and Secrets. A write returns the world
      also when it fails; an update returns the object the server stored. *)
  get_pool : string -> string -> W -> result APIError GPUCellPool;
  update_pool : GPUCellPool -> W -> result APIError GPUCellPool * W;
  update_pool_status : GPUCellPool -> W -> result APIError GPUCellPool * W;
  get_secret : string -> string -> W -> result APIError SecretObject;
  create_secret : SecretObject -> W -> result APIError unit * W;
  update_secret : SecretObject -> W -> result APIError unit * W;
  (** Its GPU ledgers. *)
  env_ledger :: GPULedger W;
  (** Its guests, seed profiles and Machines. *)
  env_infra :: InfraCluster W;
  env_nested :: Nested;
  (** The workload cluster behind a client: client-go and clientcmd. *)
  inner : Client -> InnerCluster W;
  dra : Client -> DRACluster W;
  ServerVersion : Client -> W -> result APIError unit;
  RESTConfigFromKubeConfig : string -> option Config;
  NewForConfig : Config -> option Client;
  (** The clock. Time passes between two readings. *)
  Clock : W -> Time * W;
  (** Whether the reconciler has an event recorder. *)
  HasRecorder : bool;
  (** apimachinery and controller-runtime. *)
  NewControllerRef : GPUCellPool -> string -> string -> OwnerReference;
  AddFinalizer : list string -> string -> list string * bool;
  RemoveFinalizer : list string -> string -> list string * bool;
  SetStatusCondition : list Condition -> Condition -> list Condition;
  IsDNS1123Subdomain : string -> list string;
  (** The text of an error. *)
  error_text : RError -> string;
  json_error_text : string -> string
}.

(** What controllerutil documents of the finalizer helpers. *)
Class FinalizerLaws `{Environment W Client Config} : Prop := {
  AddFinalizer_spec : forall l f,
    (f ∈ (AddFinalizer l f).1) /\ ((AddFinalizer l f).2 = false -> (AddFinalizer l f).1 = l);
  RemoveFinalizer_spec : forall l f,
    (f ∉ (RemoveFinalizer l f).1) /\ ((RemoveFinalizer l f).2 = true <-> f ∈ l)
}.

(** What the API server documents of pools: they are read by their name, and an
    update does not rename them. *)
Class PoolLaws `{Environment W Client Config} : Prop := {
  get_pool_named : forall ns n (w : W) p,
    get_pool ns n w = Ok p -> pool_Namespace p = ns /\ pool_Name p = n;
  update_pool_named : forall p (w w' : W) p',
    update_pool p w = (Ok p', w') -> pool_Namespace p' = pool_Namespace p /\ pool_Name p' = pool_Name p
}.

(** The Secrets the API server has. The reads of the reconciler are served by the cache of
    the manager's client, which may lag behind. *)
Class SecretStore `{Environment W Client Config} :=
  stored_secret : string -> string -> W -> option SecretObject.

(** What is documented of Secrets: a read answers for the name asked, and a write that
    succeeds is stored. Nothing is said of when a read shows it. *)
Class SecretLaws `{Environment W Client Config} `{!SecretStore} : Prop := {
  get_secret_named : forall ns n (w : W) o,
    get_secret ns n w = Ok o -> so_Namespace o = ns /\ so_Name o = n;
  create_secret_stored : forall o (w w' : W),
    create_secret o w = (Ok tt, w') ->
    exists o', stored_secret (so_Namespace o) (so_Name o) w' = Some o' /\ so_Data o' = so_Data o;
  update_secret_stored : forall o (w w' : W),
    update_secret o w = (Ok tt, w') ->
    exists o', stored_secret (so_Namespace o) (so_Name o) w' = Some o' /\ so_Data o' = so_Data o
}.

(** ** The log *)

Inductive Call :=
| CallUpdatePool (finalizers : list string)
| CallUpdateStatus (status : GPUCellPoolStatus)
| CallCreateSecret (name : string)
| CallUpdateSecret (name : string)
| CallList (cells : result ProvError (list string))
| CallEnsure (cell : string) (r : result ProvError OuterState)
| CallClearDrainFinalizer (cell : string)
| CallDelete (cell : string)
| ReadNode (name : string) (r : result OpError NodeState)
| ReadPoolNodes (r : result OpError (gmap string NodeState))
| ReadAllocations (node : string) (r : result ProviderError Allocations)
| CallNodeMetadata (name : string) (r : result OpError bool)
| CallCordon (name : string) (r : result OpError unit)
| CallDeleteNode (name : string)
| CallEvent (kind reason message : string)
| CallMetric (u : Update).

(** ** The monad *)

Section monad.
Context `{ENV : Environment W Client Config}.

(** The API servers and the cache of workload-cluster clients. *)
Record RState := mkRState { rst_world : W; rst_clients : gmap string (@cacheEntry Client) }.

Definition M (A : Type) : Type := RState -> result RError A * (RState * list Call).

#[global] Instance M_ret : MRet M := fun A a s => (Ok a, (s, [])).
#[global] Instance M_bind : MBind M := fun A B f m s =>
  match m s with
  | (Ok a, (s', l)) => let '(r, (s'', l')) := f a s' in (r, (s'', l ++ l'))
  | (Err e, x) => (Err e, x)
  end.

Definition mfail {A} (e : RError) : M A := fun s => (Err e, (s, [])).

(** The result of a computation as a value: the caller looks at the error. *)
Definition attempt {A} (m : M A) : M (result RError A) := fun s => let '(r, x) := m s in (Ok r, x).

Definition tell (c : Call) : M unit := fun s => (Ok tt, (s, [c])).

(** A read of the world. *)
Definition ask {A} (f : W -> A) : M A := fun s => (Ok (f (rst_world s)), (s, [])).

(** A read whose result is logged. *)
Definition look {A} (f : W -> A) (entry : A -> Call) : M A :=
  fun s => let a := f (rst_world s) in (Ok a, (s, [entry a])).

(** A result turned into a computation, its error wrapped. *)
Definition check {E A} (wrap : E -> RError) (r : result E A) : M A :=
  match r with Ok a => mret a | Err e => mfail (wrap e) end.

(** A write, logged with its result. *)
Definition effect {E A} (f : W -> result E A * W) (entry : result E A -> Call) : M (result E A) :=
  fun s => let '(r, w) := f (rst_world s) in (Ok r, (mkRState w (rst_clients s), [entry r])).

Definition call {E A} (f : W -> result E A * W) (entry : result E A -> Call) (wrap : E -> RError) : M A :=
  r ← effect f entry; check wrap r.

(** [r.now()]. *)
Definition now : M Time :=
  fun s => let '(t, w) := Clock (rst_world s) in (Ok t, (mkRState w (rst_clients s), [])).

(** [r.event]. *)
Definition event (kind reason msg : string) : M unit :=
  if HasRecorder then tell (CallEvent kind reason msg) else mret tt.

(** The updates of the metrics, in the order they are made. *)
Definition meter (us : list Update) : M unit := fun s => (Ok tt, (s, map CallMetric us)).

Fixpoint each {A} (f : A -> M unit) (l : list A) : M unit :=
  match l with
  | [] => mret tt
  | a :: rest => f a ;; each f rest
  end.

Fixpoint each_map {A B} (f : A -> M B) (l : list A) : M (list B) :=
  match l with
  | [] => mret []
  | a :: rest => b ← f a; bs ← each_map f rest; mret (b :: bs)
  end.

(** ** Reading the log *)

Definition log {A} (m : M A) (s : RState) : list Call := (m s).2.2.
Definition value {A} (m : M A) (s : RState) : result RError A := (m s).1.
Definition final {A} (m : M A) (s : RState) : RState := (m s).2.1.

(** Every call the computation makes satisfies [P]. *)
Definition calls_only {A} (P : Call -> Prop) (m : M A) : Prop := forall s, Forall P (log m s).

Lemma log_bind {A B} (m : M A) (f : A -> M B) s :
  log (m ≫= f) s = log m s ++ match value m s with Ok a => log (f a) (final m s) | Err _ => [] end.
Proof.
  unfold log, value, final, mbind, M_bind. destruct (m s) as [[a|e] [s' l]]; simpl; [|by rewrite app_nil_r].
  by destruct (f a s') as [r [s'' l']].
Qed.

Lemma final_bind {A B} (m : M A) (f : A -> M B) s :
  final (m ≫= f) s = match value m s with Ok a => final (f a) (final m s) | Err e => final m s end.
Proof.
  unfold value, final, mbind, M_bind. destruct (m s) as [[a|e] [s' l]]; simpl; [|done].
  by destruct (f a s') as [r [s'' l']].
Qed.

Lemma value_bind {A B} (m : M A) (f : A -> M B) s :
  value (m ≫= f) s = match value m s with Ok a => value (f a) (final m s) | Err e => Err e end.
Proof.
  unfold value, final, mbind, M_bind. destruct (m s) as [[a|e] [s' l]]; simpl; [|done].
  by destruct (f a s') as [r [s'' l']].
Qed.

Lemma log_call {E A} (f : W -> result E A * W) entry wrap s :
  log (call f entry wrap) s = [entry (f (rst_world s)).1].
Proof.
  unfold call. rewrite log_bind. unfold effect, log, value, final.
  destruct (f (rst_world s)) as [[a|e] w]; reflexivity.
Qed.

Lemma value_call {E A} (f : W -> result E A * W) entry wrap s :
  value (call f entry wrap) s
  = match (f (rst_world s)).1 with Ok a => Ok a | Err e => Err (wrap e) end.
Proof.
  unfold call. rewrite value_bind. unfold effect, value, final.
  destruct (f (rst_world s)) as [[a|e] w]; reflexivity.
Qed.

(** A call of a loop is a call of one of its turns. *)
Lemma each_log_in {A} (f : A -> M unit) l s c :
  c ∈ log (each f l) s -> exists a s', a ∈ l /\ c ∈ log (f a) s'.
Proof.
  revert s. induction l as [|a l IH]; intros s; [by intros ?%elem_of_nil|]. cbn [each].
  rewrite log_bind. intros [Hc|Hc]%elem_of_app; [exists a, s; by split; [left|]|].
  destruct (value (f a) s); [|by apply elem_of_nil in Hc].
  destruct (IH _ Hc) as (b & s' & ? & ?). exists b, s'. split; [by right|done].
Qed.

(** A loop that ends well has taken every turn. *)
Lemma each_log_all {A} (f : A -> M unit) l s :
  value (each f l) s = Ok tt ->
  forall a, a ∈ l -> exists s', value (f a) s' = Ok tt /\ log (f a) s' ⊆ log (each f l) s.
Proof.
  revert s. induction l as [|a l IH]; intros s Hv b; [by intros ?%elem_of_nil|].
  cbn [each] in *. rewrite log_bind. rewrite value_bind in Hv.
  destruct (value (f a) s) as [[]|e] eqn:Ef; [|done].
  intros [->|Hb]%elem_of_cons.
  - exists s. split; [done|]. intros c Hc. rewrite elem_of_app. by left.
  - destruct (IH _ Hv b Hb) as (s' & ? & Hl). exists s'. split; [done|].
    intros c Hc. rewrite elem_of_app. right. by apply Hl.
Qed.

Lemma value_now s : value now s = Ok (Clock (rst_world s)).1.
Proof. unfold value, now. by destruct (Clock _). Qed.
Lemma log_now s : log now s = [].
Proof. unfold log, now. by destruct (Clock _). Qed.
Lemma world_now s : rst_world (final now s) = (Clock (rst_world s)).2.
Proof. unfold final, now. by destruct (Clock _). Qed.

(** What a computation returns when it does not fail. *)
Definition ensures {A} (Q : A -> Prop) (m : M A) : Prop := forall s a, value m s = Ok a -> Q a.

Lemma ensures_bind {A B} (Q : B -> Prop) (m : M A) (f : A -> M B) :
  (forall a, ensures Q (f a)) -> ensures Q (m ≫= f).
Proof.
  intros Hf s b. rewrite value_bind. destruct (value m s) as [a|e]; [|done]. apply Hf.
Qed.
Lemma ensures_step {A B} (R : A -> Prop) (Q : B -> Prop) (m : M A) (f : A -> M B) :
  ensures R m -> (forall a, R a -> ensures Q (f a)) -> ensures Q (m ≫= f).
Proof.
  intros Hm Hf s b. rewrite value_bind. destruct (value m s) as [a|e] eqn:E; [|done].
  apply Hf. by eapply Hm.
Qed.
Lemma ensures_ret {A} (Q : A -> Prop) (a : A) : Q a -> ensures Q (mret a).
Proof. by intros Hq s b [= <-]. Qed.

Lemma final_call {E A} (f : W -> result E A * W) entry wrap s :
  final (call f entry wrap) s = mkRState (f (rst_world s)).2 (rst_clients s).
Proof.
  unfold call. rewrite final_bind. unfold effect, value, final.
  destruct (f (rst_world s)) as [[a|e] w]; reflexivity.
Qed.

(** A property of logs that computations inherit from their parts: true of the
    empty log and of a log followed by another. *)
Class Composable (P : list Call -> Prop) : Prop := {
  composable_nil : P [];
  composable_app : forall l k, P l -> P k -> P (l ++ k)
}.

Section composable.
Context (P : list Call -> Prop) `{CP : Composable P}.

Definition holds {A} (m : M A) : Prop := forall s, P (log m s).

Lemma holds_ret {A} (a : A) : holds (mret a).
Proof. intros s. apply composable_nil. Qed.
Lemma holds_fail {A} e : holds (@mfail A e).
Proof. intros s. apply composable_nil. Qed.
Lemma holds_ask {A} (f : W -> A) : holds (ask f).
Proof. intros s. apply composable_nil. Qed.
Lemma holds_now : holds now.
Proof. intros s. unfold now, log. destruct (Clock (rst_world s)). apply composable_nil. Qed.
Lemma holds_check {E A} (wrap : E -> RError) (r : result E A) : holds (check wrap r).
Proof. destruct r; [apply holds_ret|apply holds_fail]. Qed.

Lemma holds_bind {A B} (m : M A) (f : A -> M B) :
  holds m -> (forall a, holds (f a)) -> holds (m ≫= f).
Proof.
  intros Hm Hf s. rewrite log_bind. destruct (value m s).
  - apply composable_app; [apply Hm|apply Hf].
  - rewrite app_nil_r. apply Hm.
Qed.

Lemma holds_step {A B} (R : A -> Prop) (m : M A) (f : A -> M B) :
  holds m -> ensures R m -> (forall a, R a -> holds (f a)) -> holds (m ≫= f).
Proof.
  intros Hm He Hf s. rewrite log_bind. specialize (He s). destruct (value m s) as [a|e].
  - apply composable_app; [apply Hm|by apply Hf, He].
  - rewrite app_nil_r. apply Hm.
Qed.

Lemma holds_attempt {A} (m : M A) : holds m -> holds (attempt m).
Proof. intros Hm s. specialize (Hm s). unfold log, attempt in *. by destruct (m s). Qed.

Lemma holds_tell c : P [c] -> holds (tell c).
Proof. by intros Hc s. Qed.
Lemma holds_look {A} (f : W -> A) entry : (forall a, P [entry a]) -> holds (look f entry).
Proof. intros Hc s. apply Hc. Qed.
Lemma holds_effect {E A} (f : W -> result E A * W) entry :
  (forall r, P [entry r]) -> holds (effect f entry).
Proof. intros Hc s. unfold effect, log. destruct (f (rst_world s)). apply Hc. Qed.
Lemma holds_call {E A} (f : W -> result E A * W) entry wrap :
  (forall r, P [entry r]) -> holds (call f entry wrap).
Proof. intros Hc. apply holds_bind; [by apply holds_effect|intros r; apply holds_check]. Qed.
Lemma holds_event kind reason msg : P [CallEvent kind reason msg] -> holds (event kind reason msg).
Proof. intros Hc. unfold event. destruct HasRecorder; [by apply holds_tell|apply holds_ret]. Qed.

Lemma holds_meter us : (forall u, u ∈ us -> P [CallMetric u]) -> holds (meter us).
Proof.
  intros Hu s. change (P (map CallMetric us)). induction us as [|u us IH]; [apply composable_nil|].
  change (P ([CallMetric u] ++ map CallMetric us)).
  apply composable_app; [apply Hu; left|apply IH; intros; apply Hu; by right].
Qed.

Lemma holds_each {A} (f : A -> M unit) l : (forall a, a ∈ l -> holds (f a)) -> holds (each f l).
Proof.
  induction l as [|a l IH]; intros Hf; [apply holds_ret|].
  apply holds_bind; [apply Hf; left|intros _; apply IH; intros; apply Hf; by right].
Qed.
Lemma holds_each_map {A B} (f : A -> M B) l : (forall a, a ∈ l -> holds (f a)) -> holds (each_map f l).
Proof.
  induction l as [|a l IH]; intros Hf; [apply holds_ret|].
  apply holds_bind; [apply Hf; left|intros b].
  apply holds_bind; [apply IH; intros; apply Hf; by right|intros bs; apply holds_ret].
Qed.
End composable.

(** The calls all satisfy a predicate. *)
#[global] Instance Forall_composable (P : Call -> Prop) : Composable (Forall P).
Proof. split; [constructor|]. intros l k Hl Hk. by apply Forall_app. Qed.
End monad.

Arguments M _ _ _ : clear implicits.

(** Walks through a handler: every step is one of the monad's, a case, or a
    handler already known to satisfy the property. *)
Ltac compose_step :=
  match goal with
  | |- Composable _ => apply _
  | |- forall _, _ => intros ?
  | |- holds _ (mbind _ _) => apply holds_bind
  | |- holds _ (mret _) => apply holds_ret
  | |- holds _ (mfail _) => apply holds_fail
  | |- holds _ (ask _) => apply holds_ask
  | |- holds _ now => apply holds_now
  | |- holds _ (check _ _) => apply holds_check
  | |- holds _ (attempt _) => apply holds_attempt
  | |- holds _ (tell _) => apply holds_tell
  | |- holds _ (look _ _) => apply holds_look
  | |- holds _ (effect _ _) => apply holds_effect
  | |- holds _ (call _ _ _) => apply holds_call
  | |- holds _ (event _ _ _) => apply holds_event
  | |- holds _ (meter _) => apply holds_meter
  | |- holds _ (each _ _) => apply holds_each
  | |- holds _ (each_map _ _) => apply holds_each_map
  | |- holds _ (match ?x with _ => _ end) => destruct x
  | |- holds _ (let _ := _ in _) => cbv zeta
  end.
Ltac compose := repeat (compose_step || solve [eauto with holds]).
Create HintDb holds.
Arguments RState _ _ : clear implicits.
