(* ===== verification/ExampleWorld.v ===== *)
(** * An environment in memory

    Two clusters that never fail and a clock, on which the reconcile loop can be
    run. It shows that the hypotheses of the theorems
    on the loop can hold. *)

From S2P Require Import Prelude GoStd Api KubeApi Provider Workload Provisioner Helpers Status.
From S2P Require Import Inventory HamiProvider Bootstrap Json Unstructured SwiftGuest.
From S2P Require Import Reconciler.
Local Open Scope Z_scope.
Local Open Scope go_scope.

(** [wd_up]: whether the workload cluster answers. *)
Record World := mkWorld {
  wd_pools : gmap string GPUCellPool;
  wd_secrets : gmap (string * string) SecretObject;
  wd_objects : Objects;
  wd_inner : MemCluster;
  wd_up : bool;
  wd_now : Time
}.

Definition object_key (namespace name : string) : string := namespace +:+ "/" +:+ name.

Definition secret_key (s : SecretObject) : string * string := (so_Namespace s, so_Name s).

Definition read_secret (ns n : string) (w : World) : result APIError SecretObject :=
  match wd_secrets w !! (ns, n) with
  | Some s => if secret_key s == (ns, n) then Ok s else Err NotFound
  | None => Err NotFound
  end.
Definition write_secret (s : SecretObject) (w : World) : result APIError unit * World :=
  (Ok tt, {| w with wd_secrets := <[secret_key s := s]> (wd_secrets w) |}).

#[export] Instance world_ledger : GPULedger World := {
  list_slices _ := Ok [];
  list_claims _ := Ok [];
  list_gpu_nodes _ := Ok [];
  get_profile_model _ _ _ := Ok None;
  get_claim_template _ _ _ := Err NotFound;
  get_claim _ _ _ := Err NotFound
}.

Definition on_objects {A} (f : Objects -> A * Objects) (w : World) : A * World :=
  let '(r, o) := f (wd_objects w) in (r, {| w with wd_objects := o |}).

#[export] Instance world_infra : InfraCluster World := {
  get_object gvk ns n w := get_object gvk ns n (wd_objects w);
  list_objects gvk ns sel w := list_objects gvk ns sel (wd_objects w);
  create_object o := on_objects (create_object o);
  update_object o := on_objects (update_object o);
  delete_object gvk ns n := on_objects (delete_object gvk ns n)
}.

#[export] Instance world_infra_laws : InfraLaws World.
Proof.
  split; simpl; unfold on_objects.
  - intros gvk ns n w o. exact (get_object_at (W:=Objects) gvk ns n (wd_objects w) o).
  - intros o w w' o'. pose proof (create_object_ok (W:=Objects) o (wd_objects w)) as L. simpl in L.
    destruct (mem_create o (wd_objects w)) as [r x]. intros [= -> <-]. by apply L.
  - intros o w w' r gvk ns n. pose proof (create_object_frame (W:=Objects) o (wd_objects w)) as L. simpl in L.
    destruct (mem_create o (wd_objects w)) as [r' x]. intros [= -> <-]. by eapply L.
  - intros o w w' o'. pose proof (update_object_ok (W:=Objects) o (wd_objects w)) as L. simpl in L.
    destruct (mem_update o (wd_objects w)) as [r x]. intros [= -> <-]. by apply L.
  - intros o w w' r gvk ns n. pose proof (update_object_frame (W:=Objects) o (wd_objects w)) as L. simpl in L.
    destruct (mem_update o (wd_objects w)) as [r' x]. intros [= -> <-]. by eapply L.
  - intros gvk ns n w w' o Hg. pose proof (delete_object_ok (W:=Objects) gvk ns n (wd_objects w)) as L.
    simpl in L. destruct (mem_delete gvk ns n (wd_objects w)) as [r x]. intros [= -> <-]. by apply L.
  - intros gvk ns n w w' r o Hg Hf. pose proof (delete_object_held (W:=Objects) gvk ns n (wd_objects w)) as L.
    simpl in L. destruct (mem_delete gvk ns n (wd_objects w)) as [r' x]. intros [= -> <-]. by eapply L.
  - intros gvk ns n w w'. pose proof (delete_object_notfound (W:=Objects) gvk ns n (wd_objects w)) as L.
    simpl in L. destruct (mem_delete gvk ns n (wd_objects w)) as [r x]. intros [= -> <-]. by apply L.
  - intros gvk ns n w w' r Hg. pose proof (delete_object_missing (W:=Objects) gvk ns n (wd_objects w)) as L.
    simpl in L. destruct (mem_delete gvk ns n (wd_objects w)) as [r' x]. intros [= -> <-]. by eapply L.
  - intros gvk ns n w w' r gvk' ns' n'. pose proof (delete_object_frame (W:=Objects) gvk ns n (wd_objects w)) as L.
    simpl in L. destruct (mem_delete gvk ns n (wd_objects w)) as [r' x]. intros [= -> <-]. by eapply L.
Qed.

Definition ex_provisioner : ProvisionerOps World := SwiftGuestProvisioner.

#[export] Instance world_inner : InnerCluster World := {
  get_node name w := get_node name (wd_inner w);
  list_nodes k v w := list_nodes k v (wd_inner w);
  get_lease name w := get_lease name (wd_inner w);
  list_pods_on name w := list_pods_on name (wd_inner w);
  list_pods_pending w := list_pods_pending (wd_inner w);
  patch_node name p w :=
    let '(r, c) := patch_node name p (wd_inner w) in (r, {| w with wd_inner := c |});
  delete_node name w :=
    let '(r, c) := delete_node name (wd_inner w) in (r, {| w with wd_inner := c |})
}.

#[export] Instance world_dra : DRACluster World := {
  inner_slices _ := Ok []; inner_claims _ := Ok []; get_device_class _ _ := Ok tt
}.

Definition read_pool (ns n : string) (w : World) : result APIError GPUCellPool :=
  match wd_pools w !! object_key ns n with
  | Some p => if (pool_Namespace p, pool_Name p) == (ns, n) then Ok p else Err NotFound
  | None => Err NotFound
  end.
(** An update; the last finalizer of a pool that is being deleted takes it away. *)
Definition write_pool (p : GPUCellPool) (w : World) : result APIError GPUCellPool * World :=
  let key := object_key (pool_Namespace p) (pool_Name p) in
  if bool_decide (pool_Finalizers p = []) && negb (PtrIsZero (pool_DeletionTimestamp p))
  then (Ok p, {| w with wd_pools := delete key (wd_pools w) |})
  else (Ok p, {| w with wd_pools := <[key := p]> (wd_pools w) |}).
(** An update of the status subresource. *)
Definition write_pool_status (p : GPUCellPool) (w : World) : result APIError GPUCellPool * World :=
  match read_pool (pool_Namespace p) (pool_Name p) w with
  | Err e => (Err e, w)
  | Ok q =>
      let q := {| q with pool_Status := pool_Status p |} in
      (Ok q, {| w with wd_pools := <[object_key (pool_Namespace p) (pool_Name p) := q]> (wd_pools w) |})
  end.

Definition add_finalizer (l : list string) (f : string) : list string * bool :=
  if bool_decide (f ∈ l) then (l, false) else (l ++ [f], true).
Definition remove_finalizer (l : list string) (f : string) : list string * bool :=
  (List.filter (fun x => x != f) l, bool_decide (f ∈ l)).

(** A second passes at each reading of the clock. *)
#[export] Instance world_env : Environment World unit unit := {
  get_pool := read_pool;
  update_pool := write_pool;
  update_pool_status := write_pool_status;
  get_secret := read_secret;
  create_secret := write_secret;
  update_secret := write_secret;
  env_infra := world_infra;
  env_nested := descend_nested;
  inner _ := world_inner;
  dra _ := world_dra;
  ServerVersion _ w := if wd_up w then Ok tt else Err Timeout;
  RESTConfigFromKubeConfig _ := Some tt;
  NewForConfig _ := Some tt;
  Clock w := (wd_now w, {| w with wd_now := wd_now w + Second |});
  HasRecorder := true;
  NewControllerRef p v k := mkOwnerReference v k (pool_Name p) (pool_UID p) (Some true) (Some true);
  AddFinalizer := add_finalizer;
  RemoveFinalizer := remove_finalizer;
  SetStatusCondition := merge_condition 0;
  IsDNS1123Subdomain _ := [];
  error_text _ := "error";
  json_error_text _ := "error"
}.

#[export] Instance world_finalizers : FinalizerLaws.
Proof.
  split; intros l f; simpl; unfold add_finalizer, remove_finalizer.
  - destruct (bool_decide_reflect (f ∈ l)); simpl; [done|]. split; [|done].
    rewrite elem_of_app. right. left.
  - rewrite bool_decide_eq_true. split; [|done].
    rewrite elem_of_filter_b. intros [_ H]. guards. done.
Qed.

#[export] Instance world_pool_laws : PoolLaws.
Proof.
  split; simpl.
  - intros ns n w p. unfold read_pool. destruct (_ !! _) as [q|]; [|done].
    case_bool_decide as E; [|done]. intros [= <-]. by injection E.
  - intros p w w' p'. unfold write_pool. destruct (_ && _); by intros [= <- _].
Qed.

#[export] Instance world_secret_store : SecretStore := fun ns n w =>
  match read_secret ns n w with Ok o => Some o | Err _ => None end.

Lemma write_secret_stored o (w w' : World) :
  write_secret o w = (Ok tt, w') ->
  exists o', stored_secret (so_Namespace o) (so_Name o) w' = Some o' /\ so_Data o' = so_Data o.
Proof.
  intros [= <-]. exists o. split; [|done]. unfold stored_secret, world_secret_store, read_secret, secret_key.
  cbn [wd_secrets]. by rewrite lookup_insert_eq, bool_decide_eq_true_2.
Qed.

#[export] Instance world_secrets : SecretLaws.
Proof.
  split.
  - intros ns n w o. simpl. unfold read_secret. destruct (_ !! _) as [s|]; [|done].
    case_bool_decide as E; [|done]. intros [= <-]. by injection E.
  - apply write_secret_stored.
  - apply write_secret_stored.
Qed.

(** ** An example

    The pool of [Helpers], its join template and a kubeconfig; [ex_guests] are
    its cells, and [ex_nodes] the Nodes of the workload cluster. *)
Definition ex_join : SecretObject :=
  mkSecretObject "gpu" "join" ∅ [] "1" {[ SecretKey := "name: {{ cellName }}" ]}.
Definition ex_kubeconfig : SecretObject :=
  mkSecretObject "gpu" "kubeconfig" ∅ [] "1" {[ "value" := "config" ]}.

Definition ex_secrets : gmap (string * string) SecretObject :=
  {[ ("gpu", "join") := ex_join; ("gpu", "kubeconfig") := ex_kubeconfig ]}.

(** A guest of the pool in the state observed of it. *)
Definition ex_guest_object (name : string) (st : OuterState) : UObject :=
  let o := newUnstructured SwiftGuestGVK in
  {| o with
     u_Namespace := "gpu"; u_Name := name; u_UID := o_UID st;
     u_Labels := {[ LabelPool := "inference" ]};
     u_Annotations := {[ AnnotationTemplateHash := o_TemplateHash st ]};
     u_Finalizers := [FinalizerCellDrain];
     u_CreationTimestamp := default 0 (o_CreatedAt st);
     u_Object :=
       [("status", JObj [("phase", JStr (o_Phase st)); ("nodeName", JStr (o_HostNode st));
                         ("gpu", JObj [("devices", JArr (map JStr (o_GPUDevices st)))]);
                         ("network", JObj [("primaryIP", JStr (o_Address st))])])] |}.

Definition ex_objects (guests : gmap string OuterState) : Objects :=
  list_to_map (map (fun '(n, st) => ((SwiftGuestGVK, "gpu", n), ex_guest_object n st)) (map_to_list guests)).

Definition ex_cluster (pool : GPUCellPool) (guests : gmap string OuterState) (inner : MemCluster)
    (up : bool) : RState World unit :=
  mkRState (mkWorld {[ "gpu/inference" := pool ]} ex_secrets (ex_objects guests) inner up (1000 * Minute)) ∅.
