(* ===== verification/Controller.v ===== *)
(** * The reconcile loop (internal/controller/controller.go)

    Each handler of GPUCellPoolReconciler, in the monad of [Reconciler]. Where
    the Go code passes a nil client and provider together with reachable=false,
    the client is [None]. *)

From S2P Require Import Prelude GoStd Api KubeApi Provider Workload Provisioner Fsm Membership.
From S2P Require Import Unstructured SwiftGuest ClusterApi.
From S2P Require Import Scaling Rollout Helpers Status Inventory CellId HamiProvider Bootstrap.
From S2P Require Import CellRow Metrics Reconciler.
Local Open Scope Z_scope.
Local Open Scope go_scope.

Definition requeueProgressing : Duration := 30 * Second.
Definition requeueSteady : Duration := 2 * Minute.

(** ctrl.Result: when to come back; 0 is never. *)
Record Result := mkResult { RequeueAfter : Duration }.

Definition EventTypeNormal : string := "Normal".
Definition EventTypeWarning : string := "Warning".

Section controller.
Context `{ENV : Environment W Client Config}.

Abbreviation M := (Reconciler.M W Client) (only parsing).

(** ** Requests *)

Definition cellRequest (pool : GPUCellPool) (idx : int32) : CellRequest :=
  let name := Name (pool_Name pool) idx in
  let cell := spec_Cell (pool_Spec pool) in
  let gpu := cell_GPU cell in
  {| cr_Pool := pool_Name pool;
     cr_Namespace := pool_Namespace pool;
     cr_Index := idx;
     cr_CellName := name;
     cr_GuestTemplate := cell_GuestTemplate cell;
     cr_GPU :=
       {| gb_Backend := if gpu_Backend gpu == "" then GPUBackendDRA else gpu_Backend gpu;
          gb_ResourceClaimTemplateName :=
            match gpu_DRA gpu with Some d => dra_ResourceClaimTemplateName d | None => "" end;
          gb_ResourceClaimName :=
            match gpu_DRA gpu with Some d => dra_ResourceClaimName d | None => "" end;
          gb_RequestName := match gpu_DRA gpu with Some d => dra_RequestName d | None => "" end;
          gb_Tier := match gpu_DRA gpu with Some d => dra_Tier d | None => "" end;
          gb_Hugepages := match gpu_DRA gpu with Some d => dra_Hugepages d | None => "" end;
          gb_GPUProfileName :=
            match gpu_Native gpu with Some n => native_GPUProfileRef n | None => "" end |};
     cr_BootstrapSecretName := BootstrapSecretName name;
     cr_BootstrapSecretKey := SecretKey;
     cr_Hostname := if boot_Hostname (spec_Bootstrap (pool_Spec pool)) == "None" then "" else name;
     cr_NodeIPFrom := cell_NodeIPFrom cell;
     cr_SpreadPolicy := cell_SpreadPolicy cell;
     cr_ClusterAPI := cell_ClusterAPI cell;
     cr_TemplateHash := TemplateHash [cell_GuestTemplate cell];
     cr_OwnerRefs := [NewControllerRef pool APIVersion PoolKind] |}.

(** The method [provisioner]. *)
Definition provisioner (pool : GPUCellPool) : result RError (ProvisionerOps W) :=
  let name := cell_Provisioner (spec_Cell (pool_Spec pool)) in
  if (name == "") || (name == ProvisionerSwiftGuest) then Ok SwiftGuestProvisioner
  else if name == ProvisionerClusterAPI then Ok ClusterAPIProvisioner
  else Err (RUnknownProvisioner name).

(** The method [provider]: its answers in the present world. *)
Definition provider (cs : Client) (pool : GPUCellPool) (w : W) : Provider :=
  @hami_provider W (inner cs) (dra cs) json_error_text
    (NewHAMiProvider (hamiMode pool) (hamiDeviceClass pool)) w.

Definition ensure (prov : ProvisionerOps W) (context : string) (req : CellRequest) : M OuterState :=
  call (p_Ensure prov req) (CallEnsure (cr_CellName req)) (RProv context).

Definition list_cells (prov : ProvisionerOps W) (pool : GPUCellPool) : M (list string) :=
  r ← look (p_List prov (pool_Namespace pool) (pool_Name pool)) CallList; check (RProv "") r.

(** ** The bootstrap Secret *)

Definition bootstrap_values (pool : GPUCellPool) (idx : int32) : Values :=
  {| v_CellName := Name (pool_Name pool) idx;
     v_PoolName := pool_Name pool;
     v_NodeLabels := NodeLabelArg (NodeLabels (pool_Name pool) idx "" (nodeLabels pool));
     v_NodeIPInterface := cell_NodeIPFrom (spec_Cell (pool_Spec pool));
     v_ExpectedGPUs := expectedDevices pool |}.

Definition bootstrap_secret (pool : GPUCellPool) (idx : int32) (rendered : string) : SecretObject :=
  {| so_Namespace := pool_Namespace pool;
     so_Name := BootstrapSecretName (Name (pool_Name pool) idx);
     so_Labels := GuestLabels (pool_Name pool) idx;
     so_OwnerReferences := [NewControllerRef pool APIVersion PoolKind];
     so_ResourceVersion := "";
     so_Data := {[ SecretKey := rendered; CAPISecretKey := rendered ]} |}.

Definition ensureBootstrapSecret (pool : GPUCellPool) (idx : int32) : M unit :=
  if capiOwnsBootstrap pool then mret tt
  else
    let boot := spec_Bootstrap (pool_Spec pool) in
    match boot_JoinSecretRef boot with
    | None => mfail RNoJoinSecret
    | Some ref =>
        let srcKey := if boot_JoinSecretKey boot == "" then SecretKey else boot_JoinSecretKey boot in
        r ← ask (get_secret (pool_Namespace pool) ref);
        src ← check (RAPI ("reading join secret " +:+ pool_Namespace pool +:+ "/" +:+ ref)) r;
        match so_Data src !! srcKey with
        | None => mfail (RNoJoinKey (pool_Namespace pool) ref srcKey)
        | Some tmpl =>
            rendered ← check (RRender ("rendering cloud-init for cell " +:+ Name (pool_Name pool) idx))
                         (Render tmpl (bootstrap_values pool idx));
            let desired := bootstrap_secret pool idx rendered in
            r ← ask (get_secret (so_Namespace desired) (so_Name desired));
            match r with
            | Err e =>
                if IsNotFound e
                then call (create_secret desired) (fun _ => CallCreateSecret (so_Name desired)) (RAPI "")
                else mfail (RAPI ("reading bootstrap secret " +:+ so_Name desired) e)
            | Ok existing =>
                if default "" (so_Data existing !! SecretKey) == rendered then mret tt
                else call (update_secret {| existing with so_Data := so_Data desired |})
                       (fun _ => CallUpdateSecret (so_Name existing)) (RAPI "")
            end
        end
    end.

Definition createCell (pool : GPUCellPool) (prov : ProvisionerOps W) (idx : int32) : M unit :=
  _ ← check RName (ValidatePool IsDNS1123Subdomain (pool_Name pool));
  ensureBootstrapSecret pool idx;;
  _ ← ensure prov "" (cellRequest pool idx);
  mret tt.

(** ** The workload cluster *)

Definition cached_client (pool : GPUCellPool) (secret : SecretObject) : M (result CacheError Client) :=
  fun s =>
    let '(r, entries) :=
      For RESTConfigFromKubeConfig NewForConfig (clientKey pool) (cache_view secret)
        (wc_Key (spec_WorkloadCluster (pool_Spec pool))) (rst_clients s) in
    (Ok r, (mkRState (rst_world s) entries, [])).

(** The client when the cluster answers, and the reason and message when it
    does not. *)
Definition workloadClient (pool : GPUCellPool) : M (option Client * string * string) :=
  let wc := spec_WorkloadCluster (pool_Spec pool) in
  r ← ask (get_secret (pool_Namespace pool) (wc_KubeconfigSecretRef wc));
  match r with
  | Err e =>
      mret (None, if IsNotFound e then ReasonCredentialInvalid else ReasonUnreachable,
             error_text (RAPI ("reading kubeconfig secret " +:+ clientKey pool) e))
  | Ok secret =>
      cs ← cached_client pool secret;
      match cs with
      | Err e => mret (None, ReasonCredentialInvalid, error_text (RCache e))
      | Ok cs =>
          probe ← ask (ServerVersion cs);
          match probe with
          | Err e => mret (None, ClassifyError (Some e), error_text (RAPI "" e))
          | Ok _ => mret (Some cs, ReasonConnected, "")
          end
      end
  end.

Definition deleteNode (cs : Client) (context name : string) : M unit :=
  call (@DeleteNode W (inner cs) name) (fun _ => CallDeleteNode name) (ROp context).

(** ** Discovery *)

(** What the provider says of a Ready Node; an error leaves the zero value. *)
Definition observe_capacity (pool : GPUCellPool) (cs : Client) (name : string) (obs : Observation)
    : M Observation :=
  if ns_Exists (obs_Node obs) && ns_Ready (obs_Node obs) then
    p ← ask (provider cs pool);
    let ready := match prov_Health p [name] with Ok h => h_Ready h | Err _ => obs_ProviderReady obs end in
    let devices := match prov_Devices p name with Ok d => d | Err _ => obs_CapacityDevices obs end in
    mret {| obs with obs_ProviderReady := ready; obs_CapacityDevices := devices |}
  else mret obs.

(** What the workload cluster shows of a cell, folded into its observation:
    the Node is judged, re-labelled when it is not stale, and its capacity read. *)
Definition observe_node (pool : GPUCellPool) (cs : Client) (name : string) (idx : int32)
    (outer : OuterState) (obs : Observation) : M Observation :=
  r ← look (@GetNodeState W (inner cs) name (obs_Now obs)) (ReadNode name);
  node ← check (ROp ("cell " +:+ name)) r;
  let stale := ns_Exists node && negb (ns_KubeletLive node)
               && IsStaleNode (ns_Labels node) (o_UID outer) in
  _ ← (if ns_Exists node && negb stale
       then _ ← call (@EnsureNodeMetadata W (inner cs) name
                        (NodeLabels (pool_Name pool) idx (o_UID outer) (nodeLabels pool))
                        (nodeAnnotations pool) (nodeTaints pool))
                  (CallNodeMetadata name) (ROp ("cell " +:+ name +:+ " node metadata"));
            mret tt
       else mret tt);
  let obs := {| obs with obs_Node := node; obs_StaleNode := stale |} in
  observe_capacity pool cs name obs.

(** The method [cellStatus], with what it counts: the clock is read for a row that
    moved, and once more for its startup. *)
Definition cell_status (pool : GPUCellPool) (prev : CellStatus) (name : string) (idx : int32)
    (outer : OuterState) (obs : Observation) (dec : Decision) : M CellStatus :=
  if row_moved prev dec then
    t ← now;
    meter (transition_updates (pool_Name pool) (pool_Namespace pool) prev dec);;
    _ ← match startup_due prev outer dec with
        | Some created =>
            t' ← now;
            meter [startup_update (pool_Name pool) (pool_Namespace pool) created t']
        | None => mret tt
        end;
    mret (cellStatus prev name idx outer obs dec t)
  else mret (cellStatus prev name idx outer obs dec 0).

(** One turn of the loop over the guests. *)
Definition discoverCell (pool : GPUCellPool) (prov : ProvisionerOps W) (cl : option Client)
    (prev : CellStatus) (name : string) (idx : int32) : M CellStatus :=
  ensureBootstrapSecret pool idx;;
  outer ← ensure prov ("observing cell " +:+ name) (cellRequest pool idx);
  let prev := continue_row prev outer in
  started ← now;
  observed ← now;
  let reachable := match cl with Some _ => true | None => false end in
  let obs := base_observation pool prev outer reachable started observed in
  obs ← match cl with
        | Some cs => observe_node pool cs name idx outer obs
        | None => mret obs
        end;
  let obs := if (cs_Phase prev == CellPhaseDraining) || (cs_Phase prev == CellPhaseDeleting)
             then {| obs with obs_Current := cs_Phase prev |} else obs in
  let dec := AdvanceCell obs in
  _ ← match cl with
      | Some cs =>
          if dec_ReapStaleNode dec then
            _ ← deleteNode cs ("reaping stale node for " +:+ name) name;
            event EventTypeWarning ReasonNodeNameCollision
              ("removed a workload Node left by a previous incarnation of cell " +:+ name)
          else mret tt
      | None => mret tt
      end;
  row ← cell_status pool prev name idx outer obs dec;
  _ ← (if (cs_Phase row == CellPhaseFailed) && (cs_Phase prev != CellPhaseFailed)
       then event EventTypeWarning (failureEventReason (cs_Reason row))
              ("cell " +:+ name +:+ " failed (attempt " +:+ FormatInt (cs_FailureCount row) +:+ "): "
               +:+ cs_Message row)
       else mret tt);
  mret row.

(** The loop over the guests; a name that is not one of the pool's is skipped. *)
Fixpoint discover_loop (pool : GPUCellPool) (prov : ProvisionerOps W) (cl : option Client)
    (previous : gmap string CellStatus) (guests : list string) : M (list CellStatus) :=
  match guests with
  | [] => mret []
  | name :: rest =>
      match ParseIndex (pool_Name pool) name with
      | Err _ => discover_loop pool prov cl previous rest
      | Ok idx =>
          row ← discoverCell pool prov cl (default zeroCellStatus (previous !! name)) name idx;
          rows ← discover_loop pool prov cl previous rest;
          mret (row :: rows)
      end
  end.

(** A Node of the pool nobody accounts for and no kubelet heartbeats for. Go
    ranges over the map in any order. *)
Definition orphans (keep : gset string) (nodes : gmap string NodeState) : list string :=
  omap (fun '(name, node) =>
          if bool_decide (name ∈ keep) || ns_KubeletLive node then None else Some name)
    (map_to_list nodes).

Definition reapOrphanNodes (cs : Client) (pool : GPUCellPool) (keep : gset string) : M unit :=
  t ← now;
  r ← look (@ListPoolNodes W (inner cs) (pool_Name pool) t) ReadPoolNodes;
  match r with
  | Err _ => mret tt
  | Ok nodes =>
      each (fun name =>
              _ ← deleteNode cs ("removing orphan node " +:+ name) name;
              event EventTypeNormal ReasonNodeNameCollision
                ("removed workload Node " +:+ name +:+ ": it carries this pool's label, "
                 +:+ "belongs to no current cell, and no kubelet is heartbeating for it"))
        (orphans keep nodes)
  end.

Definition row_names (rows : list CellStatus) : gset string := list_to_set (map cs_Name rows).

Definition discoverCells (pool : GPUCellPool) (prov : ProvisionerOps W) (cl : option Client)
    : M (list CellStatus) :=
  let previous := previous_rows (st_Cells (pool_Status pool)) in
  guests ← list_cells prov pool;
  rows ← discover_loop pool prov cl previous (sort_strings guests);
  let out := rows ++ tombstones pool previous (row_names rows) in
  _ ← match cl with
      | Some cs => reapOrphanNodes cs pool (row_names out)
      | None => mret tt
      end;
  mret (sort_rows out).

(** ** Removal *)

Definition deleteCell (pool : GPUCellPool) (prov : ProvisionerOps W) (cell : CellStatus)
    (reapNode : bool) : M unit :=
  let req := cellRequest pool (cs_Index cell) in
  _ ← (if reapNode then
         '(cl, _, _) ← workloadClient pool;
         match cl with Some cs => deleteNode cs "" (cs_Name cell) | None => mret tt end
       else mret tt);
  _ ← match p_ClearDrainFinalizer prov with
      | Some clear => call (clear req) (fun _ => CallClearDrainFinalizer (cr_CellName req)) (RProv "")
      | None => mret tt
      end;
  _ ← call (p_Delete prov req) (fun _ => CallDelete (cr_CellName req)) (RProv "");
  mret tt.

(** The row as the drain leaves it: its reason and message are the decision's. *)
Definition progressDrain (pool : GPUCellPool) (prov : ProvisionerOps W) (cl : option Client)
    (cell : CellStatus) (poolDeleting : bool) (drainingSince : Time) : M CellStatus :=
  allocs ← match cl with
           | Some cs =>
               _ ← call (@Cordon W (inner cs) (cs_Name cell)) (CallCordon (cs_Name cell)) (ROp "");
               look (fun w => prov_Allocations (provider cs pool w) (cs_Name cell))
                 (ReadAllocations (cs_Name cell))
           | None => mret (Ok zeroAllocations)
           end;
  let known := match cl, allocs with Some _, Ok _ => true | _, _ => false end in
  let a := match allocs with Ok a => a | Err _ => zeroAllocations end in
  t ← now;
  let dec := AdvanceDrain a known poolDeleting (deletionPolicy pool == DeletionPolicyForce)
               drainingSince t (drainTimeout pool) in
  let cell := {| cell with cs_Reason := dd_Reason dec; cs_Message := dd_Message dec |} in
  if negb (dd_Proceed dec) then mret cell
  else _ ← deleteCell pool prov cell true; mret cell.

(** ** Deletion of the pool *)

(** The row a guest's drain starts from: its last status row, or a fresh one,
    moved into Draining. *)
Definition last_row (pool : GPUCellPool) (name : string) (idx : int32) : CellStatus :=
  let fresh := {| zeroCellStatus with cs_Name := name; cs_Index := idx; cs_Phase := CellPhaseDraining |} in
  foldl (fun cell c => if cs_Name c == name then c else cell) fresh (st_Cells (pool_Status pool)).

Definition draining_row (pool : GPUCellPool) (name : string) (idx : int32) : M CellStatus :=
  let cell := last_row pool name idx in
  if cs_Phase cell != CellPhaseDraining then
    t ← now;
    mret {| cell with cs_Phase := CellPhaseDraining; cs_LastTransitionTime := Some t |}
  else mret cell.

Fixpoint drain_guests (pool : GPUCellPool) (prov : ProvisionerOps W) (cl : option Client)
    (since : Time) (guests : list string) : M (list CellStatus) :=
  match guests with
  | [] => mret []
  | name :: rest =>
      match ParseIndex (pool_Name pool) name with
      | Err _ => drain_guests pool prov cl since rest
      | Ok idx =>
          row ← draining_row pool name idx;
          cell ← progressDrain pool prov cl row true since;
          rows ← drain_guests pool prov cl since rest;
          mret (cell :: rows)
      end
  end.

(** Best effort: an error of the update is only logged. *)
Definition writeDrainStatus (pool : GPUCellPool) (rows : list CellStatus) : M unit :=
  let status := pool_Status pool in
  let n := wrap32 (len rows) in
  let status := {| status with st_Cells := rows; st_Replicas := n; st_ReadyCells := 0;
                               st_CreatingCells := 0; st_DrainingCells := n |} in
  _ ← effect (update_pool_status {| pool with pool_Status := status |})
        (fun _ => CallUpdateStatus status);
  mret tt.

Definition forget_client (pool : GPUCellPool) : M unit :=
  fun s => (Ok tt, (mkRState (rst_world s) (Forget (clientKey pool) (rst_clients s)), [])).

Definition reconcileDeletion (pool : GPUCellPool) (prov : ProvisionerOps W) : M Result :=
  '(cl, _, _) ← workloadClient pool;
  guests ← list_cells prov pool;
  if 0 <? len guests then
    t ← now;
    rows ← drain_guests pool prov cl (transitionOr (pool_DeletionTimestamp pool) t) guests;
    writeDrainStatus pool rows;;
    mret (mkResult requeueProgressing)
  else
    let '(finalizers, removed) := RemoveFinalizer (pool_Finalizers pool) FinalizerPool in
    _ ← (if removed : bool
         then _ ← call (update_pool {| pool with pool_Finalizers := finalizers |})
                    (fun _ => CallUpdatePool finalizers) (RAPI "removing pool finalizer");
              mret tt
         else mret tt);
    forget_client pool;;
    meter (ForgetPool (pool_Namespace pool) (pool_Name pool));;
    mret (mkResult 0).

(** ** One pass over a live pool *)

(** What the capacity provider says, as far as it can be read. *)
Record Sensed := mkSensed {
  sn_Health : Health;
  sn_Capacity : Capacity;
  sn_CapacityKnown : bool;
  sn_Demand : Demand;
  sn_DemandKnown : bool;
  sn_Shape : option Device
}.
Definition zeroSensed : Sensed := mkSensed (mkHealth false "" "") zeroCapacity false zeroDemand false None.

Definition sense (pool : GPUCellPool) (p : Provider) (cells : list CellStatus) : Sensed :=
  let nodes := readyNodeNames cells in
  let health := match prov_Health p nodes with
                | Ok h => h
                | Err e => mkHealth false ReasonHAMiNotDetected (error_text (RProvider e))
                end in
  let '(cap0, capacityKnown) := match prov_Capacity p nodes with
                                | Ok c => (c, true) | Err _ => (zeroCapacity, false) end in
  let shape := if autoscalingEnabled pool
               then CellShape cap0 (st_CellDeviceShape (pool_Status pool)) else None in
  let '(demand, demandKnown) :=
    if autoscalingEnabled pool
    then match prov_PendingDemand p shape with Ok d => (d, true) | Err _ => (zeroDemand, false) end
    else (zeroDemand, false) in
  mkSensed health cap0 capacityKnown demand demandKnown shape.

(** The status a pass starts its scaling decision from: the shape a live cell
    shows is remembered. *)
Definition learn_shape (pool : GPUCellPool) (sn : Sensed) (t : Time) : GPUCellPool :=
  match RememberShape (ReferenceDevice (sn_Capacity sn)) t with
  | Some learned =>
      let status := pool_Status pool in
      {| pool with pool_Status := {| status with st_CellDeviceShape := Some learned |} |}
  | None => pool
  end.

Definition scale_input (pool : GPUCellPool) (cells : list CellStatus) (sn : Sensed)
    (freeGPUs : option int) (idle : list string) (t : Time) : ScaleInput :=
  let status := pool_Status pool in
  {| si_Replicas := spec_Replicas (pool_Spec pool);
     si_Autoscaling := spec_Autoscaling (pool_Spec pool);
     si_LiveCells := liveCells cells;
     si_Demand := sn_Demand sn;
     si_DemandKnown := sn_DemandKnown sn;
     si_ShapeKnown := match sn_Shape sn with Some _ => true | None => false end;
     si_FreeGPUs := freeGPUs;
     si_IdleCells := idle;
     si_Now := t;
     si_LastScaleUp := st_LastScaleUpTime status;
     si_LastScaleDown := st_LastScaleDownTime status;
     si_DemandFreeSince := st_DemandFreeSince status |}.

(** How long demand has been absent; unreadable demand leaves it alone. *)
Definition demand_free (sn : Sensed) (since : option Time) : M (option Time) :=
  if negb (sn_DemandKnown sn) then mret since
  else if (d_SatisfiableByOneCell (sn_Demand sn) =? 0) && (d_PendingRequests (sn_Demand sn) =? 0)
  then match since with
       | None => t ← now; mret (Some t)
       | Some s => mret (Some s)
       end
  else mret None.

(** The stamps of a scaling decision, with its event. *)
Definition record_scale (pool : GPUCellPool) (sn : Sensed) (scale : ScaleDecision) : M GPUCellPool :=
  meter (decision_updates pool scale);;
  let status := pool_Status pool in
  free ← demand_free sn (st_DemandFreeSince status);
  let status := {| status with st_DemandFreeSince := free |} in
  status ← (if sd_ScaledUp scale then
              t ← now;
              event EventTypeNormal (sd_Reason scale) (sd_Message scale);;
              mret {| status with st_LastScaleUpTime := Some t |}
            else mret status);
  status ← (if sd_ScaledDown scale then
              t ← now;
              event EventTypeNormal (sd_Reason scale) (sd_Message scale);;
              mret {| status with st_LastScaleDownTime := Some t |}
            else mret status);
  mret {| pool with pool_Status := status |}.

Definition membership_input (pool : GPUCellPool) (cells : list CellStatus) (scale : ScaleDecision)
    (freeGPUs : option int) (reachable usable : bool) (t : Time) : MembershipInput :=
  {| mi_Desired := sd_Desired scale;
     mi_Cells := cells;
     mi_Now := t;
     mi_FreeGPUs := freeGPUs;
     mi_MaxCreating := 0;
     mi_WorkloadReachable := reachable;
     mi_EverReady := everReady pool cells;
     mi_ProviderUsable := usable;
     mi_DrainPreference := sd_DrainCandidates scale |}.

Definition create_cells (pool : GPUCellPool) (prov : ProvisionerOps W) (create : list int32) : M unit :=
  each (fun idx =>
          createCell pool prov idx;;
          event EventTypeNormal ReasonCellCreating ("creating cell " +:+ Name (pool_Name pool) idx))
    create.

Fixpoint mark_drains (names : list string) (cells : list CellStatus) : M (list CellStatus) :=
  match names with
  | [] => mret cells
  | name :: rest =>
      t ← now;
      event EventTypeNormal ReasonCellDraining ("draining cell " +:+ name);;
      mark_drains rest (markDraining t name cells)
  end.

(** Failed cells whose backoff has expired. *)
Definition replace_cells (pool : GPUCellPool) (prov : ProvisionerOps W) (usable : bool)
    (cells : list CellStatus) : M unit :=
  each (fun c =>
          t ← now;
          if ShouldReplace c t usable then deleteCell pool prov c false else mret tt)
    cells.

Definition rollout_input (pool : GPUCellPool) (cells : list CellStatus) (idle : list string)
    (reachable : bool) (scale : ScaleDecision) (plan : MembershipPlan) : RolloutInput :=
  {| ri_Policy := spec_UpdatePolicy (pool_Spec pool);
     ri_DesiredHash := TemplateHash [cell_GuestTemplate (spec_Cell (pool_Spec pool))];
     ri_Cells := cells;
     ri_IdleCells := idle;
     ri_WorkloadReachable := reachable;
     ri_AtDesiredSize := (liveCells cells =? sd_Desired scale) && (len (mp_Create plan) =? 0) |}.

Definition mark_rollout (rollout : RolloutDecision) (cells : list CellStatus) : M (list CellStatus) :=
  if rd_Drain rollout != "" then
    t ← now;
    event EventTypeNormal (rd_Reason rollout) (rd_Message rollout);;
    mret (markDraining t (rd_Drain rollout) cells)
  else mret cells.

(** Draining cells: each waits for its allocations or is removed. *)
Definition drain_cells (pool : GPUCellPool) (prov : ProvisionerOps W) (cl : option Client)
    (cells : list CellStatus) : M (list CellStatus) :=
  each_map (fun c =>
              if cs_Phase c != CellPhaseDraining then mret c
              else t ← now;
                   progressDrain pool prov cl c false (transitionOr (cs_LastTransitionTime c) t))
    cells.

(** ** The published status *)

Definition physical_status (cells : list CellStatus) (freeGPUs : option int) (cap0 : Capacity)
    : PhysicalCapacityStatus :=
  {| pc_GPUs := wrap32 (held_devices cells);
     pc_FreeGPUsInCluster := match freeGPUs with Some f => Some (wrap32 f) | None => None end;
     pc_Model := match cap_ByModel cap0 with m :: _ => m_Model m | [] => "" end |}.

Definition waiting_cells (cells : list CellStatus) : int :=
  len (List.filter (fun c => (cs_Phase c == CellPhaseAllocatingGPU) || (cs_Phase c == CellPhasePending))
         cells).

Definition condition_input (pool : GPUCellPool) (cells : list CellStatus) (plan : MembershipPlan)
    (scale : ScaleDecision) (rollout : RolloutDecision) (sn : Sensed) (freeGPUs : option int)
    (reachable : bool) (reachReason reachMsg : string) : ConditionInput :=
  let n := CountCells cells in
  {| ci_Generation := pool_Generation pool;
     ci_Desired := sd_Desired scale;
     ci_Ready := n_ready n;
     ci_WorkloadReachable := reachable;
     ci_WorkloadReason := reachReason;
     ci_WorkloadMessage := reachMsg;
     ci_ProviderHealth := sn_Health sn;
     ci_CapacityKnown := sn_CapacityKnown sn;
     ci_Capacity := sn_Capacity sn;
     ci_FreeGPUs := freeGPUs;
     ci_CellsWaitingForGPU := waiting_cells cells;
     ci_Membership := plan;
     ci_Progressing := (0 <? n_creating n) || (0 <? n_draining n) || (0 <? len (mp_Create plan));
     ci_Rollout := rollout;
     ci_Autoscaling := autoscalingEnabled pool;
     ci_Scale := scale;
     ci_DemandKnown := sn_DemandKnown sn |}.

(** [writeStatus], which changes the pool in memory and publishes the metrics. *)
Definition writeStatus (pool : GPUCellPool) (cells : list CellStatus) (plan : MembershipPlan)
    (scale : ScaleDecision) (rollout : RolloutDecision) (sn : Sensed) (freeGPUs : option int)
    (reachable : bool) (reachReason reachMsg : string) : M GPUCellPool :=
  let n := CountCells cells in
  let old := pool_Status pool in
  demand ← (if autoscalingEnabled pool && sn_DemandKnown sn then
              t ← now;
              mret (Some (mkDemandStatus (wrap32 (d_PendingRequests (sn_Demand sn)))
                            (wrap32 (d_SatisfiableByOneCell (sn_Demand sn))) (Some t)))
            else mret (st_Demand old));
  capacity ← (if sn_CapacityKnown sn then
                t ← now;
                mret (Some (WorkloadCapacityStatusOf (providerName pool) (hamiMode pool)
                              (sn_Capacity sn) t))
              else mret (st_WorkloadCapacity old));
  meter (publishMetrics pool cells scale freeGPUs (sn_Capacity sn) (sn_CapacityKnown sn));;
  mret {| pool with pool_Status :=
            {| old with
               st_ObservedGeneration := pool_Generation pool;
               st_Replicas := n_total n;
               st_ReadyCells := n_ready n;
               st_CreatingCells := n_creating n;
               st_DrainingCells := n_draining n;
               st_FailedCells := n_failed n;
               st_Cells := cells;
               st_DesiredReplicas := sd_Desired scale;
               st_Demand := demand;
               st_PhysicalCapacity := Some (physical_status cells freeGPUs (sn_Capacity sn));
               st_WorkloadCapacity := capacity;
               st_Conditions :=
                 ApplyConditions SetStatusCondition (st_Conditions old)
                   (ComputeConditions (condition_input pool cells plan scale rollout sn freeGPUs
                                         reachable reachReason reachMsg)) |} |}.

(** When to look again. *)
Definition requeue_after (cells : list CellStatus) (plan : MembershipPlan) : Duration :=
  let n := CountCells cells in
  let requeue := if (0 <? n_creating n) || (0 <? n_draining n) || (0 <? len (mp_Create plan))
                 then requeueProgressing else requeueSteady in
  if (0 <? mp_RequeueAfter plan) && (mp_RequeueAfter plan <? requeue)
  then mp_RequeueAfter plan else requeue.

(** ** Reconcile *)

(** The pass over a pool that is not being deleted, from its rediscovery on. *)
Definition reconcilePool (pool : GPUCellPool) (prov : ProvisionerOps W) : M Result :=
  '(cl, reachReason, reachMsg) ← workloadClient pool;
  let reachable := match cl with Some _ => true | None => false end in
  cells ← discoverCells pool prov cl;
  freeGPUs ← ask (free_gpus pool);
  sn ← ask (fun w => match cl with
                     | Some cs => sense pool (provider cs pool w) cells
                     | None => zeroSensed
                     end);
  meter (if reachable then scrape_updates pool (sn_CapacityKnown sn) (sn_DemandKnown sn) else []);;
  t ← now;
  let pool := learn_shape pool sn t in
  meter (reach_updates pool reachable);;
  idle ← ask (fun w => match cl with
                       | Some cs => if needsIdleness pool then idleCells (provider cs pool w) cells else []
                       | None => []
                       end);
  t ← now;
  let scale := DecideScale (scale_input pool cells sn freeGPUs idle t) in
  pool ← record_scale pool sn scale;
  t ← now;
  let usable := h_Ready (sn_Health sn) in
  let plan := PlanMembership (membership_input pool cells scale freeGPUs reachable usable t) in
  create_cells pool prov (mp_Create plan);;
  cells ← (if 0 <? len (mp_Create plan) then discoverCells pool prov cl else mret cells);
  cells ← mark_drains (mp_Drain plan) cells;
  replace_cells pool prov usable cells;;
  let rollout := PlanRollout (rollout_input pool cells idle reachable scale plan) in
  cells ← mark_rollout rollout cells;
  cells ← drain_cells pool prov cl cells;
  pool ← writeStatus pool cells plan scale rollout sn freeGPUs reachable reachReason reachMsg;
  _ ← call (update_pool_status pool) (fun _ => CallUpdateStatus (pool_Status pool))
        (RAPI "updating status");
  mret (mkResult (requeue_after cells plan)).

Definition Reconcile (namespace name : string) : M Result :=
  got ← ask (get_pool namespace name);
  match got with
  | Err e => if IsNotFound e then mret (mkResult 0) else mfail (RAPI "" e)
  | Ok pool =>
      match provisioner pool with
      | Err e => event EventTypeWarning ReasonUnknownProvisioner (error_text e);; mfail e
      | Ok prov =>
          if negb (PtrIsZero (pool_DeletionTimestamp pool)) then reconcileDeletion pool prov
          else
            let '(finalizers, added) := AddFinalizer (pool_Finalizers pool) FinalizerPool in
            pool ← (if added : bool
                    then call (update_pool {| pool with pool_Finalizers := finalizers |})
                           (fun _ => CallUpdatePool finalizers) (RAPI "adding pool finalizer")
                    else mret pool);
            reconcilePool pool prov
      end
  end.

(** ** Logs of the small handlers *)

(** What cell_status counts. *)
Definition row_update (pool : GPUCellPool) (u : Update) : Prop :=
  proper_update (pool_Name pool) (pool_Namespace pool) u
  /\ (update_vec u = CellTransitionsTotal \/ update_vec u = CellStartupSeconds).

Lemma transition_updates_row pool prev dec u :
  u ∈ transition_updates (pool_Name pool) (pool_Namespace pool) prev dec -> row_update pool u.
Proof.
  unfold transition_updates. destruct (_ != _); [|by intros ?%elem_of_nil].
  intros ->%list_elem_of_singleton. split; [|by left].
  split; [done|]. split; [done|]. unfold registered. set_solver.
Qed.
Lemma startup_update_row pool created t :
  row_update pool (startup_update (pool_Name pool) (pool_Namespace pool) created t).
Proof.
  split; [|by right]. split; [done|]. split; [done|]. unfold registered. set_solver.
Qed.

Lemma holds_cell_status (P : list Call -> Prop) `{!Composable P} pool prev name idx outer obs dec :
  (forall u, row_update pool u -> P [CallMetric u]) -> holds P (cell_status pool prev name idx outer obs dec).
Proof.
  intros Hu. pose proof transition_updates_row. pose proof startup_update_row.
  unfold cell_status. compose. match goal with H : _ ∈ [_] |- _ => apply list_elem_of_singleton in H as -> end.
  auto.
Qed.

Lemma holds_draining_row (P : list Call -> Prop) `{!Composable P} pool name idx :
  holds P (draining_row pool name idx).
Proof. unfold draining_row. compose. Qed.

Lemma holds_forget_client (P : list Call -> Prop) `{!Composable P} pool : holds P (forget_client pool).
Proof. intros s. apply composable_nil. Qed.

Lemma holds_demand_free (P : list Call -> Prop) `{!Composable P} sn since : holds P (demand_free sn since).
Proof. unfold demand_free. compose. Qed.
End controller.

#[export] Hint Extern 2 (holds _ (cell_status _ _ _ _ _ _ _)) =>
  apply holds_cell_status; [apply _ | intros ? ?; eauto with holds] : holds.
#[export] Hint Extern 2 (holds _ (draining_row _ _ _)) => apply holds_draining_row; apply _ : holds.
#[export] Hint Extern 2 (holds _ (demand_free _ _)) => apply holds_demand_free; apply _ : holds.
#[export] Hint Extern 2 (holds _ (forget_client _)) => apply holds_forget_client; apply _ : holds.
