(* ===== verification/Stable.v ===== *)
(** * What a pass leaves alone

    A property of the world that every operation of the reconciler keeps, except
    those a client of this file excludes by their entry in the log, is kept by
    every handler and by the whole pass. [StableOps] is what a property has to
    show of each operation; [CellGuard], [Lifecycle],
    [Deletion] and [Standing] are its clients. *)

From S2P Require Import Prelude GoStd Api KubeApi Provider Workload Provisioner Fsm Membership.
From S2P Require Import Scaling Rollout Helpers Status Inventory CellId HamiProvider Bootstrap.
From S2P Require Import CellRow Metrics Reconciler Controller.
Local Open Scope Z_scope.
Local Open Scope go_scope.

Section stable.
Context `{ENV : Environment W Client Config}.
Context (I : W -> Prop) (bad : Call -> Prop) (prov : ProvisionerOps W).
Implicit Types (pool : GPUCellPool) (cs : Client).

(** ** The interface

    The operations on both clusters, one by one. The updates of the pool itself
    are left to the client. *)
Class StableOps : Prop := {
  so_clock : forall w, I w -> I (Clock w).2;
  so_status : forall p w, I w -> I (update_pool_status p w).2;
  so_create_secret : forall o w, I w -> I (create_secret o w).2;
  so_update_secret : forall o w, I w -> I (update_secret o w).2;
  so_patch : forall cs name p w, I w -> I (@patch_node W (inner cs) name p w).2;
  so_delete_node : forall cs name w, I w -> I (@delete_node W (inner cs) name w).2;
  so_ensure : forall req w, ~ bad (CallEnsure (cr_CellName req) (p_Ensure prov req w).1) -> I w -> I (p_Ensure prov req w).2;
  so_delete : forall req w, ~ bad (CallDelete (cr_CellName req)) -> I w -> I (p_Delete prov req w).2;
  so_clear : forall clear req w, p_ClearDrainFinalizer prov = Some clear ->
    ~ bad (CallClearDrainFinalizer (cr_CellName req)) -> I w -> I (clear req w).2
}.

(** A computation that makes no bad call keeps the property. *)
Definition keeps {A} (m : M W Client A) : Prop :=
  forall s, I (rst_world s) -> Forall (fun c => ~ bad c) (log m s) -> I (rst_world (final m s)).

(** ** The monad *)

Lemma keeps_same {A} (m : M W Client A) : (forall s, rst_world (final m s) = rst_world s) -> keeps m.
Proof. intros Hm s Hi _. by rewrite Hm. Qed.
Lemma keeps_ret {A} (a : A) : keeps (mret a).
Proof. by apply keeps_same. Qed.
Lemma keeps_fail {A} e : keeps (@mfail W Client A e).
Proof. by apply keeps_same. Qed.
Lemma keeps_ask {A} (f : W -> A) : keeps (ask f).
Proof. by apply keeps_same. Qed.
Lemma keeps_look {A} (f : W -> A) entry : keeps (look f entry).
Proof. by apply keeps_same. Qed.
Lemma keeps_tell c : keeps (tell c).
Proof. by apply keeps_same. Qed.
Lemma keeps_meter us : keeps (meter us).
Proof. by apply keeps_same. Qed.
Lemma keeps_event kind reason msg : keeps (event kind reason msg).
Proof. unfold event. destruct HasRecorder; [apply keeps_tell|apply keeps_ret]. Qed.
Lemma keeps_check {E A} (wrap : E -> RError) (r : result E A) : keeps (check wrap r).
Proof. destruct r; [apply keeps_ret|apply keeps_fail]. Qed.

Lemma keeps_bind {A B} (m : M W Client A) (f : A -> M W Client B) :
  keeps m -> (forall a, keeps (f a)) -> keeps (m ≫= f).
Proof.
  intros Hm Hf s Hi. rewrite log_bind, Forall_app, final_bind. intros [H1 H2].
  specialize (Hm s Hi H1). destruct (value m s) as [a|e]; [|done]. by apply Hf.
Qed.

Lemma keeps_effect {E A} (f : W -> result E A * W) entry :
  (forall w, I w -> ~ bad (entry (f w).1) -> I (f w).2) -> keeps (effect f entry).
Proof.
  intros Hf s Hi. unfold log, final, effect. specialize (Hf _ Hi). destruct (f (rst_world s)) as [r w].
  simpl. intros [Hb _]%Forall_cons. by apply Hf.
Qed.

Lemma keeps_call {E A} (f : W -> result E A * W) entry wrap :
  (forall w, I w -> ~ bad (entry (f w).1) -> I (f w).2) -> keeps (call f entry wrap).
Proof. intros Hf. apply keeps_bind; [by apply keeps_effect|intros r; apply keeps_check]. Qed.

(** An operation that keeps the property whatever is logged of it. *)
Lemma keeps_call_always {E A} (f : W -> result E A * W) entry wrap :
  (forall w, I w -> I (f w).2) -> keeps (call f entry wrap).
Proof.
  intros Hf. apply keeps_bind; [|intros r; apply keeps_check].
  intros s Hi _. unfold final, effect. specialize (Hf _ Hi). by destruct (f (rst_world s)).
Qed.
Lemma keeps_effect_always {E A} (f : W -> result E A * W) entry :
  (forall w, I w -> I (f w).2) -> keeps (effect f entry).
Proof.
  intros Hf s Hi _. unfold final, effect. specialize (Hf _ Hi). by destruct (f (rst_world s)).
Qed.

Lemma keeps_each {A} (f : A -> M W Client unit) l : (forall a, keeps (f a)) -> keeps (each f l).
Proof. induction l; intros Hf; [apply keeps_ret|]. apply keeps_bind; auto. Qed.
Lemma keeps_each_map {A B} (f : A -> M W Client B) l : (forall a, keeps (f a)) -> keeps (each_map f l).
Proof.
  induction l; intros Hf; [apply keeps_ret|]. apply keeps_bind; [done|intros b].
  apply keeps_bind; [auto|intros bs; apply keeps_ret].
Qed.

(** ** The operations *)

Context `{SO : StableOps}.

Lemma keeps_now : keeps now.
Proof. intros s Hi _. rewrite world_now. by apply so_clock. Qed.

Lemma keeps_ensure context req : keeps (ensure prov context req).
Proof. apply keeps_call. intros w Hi Hb. by apply so_ensure. Qed.

Lemma keeps_delete req wrap : keeps (call (p_Delete prov req) (fun _ => CallDelete (cr_CellName req)) wrap).
Proof. apply keeps_call. intros w Hi Hb. by apply so_delete. Qed.

Lemma keeps_clear clear req wrap :
  p_ClearDrainFinalizer prov = Some clear ->
  keeps (call (clear req) (fun _ => CallClearDrainFinalizer (cr_CellName req)) wrap).
Proof.
  intros Hc. apply keeps_call. intros w Hi Hb. by apply so_clear.
Qed.

Lemma keeps_create_secret o entry wrap : keeps (call (create_secret o) entry wrap).
Proof. apply keeps_call_always. intros w. apply so_create_secret. Qed.
Lemma keeps_update_secret o entry wrap : keeps (call (update_secret o) entry wrap).
Proof. apply keeps_call_always. intros w. apply so_update_secret. Qed.
Lemma keeps_status p entry wrap : keeps (call (update_pool_status p) entry wrap).
Proof. apply keeps_call_always. intros w. apply so_status. Qed.
Lemma keeps_status_effect p entry : keeps (effect (update_pool_status p) entry).
Proof. apply keeps_effect_always. intros w. apply so_status. Qed.

Lemma keeps_metadata cs name l a t entry wrap :
  keeps (call (@EnsureNodeMetadata W (inner cs) name l a t) entry wrap).
Proof.
  apply keeps_call_always. intros w Hi. unfold EnsureNodeMetadata.
  destruct (get_node _ _) as [n|e]; [|done]. destruct (empty_patch _); [done|].
  pose proof (so_patch cs name (metadata_patch n l a t) w Hi) as F. by destruct (patch_node _ _ _) as [[] w'].
Qed.

Lemma keeps_cordon cs name entry wrap : keeps (call (@Cordon W (inner cs) name) entry wrap).
Proof.
  apply keeps_call_always. intros w Hi. unfold Cordon.
  destruct (get_node _ _) as [n|e]; [|by destruct (IsNotFound e)]. destruct (node_Unschedulable n); [done|].
  pose proof (so_patch cs name (mkNodePatch None None None (Some true)) w Hi) as F.
  by destruct (patch_node _ _ _) as [[] w'].
Qed.

Lemma keeps_deleteNode cs context name : keeps (deleteNode cs context name).
Proof.
  apply keeps_call_always. intros w Hi. unfold DeleteNode. pose proof (so_delete_node cs name w Hi) as F.
  destruct (delete_node _ _) as [[|e] w']; [done|]. by destruct (IsNotFound e).
Qed.
End stable.

(** ** The handlers *)

(** Walks through a handler, as [compose] does for logs. *)
Create HintDb stable.
#[export] Hint Resolve keeps_ret keeps_fail keeps_ask keeps_look keeps_tell keeps_meter keeps_event
  keeps_check keeps_now keeps_ensure keeps_delete keeps_clear keeps_create_secret keeps_update_secret
  keeps_status keeps_status_effect keeps_metadata keeps_cordon keeps_deleteNode : stable.
Ltac stable_step :=
  match goal with
  | |- forall _, _ => intros ?
  | |- keeps _ _ (mbind _ _) => apply keeps_bind
  | |- keeps _ _ (each _ _) => apply keeps_each
  | |- keeps _ _ (each_map _ _) => apply keeps_each_map
  | |- keeps _ _ (match ?x with _ => _ end) => destruct x eqn:?
  | |- keeps _ _ (let _ := _ in _) => cbv zeta
  end.
Ltac stable := repeat (stable_step || solve [eauto with stable]).

Section handlers.
Context `{ENV : Environment W Client Config}.
Context (I : W -> Prop) (bad : Call -> Prop) (prov : ProvisionerOps W) `{SO : !StableOps I bad prov}.
Implicit Types (pool : GPUCellPool) (cs : Client).
Local Abbreviation keeps := (Stable.keeps (Client := Client) I bad).

Lemma ensureBootstrapSecret_keeps pool idx : keeps (ensureBootstrapSecret pool idx).
Proof. unfold ensureBootstrapSecret. stable. Qed.
Lemma list_cells_keeps pool : keeps (list_cells prov pool).
Proof. unfold list_cells. stable. Qed.
Lemma cached_client_keeps pool secret : keeps (cached_client pool secret).
Proof. apply keeps_same. intros s. unfold cached_client, final. by destruct (For _ _ _ _ _ _). Qed.
Lemma cell_status_keeps pool prev name idx outer obs dec :
  keeps (cell_status pool prev name idx outer obs dec).
Proof. unfold cell_status. stable. Qed.
Lemma draining_row_keeps pool name idx : keeps (draining_row pool name idx).
Proof. unfold draining_row. stable. Qed.
Lemma demand_free_keeps sn since : keeps (demand_free sn since).
Proof. unfold demand_free. stable. Qed.
Lemma forget_client_keeps pool : keeps (forget_client pool).
Proof. by apply keeps_same. Qed.
Hint Resolve ensureBootstrapSecret_keeps list_cells_keeps cached_client_keeps cell_status_keeps
  draining_row_keeps demand_free_keeps forget_client_keeps : stable.

Lemma workloadClient_keeps pool : keeps (workloadClient pool).
Proof. unfold workloadClient. stable. Qed.
Lemma createCell_keeps pool idx : keeps (createCell pool prov idx).
Proof. unfold createCell. stable. Qed.
Lemma observe_node_keeps pool cs name idx outer obs : keeps (observe_node pool cs name idx outer obs).
Proof. unfold observe_node, observe_capacity. stable. Qed.
Hint Resolve workloadClient_keeps createCell_keeps observe_node_keeps : stable.

Lemma discoverCell_keeps pool cl prev name idx : keeps (discoverCell pool prov cl prev name idx).
Proof. unfold discoverCell. stable. Qed.
Hint Resolve discoverCell_keeps : stable.
Lemma discover_loop_keeps pool cl previous guests : keeps (discover_loop pool prov cl previous guests).
Proof. induction guests; simpl; stable. Qed.
Lemma reapOrphanNodes_keeps cs pool keep : keeps (reapOrphanNodes cs pool keep).
Proof. unfold reapOrphanNodes. stable. Qed.
Hint Resolve discover_loop_keeps reapOrphanNodes_keeps : stable.
Lemma discoverCells_keeps pool cl : keeps (discoverCells pool prov cl).
Proof. unfold discoverCells. stable. Qed.
Lemma deleteCell_keeps pool c reap : keeps (deleteCell pool prov c reap).
Proof. unfold deleteCell. stable. Qed.
Hint Resolve discoverCells_keeps deleteCell_keeps : stable.
Lemma progressDrain_keeps pool cl c deleting since : keeps (progressDrain pool prov cl c deleting since).
Proof. unfold progressDrain. stable. Qed.
Hint Resolve progressDrain_keeps : stable.
Lemma drain_guests_keeps pool cl since guests : keeps (drain_guests pool prov cl since guests).
Proof. induction guests; simpl; stable. Qed.
Lemma mark_drains_keeps names cells : keeps (mark_drains names cells).
Proof. revert cells. induction names; intros; simpl; stable. Qed.
Lemma writeDrainStatus_keeps pool rows : keeps (writeDrainStatus pool rows).
Proof. unfold writeDrainStatus. stable. Qed.
Hint Resolve drain_guests_keeps mark_drains_keeps writeDrainStatus_keeps : stable.

(** A pass over a live pool. *)
Lemma reconcilePool_keeps pool : keeps (reconcilePool pool prov).
Proof.
  unfold reconcilePool, create_cells, replace_cells, record_scale, mark_rollout, drain_cells, writeStatus.
  stable.
Qed.

(** A pass over a pool that is being deleted; the update that releases it is the
    client's. *)
Lemma reconcileDeletion_keeps pool :
  (forall p w, I w -> I (update_pool p w).2) -> keeps (reconcileDeletion pool prov).
Proof.
  intros Hu. unfold reconcileDeletion.
  assert (forall p entry wrap, keeps (call (update_pool p) entry wrap)) as Hup
    by (intros p entry wrap; apply keeps_call_always; intros w; apply Hu).
  stable.
Qed.
End handlers.
#[export] Hint Resolve reconcilePool_keeps reconcileDeletion_keeps workloadClient_keeps list_cells_keeps
  drain_guests_keeps writeDrainStatus_keeps forget_client_keeps : stable.
