(* ===== verification/ControllerSafety.v ===== *)
(** * What the reconcile loop may do

    Statements on the log of a pass: what justifies the deletion of a workload
    Node, what an unreachable workload cluster freezes, how a cell is removed,
    and when the pool's finalizer goes. *)

From S2P Require Import Prelude GoStd Api KubeApi Provider Workload Provisioner Fsm Membership.
From S2P Require Import Scaling Rollout Helpers Status Inventory CellId HamiProvider Bootstrap.
From S2P Require Import CellRow Reconciler ExampleWorld Controller.
Local Open Scope Z_scope.
Local Open Scope go_scope.

(** ** Justified logs *)

(** The Node was cordoned, and read after that as holding nothing. *)
Definition drained (node : string) (l : list Call) : Prop :=
  exists l1 l2 l3 a, l = l1 ++ CallCordon node (Ok tt) :: l2 ++ ReadAllocations node (Ok a) :: l3
                /\ Empty a = true.

(** A Node that no kubelet heartbeats for and that carries the UID of another guest than
    the one the cell has. *)
Definition phantom (outer : OuterState) (st : NodeState) : Prop :=
  ns_Exists st = true /\ ns_KubeletLive st = false /\ IsStaleNode (ns_Labels st) (o_UID outer) = true.

(** The Node was read as a phantom next to what the provisioner had just answered of the
    very cell it is named for. *)
Definition read_phantom (pn node : string) (l : list Call) : Prop :=
  exists l1 l2 idx outer st,
    l = l1 ++ CallEnsure (Name pn idx) (Ok outer) :: ReadNode node (Ok st) :: l2
    /\ ParseIndex pn node = Ok idx /\ phantom outer st.

(** The Node was read among those of the pool, without a live kubelet, and is not that of
    a cell the provisioner had listed. *)
Definition read_orphan (pn node : string) (l : list Call) : Prop :=
  exists guests nodes st, CallList (Ok guests) ∈ l /\ ReadPoolNodes (Ok nodes) ∈ l
    /\ (node ∈ guests -> is_ok (ParseIndex pn node) = false)
    /\ nodes !! node = Some st /\ ns_KubeletLive st = false.

(** What must have been read before a workload Node of the pool named [pn] is deleted. *)
Definition evidence (pn node : string) (l : list Call) : Prop :=
  read_phantom pn node l \/ read_orphan pn node l \/ drained node l.

(** Every deletion of a Node in the log comes after the evidence for it. *)
Definition justified (pn : string) (l : list Call) : Prop :=
  forall l1 node l2, l = l1 ++ CallDeleteNode node :: l2 -> evidence pn node l1.

Lemma drained_app node l k : drained node l -> drained node (l ++ k).
Proof.
  intros (l1 & l2 & l3 & a & -> & Ha). exists l1, l2, (l3 ++ k), a. split; [|done].
  by rewrite <- !app_assoc, <- app_comm_cons, <- app_assoc.
Qed.
Lemma drained_app_l node l k : drained node k -> drained node (l ++ k).
Proof. intros (l1 & l2 & l3 & a & -> & Ha). exists (l ++ l1), l2, l3, a. by rewrite <- app_assoc. Qed.

Lemma evidence_app pn node l k : evidence pn node l -> evidence pn node (l ++ k).
Proof.
  intros [(l1 & l2 & idx & o & st & -> & ? & ?)|[(g & nodes & st & ? & ? & ? & ? & ?)|?]].
  - left. exists l1, (l2 ++ k), idx, o, st. by rewrite <- app_assoc.
  - right. left. exists g, nodes, st. rewrite !elem_of_app. auto 10.
  - right. right. by apply drained_app.
Qed.
Lemma evidence_app_l pn node l k : evidence pn node k -> evidence pn node (l ++ k).
Proof.
  intros [(l1 & l2 & idx & o & st & -> & ? & ?)|[(g & nodes & st & ? & ? & ? & ? & ?)|?]].
  - left. exists (l ++ l1), l2, idx, o, st. by rewrite <- app_assoc.
  - right. left. exists g, nodes, st. rewrite !elem_of_app. auto 10.
  - right. right. by apply drained_app_l.
Qed.

Lemma evidence_nil pn node : ~ evidence pn node [].
Proof.
  intros [(x & y & idx & o & st & E & _)|[(g & n & st & Hi & _)|(x & y & z & a & E & _)]].
  - by destruct x.
  - by apply elem_of_nil in Hi.
  - by destruct x.
Qed.

Section justified.
Context (pn : string).
Local Abbreviation justified := (ControllerSafety.justified pn).
Local Abbreviation evidence := (ControllerSafety.evidence pn).

#[export] Instance justified_composable : Composable justified.
Proof.
  split.
  - intros l1 node l2 E. by destruct l1.
  - intros l k Hl Hk l1 node l2 E. apply app_eq_inv in E as [(m & -> & E)|(m & -> & E)].
    + destruct m as [|c m]; simplify_eq/=.
      * by destruct (evidence_nil pn node (Hk [] node l2 eq_refl)).
      * by apply (Hl l1 node m).
    + apply evidence_app_l. by apply (Hk m node l2).
Qed.

(** A log without deletions is justified. *)
Definition deletes_node (c : Call) : bool := match c with CallDeleteNode _ => true | _ => false end.
Lemma justified_quiet l : Forall (fun c => deletes_node c = false) l -> justified l.
Proof.
  intros Hl l1 node l2 ->. rewrite Forall_app, Forall_cons in Hl. by destruct Hl as [_ [Hl _]].
Qed.

Lemma justified_single c : deletes_node c = false -> justified [c].
Proof. intros Hc. apply justified_quiet. by constructor. Qed.

Lemma justified_after l node : evidence node l -> justified l -> justified (l ++ [CallDeleteNode node]).
Proof.
  intros He Hl l1 n l2 E. apply app_eq_inv in E as [(m & -> & E)|(m & -> & E)].
  - destruct m as [|c m]; simplify_eq/=; [by rewrite app_nil_r in *|by apply (Hl l1 n m)].
  - destruct m as [|c m]; simplify_eq/=; [by rewrite app_nil_r|by destruct m].
Qed.

(** A continuation is justified given evidence for some nodes. *)
Definition given (E : string -> Prop) (k : list Call) : Prop :=
  forall l, (forall n, E n -> evidence n l) -> justified l -> justified (l ++ k).

#[export] Instance given_composable E : Composable (given E).
Proof.
  split.
  - intros l _ Hl. by rewrite app_nil_r.
  - intros a b Ha Hb l He Hl. rewrite app_assoc. apply Hb; [|by apply Ha].
    intros n Hn. apply evidence_app. auto.
Qed.

Lemma given_justified E k : justified k -> given E k.
Proof. intros Hk l _ Hl. by apply composable_app. Qed.

Lemma given_delete (E : string -> Prop) n : E n -> given E [CallDeleteNode n].
Proof. intros Hn l He Hl. apply justified_after; auto. Qed.
End justified.
#[export] Hint Resolve justified_single : holds.

Section node_deletions.
Context `{ENV : Environment W Client Config}.
Context (pn : string).
Implicit Types (pool : GPUCellPool) (prov : ProvisionerOps W) (cs : Client).
Local Abbreviation justified := (ControllerSafety.justified pn).
Local Abbreviation evidence := (ControllerSafety.evidence pn).
Local Abbreviation given := (ControllerSafety.given pn).

Lemma ensureBootstrapSecret_justified pool idx : holds justified (ensureBootstrapSecret pool idx).
Proof. unfold ensureBootstrapSecret. compose. Qed.
Hint Resolve ensureBootstrapSecret_justified : holds.

Lemma list_cells_spec prov pool s :
  value (list_cells prov pool) s
  = match p_List prov (pool_Namespace pool) (pool_Name pool) (rst_world s) with
    | Ok l => Ok l | Err e => Err (RProv "" e) end
  /\ log (list_cells prov pool) s
     = [CallList (p_List prov (pool_Namespace pool) (pool_Name pool) (rst_world s))]
  /\ final (list_cells (Client:=Client) prov pool) s = s.
Proof.
  unfold list_cells. rewrite value_bind, log_bind, final_bind.
  cbn [value log final look fst snd].
  destruct (p_List _ _ _ _); done.
Qed.

Lemma ensure_justified prov context req : holds (Client:=Client) justified (ensure prov context req).
Proof. unfold ensure. compose. Qed.
Lemma list_cells_justified prov pool : holds (Client:=Client) justified (list_cells prov pool).
Proof. unfold list_cells. compose. Qed.
Lemma cached_client_justified pool secret : holds justified (cached_client pool secret).
Proof. intros s. unfold cached_client, log. destruct (For _ _ _ _ _ _). apply composable_nil. Qed.
Hint Resolve ensure_justified list_cells_justified cached_client_justified : holds.

Lemma workloadClient_justified pool : holds justified (workloadClient pool).
Proof. unfold workloadClient. compose. Qed.
Lemma createCell_justified pool prov idx : holds justified (createCell pool prov idx).
Proof. unfold createCell. compose. Qed.
Hint Resolve workloadClient_justified createCell_justified : holds.

Lemma holds_given {A} E (m : M W Client A) : holds justified m -> holds (given E) m.
Proof. intros Hm s. apply given_justified, Hm. Qed.

(** What was logged before, and what a first step reads, is evidence for what follows. *)
Lemma evidence_run {A B} (E : A -> string -> Prop) k (m : M W Client A) (f : A -> M W Client B) s :
  justified k -> justified (log m s) ->
  (forall a n, value m s = Ok a -> E a n -> evidence n (k ++ log m s)) ->
  (forall a, value m s = Ok a -> holds (given (E a)) (f a)) -> justified (k ++ log (m ≫= f) s).
Proof.
  intros Hk Hm He Hf. rewrite log_bind, app_assoc.
  assert (justified (k ++ log m s)) as Hkm by by apply composable_app.
  destruct (value m s) as [a|e] eqn:Ev; [|by rewrite app_nil_r].
  apply (Hf a eq_refl); [|done]. intros n Hn. by apply (He a n).
Qed.
Lemma holds_evidence {A B} (E : A -> string -> Prop) (m : M W Client A) (f : A -> M W Client B) :
  holds justified m ->
  (forall s a n, value m s = Ok a -> E a n -> evidence n (log m s)) ->
  (forall a, holds (given (E a)) (f a)) -> holds justified (m ≫= f).
Proof.
  intros Hm He Hf s. apply (evidence_run E [] m f s); [apply composable_nil|apply Hm|intros a n; apply He|auto].
Qed.

Lemma deleteNode_given E cs context n : E n -> holds (given E) (deleteNode cs context n).
Proof. intros Hn. unfold deleteNode. apply holds_call; [apply _|]. intros _. by apply given_delete. Qed.

Lemma event_given E kind reason msg : holds (given E) (event kind reason msg : M W Client unit).
Proof. apply holds_given. compose. Qed.
Hint Resolve event_given : holds.

(** *** Discovery *)

Lemma observe_capacity_justified pool cs name obs : holds justified (observe_capacity pool cs name obs).
Proof. unfold observe_capacity. compose. Qed.
Hint Resolve observe_capacity_justified : holds.

Lemma observe_capacity_stale pool cs name obs s obs' :
  value (observe_capacity pool cs name obs) s = Ok obs' -> obs_StaleNode obs' = obs_StaleNode obs.
Proof. unfold observe_capacity. destruct (_ && _); [rewrite value_bind|]; by intros [= <-]. Qed.

Lemma observe_node_justified pool cs name idx outer obs :
  holds justified (observe_node pool cs name idx outer obs).
Proof. unfold observe_node. compose. Qed.

Lemma observe_node_stale pool cs name idx outer obs s obs' :
  value (observe_node pool cs name idx outer obs) s = Ok obs' -> obs_StaleNode obs' = true ->
  exists st l, log (observe_node pool cs name idx outer obs) s = ReadNode name (Ok st) :: l /\ phantom outer st.
Proof.
  unfold observe_node. rewrite value_bind, log_bind. cbn [value look fst log snd final].
  set (r := GetNodeState _ _ _). destruct r as [node|e]; [|done].
  rewrite value_bind. cbn [check value mret M_ret fst final snd]. cbv zeta. rewrite value_bind.
  destruct (value _ _); [|done].
  set (stale := ns_Exists node && negb (ns_KubeletLive node) && _).
  intros E Hs. apply observe_capacity_stale in E. rewrite Hs in E. simpl in E. symmetry in E.
  eexists node, _. split; [reflexivity|]. unfold stale in E. guards. by split_and!.
Qed.

Lemma AdvanceCell_reap obs : dec_ReapStaleNode (AdvanceCell obs) = true -> obs_StaleNode obs = true.
Proof.
  assert (forall p b r m, dec_ReapStaleNode (expireOr obs p b r m) = false) as Hx.
  { intros. unfold expireOr, failed. by destruct (_ && _). }
  unfold AdvanceCell, failed. repeat case_match; try done; simpl; rewrite ?Hx; try done.
Qed.
Hint Resolve observe_node_justified : holds.

Lemma discoverCell_justified pool prov cl prev name idx :
  pool_Name pool = pn -> ParseIndex pn name = Ok idx ->
  holds justified (discoverCell pool prov cl prev name idx).
Proof.
  intros Hpn Hi. unfold discoverCell. apply holds_bind; [apply _|eauto with holds|intros _ s].
  unfold ensure. rewrite log_bind, log_call, value_call.
  set (c := CallEnsure _ _). assert (justified [c]) as Hc by by apply justified_single. unfold c in *. clear c.
  destruct (p_Ensure prov _ (rst_world s)).1 as [outer|e]; [|by rewrite app_nil_r].
  cbv zeta. do 2 (rewrite log_bind, log_now, value_now; cbn [app]).
  match goal with |- _ (?c :: ?l) => change (justified ([c] ++ l)) end.
  apply (evidence_run (fun obs n => n = name /\ cl <> None /\ obs_StaleNode obs = true)); [done| | |].
  - match goal with |- _ (log ?m ?s) => assert (holds justified m) as Hm end; [|apply Hm]. destruct cl; compose.
  - intros obs n Hv (-> & Hcl & Hs). destruct cl as [cs|]; [|done].
    destruct (observe_node_stale _ _ _ _ _ _ _ _ Hv Hs) as (st & l & -> & Hp).
    left. exists [], l, idx, outer, st. split_and!; [by rewrite <- Hpn|done..].
  - intros obs _. destruct cl as [cs|].
    + apply holds_bind; [apply _| |intros _; apply holds_given; compose].
      destruct (dec_ReapStaleNode _) eqn:Ed; [|apply holds_ret; apply _].
      apply AdvanceCell_reap in Ed. apply holds_bind; [apply _| |intros ?; apply event_given].
      apply deleteNode_given. split_and!; [done..|]. by destruct (_ || _).
    + apply holds_given. compose.
Qed.
Hint Resolve discoverCell_justified : holds.

Lemma discover_loop_justified pool prov cl previous guests :
  pool_Name pool = pn -> holds justified (discover_loop pool prov cl previous guests).
Proof.
  intros Hpn. induction guests as [|g guests IH]; simpl; [compose|].
  destruct (ParseIndex (pool_Name pool) g) as [idx|] eqn:Hi; [|done]. rewrite Hpn in Hi.
  pose proof (fun prev => discoverCell_justified pool prov cl prev g idx Hpn Hi). compose.
Qed.
Hint Resolve discover_loop_justified : holds.

(** Every listed name of a cell has its row. *)
Lemma cell_status_row pool prev name idx outer obs dec :
  ensures (fun row => exists t, row = cellStatus prev name idx outer obs dec t)
    (cell_status pool prev name idx outer obs dec).
Proof.
  unfold cell_status. destruct (row_moved _ _); [|apply ensures_ret; by exists 0].
  do 3 (apply ensures_bind; intros ?). apply ensures_ret. eauto.
Qed.
Lemma discoverCell_name pool prov cl prev name idx :
  ensures (fun row => cs_Name row = name) (discoverCell pool prov cl prev name idx).
Proof.
  unfold discoverCell. do 2 (apply ensures_bind; intros ?). cbv zeta. do 4 (apply ensures_bind; intros ?).
  eapply ensures_step; [apply cell_status_row|]. intros row [t ->]. apply ensures_bind. intros _.
  by apply ensures_ret.
Qed.
Lemma discover_loop_names pool prov cl previous guests :
  ensures (fun rows => forall g, g ∈ guests -> is_ok (ParseIndex (pool_Name pool) g) = true -> g ∈ row_names rows)
    (discover_loop pool prov cl previous guests).
Proof.
  induction guests as [|g guests IH]; cbn [discover_loop].
  { apply ensures_ret. by intros g ?%elem_of_nil. }
  destruct (ParseIndex _ g) as [idx|] eqn:Hi.
  - eapply ensures_step; [apply discoverCell_name|]. intros row Hr. eapply ensures_step; [exact IH|].
    intros rows Hrows. apply ensures_ret. intros g' [->|Hg]%elem_of_cons Hok; unfold row_names in *; simpl;
      rewrite Hr; set_solver.
  - intros s rows Hv g' [->|Hg]%elem_of_cons Hok; [by rewrite Hi in Hok|]. by eapply IH.
Qed.

Lemma elem_of_orphans keep nodes n :
  n ∈ orphans keep nodes <->
  exists st, nodes !! n = Some st /\ (n ∉ keep) /\ ns_KubeletLive st = false.
Proof.
  unfold orphans. rewrite list_elem_of_omap. split.
  - intros ([name st] & Hin%elem_of_map_to_list & E). exists st.
    case_bool_decide; simpl in E; [done|]. destruct (ns_KubeletLive st) eqn:?; [done|].
    by injection E as <-.
  - intros (st & Hn & Hk & Hl). exists (n, st). split; [by apply elem_of_map_to_list|].
    by rewrite bool_decide_eq_false_2, Hl.
Qed.

(** The names accounted for cover the cells of a list read before. *)
Definition accounted (keep : gset string) (k : list Call) : Prop :=
  exists guests, CallList (Ok guests) ∈ k
    /\ forall g, g ∈ guests -> is_ok (ParseIndex pn g) = true -> g ∈ keep.

Lemma reapOrphanNodes_justified cs pool keep k s :
  accounted keep k -> justified k -> justified (k ++ log (reapOrphanNodes cs pool keep) s).
Proof.
  intros (guests & Hg & Hkeep) Hk. unfold reapOrphanNodes. rewrite log_bind, log_now, value_now. cbn [app].
  apply (evidence_run (fun r n => exists nodes, r = Ok nodes /\ n ∈ orphans keep nodes)); [done| | |].
  - by apply justified_single.
  - intros r n [= <-] (nodes & Hr & Hn). apply elem_of_orphans in Hn as (st & ? & Hn & ?).
    right. left. exists guests, nodes, st. unfold log, look. simpl. rewrite Hr, !elem_of_app.
    split_and!; [by left|by right; left| |done..].
    intros Hi. apply not_true_iff_false. intros Hok. apply Hn. by apply Hkeep.
  - intros [nodes|e] _; [|apply holds_ret; apply _]. apply holds_each; [apply _|]. intros n Hn.
    apply holds_bind; [apply _| |intros ?; apply event_given]. apply deleteNode_given. eauto.
Qed.

Lemma discoverCells_justified pool prov cl :
  pool_Name pool = pn -> holds justified (discoverCells pool prov cl).
Proof.
  intros Hpn s. unfold discoverCells. cbv zeta. rewrite log_bind.
  destruct (list_cells_spec prov pool s) as (-> & -> & ->).
  destruct (p_List _ _ _ _) as [guests|e]; [|by apply justified_single].
  set (k := [CallList (Ok guests)]). assert (justified k) as Hk by by apply justified_single.
  rewrite log_bind, app_assoc.
  pose proof (discover_loop_names pool prov cl (previous_rows (st_Cells (pool_Status pool))) (sort_strings guests) s) as Hn.
  assert (justified (k ++ log (discover_loop pool prov cl (previous_rows (st_Cells (pool_Status pool)))
                                 (sort_strings guests)) s)) as Hkl
    by (apply composable_app; [done|by apply discover_loop_justified]).
  destruct (value (discover_loop _ _ _ _ _) s) as [rows|e]; [|by rewrite app_nil_r].
  specialize (Hn rows eq_refl). rewrite log_bind.
  match goal with |- context [value ?m ?s' ] => assert (forall l, match value m s' with Ok a => [] | Err _ => [] end = l -> l = @nil Call)
    as Hnil by (intros l <-; by destruct (value m s')) end. cbn [log mret M_ret snd].
  rewrite (Hnil _ eq_refl), app_nil_r. clear Hnil.
  destruct cl as [cs|]; [|by rewrite app_nil_r]. apply reapOrphanNodes_justified; [|done].
  exists guests. split; [apply elem_of_app; left; left|]. intros g Hg Hok. unfold row_names in *. rewrite map_app, list_to_set_app.
  apply elem_of_union. left. apply Hn; [|by rewrite Hpn]. unfold sort_strings. by rewrite merge_sort_Permutation.
Qed.

(** *** Removal *)

Lemma deleteCell_given (E : string -> Prop) pool prov cell reap :
  (reap = true -> E (cs_Name cell)) -> holds (given E) (deleteCell pool prov cell reap).
Proof.
  intros HE. unfold deleteCell. cbv zeta. apply holds_bind; [apply _| |].
  - destruct reap; [|apply holds_ret; apply _].
    apply holds_bind; [apply _|apply holds_given; eauto with holds|].
    intros [[[cs|] ?] ?]; [|apply holds_ret; apply _]. by apply deleteNode_given, HE.
  - intros _. apply holds_given. compose.
Qed.

Lemma AdvanceDrain_live a known force since t timeout :
  dd_Proceed (AdvanceDrain a known false force since t timeout) = true ->
  known = true /\ Empty a = true.
Proof. unfold AdvanceDrain. rewrite andb_false_r. by destruct known, (Empty a). Qed.

(** The cell's allocations, read behind the cordon. *)
Definition read_allocations pool (cl : option Client) (cell : CellStatus)
    : M W Client (result ProviderError Allocations) :=
  match cl with
  | Some cs =>
      _ ← call (@Cordon W (inner cs) (cs_Name cell)) (CallCordon (cs_Name cell)) (ROp "");
      look (fun w => prov_Allocations (provider cs pool w) (cs_Name cell))
        (ReadAllocations (cs_Name cell))
  | None => mret (Ok zeroAllocations)
  end.

Lemma read_allocations_drained pool cs cell s a :
  value (read_allocations pool (Some cs) cell) s = Ok (Ok a) -> Empty a = true ->
  log (read_allocations pool (Some cs) cell) s
    = [CallCordon (cs_Name cell) (Ok tt); ReadAllocations (cs_Name cell) (Ok a)].
Proof.
  unfold read_allocations. rewrite value_bind, log_bind, value_call, log_call.
  generalize (final (call (@Cordon W (inner cs) (cs_Name cell)) (CallCordon (cs_Name cell)) (ROp "")) s).
  intros s'. destruct (Cordon _ _) as [[[]|e] w']; [|done]. cbn [fst]. unfold look, value, log. cbn [fst snd app]. intros E _. congruence.
Qed.

Lemma progressDrain_justified pool prov cl cell since :
  holds justified (progressDrain pool prov cl cell false since).
Proof.
  unfold progressDrain. fold (read_allocations pool cl cell).
  apply (holds_evidence (fun r n => n = cs_Name cell /\ cl <> None
                                 /\ exists a, r = Ok a /\ Empty a = true)).
  - unfold read_allocations. destruct cl; compose.
  - intros s r n Hv (-> & Hcl & a & -> & Ha). destruct cl as [cs|]; [|done].
    right. right. exists [], [], [], a. by rewrite (read_allocations_drained pool cs cell s a).
  - intros r. cbv zeta. apply holds_bind; [apply _|apply holds_given, holds_now; apply _|intros t].
    destruct (dd_Proceed _) eqn:Ep; simpl; [|apply holds_ret; apply _].
    apply AdvanceDrain_live in Ep as [Hk Ha].
    apply holds_bind; [apply _| |intros _; apply holds_ret; apply _].
    apply deleteCell_given. intros _. destruct cl; [|done]. destruct r; [|done]. eauto.
Qed.
Hint Resolve discoverCells_justified progressDrain_justified : holds.

(** *** The pass *)

Lemma replace_cells_justified pool prov usable cells : holds justified (replace_cells pool prov usable cells).
Proof.
  unfold replace_cells. apply holds_each; [apply _|]. intros c _.
  apply holds_bind; [apply _|apply holds_now; apply _|intros t].
  destruct (ShouldReplace _ _ _); [|apply holds_ret; apply _].
  intros s. apply (deleteCell_given (fun _ => False) pool prov c false ltac:(done) s []); [done|].
  apply justified_quiet. constructor.
Qed.

Lemma mark_drains_justified names cells : holds (Client:=Client) justified (mark_drains (W:=W) names cells).
Proof. revert cells. induction names; intros; simpl; compose. Qed.
Hint Resolve replace_cells_justified mark_drains_justified : holds.

(** The pass changes its pool in the status only. *)
Lemma record_scale_pool pool sn scale :
  ensures (fun p => exists status, p = {| pool with pool_Status := status |}) (record_scale pool sn scale).
Proof. unfold record_scale. repeat (apply ensures_bind; intros ?). apply ensures_ret. eauto. Qed.
Lemma learn_shape_pool pool sn t : exists status, learn_shape pool sn t = {| pool with pool_Status := status |}.
Proof. unfold learn_shape. destruct (RememberShape _ _); [eauto|]. exists (pool_Status pool). by destruct pool. Qed.

Lemma reconcilePool_justified pool prov : pool_Name pool = pn -> holds justified (reconcilePool pool prov).
Proof.
  intros Hpn. unfold reconcilePool. pose proof discoverCells_justified as Hd.
  apply holds_bind; [apply _|compose|intros [[cl reason] msg]].
  do 8 (apply holds_bind; [apply _|compose|intros ?; cbv zeta]).
  match goal with |- context [learn_shape pool ?sn ?t] => destruct (learn_shape_pool pool sn t) as [st ->] end.
  eapply holds_step; [apply _|unfold record_scale; compose|apply record_scale_pool|].
  intros ? [st' ->].
  unfold create_cells, mark_rollout, drain_cells, writeStatus. compose.
Qed.
End node_deletions.


(** ** Witnesses *)

(** A Node of the pool that no cell accounts for and whose lease ran out. *)
Definition ex_orphan : MemCluster :=
  mkMemCluster {[ "inference-9" := mkNode "inference-9" {[ LabelPool := "inference" ]} ∅ [] false [] ]}
    {[ "inference-9" := mkLease None ]} [].

