(* ===== verification/ControllerSpec.v ===== *)
(** * What each handler of the loop does

    The order in which a cell is removed and what it waits for, the orphan
    sweep, the pool's finalizer, the requeue interval. *)

From S2P Require Import Prelude GoStd Api KubeApi Provider Workload Provisioner Fsm Membership.
From S2P Require Import Scaling Rollout Helpers Status Inventory CellId HamiProvider Bootstrap.
From S2P Require Import CellRow Reconciler ExampleWorld Controller ControllerSafety.
Local Open Scope Z_scope.
Local Open Scope go_scope.

(** The calls that take a cell away. *)
Definition removes (c : Call) : bool :=
  match c with CallDeleteNode _ | CallClearDrainFinalizer _ | CallDelete _ => true | _ => false end.

Section handlers.
Context `{ENV : Environment W Client Config}.
Implicit Types (pool : GPUCellPool) (prov : ProvisionerOps W) (cs : Client) (cl : option Client).

(** ** Lemmas *)

Lemma cached_client_silent pool secret s :
  log (cached_client pool secret) s = [] /\ rst_world (final (cached_client pool secret) s) = rst_world s.
Proof. unfold cached_client, log, final. by destruct (For _ _ _ _ _ _). Qed.

(** Resolving the client always returns, calls nothing and leaves the world. *)
Lemma workloadClient_silent pool s :
  is_ok (value (workloadClient pool) s) = true
  /\ log (workloadClient pool) s = []
  /\ rst_world (final (workloadClient pool) s) = rst_world s.
Proof.
  unfold workloadClient. rewrite value_bind, log_bind, final_bind. cbn [value log final ask fst snd app].
  destruct (get_secret _ _ _) as [secret|e]; [|done].
  rewrite value_bind, log_bind, final_bind.
  destruct (cached_client_silent pool secret s) as [Hl Hw]. rewrite Hl. revert Hw.
  assert (is_ok (value (cached_client pool secret) s) = true) as Hok
    by (unfold cached_client, value; by destruct (For _ _ _ _ _ _)).
  destruct (value (cached_client pool secret) s) as [[cs|e]|e]; [| |done]; [|done].
  intros Hw. rewrite value_bind, log_bind, final_bind. cbn [value log final ask fst snd app].
  by destruct (ServerVersion _ _).
Qed.

(** The steps of a removal, given the client it resolves. *)
Definition removal_steps prov pool (cell : CellStatus) cl : list Call :=
  let name := cr_CellName (cellRequest pool (cs_Index cell)) in
  match cl with Some _ => [CallDeleteNode (cs_Name cell)] | None => [] end
  ++ match p_ClearDrainFinalizer prov with Some _ => [CallClearDrainFinalizer name] | None => [] end
  ++ [CallDelete name].

Lemma removal_tail pool prov (cell : CellStatus) s :
  let req := cellRequest pool (cs_Index cell) in
  let tail : M W Client unit :=
    _ ← match p_ClearDrainFinalizer prov with
        | Some clear => call (clear req) (fun _ => CallClearDrainFinalizer (cr_CellName req)) (RProv "")
        | None => mret tt
        end;
    _ ← call (p_Delete prov req) (fun _ => CallDelete (cr_CellName req)) (RProv "");
    mret tt in
  log tail s `prefix_of` removal_steps prov pool cell None
  /\ (value tail s = Ok tt -> log tail s = removal_steps prov pool cell None).
Proof.
  cbv zeta. unfold removal_steps. rewrite log_bind, value_bind.
  assert (forall s', log (_ ← call (p_Delete prov (cellRequest pool (cs_Index cell)))
            (fun _ => CallDelete (cr_CellName (cellRequest pool (cs_Index cell)))) (RProv "");
          mret tt : M W Client unit) s' = [CallDelete (cr_CellName (cellRequest pool (cs_Index cell)))]) as Hd.
  { intros s'. rewrite log_bind, log_call. by destruct (value _ _). }
  destruct (p_ClearDrainFinalizer prov) as [clear|].
  - rewrite log_call. destruct (value (call _ _ _) s) as [[]|e].
    + rewrite Hd. by split.
    + split; [|done]. eexists. reflexivity.
  - cbn [log value mret M_ret fst snd app]. rewrite Hd. by split.
Qed.

(** ** Removing a cell *)

(** The client a removal resolves, when it reaps the Node. *)
Definition removal_client pool (reap : bool) (s : RState W Client) : option Client :=
  if reap then match value (workloadClient pool) s with Ok (cl, _, _) => cl | Err _ => None end else None.

Lemma deleteCell_log pool prov cell reap s :
  let steps := removal_steps prov pool cell (removal_client pool reap s) in
  log (deleteCell pool prov cell reap) s `prefix_of` steps
  /\ (value (deleteCell pool prov cell reap) s = Ok tt ->
      log (deleteCell pool prov cell reap) s = steps).
Proof.
  unfold deleteCell, removal_client. cbv zeta.
  pose proof (removal_tail pool prov cell) as Ht. cbv zeta in Ht.
  rewrite log_bind, value_bind. destruct reap; [|apply (Ht s)].
  rewrite log_bind, value_bind.
  destruct (workloadClient_silent pool s) as (Hok & Hl & _). rewrite Hl.
  destruct (value (workloadClient pool) s) as [[[[cs|] ?] ?]|]; [| |done].
  - unfold deleteNode. rewrite log_call. cbn [app].
    destruct (value (call _ _ _) _) as [[]|e].
    + match goal with |- context [log _ ?s'] => destruct (Ht s') as [Hp Hv] end.
      split; [by apply prefix_cons|]. intros E. by rewrite (Hv E).
    + split; [|done]. eexists. reflexivity.
  - cbn [log value mret M_ret fst snd app].
    match goal with |- context [log _ ?s'] => apply (Ht s') end.
Qed.

(** A cell is removed in this order: its workload Node while the cluster
    answers, then its drain finalizer, then its outer objects. A failing step
    stops the removal, so nothing later has happened. *)
Theorem deleteCell_order pool prov cell reap s :
  let steps := removal_steps prov pool cell (removal_client pool reap s) in
  log (deleteCell pool prov cell reap) s `prefix_of` steps
  /\ (value (deleteCell pool prov cell reap) s = Ok tt ->
      log (deleteCell pool prov cell reap) s = steps).
Proof. apply deleteCell_log. Qed.

(** What lets a drain remove the cell: it was cordoned and then read as holding
    nothing, or the pool is being deleted and the policy does not wait, or a
    positive drain timeout has elapsed at a reading of the clock. *)
Definition may_remove pool (cell : CellStatus) (deleting : bool) (since : Time) (l : list Call) : Prop :=
  (exists a rest, l = CallCordon (cs_Name cell) (Ok tt) :: ReadAllocations (cs_Name cell) (Ok a) :: rest
           /\ Empty a = true)
  \/ (deleting = true /\
      (deletionPolicy pool = DeletionPolicyForce
       \/ (0 < drainTimeout pool /\ since <> 0 /\ exists w, drainTimeout pool < Sub (Clock w).1 since))).

Lemma AdvanceDrain_proceeds a known deleting force since t timeout :
  dd_Proceed (AdvanceDrain a known deleting force since t timeout) = true ->
  (known = true /\ Empty a = true)
  \/ (deleting = true /\ (force = true \/ (0 < timeout /\ since <> 0 /\ timeout < Sub t since))).
Proof.
  unfold AdvanceDrain, IsZero.
  destruct force, deleting, known, (Empty a), (Z.ltb_spec 0 timeout), (Z.eqb_spec since 0),
    (Z.ltb_spec timeout (Sub t since)); simpl; try done; auto 10.
Qed.

Lemma elem_of_singleton_removes c x : c ∈ [x] -> removes c = true -> removes x = true.
Proof. by intros ->%list_elem_of_singleton. Qed.

Lemma read_allocations_quiet pool cl cell s c :
  c ∈ log (read_allocations pool cl cell) s -> removes c = false.
Proof.
  revert c. apply Forall_forall. revert s.
  change (holds (Forall (fun c => removes c = false)) (read_allocations pool cl cell)).
  unfold read_allocations. compose; by constructor.
Qed.

(** C3. A draining cell is removed only behind the gate: every call that takes
    anything of it away follows an allowed reason. *)
Theorem progressDrain_gate pool prov cl cell deleting since s c :
  c ∈ log (progressDrain pool prov cl cell deleting since) s -> removes c = true ->
  may_remove pool cell deleting since (log (progressDrain pool prov cl cell deleting since) s).
Proof.
  unfold progressDrain. fold (read_allocations pool cl cell). rewrite log_bind.
  pose proof (read_allocations_quiet pool cl cell s) as Hq.
  destruct (value (read_allocations pool cl cell) s) as [r|e] eqn:Er.
  2: { rewrite app_nil_r. intros Hc Hr. apply Hq in Hc. congruence. }
  set (s1 := final (read_allocations pool cl cell) s). rewrite log_bind.
  assert (log now s1 = []) as Hn by (unfold log, now; by destruct (Clock _)).
  rewrite Hn. unfold value at 1, now. destruct (Clock (rst_world s1)) as [t w] eqn:Ec.
  cbn [fst app]. destruct (dd_Proceed _) eqn:Ep; simpl negb; cbn iota.
  2: { rewrite app_nil_r. intros Hc Hr. apply Hq in Hc. congruence. }
  intros _ _. apply AdvanceDrain_proceeds in Ep as [[Hk Ha]|[Hd Hw]].
  - left. destruct cl as [cs|]; [|done]. destruct r as [a|]; [|done].
    rewrite (read_allocations_drained pool cs cell s a) by done. by eexists a, _.
  - right. split; [done|]. destruct Hw as [Hf|(H1 & H2 & H3)]; [left; by guards|right].
    split_and!; [done..|]. exists (rst_world s1). by rewrite Ec.
Qed.

(** ** The orphan sweep *)

(** The sweep deletes nothing when the Nodes cannot be listed. Otherwise it
    deletes exactly the pool's Nodes that no current cell accounts for and
    whose kubelet is dead, unless a deletion fails. *)
Theorem reapOrphanNodes_exact cs pool keep s :
  let nodes := @ListPoolNodes W (inner cs) (pool_Name pool) (Clock (rst_world s)).1
                 (Clock (rst_world s)).2 in
  let reaped n := CallDeleteNode n ∈ log (reapOrphanNodes cs pool keep) s in
  (forall n, reaped n -> exists m st, nodes = Ok m /\ m !! n = Some st /\ (n ∉ keep) /\ ns_KubeletLive st = false)
  /\ (forall m n st, value (reapOrphanNodes cs pool keep) s = Ok tt -> nodes = Ok m ->
        m !! n = Some st -> (n ∉ keep) -> ns_KubeletLive st = false -> reaped n).
Proof.
  cbv zeta. unfold reapOrphanNodes. rewrite log_bind, value_bind, log_now, value_now.
  cbn [app]. rewrite log_bind, value_bind. cbn [log value look fst snd]. rewrite world_now.
  destruct (ListPoolNodes _ _ _) as [m|e].
  2: { split; [|done]. intros n. cbn. rewrite elem_of_cons, elem_of_nil. by intros [|]. }
  split.
  - intros n [Hn|Hn]%elem_of_app; [by apply list_elem_of_singleton in Hn|]. exists m.
    apply each_log_in in Hn as (x & s' & Hx & Hn).
    assert (n = x) as ->.
    { unfold deleteNode in Hn. rewrite log_bind, log_call in Hn.
      apply elem_of_app in Hn as [Hn|Hn]; [by apply list_elem_of_singleton in Hn; injection Hn|].
      destruct (value _ _); [|by apply elem_of_nil in Hn]. unfold event in Hn.
      destruct HasRecorder; [by apply list_elem_of_singleton in Hn|by apply elem_of_nil in Hn]. }
    apply elem_of_orphans in Hx as (st & ? & ? & ?). by exists st.
  - intros m' n st Hv [= <-] Hn Hk Hl. rewrite elem_of_app. right.
    destruct (each_log_all _ _ _ Hv n) as (s' & Hv' & Hs).
    { apply elem_of_orphans. by exists st. }
    apply Hs. unfold deleteNode. rewrite log_bind, log_call. left.
Qed.

(** ** The deletion of a pool *)

Definition updates_pool (c : Call) : bool := match c with CallUpdatePool _ => true | _ => false end.
Definition keeps_pool (l : list Call) : Prop := Forall (fun c => updates_pool c = false) l.

Lemma workloadClient_holds P `{Composable P} pool : holds P (workloadClient pool).
Proof. intros s. destruct (workloadClient_silent pool s) as (_ & -> & _). by apply composable_nil. Qed.
Hint Extern 1 (holds _ (workloadClient _)) => eapply workloadClient_holds; apply _ : holds.

Lemma single_keeps_pool c : updates_pool c = false -> Forall (fun c => updates_pool c = false) [c].
Proof. by repeat constructor. Qed.
Hint Resolve single_keeps_pool : holds.

Lemma drain_guests_keeps_pool pool prov cl since guests :
  holds (Forall (fun c => updates_pool c = false)) (drain_guests pool prov cl since guests).
Proof.
  induction guests as [|g guests IH]; cbn [drain_guests]; [compose|].
  destruct (ParseIndex _ _); [|done]. unfold progressDrain, deleteCell, deleteNode. compose.
Qed.

(** C12. The pool is released only when its provisioner lists no cell any more;
    while it lists one, the deletion comes back after the progressing interval. *)
Theorem finalizer_goes_last pool prov s `{!FinalizerLaws} :
  let listed := p_List prov (pool_Namespace pool) (pool_Name pool) (rst_world s) in
  (forall fs, CallUpdatePool fs ∈ log (reconcileDeletion pool prov) s ->
         listed = Ok [] /\ FinalizerPool ∈ pool_Finalizers pool /\ (FinalizerPool ∉ fs))
  /\ (forall g gs r, listed = Ok (g :: gs) -> value (reconcileDeletion pool prov) s = Ok r ->
        RequeueAfter r = requeueProgressing).
Proof.
  cbv zeta. unfold reconcileDeletion. rewrite log_bind, value_bind.
  destruct (workloadClient_silent pool s) as (Hok & -> & <-). cbn [app].
  destruct (value (workloadClient pool) s) as [[[cl reason] msg]|]; [|done]. clear Hok.
  set (s1 := final (workloadClient pool) s). rewrite log_bind, value_bind.
  destruct (list_cells_spec prov pool s1) as (-> & -> & ->).
  destruct (p_List _ _ _ _) as [guests|e].
  2: { split; [|done]. intros fs. cbn. by intros ?%list_elem_of_singleton. }
  destruct guests as [|g guests].
  - cbn [app]. split; [|done]. intros fs [?|Hc]%elem_of_cons; [done|]. split; [done|].
    destruct (RemoveFinalizer _ _) as [fs' removed] eqn:Ef.
    destruct (RemoveFinalizer_spec (pool_Finalizers pool) FinalizerPool) as [Hnin Hrm].
    rewrite Ef in Hnin, Hrm. change (0 <? len (@nil string)) with false in Hc. cbv iota in Hc.
    rewrite log_bind in Hc. apply elem_of_app in Hc as [Hc|Hc].
    + destruct removed; [|by apply elem_of_nil in Hc]. split; [by apply Hrm|].
      rewrite log_bind, log_call in Hc. apply elem_of_app in Hc as [Hc|Hc].
      * apply list_elem_of_singleton in Hc. by injection Hc as ->.
      * destruct (value _ _); by apply elem_of_nil in Hc.
    + destruct (value _ _); [|by apply elem_of_nil in Hc]. exfalso. revert Hc.
      match goal with |- _ ∈ log ?m ?s' -> _ =>
        assert (holds (Forall (fun c => updates_pool c = false)) m) as Hm by compose end.
      intros Hc. by eapply Forall_forall in Hm; [|exact Hc].
  - split.
    + intros fs [Hc|Hc]%elem_of_app; [by apply list_elem_of_singleton in Hc|]. exfalso.
      assert ((0 <? len (g :: guests)) = true) as Hg
        by (apply Z.ltb_lt; rewrite len_cons; pose proof (len_nonneg guests); lia).
      rewrite Hg in Hc. cbv iota in Hc.
      match type of Hc with _ ∈ log ?m s1 =>
        assert (holds (Forall (fun c => updates_pool c = false)) m) as Hm end.
      { pose proof drain_guests_keeps_pool. unfold writeDrainStatus. compose. }
      by eapply Forall_forall in Hm; [|exact Hc].
    + intros g' gs r _.
      assert ((0 <? len (g :: guests)) = true) as -> 
        by (apply Z.ltb_lt; rewrite len_cons; pose proof (len_nonneg guests); lia).
      revert r. match goal with |- forall r, value ?m _ = _ -> _ =>
        assert (ensures (fun r => RequeueAfter r = requeueProgressing) m) as Hm end; [|apply Hm].
      repeat (apply ensures_bind; intros ?). by apply ensures_ret.
Qed.

(** *** Progress *)

(** A drain that does not have to wait removes the cell. *)
Lemma progressDrain_removes pool prov cl cell since s cell' :
  (forall a known w, dd_Proceed (AdvanceDrain a known true (deletionPolicy pool == DeletionPolicyForce)
                              since (Clock w).1 (drainTimeout pool)) = true) ->
  value (progressDrain pool prov cl cell true since) s = Ok cell' ->
  CallDelete (Name (pool_Name pool) (cs_Index cell)) ∈ log (progressDrain pool prov cl cell true since) s.
Proof.
  intros Hgo. unfold progressDrain. fold (read_allocations pool cl cell).
  rewrite log_bind, value_bind. destruct (value (read_allocations _ _ _) s) as [r|]; [|done].
  rewrite log_bind, value_bind, log_now, value_now, Hgo. cbn [negb app].
  rewrite log_bind, value_bind.
  match goal with |- context [value (deleteCell _ _ ?c _) ?s'] =>
    pose proof (proj2 (deleteCell_log pool prov c true s')) as Hd;
    destruct (value (deleteCell pool prov c true) s') as [[]|] eqn:Ev
  end; [|done].
  intros _. cbv zeta in Hd. rewrite (Hd eq_refl). unfold removal_steps.
  rewrite !elem_of_app. right. left. right. right. left.
Qed.

(** The row of a draining guest keeps its index. *)
Lemma draining_row_index pool name idx :
  (forall c, c ∈ st_Cells (pool_Status pool) -> cs_Name c = name -> cs_Index c = idx) ->
  ensures (fun row => cs_Index row = idx) (draining_row pool name idx).
Proof.
  intros Hc. assert (cs_Index (last_row pool name idx) = idx) as Hl.
  { unfold last_row. cbv zeta.
    match goal with |- cs_Index (foldl ?f ?x ?l) = _ =>
      assert (forall y, cs_Index y = idx -> cs_Index (foldl f y l) = idx) as Hf; [|by apply Hf] end.
    revert Hc. generalize (st_Cells (pool_Status pool)) as l. induction l as [|c l IH]; intros Hc y Hy; [done|].
    cbn [foldl]. apply IH; [intros; apply Hc; [by right|done]|].
    case_bool_decide; [apply Hc; [left|done]|done]. }
  unfold draining_row. cbv zeta. destruct (_ != _); [|by apply ensures_ret].
  apply ensures_bind. intros t. by apply ensures_ret.
Qed.

Lemma drain_guests_removes pool prov cl since guests s rows g idx :
  (forall a known w, dd_Proceed (AdvanceDrain a known true (deletionPolicy pool == DeletionPolicyForce)
                              since (Clock w).1 (drainTimeout pool)) = true) ->
  (forall c, c ∈ st_Cells (pool_Status pool) -> ParseIndex (pool_Name pool) (cs_Name c) = Ok (cs_Index c)) ->
  value (drain_guests pool prov cl since guests) s = Ok rows ->
  g ∈ guests -> ParseIndex (pool_Name pool) g = Ok idx ->
  CallDelete (Name (pool_Name pool) idx) ∈ log (drain_guests pool prov cl since guests) s.
Proof.
  intros Hgo Hix Hv Hg Hi. revert s rows Hv.
  induction guests as [|h guests IH]; intros s rows; [by apply elem_of_nil in Hg|]. cbn [drain_guests].
  apply elem_of_cons in Hg as [<-|Hg].
  - rewrite Hi, log_bind, value_bind. destruct (value (draining_row _ _ _) s) as [row|] eqn:Er; [|done].
    apply draining_row_index in Er; [|intros c Hc E; specialize (Hix c Hc); congruence].
    rewrite log_bind, value_bind.
    destruct (value (progressDrain _ _ _ _ _ _) _) as [cell|] eqn:Ep; [|done]. intros _.
    apply progressDrain_removes in Ep; [|done]. rewrite !elem_of_app. right. left. rewrite Er in Ep. exact Ep.
  - destruct (ParseIndex _ h); [|by apply IH].
    rewrite log_bind, value_bind. destruct (value (draining_row _ _ _) s) as [row|]; [|done].
    rewrite log_bind, value_bind. destruct (value (progressDrain _ _ _ _ _ _) _) as [cell|]; [|done].
    rewrite log_bind, value_bind. destruct (value (drain_guests _ _ _ _ _) _) as [rest|] eqn:Er; [|done].
    intros _. rewrite !elem_of_app. right. right. left. by eapply IH.
Qed.

(** Deletion ends: once nothing has to be waited for, because the policy is
    Force or the drain timeout has elapsed since the deletion was requested, a
    pass that returns has removed every cell the provisioner lists. *)
Theorem deletion_removes_every_cell pool prov s r guests g idx since :
  p_List prov (pool_Namespace pool) (pool_Name pool) (rst_world s) = Ok guests ->
  pool_DeletionTimestamp pool = Some since ->
  deletionPolicy pool = DeletionPolicyForce
  \/ (0 < drainTimeout pool /\ since <> 0 /\ forall w, drainTimeout pool < Sub (Clock w).1 since) ->
  (forall c, c ∈ st_Cells (pool_Status pool) -> ParseIndex (pool_Name pool) (cs_Name c) = Ok (cs_Index c)) ->
  value (reconcileDeletion pool prov) s = Ok r ->
  g ∈ guests -> ParseIndex (pool_Name pool) g = Ok idx ->
  CallDelete (Name (pool_Name pool) idx) ∈ log (reconcileDeletion pool prov) s.
Proof.
  intros Hl Hs Hgo Hix Hv Hg Hi. revert Hv. unfold reconcileDeletion. rewrite log_bind, value_bind.
  destruct (workloadClient_silent pool s) as (Hok & -> & Hw). cbn [app]. rewrite <- Hw in Hl.
  destruct (value (workloadClient pool) s) as [[[cl reason] msg]|]; [|done].
  set (s1 := final (workloadClient pool) s) in *. rewrite log_bind, value_bind.
  destruct (list_cells_spec prov pool s1) as (-> & -> & ->). rewrite Hl.
  assert ((0 <? len guests) = true) as ->.
  { apply Z.ltb_lt. destruct guests; [by apply elem_of_nil in Hg|].
    rewrite len_cons. pose proof (len_nonneg guests). lia. }
  rewrite Hs. cbn [transitionOr default from_option id]. rewrite log_bind, value_bind, value_now, log_now.
  rewrite log_bind, value_bind. destruct (value (drain_guests _ _ _ _ _) _) as [rows|] eqn:Ed; [|done].
  intros _. rewrite !elem_of_app. right. right. left. eapply drain_guests_removes; eauto.
  intros a known w. unfold AdvanceDrain, IsZero.
  destruct Hgo as [->|(H1 & H2 & H3)].
  - by rewrite bool_decide_eq_true_2.
  - specialize (H3 w). apply Z.ltb_lt in H1, H3. apply Z.eqb_neq in H2. rewrite H1, H2, H3.
    cbn [andb negb]. by repeat case_match.
Qed.

(** ** The interval between passes *)

Lemma requeue_after_bounds cells plan : 0 < requeue_after cells plan <= requeueSteady.
Proof.
  assert (0 < requeueProgressing <= requeueSteady /\ 0 < requeueSteady) as Hr
    by (unfold requeueProgressing, requeueSteady, Minute, Second; lia).
  unfold requeue_after. cbv zeta.
  destruct (_ || _ || _); destruct (_ && _) eqn:E; guards; lia.
Qed.

(** A pass over a live pool always asks for another one, two minutes later at
    most: no pool is forgotten. *)
Theorem Reconcile_requeues namespace name s pool r :
  get_pool namespace name (rst_world s) = Ok pool ->
  PtrIsZero (pool_DeletionTimestamp pool) = true ->
  value (Reconcile namespace name) s = Ok r ->
  0 < RequeueAfter r <= requeueSteady.
Proof.
  intros Hg Hd. unfold Reconcile. rewrite value_bind. cbn [value ask fst]. rewrite Hg.
  destruct (provisioner pool) as [prov|e].
  2: { rewrite value_bind. by destruct (value _ _). }
  rewrite Hd. cbn [negb]. destruct (AddFinalizer _ _) as [fs added].
  revert r. match goal with |- forall r, value ?m _ = _ -> _ =>
    assert (ensures (fun r => 0 < RequeueAfter r <= requeueSteady) m) as Hm end; [|apply Hm].
  apply ensures_bind. intros p. unfold reconcilePool. apply ensures_bind. intros [[cl ?] ?].
  repeat (apply ensures_bind; intros ?). apply ensures_ret, requeue_after_bounds.
Qed.

(** ** The finalizer comes first *)

(** No outer object of a cell is created or touched before the pool carries its
    finalizer: it had it, or the update that adds it came first. *)
Theorem finalizer_before_cells namespace name s pool l1 cell r l2 `{!FinalizerLaws} :
  get_pool namespace name (rst_world s) = Ok pool ->
  PtrIsZero (pool_DeletionTimestamp pool) = true ->
  log (Reconcile namespace name) s = l1 ++ CallEnsure cell r :: l2 ->
  FinalizerPool ∈ pool_Finalizers pool
  \/ exists fs rest, l1 = CallUpdatePool fs :: rest /\ FinalizerPool ∈ fs.
Proof.
  intros Hg Hd. unfold Reconcile. rewrite log_bind. cbn [value ask log fst snd app]. rewrite Hg.
  destruct (provisioner pool) as [prov|e].
  2: { rewrite log_bind. unfold event. intros E. exfalso.
       destruct HasRecorder; destruct l1 as [|? [|]]; done. }
  rewrite Hd. cbn [negb]. destruct (AddFinalizer _ _) as [fs added] eqn:Ea.
  destruct (AddFinalizer_spec (pool_Finalizers pool) FinalizerPool) as [Hin Heq]. rewrite Ea in Hin, Heq.
  destruct added; [|left; by rewrite <- Heq]. rewrite log_bind, log_call. intros E. right.
  destruct l1 as [|c l1]; [done|]. injection E as <- _. by eexists _, _.
Qed.

(** A pool naming a provisioner this build does not have is refused before
    anything else: nothing changes but the event that says so. *)
Theorem unknown_provisioner_inert namespace name s pool :
  get_pool namespace name (rst_world s) = Ok pool ->
  (cell_Provisioner (spec_Cell (pool_Spec pool)) ∉ [""; ProvisionerSwiftGuest; ProvisionerClusterAPI]) ->
  value (Reconcile namespace name) s = Err (RUnknownProvisioner (cell_Provisioner (spec_Cell (pool_Spec pool))))
  /\ final (Reconcile namespace name) s = s
  /\ Forall (fun c => exists msg, c = CallEvent EventTypeWarning ReasonUnknownProvisioner msg)
       (log (Reconcile namespace name) s).
Proof.
  intros Hg Hp. rewrite !elem_of_cons, elem_of_nil in Hp. unfold Reconcile.
  rewrite value_bind, final_bind, log_bind. cbn [value ask log final fst snd app]. rewrite Hg.
  unfold provisioner. rewrite !bool_decide_eq_false_2 by tauto. cbn [orb].
  rewrite value_bind, final_bind, log_bind. unfold event.
  destruct HasRecorder; cbn; split_and!; try done; repeat constructor. by eexists.
Qed.

(** ** The bootstrap Secret *)

(** The key of the join Secret a pool names. *)
Definition join_key pool : string :=
  let key := boot_JoinSecretKey (spec_Bootstrap (pool_Spec pool)) in if key == "" then SecretKey else key.

(** What the cell is to be given, by the join Secret as the reconciler reads it. *)
Definition rendering pool (idx : int32) (w : W) (rendered : string) : Prop :=
  exists ref src tmpl,
    boot_JoinSecretRef (spec_Bootstrap (pool_Spec pool)) = Some ref
    /\ get_secret (pool_Namespace pool) ref w = Ok src
    /\ so_Data src !! join_key pool = Some tmpl
    /\ Render tmpl (bootstrap_values pool idx) = Ok rendered.

Definition cell_secret pool (idx : int32) (w : W) : result APIError SecretObject :=
  get_secret (pool_Namespace pool) (BootstrapSecretName (Name (pool_Name pool) idx)) w.

(** A Secret with these bytes under the key KubeSwift reads, and under both keys. *)
Definition user_data (o : SecretObject) : string := default "" (so_Data o !! SecretKey).
Definition carries (o : SecretObject) (bytes : string) : Prop :=
  user_data o = bytes /\ default "" (so_Data o !! CAPISecretKey) = bytes.

Lemma secret_current_steady pool idx s rendered o :
  rendering pool idx (rst_world s) rendered ->
  cell_secret pool idx (rst_world s) = Ok o -> user_data o = rendered ->
  ensureBootstrapSecret pool idx s = (Ok tt, (s, [])).
Proof.
  intros (ref & src & tmpl & Hr & Hs & Ht & Hd) Ho E.
  unfold ensureBootstrapSecret. destruct (capiOwnsBootstrap pool); [done|]. rewrite Hr.
  unfold mbind, M_bind, ask. rewrite Hs. cbn [check mret M_ret]. unfold join_key in Ht. rewrite Ht, Hd.
  cbn [check mret M_ret so_Namespace so_Name bootstrap_secret]. unfold cell_secret in Ho. rewrite Ho.
  by rewrite bool_decide_eq_true_2.
Qed.

(** What a call that returns has read, and what it has written, if anything. *)
Lemma ensureBootstrapSecret_ok pool idx s `{!SecretStore} `{!SecretLaws} :
  capiOwnsBootstrap pool = false -> value (ensureBootstrapSecret pool idx) s = Ok tt ->
  exists rendered, rendering pool idx (rst_world s) rendered
  /\ ((exists o, cell_secret pool idx (rst_world s) = Ok o /\ user_data o = rendered
           /\ final (ensureBootstrapSecret pool idx) s = s)
      \/ exists o, stored_secret (pool_Namespace pool) (BootstrapSecretName (Name (pool_Name pool) idx))
                  (rst_world (final (ensureBootstrapSecret pool idx) s)) = Some o /\ carries o rendered).
Proof.
  intros Hc. unfold ensureBootstrapSecret, rendering. rewrite Hc. fold (join_key pool).
  destruct (boot_JoinSecretRef _) as [ref|]; [|done].
  rewrite value_bind, final_bind. cbn [value final ask fst snd].
  destruct (get_secret (pool_Namespace pool) ref (rst_world s)) as [src|] eqn:Es; [|done].
  rewrite value_bind, final_bind. cbn [check value final mret M_ret fst snd].
  destruct (so_Data src !! join_key pool) as [tmpl|] eqn:Et; [|done].
  rewrite value_bind, final_bind.
  destruct (Render tmpl _) as [rendered|] eqn:Er; [|done]. cbn [check value final mret M_ret fst snd].
  cbv zeta. rewrite value_bind, final_bind. cbn [value final ask fst snd so_Namespace so_Name bootstrap_secret].
  fold (cell_secret pool idx (rst_world s)).
  assert (forall o, so_Data o = {[SecretKey := rendered; CAPISecretKey := rendered]} -> carries o rendered) as Hcar
    by (intros o E; unfold carries, user_data; rewrite E; done).
  intros Hv. exists rendered. split; [by exists ref, src, tmpl|]. revert Hv.
  destruct (cell_secret pool idx (rst_world s)) as [o|e] eqn:Eo.
  - fold (user_data o). case_bool_decide as Ed; [intros _; left; by exists o|]. right. revert Hv.
    rewrite value_call, final_call. cbn [rst_world].
    set (new := mkSecretObject _ _ _ _ _ _).
    destruct (update_secret new (rst_world s)) as [[[]|] w] eqn:Eu; [|done]. intros _. cbn [snd].
    apply update_secret_stored in Eu as (o' & Ho & Hdat).
    destruct (get_secret_named _ _ _ _ Eo) as [Hns Hn]. cbn [so_Namespace so_Name new] in *.
    rewrite Hns, Hn in Ho. exists o'. auto.
  - destruct (IsNotFound e); [|done]. rewrite value_call, final_call. cbn [rst_world].
    set (new := bootstrap_secret _ _ _).
    destruct (create_secret new (rst_world s)) as [[[]|] w] eqn:Eu; [|done]. intros _. cbn [snd].
    apply create_secret_stored in Eu as (o' & Ho & Hdat). right. exists o'. auto.
Qed.

(** C31. The per-cell Secret converges, where the operator renders it at all (under Cluster API
    with a config template it does not). Given that what the reconciler reads of the Secret is
    what is stored, under both keys alike, as the operator writes it: after a call that
    returns, the stored Secret has the rendering of the join template as the call read it
    under the key of KubeSwift and under the key of Cluster API; and from any state in which the
    cache shows that Secret, and the template has not changed, calling again does nothing at
    all. *)
Theorem ensureBootstrapSecret_converges pool idx s `{!SecretStore} `{!SecretLaws} :
  capiOwnsBootstrap pool = false ->
  (forall o, cell_secret pool idx (rst_world s) = Ok o ->
     carries o (user_data o)
     /\ stored_secret (pool_Namespace pool) (BootstrapSecretName (Name (pool_Name pool) idx)) (rst_world s) = Some o) ->
  value (ensureBootstrapSecret pool idx) s = Ok tt ->
  exists rendered o,
    rendering pool idx (rst_world s) rendered
    /\ stored_secret (pool_Namespace pool) (BootstrapSecretName (Name (pool_Name pool) idx))
         (rst_world (final (ensureBootstrapSecret pool idx) s)) = Some o
    /\ carries o rendered
    /\ forall s', cell_secret pool idx (rst_world s') = Ok o -> rendering pool idx (rst_world s') rendered ->
         ensureBootstrapSecret pool idx s' = (Ok tt, (s', [])).
Proof.
  intros Hc Hcache Hv.
  destruct (ensureBootstrapSecret_ok pool idx s Hc Hv) as (rendered & Hr & Hcase). exists rendered.
  assert (exists o, stored_secret (pool_Namespace pool) (BootstrapSecretName (Name (pool_Name pool) idx))
         (rst_world (final (ensureBootstrapSecret pool idx) s)) = Some o /\ carries o rendered) as (o & Ho & Hcar).
  { destruct Hcase as [(o & Ho & <- & Hs)|]; [|done]. rewrite Hs. apply Hcache in Ho as [? ?]. eauto. }
  exists o. split_and!; [done..|]. intros s' Hs' Hr'. eapply secret_current_steady; [done..|apply Hcar].
Qed.
End handlers.

(** ** Witnesses *)

(** The pool under deletion, with a policy. *)
Definition ex_deleting (policy : string) : GPUCellPool :=
  let spec := {| ex_spec with spec_Deletion := Some (mkDeletionSpec policy None) |} in
  {| ex_pool with pool_DeletionTimestamp := Some (900 * Minute); pool_Spec := spec |}.

(** One guest, whose Node is registered and holds nothing. *)
Definition ex_idle_cluster (pool : GPUCellPool) : RState World unit :=
  ex_cluster pool {[ "inference-0" := ex_joining_outer ]}
    (mkMemCluster {[ "inference-0" := mkNode "inference-0" ∅ ∅ [] false [] ]} ∅ []) true.

Definition ex_draining_row : CellStatus :=
  {| zeroCellStatus with cs_Name := "inference-0"; cs_Phase := CellPhaseDraining; cs_GuestUID := "uid-1" |}.

Lemma progressDrain_gate_witness :
  let m := progressDrain ex_pool ex_provisioner (Some tt) ex_draining_row false Minute in
  CallDelete "inference-0" ∈ log m (ex_idle_cluster ex_pool)
  /\ may_remove ex_pool ex_draining_row false Minute (log m (ex_idle_cluster ex_pool)).
Proof.
  intros m. assert (CallDelete "inference-0" ∈ log m (ex_idle_cluster ex_pool)) as Hin.
  { vm_compute. do 4 right. left. }
  split; [exact Hin|].
  exact (progressDrain_gate ex_pool ex_provisioner (Some tt) ex_draining_row false Minute
           (ex_idle_cluster ex_pool) _ Hin eq_refl).
Defined.

Lemma finalizer_goes_last_witness :
  let pool := ex_deleting DeletionPolicyDrain in
  let s := ex_cluster pool ∅ (mkMemCluster ∅ ∅ []) true in
  CallUpdatePool [] ∈ log (reconcileDeletion pool ex_provisioner) s
  /\ p_List ex_provisioner "gpu" "inference" (rst_world s) = Ok [].
Proof.
  intros pool s.
  assert (CallUpdatePool [] ∈ log (reconcileDeletion pool ex_provisioner) s) as Hin.
  { vm_compute. right. left. }
  split; [exact Hin|]. exact (proj1 (proj1 (finalizer_goes_last pool ex_provisioner s) [] Hin)).
Defined.

Lemma deletion_removes_every_cell_witness :
  let pool := ex_deleting DeletionPolicyForce in
  CallDelete (Name "inference" 0) ∈ log (reconcileDeletion pool ex_provisioner) (ex_idle_cluster pool).
Proof.
  intros pool.
  refine (deletion_removes_every_cell pool ex_provisioner (ex_idle_cluster pool) (mkResult requeueProgressing)
            ["inference-0"] "inference-0" 0 (900 * Minute) _ _ _ _ _ _ _).
  - vm_compute. reflexivity.
  - reflexivity.
  - by left.
  - intros c Hc. by apply elem_of_nil in Hc.
  - vm_compute. reflexivity.
  - left.
  - vm_compute. reflexivity.
Defined.

Lemma Reconcile_requeues_witness :
  value (Reconcile "gpu" "inference") (ex_idle_cluster ex_pool) = Ok (mkResult requeueProgressing)
  /\ 0 < requeueProgressing <= requeueSteady.
Proof.
  assert (value (Reconcile "gpu" "inference") (ex_idle_cluster ex_pool) = Ok (mkResult requeueProgressing)) as Hv
    by (vm_compute; reflexivity).
  split; [exact Hv|].
  exact (Reconcile_requeues "gpu" "inference" (ex_idle_cluster ex_pool) ex_pool _ eq_refl eq_refl Hv).
Defined.

Lemma finalizer_before_cells_witness :
  let pool := {| ex_pool with pool_Finalizers := [] |} in
  exists fs rest, [CallUpdatePool fs] ++ rest
             = [CallUpdatePool [FinalizerPool]; CallList (Ok ["inference-0"]); CallCreateSecret "inference-0-bootstrap"]
             /\ FinalizerPool ∈ fs.
Proof.
  intros pool.
  destruct (finalizer_before_cells "gpu" "inference" (ex_idle_cluster pool) pool
              [CallUpdatePool [FinalizerPool]; CallList (Ok ["inference-0"]);
               CallCreateSecret "inference-0-bootstrap"] "inference-0"
              (Ok (match log (Reconcile "gpu" "inference") (ex_idle_cluster pool) !! 3%nat with
                   | Some (CallEnsure _ (Ok o)) => o | _ => zeroOuterState end))
              (drop 4 (log (Reconcile "gpu" "inference") (ex_idle_cluster pool))))
    as [Hin|(fs & rest & E & Hin)].
  - reflexivity.
  - reflexivity.
  - vm_compute. reflexivity.
  - by apply elem_of_nil in Hin.
  - exists fs, rest. split; [symmetry; exact E|exact Hin].
Defined.

Definition ex_metal_pool : GPUCellPool :=
  let cell := spec_Cell ex_spec in
  let cell := {| cell with cell_Provisioner := "Metal" |} in
  let spec := {| ex_spec with spec_Cell := cell |} in
  {| ex_pool with pool_Spec := spec |}.

Lemma unknown_provisioner_inert_witness :
  value (Reconcile "gpu" "inference") (ex_idle_cluster ex_metal_pool)
  = Err (RUnknownProvisioner "Metal").
Proof.
  refine (proj1 (unknown_provisioner_inert "gpu" "inference" (ex_idle_cluster ex_metal_pool) ex_metal_pool _ _)).
  - reflexivity.
  - apply (bool_decide_unpack _). vm_compute. exact I.
Defined.

Lemma ensureBootstrapSecret_converges_witness :
  let s := ex_idle_cluster ex_pool in
  let s' := final (ensureBootstrapSecret ex_pool 0) s in
  log (ensureBootstrapSecret ex_pool 0) s = [CallCreateSecret "inference-0-bootstrap"]
  /\ exists o, stored_secret "gpu" "inference-0-bootstrap" (rst_world s') = Some o /\ carries o "name: inference-0"
  /\ ensureBootstrapSecret ex_pool 0 s' = (Ok tt, (s', [])).
Proof.
  intros s s'. split; [vm_compute; reflexivity|].
  destruct (ensureBootstrapSecret_converges ex_pool 0 s) as (rendered & o & _ & Ho & Hc & Hs').
  - reflexivity.
  - intros o Ho. vm_compute in Ho. discriminate.
  - vm_compute. reflexivity.
  - assert (cell_secret ex_pool 0 (rst_world s') = Ok o) as Hget.
    { revert Ho. vm_compute. by intros [= <-]. }
    assert (rendered = "name: inference-0") as ->.
    { destruct Hc as [<- _]. revert Ho. vm_compute. by intros [= <-]. }
    exists o. split_and!; [exact Ho|apply Hc..|]. apply Hs'; [exact Hget|].
    eexists _, _, _. split_and!; [reflexivity|vm_compute; reflexivity..].
Defined.
