(* ===== verification/Discovery.v ===== *)
(** * Rediscovery

    discoverCells is a projection of the live objects: a row per listed guest,
    each one step of the row machine of [CellRow] from what the provisioner's
    Ensure answered for that cell and what was read of its Node; the tombstones;
    sorted by index. *)

From S2P Require Import Prelude GoStd Api KubeApi Provider Workload Provisioner Fsm Membership.
From S2P Require Import Scaling Rollout Helpers Status Inventory CellId HamiProvider Bootstrap.
From S2P Require Import CellRow Reconciler ExampleWorld Controller ControllerSafety ControllerSpec.
Local Open Scope Z_scope.
Local Open Scope go_scope.

(** What the provider says of a Node that is Ready; nothing of another one, and of what
    it fails to answer. *)
Definition capacity_seen (p : Provider) (name : string) (node : NodeState) : bool * Z :=
  if ns_Exists node && ns_Ready node
  then (match prov_Health p [name] with Ok h => h_Ready h | Err _ => false end,
        match prov_Devices p name with Ok d => d | Err _ => 0 end)
  else (false, 0).

Section discovery.
Context `{ENV : Environment W Client Config}.
Implicit Types (pool : GPUCellPool) (prov : ProvisionerOps W) (cs : Client) (cl : option Client).

(** What the workload cluster shows at [now] of the Node named for the cell, next to the
    state of its guest; nothing without a client. *)
Definition node_seen pool cl (name : string) (outer : OuterState) (now : Time) (obs : Observation) : Prop :=
  match cl with
  | None => obs_Node obs = zeroNodeState /\ obs_StaleNode obs = false
            /\ obs_ProviderReady obs = false /\ obs_CapacityDevices obs = 0
  | Some cs =>
      exists w w' : W,
        @GetNodeState W (inner cs) name now w = Ok (obs_Node obs)
        /\ obs_StaleNode obs = (ns_Exists (obs_Node obs) && negb (ns_KubeletLive (obs_Node obs))
                                && IsStaleNode (ns_Labels (obs_Node obs)) (o_UID outer))
        /\ (obs_ProviderReady obs, obs_CapacityDevices obs)
           = capacity_seen (provider cs pool w') name (obs_Node obs)
  end.

(** What the code observes of a cell, apart from the row. *)
Record observed pool cl (name : string) (outer : OuterState) (now : Time) (obs : Observation) : Prop := {
  ob_reachable : obs_WorkloadReachable obs = match cl with Some _ => true | None => false end;
  ob_expected : obs_ExpectedDevices obs = expectedDevices pool;
  ob_bootstrap : obs_BootstrapTimeout obs
                 = durationOr (boot_ReadyTimeout (spec_Bootstrap (pool_Spec pool))) (15 * Minute);
  ob_capacity : obs_CapacityTimeout obs
                = durationOr (cap_ReadyTimeout (spec_Capacity (pool_Spec pool))) (5 * Minute);
  ob_node : node_seen pool cl name outer now obs
}.

(** The entries such a sight leaves in the log: what the provisioner answered, and what
    the Node read as. *)
Definition sight_log pool cl (name : string) (idx : int32) (outer : OuterState) (obs : Observation) : list Call :=
  CallEnsure (Name (pool_Name pool) idx) (Ok outer)
  :: match cl with Some _ => [ReadNode name (Ok (obs_Node obs))] | None => [] end.

(** What observing the Node changes of an observation. *)
Definition same_frame (obs obs' : Observation) : Prop :=
  exists node stale ready devices,
    obs' = {| obs with obs_Node := node; obs_StaleNode := stale; obs_ProviderReady := ready;
                       obs_CapacityDevices := devices |}.

(** Of an observation that says nothing of the capacity yet. *)
Lemma observe_capacity_seen pool cs name obs :
  obs_ProviderReady obs = false -> obs_CapacityDevices obs = 0 ->
  ensures (fun obs' => same_frame obs obs' /\ obs_Node obs' = obs_Node obs /\ obs_StaleNode obs' = obs_StaleNode obs
             /\ exists w, (obs_ProviderReady obs', obs_CapacityDevices obs')
                        = capacity_seen (provider cs pool w) name (obs_Node obs))
    (observe_capacity pool cs name obs).
Proof.
  intros Hr Hd s obs'. unfold observe_capacity, capacity_seen. destruct (_ && _).
  - rewrite value_bind. intros [= <-]. rewrite Hr, Hd. split_and!; [by eexists _, _, _, _|done..|].
    by exists (rst_world s).
  - intros [= <-]. rewrite Hr, Hd. split_and!; [|done..|by exists (rst_world s)].
    destruct obs. by eexists _, _, _, _.
Qed.

Lemma observe_node_seen pool cs name idx outer obs s obs' :
  obs_ProviderReady obs = false -> obs_CapacityDevices obs = 0 ->
  value (observe_node pool cs name idx outer obs) s = Ok obs' ->
  same_frame obs obs' /\ node_seen pool (Some cs) name outer (obs_Now obs) obs'
  /\ exists l, log (observe_node pool cs name idx outer obs) s = ReadNode name (Ok (obs_Node obs')) :: l.
Proof.
  intros Hr Hd. unfold observe_node. rewrite value_bind, log_bind. cbn [value look fst log snd final].
  set (r := GetNodeState _ _ _). destruct r as [node|e] eqn:En; [|done]. unfold r in En.
  rewrite value_bind. cbn [check value mret M_ret fst final snd]. cbv zeta. rewrite value_bind.
  destruct (value _ _) eqn:Ev; [|done]. intros Hc.
  apply observe_capacity_seen in Hc as ((n & st & rd & d & ->) & Hn & Hs & w & Hw); [|done..].
  cbn in Hn, Hs, Hw. subst n st. split_and!.
  - by eexists _, _, _, _.
  - exists (rst_world s), w. cbn. split_and!; [exact En|done|exact Hw].
  - eexists. reflexivity.
Qed.

(** One turn of the loop is one step of the row machine. *)
Lemma discoverCell_steps pool prov cl prev name idx s row :
  value (discoverCell pool prov cl prev name idx) s = Ok row ->
  exists outer obs t1 t2 t3,
    row = step_row name idx prev (mkSight outer obs t1 t2 t3)
    /\ observed pool cl name outer t2 obs
    /\ (exists w, (p_Ensure prov (cellRequest pool idx) w).1 = Ok outer)
    /\ exists l1 l2, log (discoverCell pool prov cl prev name idx) s
                   = l1 ++ sight_log pool cl name idx outer obs ++ l2.
Proof.
  unfold discoverCell. rewrite value_bind, log_bind. generalize (log (ensureBootstrapSecret pool idx) s) as l1. intros l1.
  destruct (value (ensureBootstrapSecret pool idx) s) as [[]|]; [|done].
  generalize (final (ensureBootstrapSecret pool idx) s). clear s. intros s. unfold ensure.
  rewrite value_bind, log_bind, value_call, log_call.
  destruct (p_Ensure prov _ (rst_world s)).1 as [outer|] eqn:Ee; [|done]. cbv zeta.
  do 2 (rewrite value_bind, log_bind, value_now, log_now; cbn [app]).
  set (t1 := (Clock _).1). set (t2 := (Clock _).1). generalize (final now (final now (final (call (p_Ensure prov
    (cellRequest pool idx)) (CallEnsure (cr_CellName (cellRequest pool idx))) (RProv ("observing cell " +:+ name))) s))).
  intros s'. set (prev' := continue_row prev outer). set (base := base_observation _ _ _ _ _ _).
  rewrite value_bind, log_bind.
  match goal with |- context [value ?m s'] => set (seeing := m) end.
  assert (forall obs, value seeing s' = Ok obs ->
            same_frame base obs /\ node_seen pool cl name outer t2 obs
            /\ exists l, log seeing s' = match cl with Some _ => [ReadNode name (Ok (obs_Node obs))] | None => [] end ++ l) as Hsee.
  { intros obs. unfold seeing. destruct cl as [cs|].
    - intros Hv. apply observe_node_seen in Hv as (? & ? & l & ->); [|done..]. split_and!; [done..|by exists l].
    - intros [= <-]. split_and!; [by eexists _, _, _, _|done|by exists []]. }
  destruct (value seeing s') as [obs|]; [|done].
  destruct (Hsee obs eq_refl) as ((n & st & rd & d & Hobs) & Hn & l & ->). clear Hsee.
  match goal with |- value ?m ?s = _ -> _ =>
    assert (ensures (fun row => exists t, row = cellStatus prev' name idx outer obs (AdvanceCell obs) t) m) as Hm end.
  { apply ensures_bind. intros _. set (obs' := if _ : bool then _ else _).
    assert (obs' = obs) as ->.
    { unfold obs'. destruct (_ || _) eqn:E; [|done]. rewrite Hobs. unfold base, base_observation.
      cbn. f_equal. unfold phaseOr. by rewrite bool_decide_eq_false_2 by (intros E'; by rewrite E' in E). }
    eapply ensures_step; [apply cell_status_row|]. intros ? [moved ->].
    apply ensures_bind. intros _. apply ensures_ret. by exists moved. }
  intros Hv. apply Hm in Hv as [moved ->]. exists outer, obs, t1, t2, moved. split_and!.
  - unfold step_row. cbn [sg_outer sg_moved]. fold prev'.
    assert (sight_observation prev' (mkSight outer obs t1 t2 moved) = obs) as ->; [|done].
    by rewrite Hobs.
  - rewrite Hobs. split; try done. by rewrite <- Hobs.
  - by exists (rst_world s).
  - eexists l1, _. f_equal. cbn [app sight_log]. f_equal. rewrite <- app_assoc. reflexivity.
Qed.

(** The listed names that are the pool's, with their indexes. *)
Definition own_cells pool (guests : list string) : list (string * int32) :=
  omap (fun g => match ParseIndex (pool_Name pool) g with Ok idx => Some (g, idx) | Err _ => None end)
    guests.

(** The row of a listed cell, in a discovery with this log: one step from its last row, on
    what the provisioner answered of this cell's request and what this cell's Node read as. *)
Definition row_of pool prov cl (previous : gmap string CellStatus) (l : list Call) (g : string * int32)
    (row : CellStatus) : Prop :=
  exists outer obs t1 t2 t3,
    row = step_row g.1 g.2 (default zeroCellStatus (previous !! g.1)) (mkSight outer obs t1 t2 t3)
    /\ observed pool cl g.1 outer t2 obs
    /\ (exists w, (p_Ensure prov (cellRequest pool g.2) w).1 = Ok outer)
    /\ exists l1 l2, l = l1 ++ sight_log pool cl g.1 g.2 outer obs ++ l2.

Lemma row_of_app pool prov cl previous k l m g row :
  row_of pool prov cl previous l g row -> row_of pool prov cl previous (k ++ l ++ m) g row.
Proof.
  intros (outer & obs & t1 & t2 & t3 & ? & ? & ? & l1 & l2 & ->). exists outer, obs, t1, t2, t3.
  split_and!; [done..|]. exists (k ++ l1), (l2 ++ m). by rewrite <- !app_assoc.
Qed.

Lemma discover_loop_rows pool prov cl previous guests s rows :
  value (discover_loop pool prov cl previous guests) s = Ok rows ->
  Forall2 (row_of pool prov cl previous (log (discover_loop pool prov cl previous guests) s))
    (own_cells pool guests) rows.
Proof.
  revert s rows. unfold own_cells. induction guests as [|g guests IH]; intros s rows; cbn [discover_loop omap list_omap];
    [by intros [= <-]|].
  destruct (ParseIndex _ g) as [idx|]; [|apply IH].
  rewrite value_bind, log_bind. destruct (value (discoverCell _ _ _ _ _ _) s) as [row|] eqn:Er; [|done].
  rewrite value_bind, log_bind. destruct (value (discover_loop _ _ _ _ _) _) as [rest|] eqn:El; [|done].
  intros [= <-]. cbn [log mret M_ret snd]. rewrite app_nil_r. constructor.
  - apply (row_of_app _ _ _ _ []). by apply discoverCell_steps in Er.
  - apply IH in El. eapply Forall2_impl; [exact El|]. intros g' row' Hr.
    eapply (row_of_app _ _ _ _ _ _ []) in Hr. by rewrite app_nil_r in Hr.
Qed.

End discovery.

(** ** Witnesses *)

Definition ex_guests : gmap string OuterState :=
  {[ "inference-0" := ex_joining_outer; "inference-x" := zeroOuterState ]}.

