(* ===== verification/ControllerOutage.v ===== *)
(** * Outages and shrinking

    What the loop does while the workload cluster does not answer, and how the
    scaling decision and the membership plan compose when a pool shrinks by
    itself. *)

From S2P Require Import Prelude GoStd Api KubeApi Provider Workload Provisioner Fsm Membership.
From S2P Require Import Scaling Rollout Helpers Status Inventory CellId HamiProvider Bootstrap.
From S2P Require Import CellRow Reconciler ExampleWorld Controller ControllerSafety.
From S2P Require Import ControllerSpec Discovery.
Local Open Scope Z_scope.
Local Open Scope go_scope.

(** A plan made while the cluster is unreachable neither creates nor drains. *)
Lemma PlanMembership_unreachable inp :
  mi_WorkloadReachable inp = false ->
  mp_Create (PlanMembership inp) = [] /\ mp_Drain (PlanMembership inp) = [].
Proof.
  intros Hr. unfold PlanMembership, plan_create. rewrite Hr. cbn [negb].
  destruct (_ <? _); [done|].
  pose proof (replace_loop_spec (mi_Now inp) (mi_ProviderUsable inp)
                (tl_failed (tally_cells (mi_Cells inp))) zeroPlan) as Hs.
  destruct (Membership.replace_loop _ _ _ _) as [plan returned]. simpl in Hs. destruct Hs as (Hc & Hd & _).
  repeat case_match; done.
Qed.

Section outage.
Context `{ENV : Environment W Client Config}.
Implicit Types (pool : GPUCellPool) (prov : ProvisionerOps W).

(** The rows a pass finds in an outage. *)
Definition outage_rows pool prov (s : RState W Client) : list CellStatus :=
  match value (discoverCells pool prov None) (final (workloadClient pool) s) with Ok rows => rows | Err _ => [] end.

(** One of the pool's cells, by the list of the provisioner. *)
Definition listed_cell pool (listed : list string) (cell : string) : Prop :=
  exists g idx, g ∈ listed /\ ParseIndex (pool_Name pool) g = Ok idx /\ cell = Name (pool_Name pool) idx.

(** A Failed cell whose backoff has expired at a reading of the clock. *)
Definition due_failed pool (rows : list CellStatus) (cell : string) : Prop :=
  exists c w, c ∈ rows /\ cell = Name (pool_Name pool) (cs_Index c)
         /\ cs_Phase c = CellPhaseFailed /\ ShouldReplace c (Clock w).1 false = true.

(** The calls an outage allows: none on the workload cluster; on Secrets and outer objects
    only of cells that are listed; and to let go of, only the Failed cells that are due. *)
Definition frozen pool (listed : list string) (rows : list CellStatus) (c : Call) : Prop :=
  match c with
  | CallNodeMetadata _ _ | CallCordon _ _ | CallDeleteNode _ => False
  | CallEnsure cell _ => listed_cell pool listed cell
  | CallCreateSecret n | CallUpdateSecret n =>
      exists cell, listed_cell pool listed cell /\ n = BootstrapSecretName cell
  | CallClearDrainFinalizer cell | CallDelete cell => due_failed pool rows cell
  | CallUpdatePool _ => False
  | CallUpdateStatus _ | CallList _ | ReadNode _ _ | ReadPoolNodes _ | ReadAllocations _ _
  | CallEvent _ _ _ | CallMetric _ => True
  end.

Definition other (c : Call) : bool :=
  match c with
  | CallUpdateStatus _ | CallList _ | ReadNode _ _ | ReadPoolNodes _ | ReadAllocations _ _
  | CallEvent _ _ _ | CallMetric _ => true
  | _ => false
  end.

Lemma ShouldReplace_failed c t usable : ShouldReplace c t usable = true -> cs_Phase c = CellPhaseFailed.
Proof. unfold ShouldReplace. by destruct (cs_Phase c). Qed.

Section freeze.
Context pool (listed : list string) (rows : list CellStatus).
Context `{!SecretStore} `{!SecretLaws}.
Local Abbreviation frozen := (frozen pool listed rows).

Lemma frozen_other c : other c = true -> Forall frozen [c].
Proof. intros Hc. constructor; [|constructor]. by destruct c. Qed.
Hint Resolve frozen_other : holds.
Hint Extern 1 (holds _ (workloadClient _)) => eapply workloadClient_holds; apply _ : holds.

Lemma holds_asked {A B} P (f : W -> A) (k : A -> M W Client B) :
  (forall w, holds P (k (f w))) -> holds P (ask f ≫= k).
Proof. intros Hk s. rewrite log_bind. exact (Hk (rst_world s) s). Qed.

Lemma ensureBootstrapSecret_frozen g idx :
  g ∈ listed -> ParseIndex (pool_Name pool) g = Ok idx ->
  holds (Forall frozen) (ensureBootstrapSecret pool idx).
Proof.
  intros Hg Hi. assert (listed_cell pool listed (Name (pool_Name pool) idx)) as Hc by by exists g, idx.
  unfold ensureBootstrapSecret. destruct (capiOwnsBootstrap pool); [compose|].
  destruct (boot_JoinSecretRef _); [|compose]. cbv zeta. do 2 (apply holds_bind; [apply _|compose|intros ?]).
  destruct (so_Data _ !! _); [|compose]. apply holds_bind; [apply _|compose|intros ?].
  apply holds_asked. intros w. destruct (get_secret _ _ w) as [o|] eqn:Eo.
  - apply get_secret_named in Eo as [_ En]. cbn in En.
    compose. constructor; [|constructor]. eexists. split; [exact Hc|exact En].
  - compose. constructor; [|constructor]. eexists. by split.
Qed.

Lemma discoverCell_frozen prov prev g idx :
  g ∈ listed -> ParseIndex (pool_Name pool) g = Ok idx ->
  holds (Forall frozen) (discoverCell pool prov None prev g idx).
Proof.
  intros Hg Hi. pose proof (ensureBootstrapSecret_frozen g idx Hg Hi).
  unfold discoverCell, ensure. compose. constructor; [|constructor]. by exists g, idx.
Qed.

Lemma discover_loop_frozen prov previous guests :
  (forall g, g ∈ guests -> g ∈ listed) ->
  holds (Forall frozen) (discover_loop pool prov None previous guests).
Proof.
  induction guests as [|g guests IH]; intros Hs; cbn [discover_loop]; [compose|].
  assert (holds (Forall frozen) (discover_loop pool prov None previous guests)) as H'
    by (apply IH; intros; apply Hs; by right).
  destruct (ParseIndex _ g) eqn:Ei; [|done].
  pose proof (fun prev => discoverCell_frozen prov prev g _ (Hs g ltac:(left)) Ei).
  compose.
Qed.

Lemma discoverCells_frozen prov s :
  p_List prov (pool_Namespace pool) (pool_Name pool) (rst_world s) = Ok listed ->
  Forall frozen (log (discoverCells pool prov None) s).
Proof.
  intros Hl. unfold discoverCells. rewrite log_bind.
  destruct (list_cells_spec prov pool s) as (-> & -> & ->). rewrite Hl. cbn [app].
  constructor; [done|]. revert s Hl.
  match goal with |- forall s, _ -> Forall ?P (log ?m s) => assert (holds (Forall P) m) as Hm end;
    [|by intros s _; apply Hm].
  pose proof (discover_loop_frozen prov) as Hd. compose. apply Hd.
  intros g. unfold sort_strings. by rewrite merge_sort_Permutation.
Qed.

(** Draining cells wait, Failed cells that are due go. *)
Lemma progressDrain_frozen pool' prov cell since :
  holds (Forall frozen) (progressDrain pool' prov None cell false since).
Proof.
  unfold progressDrain. fold (read_allocations pool' None cell).
  apply holds_bind; [apply _|unfold read_allocations; compose|intros r].
  apply holds_bind; [apply _|compose|intros t].
  destruct (dd_Proceed _) eqn:Ep; cbn [negb]; [|compose].
  by apply AdvanceDrain_live in Ep as [? _].
Qed.

Lemma replace_cells_frozen pool' prov :
  pool_Name pool' = pool_Name pool -> holds (Forall frozen) (replace_cells pool' prov false rows).
Proof.
  intros Hn. unfold replace_cells. apply holds_each; [apply _|]. intros c Hc.
  apply (holds_step _ (fun t => exists w, t = (Clock w).1)); [compose| |].
  { intros s t. rewrite value_now. intros [= <-]. by exists (rst_world s). }
  intros t [w ->]. destruct (ShouldReplace c _ _) eqn:Hr; [|compose].
  assert (due_failed pool rows (Name (pool_Name pool') (cs_Index c))) as Hd.
  { exists c, w. rewrite Hn. eauto using ShouldReplace_failed. }
  unfold deleteCell. cbv zeta. compose; constructor; done.
Qed.

Lemma reconcilePool_frozen prov s reason msg :
  value (workloadClient pool) s = Ok (None, reason, msg) ->
  p_List prov (pool_Namespace pool) (pool_Name pool) (rst_world s) = Ok listed ->
  rows = outage_rows pool prov s ->
  Forall frozen (log (reconcilePool pool prov) s).
Proof.
  intros Hc Hl Hrows. unfold reconcilePool. rewrite log_bind, Hc. unfold outage_rows in Hrows.
  destruct (workloadClient_silent pool s) as (_ & -> & Hw). cbn [app]. rewrite <- Hw in Hl.
  set (s1 := final (workloadClient pool) s) in *. clearbody s1. cbv zeta. rewrite log_bind.
  apply Forall_app. split; [by apply discoverCells_frozen|].
  destruct (value (discoverCells pool prov None) s1) as [cells|]; [|constructor]. subst cells.
  match goal with |- Forall ?P (log ?m _) => assert (holds (Forall P) m) as Hm end; [|apply Hm].
  pose proof progressDrain_frozen as Hd. apply holds_asked. intros w1. apply holds_asked. intros w2.
  do 5 (apply holds_bind; [apply _|compose|intros ?; cbv zeta]).
  match goal with |- context [learn_shape pool ?sn ?t] => destruct (learn_shape_pool pool sn t) as [st ->] end.
  eapply holds_step; [apply _|unfold record_scale; compose|apply record_scale_pool|]. intros ? [st' ->].
  pose proof (replace_cells_frozen {| pool with pool_Status := st' |} prov eq_refl) as Hrep.
  apply holds_bind; [apply _|compose|intros t]. cbv zeta.
  match goal with |- context [PlanMembership ?i] =>
    destruct (PlanMembership_unreachable i eq_refl) as [Hcr Hdr]; rewrite Hcr, Hdr end.
  unfold create_cells. cbn [each mark_drains]. change (0 <? len (@nil int32)) with false. cbv iota.
  apply holds_bind; [apply _|compose|intros _].
  do 2 (apply (holds_step _ (fun cells => cells = rows)); [compose|by apply ensures_ret|intros ? ->]).
  unfold mark_rollout, drain_cells, writeStatus. apply holds_bind; [apply _|exact Hrep|intros _]. compose.
Qed.
End freeze.


(** An outage lifts the veto on rebuilding. A failed cell whose Node joined
    without a GPU is not replaced while the provider is unusable
    ([RebuildWouldNotHelp]); the row rediscovered during an outage no longer
    says that the Node joined, so the cell is replaced as soon as its backoff
    has expired, whatever the provider. *)
Theorem outage_lifts_veto pool prov prev name idx s row t0 t usable :
  value (discoverCell pool prov None prev name idx) s = Ok row ->
  cs_Phase prev = CellPhaseFailed -> cs_LastTransitionTime prev = Some t0 ->
  cs_GuestUID prev = cs_GuestUID row -> cs_FailureCount prev < MaxFailuresPerIndex ->
  Backoff (cs_FailureCount prev) <= Sub t t0 ->
  RebuildWouldNotHelp row usable = false /\ ShouldReplace row t usable = true.
Proof.
  intros Hv Hp Ht Hu Hf Hb.
  apply discoverCell_steps in Hv as (outer & obs & t1 & t2 & t3 & -> & Hobs & _).
  rewrite step_row_guest in Hu. cbn [sg_outer] in Hu.
  unfold step_row. rewrite continue_row_same by (right; right; done). cbn [sg_outer sg_moved].
  destruct (ob_node _ _ _ _ _ _ Hobs) as (Hn & _ & _ & Hc).
  assert (dec_Phase (AdvanceCell (sight_observation prev (mkSight outer obs t1 t2 t3)))
          = CellPhaseFailed) as Hd.
  { unfold AdvanceCell. cbn. rewrite (ob_reachable _ _ _ _ _ _ Hobs). unfold phaseOr. rewrite Hp. cbn.
    by destruct (o_Failed outer). }
  set (row := cellStatus _ _ _ _ _ _ _).
  assert (RebuildWouldNotHelp row usable = false) as Hr.
  { unfold RebuildWouldNotHelp, row. cbn [cs_NodeReady cellStatus]. cbn. rewrite Hn. cbn.
    by rewrite andb_false_r. }
  split; [done|]. unfold ShouldReplace. rewrite Hr. unfold row. cbn [cellStatus cs_Phase cs_FailureCount
    cs_LastTransitionTime]. unfold row_moved. rewrite Hd, Hp, Ht. cbn.
  rewrite (proj2 (Z.leb_gt _ _)) by done. by apply Z.leb_le.
Qed.
End outage.

(** ** A pool that shrinks by itself *)

(** The two counts of live cells, of the scaler and of the planner, agree. *)
Lemma liveCells_live_count cells : len cells <= MaxInt32 -> liveCells cells = live_count cells.
Proof.
  unfold liveCells, live_count. intros Hl.
  assert (forall n, 0 <= n -> n + len cells <= MaxInt32 ->
            foldl count_live n cells = n + len (List.filter is_live cells)) as Hg.
  2: { rewrite Hg by lia. lia. }
  clear Hl. induction cells as [|c cells IH]; intros n Hn Hl; [simpl; unfold len; simpl; lia|].
  cbn [foldl List.filter]. rewrite len_cons in Hl. pose proof (len_nonneg cells).
  assert (count_live n c = if is_live c then n + 1 else n) as ->.
  { assert (wrap32 (n + 1) = n + 1) as Hw
      by (apply wrap32_id; unfold int32_ok, MinInt32, MaxInt32 in *; lia).
    unfold count_live, is_live. rewrite Hw. by destruct (cs_Phase c); try case_bool_decide. }
  destruct (is_live c); rewrite ?len_cons, IH by lia; lia.
Qed.

Lemma idle_candidates p cells name :
  name ∈ idleCells p cells -> name ∈ cand_names cells.
Proof.
  unfold idleCells, cand_names. rewrite !elem_of_map_b. setoid_rewrite elem_of_filter_b.
  intros (c & -> & Hc & Hi). exists c. split_and!; [done..|].
  unfold idle_cell in Hi. unfold drainable.
  destruct (bool_decide_reflect (cs_Phase c = CellPhaseReady)) as [->|]; done.
Qed.

(** C11. When the autoscaler shrinks a pool that is within its ceiling, the plan
    drains exactly one cell, and it is one the capacity provider reported idle
    in this pass. *)
Theorem autoscaler_drains_one_idle_cell pool cells sn free p t1 t2 usable aspec :
  let inp := scale_input pool cells sn free (idleCells p cells) t1 in
  let scale := DecideScale inp in
  spec_Autoscaling (pool_Spec pool) = Some aspec -> as_Enabled aspec = true ->
  int32_fields inp aspec -> 0 <= scale_floor inp aspec ->
  2 * len cells <= MaxInt32 -> NoDup (map cs_Name cells) -> NoDup (map cs_Index cells) ->
  live_count cells <= scale_ceiling inp aspec ->
  sd_ScaledDown scale = true ->
  exists name, mp_Drain (PlanMembership (membership_input pool cells scale free true usable t2)) = [name]
          /\ name ∈ idleCells p cells.
Proof.
  cbv zeta. intros Ha He Hok Hfl Hlen Hn Hx Hceil Hdown. pose proof (len_nonneg cells).
  pose proof (live_count_bounds cells) as Hlive.
  pose proof (liveCells_live_count cells ltac:(lia)) as Hcount.
  set (inp := scale_input _ _ _ _ _ _) in *. set (scale := DecideScale inp) in *.
  assert (si_LiveCells inp = live_count cells) as Hsl by done.
  assert (si_IdleCells inp = idleCells p cells) as Hsi by done.
  pose proof (DecideScale_view inp aspec Ha He Hok) as Hv. fold scale in Hv. clearbody scale.
  destruct Hv as [? ? ? ? ? ? E Hu Hd _|d t ? ? ? ? Hlt Hidle ? ? ? ? ? E Hu Hd Hc|? ? E Hu Hd _];
    [congruence| |congruence].
  assert (scale_base inp aspec = live_count cells) as Hbase.
  { revert Hlt. unfold scale_base. rewrite Hsl.
    cbv zeta. repeat case_match; guards; lia. }
  rewrite Hbase in *. rewrite Hsi in *.
  set (m := membership_input _ _ _ _ _ _ _).
  assert (input_ok m) as Hm by (split; cbn; rewrite E; lia).
  assert (drains cells (idleCells p cells) 1 (mp_Drain (PlanMembership m))) as Hdr.
  { destruct (PlanMembership_view_ok m Hm) as [? ? Hr|? ? ? ? ? Hdr|? Hge|? Ha'].
    - done.
    - rewrite Hdr. cbn. rewrite E, Hc. replace (live_count cells - (live_count cells - 1)) with 1 by lia.
      by apply plan_drain_drains.
    - exfalso. cbn in Hge. rewrite E in Hge. lia.
    - exfalso. pose proof (ca_short _ Ha') as Hs. cbn in Hs. rewrite E in Hs. lia. }
  destruct (idleCells p cells) as [|i rest] eqn:Ei; [done|].
  assert (i ∈ cand_names cells) as Hi by (apply (idle_candidates p); rewrite Ei; left).
  destruct Hdr as [_ _ Hlen1 Hpref _].
  assert (0 < len (cand_names cells)) as Hpos.
  { destruct (cand_names cells); [by apply elem_of_nil in Hi|].
    rewrite len_cons. pose proof (len_nonneg l). lia. }
  rewrite Z.min_l in Hlen1 by lia.
  destruct (mp_Drain (PlanMembership m)) as [|x [|y l]];
    rewrite ?len_cons, ?len_nil in Hlen1; [done| |pose proof (len_nonneg l); lia].
  exists x. split; [done|]. destruct (decide (x ∈ i :: rest)) as [|Hx']; [done|].
  pose proof (Hpref x i ltac:(left) Hx' ltac:(left) Hi) as Hix.
  apply list_elem_of_singleton in Hix. subst i. left.
Qed.

(** ** Witnesses *)

(** A cell whose Node joined without a GPU and failed; its guest still exists. *)
Definition ex_vetoed_row : CellStatus :=
  {| zeroCellStatus with cs_Name := "inference-0"; cs_Phase := CellPhaseFailed; cs_GuestUID := "uid-1";
     cs_NodeReady := true; cs_Reason := ReasonGPUNotAdvertised; cs_FailureCount := 1;
     cs_LastTransitionTime := Some Minute |}.
Definition ex_vetoed_pool : GPUCellPool :=
  let status := {| ex_status with st_Cells := [ex_vetoed_row] |} in {| ex_pool with pool_Status := status |}.
Definition ex_outage : RState World unit :=
  ex_cluster ex_vetoed_pool {[ "inference-0" := ex_joining_outer ]} (mkMemCluster ∅ ∅ []) false.


(** The veto holds for the row, and yet the pass deletes the guest while the
    workload cluster does not answer. *)
Lemma outage_lifts_veto_witness :
  ShouldReplace ex_vetoed_row (1000 * Minute) false = false
  /\ CallDelete "inference-0" ∈ log (Reconcile "gpu" "inference") ex_outage
  /\ exists row, value (discoverCell ex_vetoed_pool ex_provisioner None ex_vetoed_row "inference-0" 0) ex_outage
            = Ok row /\ ShouldReplace row (1000 * Minute) false = true.
Proof.
  split; [vm_compute; reflexivity|]. split; [vm_compute; do 5 right; left|].
  eexists. split; [vm_compute; reflexivity|].
  refine (proj2 (outage_lifts_veto ex_vetoed_pool ex_provisioner ex_vetoed_row "inference-0" 0 ex_outage
            _ Minute (1000 * Minute) false _ _ _ _ _ _)).
  - vm_compute. reflexivity.
  - reflexivity.
  - reflexivity.
  - reflexivity.
  - reflexivity.
  - vm_compute. discriminate.
Defined.

(** Two Ready cells, the first of which holds work. *)
Definition ex_ready_row (i : int32) : CellStatus :=
  {| zeroCellStatus with cs_Name := Name "inference" i; cs_Index := i; cs_Phase := CellPhaseReady;
     cs_GuestUID := "uid"; cs_NodeName := Name "inference" i; cs_NodeReady := true |}.
Definition ex_two_cells : Provider :=
  mkProvider "HAMi" (fun _ => Ok (mkHealth true "" "")) (fun _ => Ok 1) (fun _ => Ok zeroCapacity)
    (fun n => if n == Name "inference" 1 then Ok zeroAllocations else Ok (mkAllocations 1 0 0 false))
    (fun _ => Ok zeroDemand).
Definition ex_autoscaled_pool : GPUCellPool :=
  let spec := {| ex_spec with spec_Autoscaling :=
                   Some (mkAutoscalingSpec true (Some 1) (Some 2) None ScaleDownAuto None) |} in
  let status := {| ex_status with st_DemandFreeSince := Some Minute |} in
  {| ex_pool with pool_Spec := spec; pool_Status := status |}.

Lemma autoscaler_drains_one_idle_cell_witness :
  let cells := [ex_ready_row 0; ex_ready_row 1] in
  let sn := mkSensed (mkHealth true "" "") zeroCapacity true zeroDemand true None in
  let scale := DecideScale (scale_input ex_autoscaled_pool cells sn None (idleCells ex_two_cells cells)
                              (100 * Minute)) in
  exists name,
    mp_Drain (PlanMembership (membership_input ex_autoscaled_pool cells scale None true true (100 * Minute)))
    = [name] /\ name ∈ idleCells ex_two_cells cells.
Proof.
  refine (autoscaler_drains_one_idle_cell ex_autoscaled_pool [ex_ready_row 0; ex_ready_row 1]
            (mkSensed (mkHealth true "" "") zeroCapacity true zeroDemand true None) None ex_two_cells
            (100 * Minute) (100 * Minute) true
            (mkAutoscalingSpec true (Some 1) (Some 2) None ScaleDownAuto None) _ _ _ _ _ _ _ _ _).
  - reflexivity.
  - reflexivity.
  - split; split; vm_compute; discriminate.
  - vm_compute. discriminate.
  - vm_compute. discriminate.
  - apply (bool_decide_unpack _). vm_compute. exact I.
  - apply (bool_decide_unpack _). vm_compute. exact I.
  - vm_compute. discriminate.
  - vm_compute. reflexivity.
Defined.
