(* ===== verification/CellGuard.v ===== *)
(** * Cells leave only through the drain finalizer

    A provisioner guards its cells: the object that stands for a cell survives
    every operation while it carries the drain finalizer, except the one that
    clears it. Both provisioners implement this interface; the reconcile loop is a
    client of it, so a cell cannot leave in a pass that did not clear its
    finalizer. *)

From S2P Require Import Prelude GoStd Api KubeApi Provider Workload Provisioner Fsm Membership.
From S2P Require Import Unstructured Template CellObjects SwiftGuest ClusterApi.
From S2P Require Import Scaling Rollout Helpers Status Inventory CellId HamiProvider Bootstrap.
From S2P Require Import CellRow Reconciler ExampleWorld Controller Stable.
Local Open Scope Z_scope.
Local Open Scope go_scope.

(** ** The interface *)

Section guard.
Context {W : Type} `{InfraCluster W}.

(** The object of a cell is there and carries the drain finalizer. *)
Definition guarded (gvk : GVK) (ns cell : string) (w : W) : Prop :=
  exists o, there gvk ns cell w o /\ FinalizerCellDrain ∈ u_Finalizers o.

Class CellGuard (prov : ProvisionerOps W) (gvk : GVK) : Prop := {
  guard_ensure : forall req w r w' ns cell,
    guarded gvk ns cell w -> p_Ensure prov req w = (r, w') -> guarded gvk ns cell w';
  guard_delete : forall req w r w' ns cell,
    guarded gvk ns cell w -> p_Delete prov req w = (r, w') -> guarded gvk ns cell w';
  guard_clear : forall clear req w r w' ns cell,
    p_ClearDrainFinalizer prov = Some clear -> cr_CellName req <> cell ->
    guarded gvk ns cell w -> clear req w = (r, w') -> guarded gvk ns cell w'
}.

Lemma guarded_frame gvk ns cell w w' :
  get_object gvk ns cell w' = get_object gvk ns cell w -> guarded gvk ns cell w -> guarded gvk ns cell w'.
Proof. intros E (o & Ho & Hf). exists o. split; [|done]. unfold there. by rewrite E. Qed.

Context `{!InfraLaws W}.

Lemma guarded_kept gvk ns cell w w' o o' :
  there gvk ns cell w o -> guarded gvk ns cell w ->
  there gvk ns cell w' o' -> u_Finalizers o' = u_Finalizers o -> guarded gvk ns cell w'.
Proof.
  intros Ho (o2 & Ho2 & Hf) Ho' E. exists o'. split; [done|]. rewrite E. unfold there in *. congruence.
Qed.

(** A deletion spares every guarded object. *)
Lemma delete_guarded gvk' ns' n' c w r w' gvk ns cell :
  guarded gvk ns cell w -> delete_ignoring_absent gvk' ns' n' c w = (r, w') -> guarded gvk ns cell w'.
Proof.
  intros Hg Hd. destruct (decide ((gvk, ns, cell) = (gvk', ns', n'))) as [[= <- <- <-]|Hne].
  - destruct Hg as (o & Ho & Hf). assert (u_Finalizers o <> []) as Hn by (intros E; by rewrite E, elem_of_nil in Hf).
    destruct (delete_held _ _ _ _ _ _ _ _ Ho Hn Hd) as (o' & Ho' & E). exists o'. by rewrite E.
  - apply (guarded_frame gvk ns cell w); [|done]. apply (delete_frame _ _ _ _ _ _ _ _ _ _ Hd). naive_solver.
Qed.

(** A creation does too. *)
Lemma create_guarded o w r w' gvk ns cell :
  gone (u_GVK o) (u_Namespace o) (u_Name o) w ->
  guarded gvk ns cell w -> create o w = (r, w') -> guarded gvk ns cell w'.
Proof.
  intros Hg Hguard Hc. apply (guarded_frame gvk ns cell w); [|done].
  apply (create_frame _ _ _ _ _ _ _ Hc). intros (<- & <- & <-).
  destruct Hguard as (o' & Ho' & _). unfold there, gone in *. congruence.
Qed.

Lemma clear_guarded gvk' c1 c2 req w r w' gvk ns cell :
  cr_CellName req <> cell -> guarded gvk ns cell w ->
  clear_drain_finalizer gvk' c1 c2 req w = (r, w') -> guarded gvk ns cell w'.
Proof.
  intros Hne Hg Hc. apply (guarded_frame gvk ns cell w); [|done].
  apply (clear_frame _ _ _ _ _ _ _ _ _ _ Hc). by intros (_ & _ & ->).
Qed.

(** A sequence keeps the guard when its parts do. *)
Definition keeps_guard {A} (gvk : GVK) (ns cell : string) (m : PM W A) : Prop :=
  forall w r w', guarded gvk ns cell w -> m w = (r, w') -> guarded gvk ns cell w'.

Lemma guard_pm_bind {A B} gvk ns cell (m : PM W A) (f : A -> PM W B) :
  keeps_guard gvk ns cell m -> (forall a, keeps_guard gvk ns cell (f a)) ->
  keeps_guard gvk ns cell (m ≫= f).
Proof.
  intros Hm Hf w r w' Hg. unfold mbind, PM_bind. destruct (m w) as [[a|e] w1] eqn:E.
  - intros Hr. eapply Hf; [|done]. by eapply Hm.
  - intros [= _ <-]. by eapply Hm.
Qed.
Lemma guard_pm_ret {A} gvk ns cell (a : A) : keeps_guard gvk ns cell (mret a).
Proof. by intros w r w' Hg [= _ <-]. Qed.
Lemma guard_pm_fail {A} gvk ns cell e : keeps_guard gvk ns cell (@pfail W A e).
Proof. by intros w r w' Hg [= _ <-]. Qed.
Lemma guard_pm_ask {A} gvk ns cell (f : W -> A) : keeps_guard gvk ns cell (pask f).
Proof. by intros w r w' Hg [= _ <-]. Qed.
Lemma guard_pm_lift {E A} gvk ns cell wrap (x : result E A) : keeps_guard gvk ns cell (@plift W E A wrap x).
Proof. intros w r w' Hg. unfold plift. by destruct x; intros [= _ <-]. Qed.
Lemma guard_pm_wrap {A} gvk ns cell c (m : PM W A) : keeps_guard gvk ns cell m -> keeps_guard gvk ns cell (pwrap c m).
Proof.
  intros Hm w r w' Hg. unfold pwrap. destruct (m w) as [[a|e] w1] eqn:E; intros [= _ <-]; by eapply Hm.
Qed.
Lemma guard_pm_delete gvk ns cell gvk' ns' n' c : keeps_guard gvk ns cell (delete_ignoring_absent gvk' ns' n' c).
Proof. intros w r w' Hg Hd. by eapply delete_guarded. Qed.

(** Reading an object, with branches that keep the guard; the second one may use
    that the object is not there. *)
Lemma guard_pm_get_or {A} gvk ns cell gvk' ns' n' c (f : UObject -> PM W A) g :
  (forall o, keeps_guard gvk ns cell (f o)) ->
  (forall w r w', gone gvk' ns' n' w -> guarded gvk ns cell w -> g w = (r, w') -> guarded gvk ns cell w') ->
  keeps_guard gvk ns cell (get_or gvk' ns' n' c f g).
Proof.
  intros Hf Ha w r w' Hg. unfold get_or. unfold_pm.
  destruct (get_object gvk' ns' n' w) as [o|e] eqn:E; [by apply Hf|].
  destruct e; simpl; try (by intros [= _ <-]). by apply Ha.
Qed.

(** Making an object where there was none. *)
Lemma create_keeps {A} gvk ns cell gvk' ns' n' o (k : UObject -> PM W A) w r w' :
  object_at o gvk' ns' n' -> gone gvk' ns' n' w -> (forall x, keeps_guard gvk ns cell (k x)) ->
  guarded gvk ns cell w -> (create o ≫= k) w = (r, w') -> guarded gvk ns cell w'.
Proof.
  intros (<- & <- & <-) Hgone Hk Hg. unfold mbind, PM_bind.
  destruct (create o w) as [[x|e] w1] eqn:E.
  - apply Hk. by eapply create_guarded.
  - intros [= _ <-]. by eapply create_guarded.
Qed.
End guard.

Create HintDb guard_pm.
#[export] Hint Resolve guard_pm_bind guard_pm_ret guard_pm_fail guard_pm_ask guard_pm_lift guard_pm_wrap guard_pm_delete : guard_pm.

(** ** The implementations *)

Section implementations.
Context {W : Type} `{InfraCluster W} `{!InfraLaws W} `{Nested}.

Lemma plift_same {E A} wrap (x : result E A) (w : W) : (plift wrap x w).2 = w.
Proof. by destruct x. Qed.

Lemma ensureSeedProfile_keeps gvk ns cell req : keeps_guard (W:=W) gvk ns cell (ensureSeedProfile req).
Proof.
  apply guard_pm_get_or; [intros; apply guard_pm_ret|]. intros w r w' Hgone Hg.
  refine (create_keeps _ _ _ _ _ _ _ _ _ _ _ _ Hgone _ Hg); [by repeat split|intros; apply guard_pm_ret].
Qed.

Lemma ensureGuest_keeps gvk ns cell req : keeps_guard (W:=W) gvk ns cell (ensureGuest req).
Proof.
  apply guard_pm_get_or; [intros; apply guard_pm_ret|]. intros w r w' Hgone Hg.
  unfold mbind, PM_bind, plift. destruct (renderGuestSpec req) as [spec|e]; [|by intros [= _ <-]].
  apply create_guarded; done.
Qed.

#[export] Instance SwiftGuest_guard : CellGuard (W:=W) SwiftGuestProvisioner SwiftGuestGVK.
Proof.
  split; simpl.
  - intros req w r w' ns cell. revert w r w'. apply guard_pm_bind; [apply guard_pm_wrap, ensureSeedProfile_keeps|intros _].
    apply guard_pm_bind; [apply guard_pm_wrap, ensureGuest_keeps|intros; apply guard_pm_ret].
  - intros req w r w' ns cell. revert w r w'. apply guard_pm_get_or.
    + intros o. apply guard_pm_bind; [|intros; apply guard_pm_ret]. destruct (PtrIsZero _); eauto with guard_pm.
    + intros w r w' _. apply guard_pm_bind; eauto with guard_pm.
  - intros clear req w r w' ns cell [= <-]. apply clear_guarded.
Qed.

Lemma ensureBootstrapConfig_keeps gvk ns cell req cfg :
  keeps_guard (W:=W) gvk ns cell (ensureBootstrapConfig req cfg).
Proof.
  unfold ensureBootstrapConfig. destruct (bootstrapTemplateRef req) as [ref|]; [|apply guard_pm_ret].
  apply guard_pm_get_or; [intros; apply guard_pm_ret|]. intros w r w' Hgone Hg.
  unfold mbind at 1, PM_bind at 1, pask. destruct (get_object _ _ (ref_Name ref) w) as [tmpl|e];
    unfold mbind at 1, PM_bind at 1, plift; [|by intros [= _ <-]].
  destruct (NestedMap _ _) as [spec|]; [|by intros [= _ <-]].
  refine (create_keeps _ _ _ _ _ _ _ _ _ _ _ _ Hgone _ Hg); [by repeat split|intros; apply guard_pm_ret].
Qed.

Lemma ensureInfraMachine_keeps gvk ns cell req cfg :
  keeps_guard (W:=W) gvk ns cell (ensureInfraMachine req cfg).
Proof.
  apply guard_pm_get_or; [intros; apply guard_pm_ret|]. intros w r w' Hgone Hg.
  unfold mbind at 1, PM_bind at 1, plift. destruct (renderMachineBackend req) as [b|e]; [|by intros [= _ <-]].
  refine (create_keeps _ _ _ _ _ _ _ _ _ _ _ _ Hgone _ Hg); [by repeat split|intros; apply guard_pm_ret].
Qed.

Lemma ensureMachine_keeps gvk ns cell req cfg ref :
  keeps_guard (W:=W) gvk ns cell (ensureMachine req cfg ref).
Proof.
  apply guard_pm_get_or; [intros; apply guard_pm_ret|]. intros w r w' Hgone Hg. by apply create_guarded.
Qed.

#[export] Instance ClusterAPI_guard : CellGuard (W:=W) ClusterAPIProvisioner MachineGVK.
Proof.
  split; simpl.
  - intros req w r w' ns cell. revert w r w'. unfold ClusterAPI_Ensure.
    destruct (cr_ClusterAPI req) as [cfg|]; [|apply guard_pm_fail].
    apply guard_pm_bind; [apply guard_pm_wrap, ensureBootstrapConfig_keeps|intros ref].
    apply guard_pm_bind; [apply guard_pm_wrap, ensureInfraMachine_keeps|intros _].
    apply guard_pm_bind; [apply guard_pm_wrap, ensureMachine_keeps|intros m].
    intros w r w' Hg Ho. by apply observeMachine_reads in Ho as ->.
  - intros req w r w' ns cell. revert w r w'. apply guard_pm_bind; [|intros gone].
    + apply guard_pm_get_or; [|intros w r w' _; apply guard_pm_ret].
      intros o. apply guard_pm_bind; [|intros; apply guard_pm_ret]. destruct (PtrIsZero _); eauto with guard_pm.
    + apply guard_pm_bind; [apply guard_pm_delete|intros _].
      apply guard_pm_bind; [destruct (bootstrapTemplateRef req); eauto with guard_pm|intros _; apply guard_pm_ret].
  - intros clear req w r w' ns cell [= <-]. apply clear_guarded.
Qed.
End implementations.

(** ** The loop *)

Section loop.
Context `{ENV : Environment W Client Config}.

(** What is documented of the two clusters: a pool, a Secret, a Node and the
    clock are not the objects of the cells. *)
Definition cell_kind (gvk : GVK) : Prop := gvk = SwiftGuestGVK \/ gvk = MachineGVK.

Class CellFrame : Prop := {
  clock_frame : forall gvk ns n (w : W), cell_kind gvk ->
    get_object gvk ns n (Clock w).2 = get_object gvk ns n w;
  update_pool_frame : forall gvk ns n p (w : W), cell_kind gvk ->
    get_object gvk ns n (update_pool p w).2 = get_object gvk ns n w;
  update_pool_status_frame : forall gvk ns n p (w : W), cell_kind gvk ->
    get_object gvk ns n (update_pool_status p w).2 = get_object gvk ns n w;
  create_secret_frame : forall gvk ns n o (w : W), cell_kind gvk ->
    get_object gvk ns n (create_secret o w).2 = get_object gvk ns n w;
  update_secret_frame : forall gvk ns n o (w : W), cell_kind gvk ->
    get_object gvk ns n (update_secret o w).2 = get_object gvk ns n w;
  patch_frame : forall gvk ns n cs name p (w : W), cell_kind gvk ->
    get_object gvk ns n (@patch_node W (inner cs) name p w).2 = get_object gvk ns n w;
  delete_frame_node : forall gvk ns n cs name (w : W), cell_kind gvk ->
    get_object gvk ns n (@delete_node W (inner cs) name w).2 = get_object gvk ns n w
}.

Context `{!CellFrame, !InfraLaws W}.
Context (prov : ProvisionerOps W) (gvk : GVK) `{!CellGuard prov gvk} (Hkind : cell_kind gvk).
Context (ns cell : string).
Implicit Types (pool : GPUCellPool) (cs : Client).

(** What clears the cell's finalizer. *)
Definition clears_cell (c : Call) : Prop := c = CallClearDrainFinalizer cell.

#[local] Instance guarded_stable : StableOps (guarded gvk ns cell) clears_cell prov.
Proof.
  split; intros.
  - apply (guarded_frame _ _ _ w); [by apply clock_frame|done].
  - apply (guarded_frame _ _ _ w); [by apply update_pool_status_frame|done].
  - apply (guarded_frame _ _ _ w); [by apply create_secret_frame|done].
  - apply (guarded_frame _ _ _ w); [by apply update_secret_frame|done].
  - apply (guarded_frame _ _ _ w); [by apply patch_frame|done].
  - apply (guarded_frame _ _ _ w); [by apply delete_frame_node|done].
  - destruct (p_Ensure prov req w) as [r w'] eqn:E. by eapply guard_ensure.
  - destruct (p_Delete prov req w) as [r w'] eqn:E. by eapply guard_delete.
  - destruct (clear req w) as [r w'] eqn:E. eapply guard_clear; [done| |done|done].
    intros Heq. match goal with H : ~ clears_cell _ |- _ => apply H end. unfold clears_cell. by rewrite Heq.
Qed.

Lemma update_pool_guarded p (w : W) : guarded gvk ns cell w -> guarded gvk ns cell (update_pool p w).2.
Proof. apply guarded_frame. by apply update_pool_frame. Qed.

(** C2. A cell does not leave behind the operator's back: its guest or Machine,
    once it carries the drain finalizer, survives every pass that does not
    clear that finalizer, whatever the API answers. *)
Theorem cells_leave_only_drained namespace name s pool :
  get_pool namespace name (rst_world s) = Ok pool -> provisioner pool = Ok prov ->
  guarded gvk ns cell (rst_world s) ->
  (CallClearDrainFinalizer cell ∉ log (Reconcile namespace name) s) ->
  guarded gvk ns cell (rst_world (final (Reconcile namespace name) s)).
Proof.
  intros Hp Hprov Hg Hn.
  assert (Forall (fun c => ~ clears_cell c) (log (Reconcile namespace name) s)) as Hb
    by (apply Forall_forall; intros c Hc ->; done).
  clear Hn. revert s Hp Hg Hb.
  assert (forall m s, keeps (guarded gvk ns cell) clears_cell m -> guarded gvk ns cell (rst_world s) ->
            Forall (fun c => ~ clears_cell c) (log (m : M W Client Result) s) ->
            guarded gvk ns cell (rst_world (final m s))) as Hrun by (intros m s Hm; apply Hm).
  assert (forall p entry wrap, keeps (Client := Client) (guarded gvk ns cell) clears_cell
            (call (@update_pool W Client Config ENV p) entry wrap)) as Hup
    by (intros; apply keeps_call_always; intros; by apply update_pool_guarded).
  intros s Hp Hg. unfold Reconcile. rewrite log_bind, final_bind.
  cbn [value ask log final fst snd app]. rewrite Hp, Hprov.
  destruct (negb _).
  - apply Hrun; [|done]. apply reconcileDeletion_keeps, update_pool_guarded. apply _.
  - destruct (AddFinalizer _ _) as [fs added]. apply Hrun; [|done].
    apply keeps_bind; [destruct added; [apply Hup|apply keeps_ret]|intros p]. apply reconcilePool_keeps, _.
Qed.
End loop.

(** ** Witnesses *)

#[export] Instance world_cell_frame : CellFrame (ENV := world_env).
Proof.
  split; intros; simpl; try done; unfold mem_get.
  - unfold write_pool. by destruct (_ && _).
  - unfold write_pool_status. by destruct (read_pool _ _ _).
  - by destruct (mem_nodes (wd_inner w) !! name).
Qed.

(** One guest, whose Node is registered and holds nothing. *)
Definition ex_one_cell : RState World unit :=
  ex_cluster ex_pool {[ "inference-0" := ex_joining_outer ]}
    (mkMemCluster {[ "inference-0" := mkNode "inference-0" ∅ ∅ [] false [] ]} ∅ []) true.

Definition clears (cell : string) (c : Call) : bool :=
  match c with CallClearDrainFinalizer n => n == cell | _ => false end.
Lemma never_clears cell l : existsb (clears cell) l = false -> (CallClearDrainFinalizer cell ∉ l).
Proof.
  intros E Hi. apply not_true_iff_false in E. apply E, existsb_exists.
  exists (CallClearDrainFinalizer cell). split; [by apply list_elem_of_In|]. simpl. by case_bool_decide.
Qed.

Lemma ex_one_cell_guarded :
  @guarded World env_infra SwiftGuestGVK "gpu" "inference-0" (rst_world ex_one_cell).
Proof. exists (ex_guest_object "inference-0" ex_joining_outer). split; [unfold there; by_vm|left]. Qed.

Lemma cells_leave_only_drained_witness :
  @guarded World env_infra SwiftGuestGVK "gpu" "inference-0"
    (rst_world (final (Reconcile "gpu" "inference") ex_one_cell)).
Proof.
  pose proof (cells_leave_only_drained (ENV := world_env) SwiftGuestProvisioner SwiftGuestGVK
                (or_introl eq_refl) "gpu" "inference-0" "gpu" "inference" ex_one_cell ex_pool) as H.
  apply H.
  - reflexivity.
  - reflexivity.
  - exact ex_one_cell_guarded.
  - apply never_clears. by_vm.
Defined.
