(* ===== verification/Lifecycle.v ===== *)
(** * No cell without its pool

    The system over time: passes of the reconcile loop over one pool, in any number
    and with any outcome, between the steps of everything else that acts on the
    infrastructure cluster. The invariant is the reason for the pool's
    finalizer: as long as an object of one of its cells exists, the pool exists, carries
    the finalizer and names the provisioner that finds the cell. *)

From S2P Require Import Prelude GoStd Api KubeApi Provider Workload Provisioner Fsm Membership.
From S2P Require Import Unstructured Template CellObjects SwiftGuest ClusterApi.
From S2P Require Import Scaling Rollout Helpers Status Inventory CellId HamiProvider Bootstrap.
From S2P Require Import CellRow Metrics Reconciler ExampleWorld Controller ControllerSafety ControllerSpec Stable.
Local Open Scope Z_scope.
Local Open Scope go_scope.

(** ** Provisioners act through objects *)

Section through.
Context {W : Type} `{InfraCluster W}.

(** A property of the world that no call on an object changes. *)
Class ObjectStable (I : W -> Prop) : Prop := {
  os_create : forall o w, I w -> I (create_object o w).2;
  os_update : forall o w, I w -> I (update_object o w).2;
  os_delete : forall gvk ns n w, I w -> I (delete_object gvk ns n w).2
}.

Section keeps.
Context (I : W -> Prop) `{OS : !ObjectStable I}.

Definition pm_keeps {A} (m : PM W A) : Prop := forall w, I w -> I (m w).2.

Lemma pm_keeps_ret {A} (a : A) : pm_keeps (mret a).
Proof. by intros w. Qed.
Lemma pm_keeps_fail {A} e : pm_keeps (@pfail W A e).
Proof. by intros w. Qed.
Lemma pm_keeps_ask {A} (f : W -> A) : pm_keeps (pask f).
Proof. by intros w. Qed.
Lemma pm_keeps_lift {E A} wrap (r : result E A) : pm_keeps (@plift W E A wrap r).
Proof. intros w. by destruct r. Qed.
Lemma pm_keeps_bind {A B} (m : PM W A) (f : A -> PM W B) :
  pm_keeps m -> (forall a, pm_keeps (f a)) -> pm_keeps (m ≫= f).
Proof.
  intros Hm Hf w Hi. specialize (Hm w Hi). unfold mbind, PM_bind.
  destruct (m w) as [[a|e] w1]; [by apply Hf|done].
Qed.
Lemma pm_keeps_wrap {A} c (m : PM W A) : pm_keeps m -> pm_keeps (pwrap c m).
Proof. intros Hm w Hi. specialize (Hm w Hi). unfold pwrap. by destruct (m w) as [[]]. Qed.
Lemma pm_keeps_do {A} (f : W -> A * W) : (forall w, I w -> I (f w).2) -> pm_keeps (pdo f).
Proof. intros Hf w Hi. specialize (Hf w Hi). unfold pdo. by destruct (f w). Qed.

Lemma pm_keeps_get_or {A} gvk ns n c (f : UObject -> PM W A) g :
  (forall o, pm_keeps (f o)) -> pm_keeps g -> pm_keeps (get_or gvk ns n c f g).
Proof.
  intros Hf Hg. apply pm_keeps_bind; [apply pm_keeps_ask|intros [o|e]; [done|]].
  destruct (IsNotFound e); [done|apply pm_keeps_fail].
Qed.
Lemma pm_keeps_create o : pm_keeps (create o).
Proof. apply pm_keeps_bind; [apply pm_keeps_do, os_create|intros; apply pm_keeps_lift]. Qed.
Lemma pm_keeps_update o : pm_keeps (pdo (update_object o)).
Proof. apply pm_keeps_do, os_update. Qed.
Lemma pm_keeps_delete gvk ns n c : pm_keeps (delete_ignoring_absent gvk ns n c).
Proof.
  apply pm_keeps_bind; [apply pm_keeps_do; intros w; apply os_delete|intros [|e]; [apply pm_keeps_ret|]].
  destruct (IsNotFound e); [apply pm_keeps_ret|apply pm_keeps_fail].
Qed.
End keeps.

(** What the loop needs of a provisioner here: it lists the labelled objects of
    one kind, and changes the world by calls on objects only. *)
Class ThroughObjects (prov : ProvisionerOps W) (gvk : GVK) : Prop := {
  through_list : forall ns pool w, p_List prov ns pool w = listCellNames gvk ns pool w;
  through_ensure : forall I req, ObjectStable I -> pm_keeps I (p_Ensure prov req);
  through_delete : forall I req, ObjectStable I -> pm_keeps I (p_Delete prov req);
  through_clear : forall I clear req, ObjectStable I ->
    p_ClearDrainFinalizer prov = Some clear -> pm_keeps I (clear req)
}.
End through.

Create HintDb pm_keeps.
#[export] Hint Resolve pm_keeps_ret pm_keeps_fail pm_keeps_ask pm_keeps_lift pm_keeps_create pm_keeps_update
  pm_keeps_delete : pm_keeps.
Ltac pm_stable :=
  repeat match goal with
  | |- forall _, _ => intros ?
  | |- pm_keeps _ (mbind _ _) => apply pm_keeps_bind
  | |- pm_keeps _ (pwrap _ _) => apply pm_keeps_wrap
  | |- pm_keeps _ (get_or _ _ _ _ _ _) => apply pm_keeps_get_or
  | |- pm_keeps _ (match ?x with _ => _ end) => destruct x
  | |- pm_keeps _ _ => solve [eauto with pm_keeps]
  end.

Section implementations.
Context {W : Type} `{InfraCluster W} `{Nested}.

Lemma clear_drain_finalizer_keeps (I : W -> Prop) `{!ObjectStable I} gvk c1 c2 req :
  pm_keeps I (clear_drain_finalizer gvk c1 c2 req).
Proof. unfold clear_drain_finalizer. pm_stable. Qed.

#[export] Instance SwiftGuest_through : ThroughObjects (W := W) SwiftGuestProvisioner SwiftGuestGVK.
Proof.
  split; simpl; try done; intros I.
  - intros req HI. unfold SwiftGuest_Ensure, ensureSeedProfile, ensureGuest. pm_stable.
  - intros req HI. unfold SwiftGuest_Delete. pm_stable.
  - intros clear req HI [= <-]. by apply clear_drain_finalizer_keeps.
Qed.

#[export] Instance ClusterAPI_through : ThroughObjects (W := W) ClusterAPIProvisioner MachineGVK.
Proof.
  split; simpl; try done; intros I.
  - intros req HI. unfold ClusterAPI_Ensure, ensureBootstrapConfig, ensureInfraMachine, ensureMachine, observeMachine.
    cbv zeta. pm_stable.
  - intros req HI. unfold ClusterAPI_Delete. pm_stable.
  - intros clear req HI [= <-]. by apply clear_drain_finalizer_keeps.
Qed.
End implementations.

(** ** The store *)

Section lifecycle.
Context `{ENV : Environment W Client Config}.

(** What the API server has, whatever a read answers. [versions]: what there has been of the
    pool of a name (or that there was none), from what the cache of the manager's client
    serves to what is stored now, in order; the cache follows the server and may lag
    behind it. [cell_stored]: whether an object of a kind carries the label of the pool. *)
Class Store := {
  versions : string -> string -> W -> list (option GPUCellPool);
  cell_stored : GVK -> string -> string -> W -> Prop
}.

Context `{ST : Store}.
Implicit Types (pool p q : GPUCellPool) (v : option GPUCellPool) (w : W).

Definition stored (ns name : string) (w : W) : option GPUCellPool := default None (last (versions ns name w)).

(** A version that holds the operator's finalizer, and one that is live, too. *)
Definition holding v : Prop := exists p, v = Some p /\ FinalizerPool ∈ pool_Finalizers p.
Definition live_holding v : Prop :=
  exists p, v = Some p /\ FinalizerPool ∈ pool_Finalizers p /\ PtrIsZero (pool_DeletionTimestamp p) = true.

(** The pool is there and holds its finalizer, *)
Definition held (ns name : string) (w : W) : Prop := holding (stored ns name w).
(** and wherever it is there, it names this provisioner. *)
Definition names (prov : ProvisionerOps W) (l : list (option GPUCellPool)) : Prop :=
  forall p, Some p ∈ l -> provisioner p = Ok prov.
Definition uses (prov : ProvisionerOps W) (ns name : string) (w : W) : Prop := names prov (versions ns name w).

(** After a live version that holds the finalizer come only versions that hold it. *)
Definition steadfast (l : list (option GPUCellPool)) : Prop :=
  forall l1 v l2, l = l1 ++ v :: l2 -> live_holding v -> Forall holding l2.

(** A step in which the server may get new versions of the pool and the cache may catch up
    with some, and in which nobody takes the finalizer off the pool or gives it
    another provisioner. *)
Definition spares (prov : ProvisionerOps W) (ns name : string) (w w' : W) : Prop :=
  exists news, versions ns name w' `suffix_of` versions ns name w ++ news /\ versions ns name w' <> []
    /\ steadfast news /\ (held ns name w -> Forall holding news)
    /\ (uses prov ns name w -> names prov news).

(** What is documented of pools and of the other calls. A read answers the oldest version
    the cache may show. An update carries the resourceVersion of what was read: it is
    applied only while that is what is stored, and one that fails may have been applied all
    the same; applied, it leaves [p]'s finalizers and spec, or nothing, when no
    finalizer is left. A pool with a finalizer is removed by no other call, and the calls on
    other things leave a pool's finalizers and spec alone. A list by label, which no cache
    serves, finds the labelled objects. *)
Class StoreLaws : Prop := {
  get_pool_version : forall ns name w p,
    get_pool ns name w = Ok p -> exists l, versions ns name w = Some p :: l;
  update_pool_applied : forall ns name w p fs r w',
    get_pool ns name w = Ok p -> update_pool {| p with pool_Finalizers := fs |} w = (r, w') ->
    (is_ok r = false /\ forall prov, spares prov ns name w w')
    \/ (versions ns name w = [Some p]
        /\ exists v, versions ns name w' `suffix_of` [Some p; v] /\ versions ns name w' <> []
             /\ ((exists q, v = Some q /\ pool_Finalizers q = fs /\ pool_Spec q = pool_Spec p)
                 \/ (v = None /\ fs = [])));
  update_pool_cells : forall p w gvk ns name,
    cell_stored gvk ns name (update_pool p w).2 -> cell_stored gvk ns name w;
  list_cells_stored : forall gvk ns name w items,
    list_objects gvk ns {[ LabelPool := name ]} w = Ok items ->
    if items is [] then ~ cell_stored gvk ns name w else cell_stored gvk ns name w;
  clock_spares : forall prov ns name w, spares prov ns name w (Clock w).2;
  status_spares : forall prov ns name p w, spares prov ns name w (update_pool_status p w).2;
  create_secret_spares : forall prov ns name o w, spares prov ns name w (create_secret o w).2;
  update_secret_spares : forall prov ns name o w, spares prov ns name w (update_secret o w).2;
  create_object_spares : forall prov ns name o w, spares prov ns name w (create_object o w).2;
  update_object_spares : forall prov ns name o w, spares prov ns name w (update_object o w).2;
  delete_object_spares : forall prov ns name gvk n' n w, spares prov ns name w (delete_object gvk n' n w).2;
  patch_spares : forall prov ns name cs node patch w,
    spares prov ns name w (@patch_node W (inner cs) node patch w).2;
  delete_node_spares : forall prov ns name cs node w,
    spares prov ns name w (@delete_node W (inner cs) node w).2
}.

(** *** Versions *)

Lemma steadfast_suffix l l' : l' `suffix_of` l -> steadfast l -> steadfast l'.
Proof. intros [k ->] Hs l1 v l2 -> Hv. apply (Hs (k ++ l1) v l2); [by rewrite app_assoc|done]. Qed.

Lemma names_suffix prov l l' : l' `suffix_of` l -> names prov l -> names prov l'.
Proof. intros [k ->] Hn p Hp. apply Hn. rewrite elem_of_app. by right. Qed.

Lemma steadfast_cons v l : (live_holding v -> Forall holding l) -> steadfast l -> steadfast (v :: l).
Proof. intros Hv Hs [|x l1] u l2 E Hl; simplify_eq/=; [auto|by eapply Hs]. Qed.
Lemma steadfast_one v : steadfast [v].
Proof. apply steadfast_cons; [constructor|]. intros [|] ? ? ?; done. Qed.

Lemma live_holding_holding v : live_holding v -> holding v.
Proof. intros (p & -> & Hf & _). by exists p. Qed.

(** What comes after a live version that holds the finalizer. *)
Lemma steadfast_last l1 v l2 : steadfast (l1 ++ v :: l2) -> live_holding v -> holding (default None (last (l1 ++ v :: l2))).
Proof.
  intros Hs Hv. specialize (Hs l1 v l2 eq_refl Hv). rewrite last_app_cons.
  destruct l2 as [|x l2] using rev_ind; [by apply live_holding_holding|].
  rewrite app_comm_cons, last_snoc. apply Forall_app in Hs as [_ Hs]. by apply Forall_inv in Hs.
Qed.

Lemma last_suffix {A} (l l' : list A) : l' `suffix_of` l -> l' <> [] -> last l' = last l.
Proof.
  intros [k ->] Hne. destruct l' as [|x l' _] using rev_ind; [done|].
  by rewrite app_assoc, !last_snoc.
Qed.

Lemma steadfast_app ns name w news :
  steadfast (versions ns name w) -> (held ns name w -> Forall holding news) -> steadfast news ->
  steadfast (versions ns name w ++ news).
Proof.
  unfold held, stored. generalize (versions ns name w). intros l Hl Hh Hn l1 v l2 E Hv.
  apply app_eq_inv in E as [(k & -> & E)|(k & -> & E)].
  - destruct k as [|x k]; [by apply (Hn [] v l2)|]. injection E as <- ->.
    apply Forall_app. split; [by apply (Hl l1 v k)|]. apply Hh. by apply steadfast_last.
  - by apply (Hn k v l2).
Qed.

Context `{!StoreLaws, !PoolLaws, !FinalizerLaws}.
Context (prov : ProvisionerOps W) (gvk : GVK) `{TO : !ThroughObjects prov gvk}.
Context (ns name : string).

(** The pool as every step of a pass but an update of it leaves it. *)
Definition settled (w : W) : Prop := uses prov ns name w /\ steadfast (versions ns name w).
Definition kept (w : W) : Prop := held ns name w /\ settled w.

Lemma spares_settled w w' : spares prov ns name w w' -> settled w -> settled w'.
Proof.
  intros (news & Hsuf & _ & Hn & Hh & Hu) [Hus Hst]. split.
  - eapply names_suffix; [exact Hsuf|]. intros p [Hp|Hp]%elem_of_app; [by apply Hus|by apply Hu].
  - eapply steadfast_suffix; [exact Hsuf|]. by apply steadfast_app.
Qed.

Lemma spares_held w w' : spares prov ns name w w' -> held ns name w -> held ns name w'.
Proof.
  intros (news & Hsuf & Hne & _ & Hh & _) Hheld. unfold held, stored in *.
  rewrite (last_suffix _ _ Hsuf Hne). specialize (Hh Hheld).
  destruct news as [|x news _] using rev_ind; [by rewrite app_nil_r|].
  rewrite app_assoc, last_snoc. apply Forall_app in Hh as [_ Hh]. by apply Forall_inv in Hh.
Qed.

Lemma spares_kept w w' : spares prov ns name w w' -> kept w -> kept w'.
Proof. intros Hs [Hh Hu]. split; [by eapply spares_held|by eapply spares_settled]. Qed.

#[local] Instance kept_objects : ObjectStable kept.
Proof.
  split; intros *; apply spares_kept; [apply create_object_spares|apply update_object_spares|apply delete_object_spares].
Qed.

#[local] Instance kept_stable : StableOps kept (fun _ => False) prov.
Proof.
  split; intros *.
  - apply spares_kept, clock_spares.
  - apply spares_kept, status_spares.
  - apply spares_kept, create_secret_spares.
  - apply spares_kept, update_secret_spares.
  - apply spares_kept, patch_spares.
  - apply spares_kept, delete_node_spares.
  - intros _. exact (through_ensure (gvk := gvk) kept req kept_objects w).
  - intros _. exact (through_delete (gvk := gvk) kept req kept_objects w).
  - intros Hc _. exact (through_clear (gvk := gvk) kept clear req kept_objects Hc w).
Qed.

Lemma keeps_run {A} (m : M W Client A) s :
  keeps (Client := Client) kept (fun _ => False) m -> kept (rst_world s) -> kept (rst_world (final m s)).
Proof. intros Hm Hk. apply Hm; [done|]. apply Forall_forall. by intros c _ []. Qed.

(** ** The steps *)

(** The invariant. *)
Definition owned (w : W) : Prop :=
  settled w /\ (cell_stored gvk ns name w -> held ns name w).

Lemma spares_owned w w' :
  spares prov ns name w w' -> (cell_stored gvk ns name w' -> cell_stored gvk ns name w) -> owned w -> owned w'.
Proof. intros Hs Hc [Hu Ho]. split; [by eapply spares_settled|]. intros Hcell. eapply spares_held; eauto. Qed.

Lemma provisioner_spec p q : pool_Spec p = pool_Spec q -> provisioner (W := W) p = provisioner q.
Proof. unfold provisioner. by intros ->. Qed.

(** An update of what was read, refused or applied. Applied, it was made to what is stored;
    the pool is settled if the update keeps the finalizer or the pool is not live. *)
Lemma update_pool_settled p fs w r w' :
  get_pool ns name w = Ok p -> settled w ->
  update_pool {| p with pool_Finalizers := fs |} w = (r, w') ->
  FinalizerPool ∈ fs \/ PtrIsZero (pool_DeletionTimestamp p) = false ->
  (is_ok r = false /\ spares prov ns name w w')
  \/ (settled w' /\ (FinalizerPool ∈ fs -> held ns name w')
      /\ forall q, stored ns name w' = Some q -> pool_Finalizers q = fs).
Proof.
  intros Hg [Hu Hs] E Hp.
  destruct (update_pool_applied _ _ _ _ _ _ _ Hg E) as [[He Hsp]|(Hv & v & Hsuf & Hne & Hcase)]; [left; auto|].
  right. unfold held, stored, settled, uses. rewrite (last_suffix _ _ Hsuf Hne). cbn [last default from_option id].
  unfold uses in Hu. rewrite Hv in Hu.
  assert (names prov [Some p; v]) as Hn.
  { intros q [Hq|Hq%list_elem_of_singleton]%elem_of_cons; [apply Hu; by rewrite Hq; left|].
    destruct Hcase as [(q' & -> & _ & Hsp)|[-> _]]; [|done]. injection Hq as ->.
    rewrite (provisioner_spec q' p) by done. apply Hu. left. }
  split_and!.
  - by eapply names_suffix.
  - eapply steadfast_suffix; [exact Hsuf|]. apply steadfast_cons; [|apply steadfast_one].
    intros (x & [= <-] & _ & Hl). destruct Hp as [Hin|Hd]; [|congruence]. constructor; [|constructor].
    destruct Hcase as [(q & -> & Hf & _)|[_ ->]]; [|by apply elem_of_nil in Hin]. exists q. by rewrite Hf.
  - intros Hin. destruct Hcase as [(q & -> & Hf & _)|[_ ->]]; [|by apply elem_of_nil in Hin].
    exists q. by rewrite Hf.
  - intros q Hq. destruct Hcase as [(q' & -> & Hf & _)|[-> _]]; [|done]. by injection Hq as ->.
Qed.

Lemma live_pass_owned pool s :
  get_pool ns name (rst_world s) = Ok pool -> PtrIsZero (pool_DeletionTimestamp pool) = true ->
  owned (rst_world s) ->
  let '(fs, added) := AddFinalizer (pool_Finalizers pool) FinalizerPool in
  owned (rst_world (final
    (p ← (if added : bool
          then call (update_pool {| pool with pool_Finalizers := fs |})
                 (fun _ => CallUpdatePool fs) (RAPI "adding pool finalizer")
          else mret pool);
     reconcilePool p prov) s)).
Proof.
  intros Hg Hlive [Hu Hc]. destruct (AddFinalizer _ _) as [fs added] eqn:Ef.
  destruct (AddFinalizer_spec (pool_Finalizers pool) FinalizerPool) as [Hin Hsame]. rewrite Ef in Hin, Hsame.
  assert (Hrun : forall p s', kept (rst_world s') -> owned (rst_world (final (reconcilePool p prov) s'))).
  { intros p s' Hk. apply (keeps_run (reconcilePool p prov)) in Hk as [Hh Hk]; [by split|].
    apply reconcilePool_keeps, _. }
  rewrite final_bind. destruct added.
  - rewrite value_call, final_call. destruct (update_pool _ (rst_world s)) as [r w'] eqn:E. cbn [fst snd].
    pose proof (update_pool_cells {| pool with pool_Finalizers := fs |} (rst_world s) gvk ns name) as Hcells.
    rewrite E in Hcells. cbn [snd] in Hcells.
    destruct (update_pool_settled _ _ _ _ _ Hg Hu E (or_introl Hin)) as [[He Hsp]|(Hs & Hh & _)].
    + destruct r as [p|e]; [done|]. by eapply spares_owned.
    + destruct r as [p|e]; [apply Hrun; split; auto|]. split; auto.
  - apply Hrun. split; [|done]. destruct (get_pool_version _ _ _ _ Hg) as [l Hl].
    change (held ns name (rst_world s)). unfold held, stored. rewrite Hl. destruct Hu as [_ Hs]. rewrite Hl in Hs. apply (steadfast_last [] _ _ Hs).
    exists pool. split_and!; [done| |done]. simpl in Hin, Hsame. by rewrite <- Hsame.
Qed.

(** What the list of a deletion pass says. *)
Lemma listed_cells pool (s : RState W Client) guests :
  value (list_cells prov pool) s = Ok guests ->
  let cells := cell_stored gvk (pool_Namespace pool) (pool_Name pool) (rst_world s) in
  match guests with [] => ~ cells | _ => cells end.
Proof.
  destruct (list_cells_spec prov pool s) as (-> & _ & _). rewrite (through_list (gvk := gvk)).
  unfold listCellNames. destruct (list_objects _ _ _ _) as [items|e] eqn:E; [|done].
  intros [= <-]. apply list_cells_stored in E. by destruct items.
Qed.

Lemma deletion_pass_owned pool s :
  get_pool ns name (rst_world s) = Ok pool -> PtrIsZero (pool_DeletionTimestamp pool) = false ->
  owned (rst_world s) -> owned (rst_world (final (reconcileDeletion pool prov) s)).
Proof.
  intros Hg Hdel [Hu Hc]. destruct (get_pool_named _ _ _ _ Hg) as [Hns Hn].
  unfold reconcileDeletion. rewrite final_bind.
  destruct (workloadClient_silent pool s) as (Hok & _ & Hw).
  destruct (value (workloadClient pool) s) as [[[cl reason] msg]|e]; [|done].
  rewrite <- Hw in Hg, Hu, Hc. revert Hg Hu Hc. generalize (final (workloadClient pool) s).
  clear s Hok Hw. intros s Hg Hu Hc. rewrite final_bind.
  pose proof (fun g => listed_cells pool s g) as Hlist.
  destruct (list_cells_spec prov pool s) as (_ & _ & ->).
  destruct (value (list_cells prov pool) s) as [guests|e]; [|by split].
  specialize (Hlist guests eq_refl). rewrite Hns, Hn in Hlist. destruct guests as [|g guests].
  - change (0 <? len (@nil string)) with false. cbv iota.
    destruct (RemoveFinalizer _ _) as [fs removed]. rewrite final_bind.
    match goal with |- context [value ?m s] => set (rel := m) end.
    assert (owned (rst_world (final rel s))) as Ho.
    { unfold rel. destruct removed; [|by split]. rewrite final_bind, value_call, final_call.
      destruct (update_pool _ (rst_world s)) as [r w'] eqn:E.
      pose proof (update_pool_cells {| pool with pool_Finalizers := fs |} (rst_world s) gvk ns name) as Hcells.
      rewrite E in Hcells. cbn [snd] in Hcells.
      assert (owned w') as Ho.
      { destruct (update_pool_settled _ _ _ _ _ Hg Hu E (or_intror Hdel)) as [[_ Hsp]|(Hs & _)];
          [by eapply spares_owned|]. split; [done|]. intros Hcell. exfalso. apply Hlist. auto. }
      cbn [fst snd]. by destruct r. }
    by destruct (value rel s).
  - assert ((0 <? len (g :: guests)) = true) as ->
      by (apply Z.ltb_lt; rewrite len_cons; pose proof (len_nonneg guests); lia).
    apply Hc in Hlist as Hh.
    match goal with |- owned (rst_world (final ?m s)) =>
      assert (keeps (Client := Client) kept (fun _ => False) m) as Hk by (pose proof kept_stable; stable) end.
    destruct (keeps_run _ s Hk) as [Hh' Hu']; by split.
Qed.
(** One step of the system: a pass over the pool, from any state of the client
    cache and with any outcome; or anything else, by another operator, a user, the
    infrastructure or the caches, that leaves the finalizer to its owner and the provisioner
    of the pool as it is, and makes no cell of it. *)
Inductive step (w : W) : W -> Prop :=
| step_pass clients : step w (rst_world (final (Reconcile ns name) (mkRState w clients)))
| step_other w' :
    spares prov ns name w w' ->
    (cell_stored gvk ns name w' -> cell_stored gvk ns name w) -> step w w'.

Lemma Reconcile_owned s :
  owned (rst_world s) -> owned (rst_world (final (Reconcile ns name) s)).
Proof.
  intros Ho. unfold Reconcile. rewrite final_bind. cbn [value final ask fst snd].
  change (final (ask (Client := Client) (get_pool ns name)) s) with s.
  destruct (get_pool ns name (rst_world s)) as [pool|e] eqn:Hg.
  2: { by destruct (IsNotFound e). }
  destruct (get_pool_version _ _ _ _ Hg) as [l Hv].
  rewrite (proj1 (proj1 Ho) pool) by (rewrite Hv; left).
  destruct (PtrIsZero _) eqn:Hz; cbn [negb]; [|by apply deletion_pass_owned].
  pose proof (live_pass_owned pool s Hg Hz Ho) as Hl. by destruct (AddFinalizer _ _).
Qed.

Lemma steps_owned w w' : rtc step w w' -> owned w -> owned w'.
Proof.
  induction 1 as [|w w1 w' Hstep _ IH]; [done|]. intros Ho. apply IH.
  destruct Hstep as [clients|w1 Hs Hc].
  - exact (Reconcile_owned (mkRState w clients) Ho).
  - by eapply spares_owned.
Qed.

(** C13. No cell outlives its pool. Start with the cache of the reconciler in step, a pool that
    names one provisioner, and no cell. From then on passes over the pool, failing ones
    included and reading from a cache that may lag, interleave in any way with the rest of the
    system, as long as nobody else takes the operator's finalizer off the pool or changes its
    provisioner (a user who does change it orphans cells: a finding). Whenever an object of
    one of its cells is stored, the pool is stored, carries the operator's finalizer and
    names the provisioner that finds the cell. *)
Theorem no_cell_without_pool v w w' :
  versions ns name w = [v] -> uses prov ns name w -> ~ cell_stored gvk ns name w -> rtc step w w' ->
  cell_stored gvk ns name w' ->
  exists p, stored ns name w' = Some p /\ FinalizerPool ∈ pool_Finalizers p /\ provisioner p = Ok prov.
Proof.
  intros Hv Hu Hn Hsteps Hcell. apply steps_owned in Hsteps as [[Hu' _] Hc'].
  2: { split; [|done]. split; [done|]. rewrite Hv. apply steadfast_one. }
  destruct (Hc' Hcell) as (p & Hp & Hf). exists p. split_and!; [done..|]. apply Hu'.
  unfold stored in Hp. destruct (last _) as [x|] eqn:El; [|done]. cbn in Hp. subst x.
  by apply last_Some_elem_of in El.
Qed.
End lifecycle.

(** ** The store in memory *)

#[export] Instance world_store : Store (W := World) := {
  versions ns n w := [match read_pool ns n w with Ok p => Some p | Err _ => None end];
  cell_stored gvk ns pool w :=
    exists o, mem_get gvk ns (u_Name o) (wd_objects w) = Ok o /\ {[ LabelPool := pool ]} ⊆ u_Labels o
}.

(** Nothing changes, or one new version is stored, and shown. *)
Lemma spares_same prov ns n (w w' : World) :
  wd_pools w' = wd_pools w -> spares (ENV := world_env) prov ns n w w'.
Proof.
  intros E. exists []. rewrite app_nil_r. unfold versions, world_store, read_pool. rewrite E.
  split_and!; [done..|by intros [|] ? ?|by constructor|]. by intros _ p ?%elem_of_nil.
Qed.
Lemma spares_one prov ns n (w w' : World) v :
  versions ns n w' = [v] -> (held ns n w -> holding v) ->
  (forall p q, v = Some p -> versions ns n w = [Some q] -> pool_Spec p = pool_Spec q) ->
  (versions ns n w = [None] -> v = None) ->
  spares (ENV := world_env) prov ns n w w'.
Proof.
  intros E Hh Hs Hn. exists [v]. rewrite E. split_and!; [by eexists|done|apply steadfast_one| |].
  - intros Hheld. constructor; [by apply Hh|constructor].
  - intros Hu p Hp%list_elem_of_singleton. destruct (versions ns n w) as [|[q|] []] eqn:Ev; try done.
    + rewrite (provisioner_spec p q) by by eapply Hs. apply Hu. rewrite Ev. left.
    + by rewrite Hn in Hp.
Qed.

Lemma read_pool_ok ns n (w : World) p :
  read_pool ns n w = Ok p <->
  wd_pools w !! object_key ns n = Some p /\ (pool_Namespace p, pool_Name p) = (ns, n).
Proof.
  unfold read_pool. destruct (wd_pools w !! _) as [q|]; [|naive_solver]. case_bool_decide; naive_solver.
Qed.

(** Storing another pool of the same name. *)
Lemma read_pool_write ns n (w : World) p :
  let key := object_key (pool_Namespace p) (pool_Name p) in
  (forall q, wd_pools w !! key = Some q -> (pool_Namespace q, pool_Name q) = (pool_Namespace p, pool_Name p)) ->
  read_pool ns n {| w with wd_pools := <[key := p]> (wd_pools w) |}
  = if bool_decide ((pool_Namespace p, pool_Name p) = (ns, n)) then Ok p else read_pool ns n w.
Proof.
  intros key Hk. unfold read_pool. cbn [wd_pools].
  destruct (decide (key = object_key ns n)) as [E|E].
  - rewrite <- E, lookup_insert_eq. case_bool_decide as Hn; [done|].
    destruct (wd_pools w !! key) as [q|]; [|done]. rewrite (Hk q eq_refl). by rewrite bool_decide_eq_false_2.
  - rewrite lookup_insert_ne by done. case_bool_decide as Hn; [|done].
    injection Hn as <- <-. by destruct E.
Qed.

Lemma status_spares_world prov ns name p (w : World) :
  spares (ENV := world_env) prov ns name w (write_pool_status p w).2.
Proof.
  unfold write_pool_status. destruct (read_pool _ _ w) as [q|e] eqn:Hq; [|by apply spares_same].
  apply read_pool_ok in Hq as [Hk Hn]. injection Hn as Hns Hn.
  set (q' := {| q with pool_Status := pool_Status p |}). cbn [snd].
  assert (Ew : forall ns name, read_pool ns name {| w with wd_pools :=
                 <[object_key (pool_Namespace p) (pool_Name p) := q']> (wd_pools w) |}
               = if bool_decide ((pool_Namespace q', pool_Name q') = (ns, name)) then Ok q' else read_pool ns name w).
  { intros ns0 name0. rewrite <- Hns, <- Hn in *.
    change (object_key (pool_Namespace q) (pool_Name q)) with (object_key (pool_Namespace q') (pool_Name q')).
    apply read_pool_write. intros x Hx. assert (x = q) as -> by (unfold q' in Hx; cbn in Hx; congruence). done. }
  destruct (decide ((pool_Namespace q', pool_Name q') = (ns, name))) as [E|E].
  - assert (read_pool ns name w = Ok q) as Er.
    { injection E as <- <-. apply read_pool_ok. by rewrite Hns, Hn. }
    apply (spares_one _ _ _ _ _ (Some q')).
    + unfold versions, world_store. by rewrite Ew, bool_decide_eq_true_2.
    + unfold held, stored, versions, world_store. rewrite Er. intros (x & [= <-] & Hx). by exists q'.
    + unfold versions, world_store. rewrite Er. by intros x y [= <-] [= <-].
    + unfold versions, world_store. by rewrite Er.
  - assert (forall w', read_pool ns name w' = read_pool ns name w -> versions ns name w' = versions ns name w) as Hv
      by (intros w' Hw; unfold versions, world_store; by rewrite Hw).
    exists []. rewrite app_nil_r. rewrite Hv by by rewrite Ew, bool_decide_eq_false_2.
    split_and!; [done..|by intros [|] ? ?|by constructor|]. by intros _ x ?%elem_of_nil.
Qed.

#[export] Instance world_store_laws : StoreLaws (ENV := world_env).
Proof.
  split; intros *; try by apply spares_same.
  - intros Hg. exists []. unfold versions, world_store. simpl in Hg. by rewrite Hg.
  - intros Hg E. right. simpl in Hg. unfold versions, world_store. rewrite Hg. split; [done|].
    apply read_pool_ok in Hg as [_ [= Hns Hn]].
    simpl in E. unfold write_pool in E. cbn in E. destruct (_ && _) eqn:Hz; injection E as <- <-.
    + exists None. apply andb_true_iff in Hz as [Hz _]. apply bool_decide_eq_true_1 in Hz.
      unfold read_pool. cbn [wd_pools]. rewrite Hns, Hn, lookup_delete_eq.
      split_and!; [by exists [Some p]|done|by right].
    + eexists. unfold read_pool. cbn [wd_pools]. rewrite Hns, Hn, lookup_insert_eq. cbn.
      rewrite bool_decide_eq_true_2 by done. split_and!; [by eexists [Some p]|done|left; by eexists].
  - simpl. unfold write_pool. by destruct (_ && _).
  - intros E. pose proof (fun o => mem_listed _ _ _ (wd_objects w) items o E) as Hl. destruct items as [|o items].
    + intros (o & Ho). apply Hl in Ho. by apply elem_of_nil in Ho.
    + exists o. apply Hl. left.
  - apply status_spares_world.
  - apply spares_same. simpl. unfold on_objects. by destruct (mem_create _ _).
  - apply spares_same. simpl. unfold on_objects. by destruct (mem_update _ _).
  - apply spares_same. simpl. unfold on_objects. by destruct (mem_delete _ _ _ _).
  - apply spares_same. simpl. by destruct (mem_nodes (wd_inner w) !! node).
Qed.

(** ** Witness

    A pool nobody has seen yet: the operator takes it, makes its cells, the user asks
    for its deletion, the workload cluster stops answering, and the operator comes back. *)
Definition fresh_pool : GPUCellPool := let p := ex_pool in {| p with pool_Finalizers := [] |}.
Definition fresh_world : World := rst_world (ex_cluster fresh_pool ∅ (mkMemCluster ∅ ∅ []) true).

Definition pass (w : World) : World :=
  rst_world (final (Reconcile (ENV := world_env) "gpu" "inference") (mkRState w ∅)).

Definition deletion_in_outage (w : World) : World :=
  match read_pool "gpu" "inference" w with
  | Ok p =>
      let p := {| p with pool_DeletionTimestamp := Some (999 * Minute) |} in
      {| w with wd_pools := <["gpu/inference" := p]> (wd_pools w); wd_up := false |}
  | Err _ => w
  end.

Lemma deletion_in_outage_step w :
  step (ENV := world_env) SwiftGuestProvisioner SwiftGuestGVK "gpu" "inference" w (deletion_in_outage w).
Proof.
  unfold deletion_in_outage. destruct (read_pool "gpu" "inference" w) as [p|e] eqn:Hp;
    [|by apply step_other; [apply spares_same|]].
  set (p' := {| p with pool_DeletionTimestamp := Some (999 * Minute) |}).
  pose proof (proj2 (proj1 (read_pool_ok _ _ _ _) Hp)) as [= Hns Hn].
  set (w' := {| w with wd_pools := <["gpu/inference" := p']> (wd_pools w); wd_up := false |}).
  assert (read_pool "gpu" "inference" w' = Ok p') as Hp'.
  { apply read_pool_ok. split; [apply lookup_insert_eq|]. unfold p'. cbn. by rewrite Hns, Hn. }
  apply step_other; [|done].
  assert (versions "gpu" "inference" w = [Some p]) as Ev by (unfold versions, world_store; by rewrite Hp).
  apply (spares_one _ _ _ _ _ (Some p')).
  - unfold versions, world_store. by rewrite Hp'.
  - unfold held, stored. rewrite Ev. intros (x & [= <-] & Hx). by exists p'.
  - rewrite Ev. by intros x y [= <-] [= <-].
  - by rewrite Ev.
Qed.

(** The guests left, by name. *)
Definition guests_left (w : World) : list string :=
  match listCellNames SwiftGuestGVK "gpu" "inference" w with Ok l => l | Err _ => [] end.
Lemma guests_left_stored w : guests_left w <> [] <-> cell_stored SwiftGuestGVK "gpu" "inference" w.
Proof.
  pose proof (list_cells_stored SwiftGuestGVK "gpu" "inference" w _ eq_refl) as Hl.
  unfold guests_left, listCellNames. simpl in *.
  match type of Hl with match ?l with _ => _ end => destruct l end; simpl; naive_solver.
Qed.

Lemma guests_left_cons w g l : guests_left w = g :: l -> cell_stored SwiftGuestGVK "gpu" "inference" w.
Proof. intros E. apply guests_left_stored. by rewrite E. Qed.

Lemma no_cell_without_pool_witness :
  let w' := pass (deletion_in_outage (pass fresh_world)) in
  exists p, stored "gpu" "inference" w' = Some p /\ FinalizerPool ∈ pool_Finalizers p
       /\ provisioner (W := World) p = Ok SwiftGuestProvisioner.
Proof.
  intros w'. refine (no_cell_without_pool (ENV := world_env) SwiftGuestProvisioner SwiftGuestGVK "gpu" "inference"
                       (Some fresh_pool) fresh_world w' _ _ _ _ _).
  - reflexivity.
  - intros p [= ->]%list_elem_of_singleton. reflexivity.
  - rewrite <- guests_left_stored. intros Hl. apply Hl. by_vm.
  - eapply rtc_l; [exact (step_pass _ _ _ _ fresh_world ∅)|].
    eapply rtc_l; [apply deletion_in_outage_step|].
    eapply rtc_l; [exact (step_pass _ _ _ _ _ ∅)|]. apply rtc_refl.
  - apply (guests_left_cons _ "inference-1" ["inference-0"]). by_vm.
Defined.

(** That the provisioner stays has to be asked of the users: nothing refuses its
    change (Admission.provisioner_switch_admitted). A pool that has turned to Cluster API
    when it is deleted lists no Machine, and is released with its guest still there,
    holding the drain finalizer. *)
Definition switched_pool : GPUCellPool :=
  let cell := spec_Cell ex_spec in
  let cell := {| cell with cell_Provisioner := ProvisionerClusterAPI;
                           cell_ClusterAPI := Some (mkCellClusterAPISpec "workload" "" None) |} in
  let spec := {| ex_spec with spec_Cell := cell |} in
  {| ex_pool with pool_Spec := spec |}.
Definition switched_world : World :=
  let pool := {| switched_pool with pool_DeletionTimestamp := Some (999 * Minute) |} in
  rst_world (ex_cluster pool {[ "inference-0" := ex_observed ]} (mkMemCluster ∅ ∅ []) true).

Example switched_provisioner_orphans :
  guests_left (pass switched_world) = ["inference-0"]
  /\ is_ok (read_pool "gpu" "inference" (pass switched_world)) = false.
Proof. split; by_vm. Qed.
