(* ===== verification/Deletion.v ===== *)
(** * Deletion completes

    What is left of a pool the user deletes once nothing has to be waited for: one
    pass lets go of every cell, the rest of the system removes what it holds of
    them, and the next pass releases the pool. [Teardown] is what the loop needs of
    a provisioner for this; both implement it. *)

From S2P Require Import Prelude GoStd Api KubeApi Provider Workload Provisioner Fsm Membership.
From S2P Require Import Unstructured Template CellObjects SwiftGuest ClusterApi.
From S2P Require Import Scaling Rollout Helpers Status Inventory CellId HamiProvider Bootstrap.
From S2P Require Import CellRow Metrics Reconciler ExampleWorld Controller ControllerSafety ControllerSpec.
From S2P Require Import Stable CellGuard Lifecycle.
Local Open Scope Z_scope.
Local Open Scope go_scope.

(** ** Provisioners let go of a cell *)

Section teardown.
Context {W : Type} `{InfraCluster W}.

(** Asked to be deleted, and not held by the operator. *)
Definition leaving (o : UObject) : Prop :=
  (FinalizerCellDrain ∉ u_Finalizers o) /\ PtrIsZero (u_DeletionTimestamp o) = false.

(** What becomes of an object that had these finalizers: it is gone, or the others that
    hold it have been asked to let it go. *)
Definition released (gvk : GVK) (ns n : string) (fs : list string) (w : W) : Prop :=
  gone gvk ns n w
  \/ exists o, there gvk ns n w o /\ u_Finalizers o = (withoutDrainFinalizer fs).1
          /\ u_Finalizers o <> [] /\ leaving o.

(** The two steps of a removal, on the object that stands for the cell and on the
    others. [fit] is what the provisioner expects of a request. *)
Class Teardown (prov : ProvisionerOps W) (gvk : GVK) (fit : CellRequest -> Prop) : Prop := {
  td_clears : is_Some (p_ClearDrainFinalizer prov);
  td_removes : forall clear req w w1 w2 b o,
    p_ClearDrainFinalizer prov = Some clear -> fit req ->
    there gvk (cr_Namespace req) (cr_CellName req) w o -> u_Finalizers o <> [] ->
    clear req w = (Ok tt, w1) -> p_Delete prov req w1 = (Ok b, w2) ->
    released gvk (cr_Namespace req) (cr_CellName req) (u_Finalizers o) w2;
  td_clear_released : forall clear req w r w' n fs,
    p_ClearDrainFinalizer prov = Some clear -> fit req ->
    released gvk (cr_Namespace req) n fs w -> clear req w = (r, w') ->
    released gvk (cr_Namespace req) n fs w';
  td_delete_released : forall req w r w' n fs,
    fit req -> released gvk (cr_Namespace req) n fs w -> p_Delete prov req w = (r, w') ->
    released gvk (cr_Namespace req) n fs w';
  td_clear_frame : forall clear req w r w' ns n,
    p_ClearDrainFinalizer prov = Some clear -> fit req -> cr_CellName req <> n ->
    clear req w = (r, w') -> get_object gvk ns n w' = get_object gvk ns n w;
  td_delete_frame : forall req w r w' ns n,
    fit req -> cr_CellName req <> n ->
    p_Delete prov req w = (r, w') -> get_object gvk ns n w' = get_object gvk ns n w
}.
End teardown.

Section implementations.
Context {W : Type} `{InfraCluster W} `{!InfraLaws W} `{Nested}.

Lemma released_frame gvk ns n fs (w w' : W) :
  get_object gvk ns n w' = get_object gvk ns n w -> released gvk ns n fs w -> released gvk ns n fs w'.
Proof. unfold released, gone, there. by intros ->. Qed.

(** What is being let go of is not cleared again, nor asked twice. *)
Lemma clear_released gvk c1 c2 req (w : W) r w' n fs :
  released gvk (cr_Namespace req) n fs w -> clear_drain_finalizer gvk c1 c2 req w = (r, w') ->
  released gvk (cr_Namespace req) n fs w'.
Proof.
  intros Hr Hc. destruct (decide (n = cr_CellName req)) as [->|Hne].
  2: { apply (released_frame _ _ _ _ w); [|done]. apply (clear_frame _ _ _ _ _ _ _ _ _ _ Hc). naive_solver. }
  destruct Hr as [Hg|(o & Ho & Hf & Hn & Hl)].
  - destruct (clear_gone _ _ _ _ _ _ _ Hg Hc) as [_ ->]. by left.
  - revert Hc. unfold clear_drain_finalizer. rewrite (get_or_there _ _ _ _ _ _ _ _ Ho).
    unfold withoutDrainFinalizer. rewrite bool_decide_eq_false_2 by apply Hl. intros [= _ <-].
    right. by exists o.
Qed.

Lemma delete_gone gvk ns n c (w : W) r w' :
  gone gvk ns n w -> delete_ignoring_absent gvk ns n c w = (r, w') -> gone gvk ns n w'.
Proof.
  intros Hg. unfold delete_ignoring_absent. unfold_pm.
  destruct (delete_object gvk ns n w) as [[x|e] w1] eqn:E; apply (delete_object_missing _ _ _ _ _ _ Hg) in E.
  - by intros [= _ <-].
  - destruct (IsNotFound e); by intros [= _ <-].
Qed.

(** The first part of both provisioners' Delete: ask for the object's deletion. *)
Definition ask_deletion {A} gvk ns n c1 c2 (a : A) (absent : PM W A) : PM W A :=
  get_or gvk ns n c1
    (fun o => (if PtrIsZero (u_DeletionTimestamp o)
               then delete_ignoring_absent gvk (u_Namespace o) (u_Name o) c2 else mret tt);;
              mret a) absent.

Lemma ask_deletion_released {A} gvk ns n c1 c2 (a : A) absent (w : W) r w' fs :
  (forall r w', gone gvk ns n w -> absent w = (r, w') -> gone gvk ns n w') ->
  released gvk ns n fs w -> ask_deletion gvk ns n c1 c2 a absent w = (r, w') -> released gvk ns n fs w'.
Proof.
  intros Ha [Hg|(o & Ho & Hf & Hn & Hl)]; unfold ask_deletion.
  - rewrite (get_or_gone _ _ _ _ _ _ _ Hg). intros E. left. by apply (Ha r).
  - rewrite (get_or_there _ _ _ _ _ _ _ _ Ho), (proj2 Hl). intros [= _ <-]. right. by exists o.
Qed.

(** Asking for the deletion of an object whose finalizer was just cleared. *)
Lemma clear_then_ask {A} gvk c1 c2 c3 c4 req (a b : A) absent (w w1 w2 : W) o :
  (forall r w', gone gvk (cr_Namespace req) (cr_CellName req) w1 -> absent w1 = (r, w') ->
     gone gvk (cr_Namespace req) (cr_CellName req) w') ->
  there gvk (cr_Namespace req) (cr_CellName req) w o -> u_Finalizers o <> [] ->
  clear_drain_finalizer gvk c1 c2 req w = (Ok tt, w1) ->
  ask_deletion gvk (cr_Namespace req) (cr_CellName req) c3 c4 a absent w1 = (Ok b, w2) ->
  released gvk (cr_Namespace req) (cr_CellName req) (u_Finalizers o) w2.
Proof.
  set (ns := cr_Namespace req). set (n := cr_CellName req). intros Ha Ho Hfs Hc Hd.
  destruct (withoutDrainFinalizer_spec (u_Finalizers o)) as (Hnd & _ & _).
  set (kept := (withoutDrainFinalizer (u_Finalizers o)).1) in *.
  assert (gone gvk ns n w1 \/ exists o', there gvk ns n w1 o' /\ u_Finalizers o' = kept
            /\ (kept = [] -> PtrIsZero (u_DeletionTimestamp o') = true)) as [Hg|(o' & Ho' & Hf' & Hz)].
  { destruct (clear_there _ _ _ _ _ _ _ Ho Hc) as [[Hn ->]|[Hin Hr]].
    - right. exists o. assert (kept = u_Finalizers o) as E.
      { unfold kept, withoutDrainFinalizer. simpl. clear -Hn. induction (u_Finalizers o) as [|f l IH]; [done|].
        simpl. apply not_elem_of_cons in Hn as [Hf Hl]. rewrite bool_decide_eq_false_2 by congruence.
        simpl. by rewrite IH. }
      rewrite E. split_and!; [done..|]. by intros ?.
    - fold kept in Hr. destruct (bool_decide_reflect (kept = [])); simpl in Hr.
      + destruct (PtrIsZero (u_DeletionTimestamp o)) eqn:Hz; simpl in Hr; [|by left].
        destruct Hr as (o' & ? & ? & Ht). right. exists o'. rewrite Ht. eauto.
      + destruct Hr as (o' & ? & ? & _). right. exists o'. eauto. }
  - left. revert Hd. unfold ask_deletion. rewrite (get_or_gone _ _ _ _ _ _ _ Hg). by apply Ha.
  - revert Hd. unfold ask_deletion. rewrite (get_or_there _ _ _ _ _ _ _ _ Ho').
    destruct (get_object_at _ _ _ _ _ Ho') as (_ & -> & ->).
    destruct (PtrIsZero (u_DeletionTimestamp o')) eqn:Hp.
    2: { intros [= _ <-]. right. exists o'. rewrite Hf'. split_and!; [done..| |].
         - intros E. apply Hz in E. congruence.
         - by split; [rewrite Hf'|]. }
    intros ([] & w3 & Hdel & [= _ <-])%PM_bind_ok. destruct (decide (kept = [])) as [E|Hk].
    + left. refine (delete_ends _ _ _ _ _ _ (or_intror (ex_intro _ o' (conj Ho' _))) Hdel). congruence.
    + right. assert (u_Finalizers o' <> []) as Hk' by congruence.
      destruct (delete_held _ _ _ _ _ _ _ _ Ho' Hk' Hdel) as (o2 & Ho2 & Hf2).
      exists o2. rewrite Hf2, Hf'. split_and!; [done..|]. split; [by rewrite Hf2, Hf'|].
      revert Hdel. unfold delete_ignoring_absent. unfold_pm.
      destruct (delete_object gvk ns n w1) as [[[]|e] w4] eqn:Ed; cbn.
      * intros [= <-]. apply (delete_object_ok _ _ _ _ _ _ Ho') in Ed.
        rewrite bool_decide_eq_false_2 in Ed by done. destruct Ed as (o3 & Ho3 & Ht).
        assert (o3 = o2) as -> by (unfold there in *; congruence). done.
      * destruct e; try done. simpl. intros [= <-]. apply delete_object_notfound in Ed.
        unfold there in Ho2. congruence.
Qed.

(** Asking leaves the objects of other names alone. *)
Lemma ask_deletion_frame {A} gvk ns n c1 c2 (a : A) absent (w : W) r w' ns' n' :
  n <> n' -> (forall r w', absent w = (r, w') -> get_object gvk ns' n' w' = get_object gvk ns' n' w) ->
  ask_deletion gvk ns n c1 c2 a absent w = (r, w') -> get_object gvk ns' n' w' = get_object gvk ns' n' w.
Proof.
  intros Hn Ha. unfold ask_deletion, get_or. unfold_pm.
  destruct (get_object gvk ns n w) as [o|e] eqn:Ho.
  2: { destruct (IsNotFound e); [apply Ha|by intros [= _ <-]]. }
  destruct (PtrIsZero _); [|by intros [= _ <-]].
  destruct (get_object_at _ _ _ _ _ Ho) as (_ & -> & ->).
  destruct (delete_ignoring_absent gvk ns n c2 w) as [d w1] eqn:E.
  pose proof (delete_frame _ _ _ _ _ _ _ gvk ns' n' E ltac:(naive_solver)) as F.
  by destruct d; intros [= _ <-].
Qed.

(** ** The implementations *)

(** SwiftGuest: when the guest is gone its seed profile is deleted. *)
Lemma seed_deletion_apart c ns n (w : W) r w' ns' n' :
  (delete_ignoring_absent SwiftSeedProfileGVK ns n c;; mret true) w = (r, w') ->
  get_object SwiftGuestGVK ns' n' w' = get_object SwiftGuestGVK ns' n' w.
Proof.
  unfold_pm. destruct (delete_ignoring_absent SwiftSeedProfileGVK ns n c w) as [d w1] eqn:E.
  pose proof (delete_frame _ _ _ _ _ _ _ SwiftGuestGVK ns' n' E ltac:(by intros (? & _))).
  by destruct d; intros [= _ <-].
Qed.

#[export] Instance SwiftGuest_teardown_ok :
  Teardown (W := W) SwiftGuestProvisioner SwiftGuestGVK (fun _ => True).
Proof.
  split; simpl.
  - by eexists.
  - intros clear req w w1 w2 b o [= <-] _ Ho Hf Hc. refine (clear_then_ask _ _ _ _ _ _ _ _ _ _ _ _ _ _ Ho Hf Hc).
    intros r w' Hg E. unfold gone in *. by rewrite (seed_deletion_apart _ _ _ _ _ _ _ _ E).
  - intros clear req w r w' n fs [= <-] _. apply clear_released.
  - intros req w r w' n fs _ Hr Hd. destruct (decide (cr_CellName req = n)) as [<-|Hne].
    + refine (ask_deletion_released _ _ _ _ _ _ _ _ _ _ _ _ Hr Hd).
      intros r' w1 Hg E. unfold gone in *. by rewrite (seed_deletion_apart _ _ _ _ _ _ _ _ E).
    + apply (released_frame _ _ _ _ w); [|done]. refine (ask_deletion_frame _ _ _ _ _ _ _ _ _ _ _ _ Hne _ Hd).
      intros r' w1. apply seed_deletion_apart.
  - intros clear req w r w' ns n [= <-] _ Hne Hc. apply (clear_frame _ _ _ _ _ _ _ _ _ _ Hc). naive_solver.
  - intros req w r w' ns n _ Hne Hd. refine (ask_deletion_frame _ _ _ _ _ _ _ _ _ _ _ _ Hne _ Hd).
    intros r' w1. apply seed_deletion_apart.
Qed.

(** Cluster API: the KubeSwiftMachine and the bootstrap config go at once. *)
Lemma ClusterAPI_Delete_Machine req (w : W) r w' :
  config_apart req -> ClusterAPI_Delete req w = (r, w') ->
  exists r1 w1,
    ask_deletion MachineGVK (cr_Namespace req) (cr_CellName req) ("reading Machine " +:+ cr_CellName req)
      ("deleting Machine " +:+ cr_CellName req) false (mret true) w = (r1, w1)
    /\ (is_ok r = true -> is_ok r1 = true)
    /\ forall ns n, get_object MachineGVK ns n w' = get_object MachineGVK ns n w1.
Proof.
  intros Ha. unfold ClusterAPI_Delete.
  change (get_or MachineGVK (cr_Namespace req) (cr_CellName req) _ _ (mret true)) with
    (ask_deletion MachineGVK (cr_Namespace req) (cr_CellName req) ("reading Machine " +:+ cr_CellName req)
      ("deleting Machine " +:+ cr_CellName req) false (mret (M := PM W) true)).
  unfold mbind at 1, PM_bind at 1. destruct (ask_deletion _ _ _ _ _ _ _ w) as [[b|e] w1] eqn:E1.
  2: { intros [= <- <-]. by exists (Err e), w1. }
  intros Hr. exists (Ok b), w1. split_and!; [done..|]. intros ns n. revert Hr.
  unfold_pm. destruct (delete_ignoring_absent KubeSwiftMachineGVK _ _ _ w1) as [d w2] eqn:E2.
  pose proof (delete_frame _ _ _ _ _ _ _ MachineGVK ns n E2 ltac:(by intros (? & _))) as F2.
  destruct d as [[]|e]; [|by intros [= _ <-]].
  destruct (bootstrapTemplateRef req) as [ref|] eqn:Hr; [|by intros [= _ <-]].
  destruct (delete_ignoring_absent (bootstrapConfigGVK ref) _ _ _ w2) as [d w3] eqn:E3.
  pose proof (delete_frame _ _ _ _ _ _ _ MachineGVK ns n E3) as F3.
  destruct (Ha ref Hr) as [Hne _]. rewrite F2 in F3.
  by destruct d; intros [= _ <-]; apply F3; intros (? & _).
Qed.

#[export] Instance ClusterAPI_teardown_ok : Teardown (W := W) ClusterAPIProvisioner MachineGVK config_apart.
Proof.
  split; simpl.
  - by eexists.
  - intros clear req w w1 w2 b o [= <-] Ha Ho Hf Hc Hd.
    destruct (ClusterAPI_Delete_Machine _ _ _ _ Ha Hd) as ([b1|e] & w3 & Hk & Hok & F); [|by specialize (Hok eq_refl)].
    apply (released_frame _ _ _ _ w3); [done|].
    refine (clear_then_ask _ _ _ _ _ _ _ _ _ _ _ _ _ _ Ho Hf Hc Hk). by intros r w' Hg [= _ <-].
  - intros clear req w r w' n fs [= <-] _. apply clear_released.
  - intros req w r w' n fs Ha Hr Hd. destruct (ClusterAPI_Delete_Machine _ _ _ _ Ha Hd) as (r1 & w1 & Hk & _ & F).
    apply (released_frame _ _ _ _ w1); [done|]. destruct (decide (cr_CellName req = n)) as [<-|Hne].
    + refine (ask_deletion_released _ _ _ _ _ _ _ _ _ _ _ _ Hr Hk). by intros r2 w2 Hg [= _ <-].
    + apply (released_frame _ _ _ _ w); [|done]. refine (ask_deletion_frame _ _ _ _ _ _ _ _ _ _ _ _ Hne _ Hk).
      by intros r2 w2 [= _ <-].
  - intros clear req w r w' ns n [= <-] _ Hne Hc. apply (clear_frame _ _ _ _ _ _ _ _ _ _ Hc). naive_solver.
  - intros req w r w' ns n Ha Hne Hd. destruct (ClusterAPI_Delete_Machine _ _ _ _ Ha Hd) as (r1 & w1 & Hk & _ & ->).
    refine (ask_deletion_frame _ _ _ _ _ _ _ _ _ _ _ _ Hne _ Hk). by intros r2 w2 [= _ <-].
Qed.
End implementations.

(** ** One pass over a pool that is being deleted *)

Section pass.
Context `{ENV : Environment W Client Config} `{!CellFrame, !InfraLaws W}.
Context (prov : ProvisionerOps W) (gvk : GVK) (fit : CellRequest -> Prop) `{TD : !Teardown prov gvk fit}.
Context (Hkind : cell_kind gvk).
Implicit Types (pool : GPUCellPool) (cl : option Client) (s : RState W Client).

(** The calls on the objects of cells. *)
Definition on_cell (c : Call) : bool :=
  match c with CallEnsure _ _ | CallClearDrainFinalizer _ | CallDelete _ => true | _ => false end.

#[local] Instance object_stable ns n v : StableOps (fun w => get_object gvk ns n w = v) (fun c => on_cell c = true) prov.
Proof.
  split; intros *.
  - by rewrite clock_frame.
  - by rewrite update_pool_status_frame.
  - by rewrite create_secret_frame.
  - by rewrite update_secret_frame.
  - by rewrite patch_frame.
  - by rewrite delete_frame_node.
  - by intros [].
  - by intros [].
  - by intros _ [].
Qed.

(** A computation without such calls leaves the objects of cells as they are. *)
Lemma objects_kept {A} (m : M W Client A) s ns n :
  (forall v, keeps (fun w => get_object gvk ns n w = v) (fun c => on_cell c = true) m) ->
  holds (Forall (fun c => on_cell c = false)) m ->
  get_object gvk ns n (rst_world (final m s)) = get_object gvk ns n (rst_world s).
Proof.
  intros Hk Hl. apply Hk; [done|]. eapply Forall_impl; [apply Hl|]. by intros c ->.
Qed.

Lemma single_off_cell c : on_cell c = false -> Forall (fun c => on_cell c = false) [c].
Proof. by repeat constructor. Qed.
Hint Resolve single_off_cell : holds.
Lemma workloadClient_off pool : holds (Forall (fun c => on_cell c = false)) (workloadClient pool).
Proof. intros s. destruct (workloadClient_silent pool s) as (_ & -> & _). constructor. Qed.
Hint Resolve workloadClient_off : holds.

(** A removal that returns has taken both steps, one after the other. *)
Lemma deleteCell_steps pool (cell : CellStatus) reap s :
  value (deleteCell pool prov cell reap) s = Ok tt ->
  let req := cellRequest pool (cs_Index cell) in
  exists clear w1 w2 b,
    p_ClearDrainFinalizer prov = Some clear
    /\ (forall ns n, get_object gvk ns n w1 = get_object gvk ns n (rst_world s))
    /\ clear req w1 = (Ok tt, w2)
    /\ p_Delete prov req w2 = (Ok b, rst_world (final (deleteCell pool prov cell reap) s)).
Proof.
  destruct (td_clears (prov := prov) (gvk := gvk)) as [clear Hc]. unfold deleteCell. cbv zeta. rewrite Hc.
  rewrite value_bind, final_bind.
  match goal with |- context [value ?m s] => set (reaping := m) end.
  assert (forall ns n, get_object gvk ns n (rst_world (final reaping s)) = get_object gvk ns n (rst_world s)) as Hw.
  { intros ns n. apply objects_kept; [intros v; pose proof (object_stable ns n v); unfold reaping; stable|].
    unfold reaping, deleteNode. compose; by apply single_off_cell. }
  destruct (value reaping s) as [[]|]; [|done]. revert Hw. generalize (final reaping s). intros s1 Hw.
  rewrite value_bind, final_bind, value_call, final_call.
  destruct (clear _ (rst_world s1)) as [[[]|e] w2] eqn:E2; [|done]. cbn [fst snd].
  rewrite value_bind, final_bind, value_call, final_call. cbn [rst_world].
  destruct (p_Delete prov _ w2) as [[b|e] w3] eqn:E3; [|done]. intros _.
  by exists clear, (rst_world s1), w2, b.
Qed.

(** What is asked of the clock: whatever is done, it does not go back. *)
Definition not_before (w w' : W) : Prop := (Clock w).1 <= (Clock w').1.
Class ClockLaws : Prop := {
  clock_clock : forall w, not_before w (Clock w).2;
  clock_status : forall p w, not_before w (update_pool_status p w).2;
  clock_create_secret : forall o w, not_before w (create_secret o w).2;
  clock_update_secret : forall o w, not_before w (update_secret o w).2;
  clock_create_object : forall o w, not_before w (create_object o w).2;
  clock_update_object : forall o w, not_before w (update_object o w).2;
  clock_delete_object : forall k ns n w, not_before w (delete_object k ns n w).2;
  clock_patch : forall cs node patch w, not_before w (@patch_node W (inner cs) node patch w).2;
  clock_delete_node : forall cs node w, not_before w (@delete_node W (inner cs) node w).2
}.

(** Deletion does not wait: the policy is Force, or the time to drain is over by the clock. *)
Definition past_waiting pool (since : Time) (w : W) : Prop :=
  deletionPolicy pool = DeletionPolicyForce
  \/ (0 < drainTimeout pool /\ since <> 0 /\ drainTimeout pool < Sub (Clock w).1 since).

Lemma past_waiting_later pool since w w' : not_before w w' -> past_waiting pool since w -> past_waiting pool since w'.
Proof.
  unfold not_before, past_waiting, Sub. intros Hb [?|(? & ? & ?)]; [by left|right; split_and!; [done..|lia]].
Qed.

Context `{!ThroughObjects prov gvk} `{!ClockLaws}.

Section waiting.
Context pool (since : Time).

#[local] Instance past_waiting_objects : ObjectStable (past_waiting pool since).
Proof.
  split; intros *; apply past_waiting_later;
    [apply clock_create_object|apply clock_update_object|apply clock_delete_object].
Qed.
#[local] Instance past_waiting_stable : StableOps (past_waiting pool since) (fun _ => False) prov.
Proof.
  split; intros *.
  - apply past_waiting_later, clock_clock.
  - apply past_waiting_later, clock_status.
  - apply past_waiting_later, clock_create_secret.
  - apply past_waiting_later, clock_update_secret.
  - apply past_waiting_later, clock_patch.
  - apply past_waiting_later, clock_delete_node.
  - intros _. exact (through_ensure (gvk := gvk) _ req past_waiting_objects w).
  - intros _. exact (through_delete (gvk := gvk) _ req past_waiting_objects w).
  - intros Hc _. exact (through_clear (gvk := gvk) _ clear req past_waiting_objects Hc w).
Qed.

Lemma past_waiting_kept {A} (m : M W Client A) s :
  (StableOps (past_waiting pool since) (fun _ => False) prov -> keeps (past_waiting pool since) (fun _ => False) m) ->
  past_waiting pool since (rst_world s) -> past_waiting pool since (rst_world (final m s)).
Proof. intros Hm Hk. apply Hm; [apply _|done|]. apply Forall_forall. by intros c _ []. Qed.
End waiting.

Lemma past_waiting_proceeds pool since a known w :
  past_waiting pool since w ->
  dd_Proceed (AdvanceDrain a known true (deletionPolicy pool == DeletionPolicyForce) since (Clock w).1
                (drainTimeout pool)) = true.
Proof.
  unfold AdvanceDrain, IsZero. intros [->|(H1 & H2 & H3)]; [by rewrite bool_decide_eq_true_2|].
  apply Z.ltb_lt in H1, H3. apply Z.eqb_neq in H2. rewrite H1, H2, H3.
  cbn [andb negb]. by repeat case_match.
Qed.

Lemma progressDrain_steps pool cl (cell cell' : CellStatus) since s :
  past_waiting pool since (rst_world s) -> value (progressDrain pool prov cl cell true since) s = Ok cell' ->
  let req := cellRequest pool (cs_Index cell) in
  exists clear w1 w2 b,
    p_ClearDrainFinalizer prov = Some clear
    /\ (forall ns n, get_object gvk ns n w1 = get_object gvk ns n (rst_world s))
    /\ clear req w1 = (Ok tt, w2)
    /\ p_Delete prov req w2 = (Ok b, rst_world (final (progressDrain pool prov cl cell true since) s)).
Proof.
  intros Hp. unfold progressDrain. fold (read_allocations pool cl cell). rewrite value_bind, final_bind.
  assert (forall ns n, get_object gvk ns n (rst_world (final (read_allocations pool cl cell) s))
                  = get_object gvk ns n (rst_world s)) as Hw.
  { intros ns n. apply objects_kept; [intros v; pose proof (object_stable ns n v)|]; unfold read_allocations; [stable|compose]. }
  assert (past_waiting pool since (rst_world (final (read_allocations pool cl cell) s))) as Hp'
    by (apply past_waiting_kept; [intros ?; unfold read_allocations; stable|done]).
  destruct (value (read_allocations _ _ _) s) as [r|]; [|done].
  rewrite value_bind, final_bind, value_now, past_waiting_proceeds by done. cbn [negb].
  rewrite value_bind, final_bind.
  match goal with |- context [value (deleteCell _ _ ?c _) ?s'] =>
    pose proof (deleteCell_steps pool c true s') as Hd;
    destruct (value (deleteCell pool prov c true) s') as [[]|] end; [|done]. intros _.
  destruct (Hd eq_refl) as (clear & w1 & w2 & b & Hc & Hw1 & H1 & H2). exists clear, w1, w2, b.
  split_and!; [done| |done..]. intros ns n. by rewrite Hw1, world_now, clock_frame, Hw.
Qed.

(** *** The guests, one after the other

    [rows_named]: a row of the status has the index its name says, as every status a
    pass writes has. *)
Definition rows_named pool : Prop :=
  forall c, c ∈ st_Cells (pool_Status pool) -> ParseIndex (pool_Name pool) (cs_Name c) = Ok (cs_Index c).

Lemma draining_row_objects pool name idx s ns n :
  get_object gvk ns n (rst_world (final (draining_row pool name idx) s)) = get_object gvk ns n (rst_world s).
Proof.
  apply objects_kept; [intros v; pose proof (object_stable ns n v)|]; unfold draining_row; [stable|compose].
Qed.

(** One turn of the loop: the row, then the removal at the index of the name. *)
Lemma drain_turn pool cl since g idx s guests rows :
  past_waiting pool since (rst_world s) -> rows_named pool -> ParseIndex (pool_Name pool) g = Ok idx ->
  value (drain_guests pool prov cl since (g :: guests)) s = Ok rows ->
  exists clear w1 w2 b s' rows',
    p_ClearDrainFinalizer prov = Some clear
    /\ (forall ns n, get_object gvk ns n w1 = get_object gvk ns n (rst_world s))
    /\ clear (cellRequest pool idx) w1 = (Ok tt, w2)
    /\ p_Delete prov (cellRequest pool idx) w2 = (Ok b, rst_world s')
    /\ value (drain_guests pool prov cl since guests) s' = Ok rows'
    /\ past_waiting pool since (rst_world s')
    /\ final (drain_guests pool prov cl since (g :: guests)) s = final (drain_guests pool prov cl since guests) s'.
Proof.
  intros Hp Hix Hi. cbn [drain_guests]. rewrite Hi, value_bind, final_bind.
  pose proof (draining_row_objects pool g idx s) as Hw.
  assert (past_waiting pool since (rst_world (final (draining_row pool g idx) s))) as Hp1
    by (apply past_waiting_kept; [intros ?; unfold draining_row; stable|done]).
  destruct (value (draining_row pool g idx) s) as [row|] eqn:Er; [|done].
  apply draining_row_index in Er as Hrow; [|intros c Hc E; specialize (Hix c Hc); congruence].
  rewrite value_bind, final_bind.
  match goal with |- context [value (progressDrain pool prov cl row true since) ?s1] =>
    pose proof (fun cell' => progressDrain_steps pool cl row cell' since s1 Hp1) as Hd;
    assert (past_waiting pool since (rst_world (final (progressDrain pool prov cl row true since) s1))) as Hp2
      by (apply past_waiting_kept; [intros ?; by apply progressDrain_keeps|done]);
    destruct (value (progressDrain pool prov cl row true since) s1) as [cell|] eqn:Ev end; [|done].
  destruct (Hd cell eq_refl) as (clear & w1 & w2 & b & Hc & Hw1 & H1 & H2). rewrite Hrow in H1, H2.
  rewrite value_bind, final_bind. destruct (value (drain_guests pool prov cl since guests) _) as [rows'|] eqn:Eg; [|done].
  intros _. eexists clear, w1, w2, b, _, rows'. split_and!; [done| |done..]. intros ns n. by rewrite Hw1, Hw.
Qed.

Section drain.
Context pool cl (since : Time) (Hix : rows_named pool).
Context (Hfit : forall idx, fit (cellRequest pool idx)).
Local Abbreviation drain := (drain_guests pool prov cl since).
Local Abbreviation ns := (pool_Namespace pool).

(** A name none of the guests stands for is left alone. *)
Lemma drain_guests_frame guests s rows n' :
  past_waiting pool since (rst_world s) ->
  value (drain guests) s = Ok rows ->
  (forall g idx, g ∈ guests -> ParseIndex (pool_Name pool) g = Ok idx -> Name (pool_Name pool) idx <> n') ->
  get_object gvk ns n' (rst_world (final (drain guests) s)) = get_object gvk ns n' (rst_world s).
Proof.
  revert s rows. induction guests as [|g guests IH]; intros s rows Hp Hv Hn; [done|].
  assert (forall g idx, g ∈ guests -> ParseIndex (pool_Name pool) g = Ok idx -> Name (pool_Name pool) idx <> n') as Hn'
    by (intros; eapply Hn; [by right|done]).
  destruct (ParseIndex (pool_Name pool) g) as [idx|e] eqn:Hi.
  2: { revert Hv. cbn [drain_guests]. rewrite Hi. intros Hv. by eapply IH. }
  destruct (drain_turn _ _ _ _ _ _ _ _ Hp Hix Hi Hv)
    as (clear & w1 & w2 & b & s' & rows' & Hc & Hw & H1 & H2 & Hr & Hp' & ->).
  rewrite (IH _ _ Hp' Hr Hn'). pose proof (Hn g idx ltac:(left) Hi) as Hne.
  rewrite (td_delete_frame (prov := prov) (cellRequest pool idx) _ _ _ ns n' (Hfit idx) Hne H2).
  by rewrite (td_clear_frame clear (cellRequest pool idx) _ _ _ ns n' Hc (Hfit idx) Hne H1), Hw.
Qed.

(** What is let go of stays so. *)
Lemma drain_guests_released guests s rows n' fs :
  past_waiting pool since (rst_world s) ->
  value (drain guests) s = Ok rows ->
  released gvk ns n' fs (rst_world s) -> released gvk ns n' fs (rst_world (final (drain guests) s)).
Proof.
  revert s rows. induction guests as [|g guests IH]; intros s rows Hp Hv Hr; [done|].
  destruct (ParseIndex (pool_Name pool) g) as [idx|e] eqn:Hi.
  2: { revert Hv. cbn [drain_guests]. rewrite Hi. intros Hv. by eapply IH. }
  destruct (drain_turn _ _ _ _ _ _ _ _ Hp Hix Hi Hv)
    as (clear & w1 & w2 & b & s' & rows' & Hc & Hw & H1 & H2 & Hrest & Hp' & ->).
  eapply IH; [done..|]. eapply (td_delete_released (prov := prov) (cellRequest pool idx)); [done| |done].
  eapply (td_clear_released clear (cellRequest pool idx)); [done..| |done].
  by apply (released_frame _ _ _ _ (rst_world s)).
Qed.

(** Every cell among the guests is let go of. *)
Lemma drain_guests_lets_go guests s rows g idx o :
  past_waiting pool since (rst_world s) ->
  value (drain guests) s = Ok rows ->
  g ∈ guests -> ParseIndex (pool_Name pool) g = Ok idx ->
  there gvk ns (Name (pool_Name pool) idx) (rst_world s) o -> u_Finalizers o <> [] ->
  released gvk ns (Name (pool_Name pool) idx) (u_Finalizers o) (rst_world (final (drain guests) s)).
Proof.
  intros Hp Hv Hg Hi. revert s rows Hp Hv Hg.
  induction guests as [|h guests IH]; intros s rows Hp Hv Hg Ho Hf; [by apply elem_of_nil in Hg|].
  destruct (ParseIndex (pool_Name pool) h) as [j|e] eqn:Hj.
  2: { revert Hv. cbn [drain_guests]. rewrite Hj. intros Hv.
       apply elem_of_cons in Hg as [->|Hg]; [congruence|]. by eapply IH. }
  destruct (drain_turn _ _ _ _ _ _ _ _ Hp Hix Hj Hv)
    as (clear & w1 & w2 & b & s' & rows' & Hc & Hw & H1 & H2 & Hrest & Hp' & ->).
  assert (there gvk ns (Name (pool_Name pool) idx) w1 o) as Ho1 by (unfold there; by rewrite Hw).
  destruct (decide (Name (pool_Name pool) j = Name (pool_Name pool) idx)) as [E|Hne].
  - eapply drain_guests_released; [done..|]. rewrite <- E in *.
    by apply (td_removes clear (cellRequest pool j) w1 w2 _ b).
  - apply elem_of_cons in Hg as [->|Hg]; [congruence|]. eapply IH; [done..| |done].
    unfold there. rewrite (td_delete_frame (prov := prov) (cellRequest pool j) _ _ _ ns _ (Hfit j) Hne H2).
    by rewrite (td_clear_frame clear (cellRequest pool j) _ _ _ ns _ Hc (Hfit j) Hne H1).
Qed.
End drain.

Lemma len_pos {A} (a : A) l : (0 <? len (a :: l)) = true.
Proof. apply Z.ltb_lt. rewrite len_cons. pose proof (len_nonneg l). lia. Qed.

(** A pass that returns has let go of every cell listed, and of nothing else. *)
Lemma deletion_pass pool since guests s r :
  past_waiting pool since (rst_world s) -> rows_named pool -> (forall idx, fit (cellRequest pool idx)) ->
  p_List prov (pool_Namespace pool) (pool_Name pool) (rst_world s) = Ok guests ->
  pool_DeletionTimestamp pool = Some since ->
  value (reconcileDeletion pool prov) s = Ok r ->
  let w' := rst_world (final (reconcileDeletion pool prov) s) in
  (forall n', (forall g idx, g ∈ guests -> ParseIndex (pool_Name pool) g = Ok idx -> Name (pool_Name pool) idx <> n') ->
         get_object gvk (pool_Namespace pool) n' w' = get_object gvk (pool_Namespace pool) n' (rst_world s))
  /\ (forall g idx o, g ∈ guests -> ParseIndex (pool_Name pool) g = Ok idx ->
         there gvk (pool_Namespace pool) (Name (pool_Name pool) idx) (rst_world s) o -> u_Finalizers o <> [] ->
         released gvk (pool_Namespace pool) (Name (pool_Name pool) idx) (u_Finalizers o) w').
Proof.
  intros Hp Hix Hfit Hl Hs. cbv zeta. unfold reconcileDeletion. rewrite value_bind, final_bind.
  destruct (workloadClient_silent pool s) as (_ & _ & Hw).
  destruct (value (workloadClient pool) s) as [[[cl reason] msg]|]; [|done]. rewrite <- Hw in *.
  revert Hp Hl. clear Hw. generalize (final (workloadClient pool) s). clear s. intros s Hp Hl.
  rewrite value_bind, final_bind. destruct (list_cells_spec prov pool s) as (-> & _ & ->). rewrite Hl.
  destruct guests as [|g0 guests].
  { intros Hv. split; [|by intros ? ? ? ?%elem_of_nil]. intros n' _. revert Hv.
    change (0 <? len (@nil string)) with false. cbv iota. destruct (RemoveFinalizer _ _) as [fs removed].
    intros _. rewrite final_bind. match goal with |- context [value ?m s] => set (rel := m) end.
    assert (get_object gvk (pool_Namespace pool) n' (rst_world (final rel s))
            = get_object gvk (pool_Namespace pool) n' (rst_world s)) as Hr; [|by destruct (value rel s)].
    unfold rel. destruct removed; [|done]. rewrite final_bind, final_call.
    destruct (value (call _ _ _) s); apply update_pool_frame, Hkind. }
  rewrite len_pos, Hs. cbn [transitionOr default from_option id].
  rewrite value_bind, final_bind, value_now.
  assert (forall n, get_object gvk (pool_Namespace pool) n (rst_world (final now s))
             = get_object gvk (pool_Namespace pool) n (rst_world s)) as Hn
    by (intros n; by rewrite world_now, clock_frame).
  assert (past_waiting pool since (rst_world (final now s))) as Hp'
    by (rewrite world_now; apply (past_waiting_later _ _ (rst_world s)); [apply clock_clock|done]).
  rewrite value_bind, final_bind.
  destruct (value (drain_guests _ _ _ _ _) _) as [rows|] eqn:Ed; [|done]. intros _.
  assert (forall s' n, get_object gvk (pool_Namespace pool) n
             (rst_world (final (writeDrainStatus pool rows;; mret (mkResult requeueProgressing)) s'))
           = get_object gvk (pool_Namespace pool) n (rst_world s')) as Hst.
  { intros s' n. apply (objects_kept (writeDrainStatus pool rows;; _)).
    - intros v. pose proof (object_stable (pool_Namespace pool) n v). unfold writeDrainStatus. stable.
    - unfold writeDrainStatus. compose. }
  split.
  - intros n' Hne. rewrite Hst, (drain_guests_frame _ _ _ Hix Hfit _ _ _ _ Hp' Ed Hne). apply Hn.
  - intros g idx o Hg Hi Ho Hf. apply (released_frame _ _ _ _ _ _ (Hst _ _)).
    eapply drain_guests_lets_go; [done..| |done]. unfold there. by rewrite Hn.
Qed.
End pass.

(** ** Two passes *)

Section completion.
Context `{ENV : Environment W Client Config} `{!CellFrame, !InfraLaws W, !PoolLaws, !FinalizerLaws}.
Context `{ST : Store W} `{!StoreLaws}.
Context (prov : ProvisionerOps W) (gvk : GVK) (fit : CellRequest -> Prop).
Context `{TD : !Teardown prov gvk fit} `{TO : !ThroughObjects prov gvk} (Hkind : cell_kind gvk).
Implicit Types (pool : GPUCellPool) (w : W).

(** What the API server documents of a list by label: it has the objects with the label,
    and a cell that is stored is one of them. *)
Class ListLaws : Prop := {
  list_sound : forall k ns sel w items o,
    list_objects k ns sel w = Ok items -> o ∈ items ->
    (~ gone k ns (u_Name o) w) /\ forall o', there k ns (u_Name o) w o' -> sel ⊆ u_Labels o';
  list_complete : forall k ns sel w items n o,
    list_objects k ns sel w = Ok items -> there k ns n w o -> sel ⊆ u_Labels o ->
    n ∈ map u_Name items;
  cell_stored_object : forall k ns name w, cell_stored k ns name w ->
    exists n, (~ gone k ns n w) /\ forall o, there k ns n w o -> {[ LabelPool := name ]} ⊆ u_Labels o
}.
Context `{!ListLaws, !ClockLaws}.
Context (ns name : string).

(** Reads answer, and the objects labelled with the pool are its cells, each held by the
    drain finalizer or by somebody else. *)
Definition cells_in_order (w : W) : Prop :=
  forall n, gone gvk ns n w
       \/ exists o, there gvk ns n w o
          /\ ({[ LabelPool := name ]} ⊆ u_Labels o ->
              (exists idx, ParseIndex name n = Ok idx /\ n = Name name idx) /\ u_Finalizers o <> []).

(** What the loop leaves to the rest of the system: whoever else holds an object that is
    asked to go lets it go, and no cell is made. *)
Definition others_let_go (w w' : W) : Prop :=
  forall n, gone gvk ns n w'
       \/ (get_object gvk ns n w' = get_object gvk ns n w /\ forall o, there gvk ns n w o -> ~ leaving o).

Lemma pass_of_deletion pool s :
  get_pool ns name (rst_world s) = Ok pool -> provisioner pool = Ok prov ->
  PtrIsZero (pool_DeletionTimestamp pool) = false ->
  Reconcile ns name s = reconcileDeletion pool prov s.
Proof.
  intros Hg Hp Hd. unfold Reconcile, mbind at 1, M_bind at 1, ask. rewrite Hg, Hp, Hd. cbn [negb].
  destruct (reconcileDeletion pool prov s) as [r [s' l]]. done.
Qed.

(** After the first pass, and what the others do, no cell is stored. *)
Lemma first_pass pool since s r w' :
  get_pool ns name (rst_world s) = Ok pool ->
  pool_DeletionTimestamp pool = Some since -> past_waiting pool since (rst_world s) -> rows_named pool ->
  (forall idx, fit (cellRequest pool idx)) -> cells_in_order (rst_world s) ->
  value (reconcileDeletion pool prov) s = Ok r ->
  others_let_go (rst_world (final (reconcileDeletion pool prov) s)) w' ->
  ~ cell_stored gvk ns name w'.
Proof.
  intros Hg Hs Hp Hix Hfit Hcells Hv Hothers Hst. destruct (get_pool_named _ _ _ _ Hg) as [Hns Hname].
  assert (exists guests, p_List prov (pool_Namespace pool) (pool_Name pool) (rst_world s) = Ok guests
            /\ forall n, (n ∈ guests -> (~ gone gvk (ns) n (rst_world s))
                          /\ forall o, there gvk (ns) n (rst_world s) o ->
                                  {[ LabelPool := name ]} ⊆ u_Labels o)
                   /\ forall o, there gvk (ns) n (rst_world s) o ->
                           {[ LabelPool := name ]} ⊆ u_Labels o -> n ∈ guests)
    as (guests & Hl & Hguests).
  { revert Hv. unfold reconcileDeletion. rewrite value_bind.
    destruct (workloadClient_silent pool s) as (_ & _ & Hw).
    destruct (value (workloadClient pool) s) as [[[cl reason] msg]|]; [|done].
    rewrite value_bind. destruct (list_cells_spec prov pool (final (workloadClient pool) s)) as (-> & _ & _).
    rewrite Hw, Hns, Hname. rewrite (through_list (gvk := gvk)). unfold listCellNames.
    destruct (list_objects gvk (ns) _ (rst_world s)) as [items|e] eqn:El; [|done]. intros _.
    exists (map u_Name items). split; [done|]. intros n. split.
    - intros (o & -> & Ho)%elem_of_map_b. by apply (list_sound _ _ _ _ _ _ El).
    - intros o. by apply (list_complete _ _ _ _ _ _ _ El). }
  destruct (deletion_pass prov gvk fit Hkind pool since guests s r Hp Hix Hfit Hl Hs Hv) as [Hframe Hgo].
  rewrite Hns, Hname in Hframe, Hgo.
  destruct (cell_stored_object _ _ _ _ Hst) as (n & Hn & Hlab).
  destruct (Hothers n) as [?|[E Hnl]]; [done|]. unfold gone, there in Hn, Hlab. rewrite E in Hn, Hlab.
  destruct (decide (n ∈ guests)) as [Hin|Hin].
  - destruct (proj1 (Hguests n) Hin) as [Hng Hl1]. destruct (Hcells n) as [?|(o & Ho & Hc)]; [done|].
    destruct (Hc (Hl1 o Ho)) as [(idx & Hi & ->) Hf].
    destruct (Hgo _ _ _ Hin Hi Ho Hf) as [?|(o' & Ho' & _ & _ & Hlv)]; [done|]. by apply (Hnl o').
  - assert (get_object gvk (ns) n (rst_world (final (reconcileDeletion pool prov) s))
            = get_object gvk (ns) n (rst_world s)) as Ef.
    { apply Hframe. intros g idx Hg' Hi <-. destruct (proj1 (Hguests g) Hg') as [Hng Hl1].
      destruct (Hcells g) as [?|(o & Ho & Hc)]; [done|].
      destruct (Hc (Hl1 o Ho)) as [(j & Hj & Eg) _]. apply Hin.
      assert (j = idx) as -> by congruence. by rewrite <- Eg. }
    rewrite Ef in Hn, Hlab. destruct (Hcells n) as [?|(o & Ho & _)]; [done|].
    apply Hin. apply (Hguests n) with o; [done|]. by apply Hlab.
Qed.

(** A pass over a pool without cells releases it. *)
Lemma second_pass pool s r :
  get_pool ns name (rst_world s) = Ok pool -> versions ns name (rst_world s) = [Some pool] ->
  ~ cell_stored gvk ns name (rst_world s) ->
  value (reconcileDeletion pool prov) s = Ok r ->
  let w' := rst_world (final (reconcileDeletion pool prov) s) in
  RequeueAfter r = 0 /\ (~ cell_stored gvk ns name w')
  /\ forall p, stored ns name w' = Some p -> FinalizerPool ∉ pool_Finalizers p.
Proof.
  intros Hg Hv Hn. destruct (get_pool_named _ _ _ _ Hg) as [Hns Hname]. cbv zeta.
  unfold reconcileDeletion. rewrite value_bind, final_bind.
  destruct (workloadClient_silent pool s) as (_ & _ & Hw).
  destruct (value (workloadClient pool) s) as [[[cl reason] msg]|]; [|done]. rewrite <- Hw in *.
  clear Hw. revert Hg Hv Hn. generalize (final (workloadClient pool) s). clear s. intros s Hg Hv Hn.
  rewrite value_bind, final_bind. pose proof (fun g => listed_cells prov gvk pool s g) as Hlist.
  destruct (list_cells_spec prov pool s) as (_ & _ & ->).
  destruct (value (list_cells prov pool) s) as [[|g guests]|]; [| |done].
  2: { specialize (Hlist _ eq_refl). rewrite Hns, Hname in Hlist. done. }
  change (0 <? len (@nil string)) with false. cbv iota.
  destruct (RemoveFinalizer_spec (pool_Finalizers pool) FinalizerPool) as [Hnin Hrm].
  destruct (RemoveFinalizer _ _) as [fs removed]. simpl in Hnin, Hrm.
  unfold forget_client, meter. rewrite value_bind, final_bind. destruct removed.
  - rewrite value_bind, final_bind, value_call, final_call.
    destruct (update_pool _ (rst_world s)) as [[p|e] w] eqn:E; [|done]. intros [= <-].
    pose proof (update_pool_cells {| pool with pool_Finalizers := fs |} (rst_world s) gvk ns name) as Hc.
    rewrite E in Hc. change (rst_world _) with w. split_and!; [done|tauto|].
    destruct (update_pool_applied _ _ _ _ _ _ _ Hg E) as [[? _]|(_ & v & Hsuf & Hne & Hcase)]; [done|].
    unfold stored. rewrite (last_suffix _ _ Hsuf Hne). cbn [last default from_option id]. intros q ->.
    destruct Hcase as [(q' & [= <-] & Hf & _)|[? _]]; [by rewrite Hf|done].
  - intros [= <-]. split_and!; [done..|]. intros q Hq.
    assert (stored ns name (rst_world s) = Some q) as Hq' by exact Hq. unfold stored in Hq'.
    rewrite Hv in Hq'. injection Hq' as <-. intros Hin%Hrm. done.
Qed.

(** C14. Deletion completes. Take a pool being deleted whose cells carry the names and the
    requests its provisioner expects and whose status rows are indexed by their names, and let
    nothing have to be waited for: the policy is Force, or the drain timeout has elapsed between
    the deletion and the first of these passes by a clock that does not go back. Then two
    passes that return are enough: the first lets go of every cell; when those who else hold
    one have let it go too, and the reconciler reads the pool as it is stored, the second releases
    the pool, whose cells are gone, and asks for no other pass. *)
Theorem deletion_completes pool pool' since s s' r r' :
  get_pool ns name (rst_world s) = Ok pool -> provisioner pool = Ok prov ->
  PtrIsZero (Some since) = false -> pool_DeletionTimestamp pool = Some since ->
  past_waiting pool since (rst_world s) -> rows_named pool ->
  (forall idx, fit (cellRequest pool idx)) -> cells_in_order (rst_world s) ->
  value (Reconcile ns name) s = Ok r ->
  others_let_go (rst_world (final (Reconcile ns name) s)) (rst_world s') ->
  get_pool ns name (rst_world s') = Ok pool' -> versions ns name (rst_world s') = [Some pool'] ->
  provisioner pool' = Ok prov ->
  PtrIsZero (pool_DeletionTimestamp pool') = false ->
  value (Reconcile ns name) s' = Ok r' ->
  let w := rst_world (final (Reconcile ns name) s') in
  RequeueAfter r' = 0 /\ (~ cell_stored gvk ns name w)
  /\ forall p, stored ns name w = Some p -> FinalizerPool ∉ pool_Finalizers p.
Proof.
  intros Hg Hpr Hz Hs Hp Hix Hfit Hcells. unfold value, final.
  rewrite (pass_of_deletion pool s) by congruence. intros Hv Hothers Hg' Hv' Hpr' Hz'.
  rewrite (pass_of_deletion pool' s') by done. apply second_pass; [done..|].
  by apply (first_pass pool since s r).
Qed.
End completion.

(** ** Witness

    Two cells: the guest of the second is also held by the GPU allocation of KubeSwift, which
    gives it up once the guest is asked to go. *)
#[export] Instance world_list_laws : ListLaws (ENV := world_env).
Proof.
  split; simpl.
  - intros k ns sel w items o E Ho. apply (mem_listed _ _ _ _ _ _ E) in Ho as [Hg Hs]. unfold gone, there. simpl.
    rewrite Hg. split; [done|]. by intros o' [= <-].
  - intros k ns sel w items n o E Ho Hs. unfold there in Ho. simpl in Ho.
    pose proof (mem_get_key _ _ _ _ _ Ho) as [= _ _ <-]. apply list_elem_of_fmap. exists o. split; [done|].
    by apply (mem_listed _ _ _ _ _ _ E).
  - intros k ns name w (o & Ho & Hs). exists (u_Name o). unfold gone, there. simpl. rewrite Ho. split; [done|].
    by intros o' [= <-].
Qed.

#[export] Instance world_clock_laws : ClockLaws (ENV := world_env).
Proof.
  split; intros *; unfold not_before; simpl; unfold on_objects; try lia.
  - assert (0 <= Second) by done. lia.
  - unfold write_pool_status. by destruct (read_pool _ _ _).
  - by destruct (mem_create _ _).
  - by destruct (mem_update _ _).
  - by destruct (mem_delete _ _ _ _).
  - by destruct (mem_nodes (wd_inner w) !! node).
Qed.

(** The pool waits for its drains at most ten minutes, and its deletion is older. *)
Definition ex_late_pool : GPUCellPool :=
  let spec := {| ex_spec with spec_Deletion := Some (mkDeletionSpec DeletionPolicyDrain (Some (10 * Minute))) |} in
  {| ex_pool with pool_DeletionTimestamp := Some (900 * Minute); pool_Spec := spec |}.

Definition ex_held_guest : UObject :=
  let o := ex_guest_object "inference-1" ex_joining_outer in
  {| o with u_Finalizers := [FinalizerCellDrain; "kubeswift.io/gpu-allocation"] |}.
Definition ex_held_key : GVK * string * string := (SwiftGuestGVK, "gpu", "inference-1").

Definition held_state : RState World unit :=
  let s := ex_idle_cluster ex_late_pool in
  let w := rst_world s in
  mkRState {| w with wd_objects := <[ex_held_key := ex_held_guest]> (wd_objects w) |} ∅.

Definition allocation_released (w : World) : World :=
  {| w with wd_objects := delete ex_held_key (wd_objects w) |}.

Lemma get_in_two (k1 k2 k : GVK * string * string) (o1 o2 : UObject) :
  ({[ k1 := o1; k2 := o2 ]} : gmap _ UObject) !! k
  = if decide (k = k1) then Some o1 else if decide (k = k2) then Some o2 else None.
Proof.
  destruct (decide (k = k1)) as [->|H1]; [by rewrite lookup_insert_eq|]. rewrite lookup_insert_ne by done.
  destruct (decide (k = k2)) as [->|H2]; [by rewrite lookup_singleton_eq|]. by rewrite lookup_singleton_ne.
Qed.

Lemma held_state_in_order :
  cells_in_order (ENV := world_env) SwiftGuestGVK "gpu" "inference" (rst_world held_state).
Proof.
  assert (wd_objects (rst_world held_state)
          = {[ ex_held_key := ex_held_guest;
               (SwiftGuestGVK, "gpu", "inference-0") := ex_guest_object "inference-0" ex_joining_outer ]}) as Ew
    by by_vm.
  intros n. unfold gone, there.
  change (get_object SwiftGuestGVK "gpu" n (rst_world held_state))
    with (mem_get SwiftGuestGVK "gpu" n (wd_objects (rst_world held_state))).
  rewrite Ew. unfold mem_get. rewrite get_in_two.
  case_decide as H1; [|case_decide as H2; [|by left]]; right.
  - injection H1 as ->. exists ex_held_guest. split; [done|]. intros _. split; [|done].
    exists 1. split; by_vm.
  - injection H2 as ->. exists (ex_guest_object "inference-0" ex_joining_outer). split; [done|]. intros _.
    split; [|done]. exists 0. split; by_vm.
Qed.

Lemma nothing_stored gvk ns n (w : World) : wd_objects w = ∅ -> gone gvk ns n w.
Proof. intros E. unfold gone. simpl. rewrite E. unfold mem_get. by rewrite lookup_empty. Qed.

(** The state between the two passes. *)
Definition first_result : result RError Result * (RState World unit * list Call) :=
  Reconcile (ENV := world_env) "gpu" "inference" held_state.
Definition between : RState World unit := mkRState (allocation_released (rst_world first_result.2.1)) ∅.
Definition between_pool : GPUCellPool :=
  match read_pool "gpu" "inference" (rst_world between) with Ok p => p | Err _ => ex_pool end.

Lemma nothing_between : others_let_go (ENV := world_env) SwiftGuestGVK "gpu" (rst_world first_result.2.1) (rst_world between).
Proof.
  assert (wd_objects (rst_world between) = ∅) as E by by_vm.
  intros n. left. exact (nothing_stored _ _ _ _ E).
Qed.

Lemma deletion_completes_witness :
  let w := rst_world (final (Reconcile (ENV := world_env) "gpu" "inference") between) in
  (~ cell_stored SwiftGuestGVK "gpu" "inference" w)
  /\ forall p, stored "gpu" "inference" w = Some p -> FinalizerPool ∉ pool_Finalizers p.
Proof.
  refine (proj2 (deletion_completes (ENV := world_env) SwiftGuestProvisioner SwiftGuestGVK (fun _ => True)
            (or_introl eq_refl) "gpu" "inference" ex_late_pool between_pool
            (900 * Minute) held_state between (mkResult requeueProgressing) (mkResult 0)
            _ _ _ _ _ _ _ held_state_in_order _ nothing_between _ _ _ _ _)).
  - by_vm.
  - reflexivity.
  - reflexivity.
  - reflexivity.
  - right. split_and!; [reflexivity|done|vm_compute; reflexivity].
  - intros c Hc. by apply elem_of_nil in Hc.
  - done.
  - by_vm.
  - by_vm.
  - by_vm.
  - transitivity (provisioner (W := World) ex_late_pool); [apply provisioner_spec; by_vm|reflexivity].
  - by_vm.
  - by_vm.
Defined.

(** The pass itself leaves the held guest: the second pass has to wait for the others. *)
Example held_guest_waits : guests_left (rst_world first_result.2.1) = ["inference-1"].
Proof. by_vm. Qed.

(** A removal calls Delete once and drops its answer, which says that the guest is still
    going; a guest that is gone is not listed again, so the second call, the one that deletes the
    seed profile ([SwiftGuest_teardown]), is never made while the pool lives. A pool scaled
    to zero keeps the seed profile of the cell it drained. *)
Definition emptied_pool : GPUCellPool :=
  let spec := {| ex_spec with spec_Replicas := 0 |} in
  let status := {| ex_status with st_Cells := [ex_draining_row] |} in
  {| ex_pool with pool_Spec := spec; pool_Status := status |}.
Definition emptied_world : World := pass (pass (rst_world (ex_idle_cluster emptied_pool))).

Example drained_cell_leaves_its_seed :
  map fst (map_to_list (wd_objects emptied_world)) = [(SwiftSeedProfileGVK, "gpu", "inference-0-seed")]
  /\ match read_pool "gpu" "inference" emptied_world with Ok p => st_Replicas (pool_Status p) = 0 | Err _ => False end.
Proof. split; [by_vm|vm_compute; reflexivity]. Qed.
