(* ===== verification/AtRest.v ===== *)
(** * A pool at rest

    What the loop does not do. A pool of its size whose cells are all current and none of
    them failed or leaving is left alone; and a rolling update takes a pool that is at
    rest but for its template, and gives up one of its cells. *)

From S2P Require Import Prelude GoStd Api KubeApi Provider Workload Provisioner Fsm Membership.
From S2P Require Import Scaling Rollout Helpers Status Inventory CellId HamiProvider Bootstrap.
From S2P Require Import CellRow Metrics Reconciler ExampleWorld Controller ControllerSafety ControllerSpec.
From S2P Require Import ControllerOutage.
Local Open Scope Z_scope.
Local Open Scope go_scope.

(** ** The decisions *)

(** A cell that is up or on its way, built from the template of the pool or of a time
    when the template was not recorded. *)
Definition staying (hash : string) (c : CellStatus) : Prop :=
  drainable c = true /\ (cs_TemplateHash c = "" \/ cs_TemplateHash c = hash).

Lemma drainable_phase c :
  drainable c = true <->
  cs_Phase c <> CellPhaseDraining /\ cs_Phase c <> CellPhaseDeleting /\ cs_Phase c <> CellPhaseFailed.
Proof.
  unfold drainable. rewrite bool_decide_eq_true, !not_elem_of_cons. pose proof (not_elem_of_nil (cs_Phase c)). tauto.
Qed.

Lemma drainable_live c : drainable c = true -> is_live c = true /\ is_failed c = false.
Proof.
  intros (H1 & H2 & H3)%drainable_phase. unfold is_live, is_failed.
  split; [|by apply bool_decide_eq_false]. by destruct (cs_Phase c).
Qed.

Lemma all_live cells :
  (forall c, c ∈ cells -> drainable c = true) -> live_count cells = len cells /\ List.filter is_failed cells = [].
Proof.
  unfold live_count. induction cells as [|c cells IH]; intros H; [done|]. cbn [List.filter].
  destruct (drainable_live c) as [-> ->]; [apply H; left|].
  destruct IH as [IH ->]; [intros; apply H; by right|]. by rewrite !len_cons, IH.
Qed.

(** A pool of its size with no failed cell has nothing to plan. *)
Lemma PlanMembership_at_rest inp :
  (forall c, c ∈ mi_Cells inp -> drainable c = true) ->
  len (mi_Cells inp) <= MaxInt32 -> mi_Desired inp = len (mi_Cells inp) ->
  PlanMembership inp = zeroPlan.
Proof.
  intros Hd Hl He. destruct (all_live _ Hd) as [Hlive Hfail].
  unfold PlanMembership. rewrite tally_spec by done. cbn [tl_live tl_failed]. rewrite Hlive, Hfail, He.
  rewrite Z.ltb_irrefl. cbn [replace_loop]. by rewrite Z.leb_refl.
Qed.

(** Without autoscaling the size is the one asked for, and nothing is recorded. *)
Lemma DecideScale_fixed inp :
  match si_Autoscaling inp with Some a => as_Enabled a = false | None => True end ->
  DecideScale inp = mkScaleDecision (si_Replicas inp) false false [] ReasonIdle "".
Proof. unfold DecideScale. destruct (si_Autoscaling inp) as [a|]; [by intros ->|done]. Qed.

Lemma stale_cell_differs hash c :
  stale_cell hash c = true -> cs_TemplateHash c <> "" /\ cs_TemplateHash c <> hash.
Proof. unfold stale_cell. destruct (cs_Phase c); intros H; guards; try done; naive_solver. Qed.

Lemma PlanRollout_at_rest inp :
  (forall c, c ∈ ri_Cells inp -> staying (ri_DesiredHash inp) c) -> rd_Drain (PlanRollout inp) = "".
Proof.
  intros H. unfold PlanRollout. replace (staleCells (ri_Cells inp) (ri_DesiredHash inp)) with (@nil string); [done|].
  unfold staleCells. induction (ri_Cells inp) as [|c cells IH]; [done|]. cbn [List.filter].
  assert (stale_cell (ri_DesiredHash inp) c = false) as ->.
  { destruct (H c ltac:(left)) as [_ Hh]. unfold stale_cell.
    assert ((cs_TemplateHash c != "") && (cs_TemplateHash c != ri_DesiredHash inp) = false) as ->
      by (destruct Hh as [-> | ->]; [done|rewrite andb_comm; by rewrite bool_decide_eq_true_2]).
    by destruct (cs_Phase c). }
  apply IH. intros; apply H. by right.
Qed.

(** ** The pass *)

Section rest.
Context `{ENV : Environment W Client Config}.
Implicit Types (pool : GPUCellPool) (prov : ProvisionerOps W).

Definition template_of pool : string := TemplateHash [cell_GuestTemplate (spec_Cell (pool_Spec pool))].

(** The pool has its size, and every cell stays. *)
Record at_rest pool (cells : list CellStatus) : Prop := {
  ar_fixed : autoscalingEnabled pool = false;
  ar_size : spec_Replicas (pool_Spec pool) = len cells;
  ar_width : len cells <= MaxInt32;
  ar_staying : forall c, c ∈ cells -> staying (template_of pool) c
}.

(** What a pass does beside its rediscovery: it counts, and publishes the rows it found. *)
Definition publishes (cells : list CellStatus) (c : Call) : Prop :=
  match c with
  | CallMetric _ => True
  | CallUpdateStatus st => st_Cells st = cells
  | _ => False
  end.

Lemma metric_publishes cells u : Forall (publishes cells) [CallMetric u].
Proof. by repeat constructor. Qed.
Hint Resolve metric_publishes : holds.

Lemma learn_shape_spec pool sn t : pool_Spec (learn_shape pool sn t) = pool_Spec pool.
Proof. unfold learn_shape. by destruct (RememberShape _ _). Qed.

Lemma record_scale_spec pool sn scale :
  ensures (fun p => pool_Spec p = pool_Spec pool) (record_scale pool sn scale).
Proof. unfold record_scale. repeat (apply ensures_bind; intros ?). by apply ensures_ret. Qed.

(** The stamps of a pass are those of the sequences of reconciles in Scaling. *)
Definition scale_memory (st : GPUCellPoolStatus) : ScaleMemory :=
  mkScaleMemory (st_LastScaleUpTime st) (st_LastScaleDownTime st) (st_DemandFreeSince st).

Lemma record_scale_remembers pool sn scale :
  ensures (fun p => exists t0 t1 t2,
             scale_memory (pool_Status p)
             = remember_scale scale (sn_Demand sn) (sn_DemandKnown sn) t0 t1 t2 (scale_memory (pool_Status pool)))
    (record_scale pool sn scale).
Proof.
  unfold record_scale. apply ensures_bind. intros _. cbv zeta.
  apply (ensures_step (fun free => exists t0, free =
    sm_DemandFreeSince (remember_scale (mkScaleDecision 0 false false [] "" "") (sn_Demand sn) (sn_DemandKnown sn) t0 0 0
                          (scale_memory (pool_Status pool))))).
  { unfold demand_free, remember_scale, scale_memory. cbn -[andb].
    destruct (sn_DemandKnown sn); cbn -[andb]; [|by apply ensures_ret; exists 0].
    destruct (_ && _); cbn; [|by apply ensures_ret; exists 0].
    destruct (st_DemandFreeSince _) as [t|]; cbn; [by apply ensures_ret; exists 0|].
    apply ensures_bind. intros t. apply ensures_ret. by exists t. }
  intros free [t0 ->].
  set (st := pool_Status pool).
  set (st1 := {| st with st_DemandFreeSince := _ |}).
  apply (ensures_step (fun st2 => exists t1,
    st2 = if sd_ScaledUp scale then {| st1 with st_LastScaleUpTime := Some t1 |} else st1)).
  { destruct (sd_ScaledUp scale); [|apply ensures_ret; by exists 0].
    apply ensures_bind. intros t. apply ensures_bind. intros _. apply ensures_ret. by exists t. }
  intros st2 [t1 ->].
  match goal with |- ensures _ (mbind _ ?m) => set (st3 := m) end. subst st3.
  apply (ensures_step (fun st3 => exists t2,
    st3 = let st2 := if sd_ScaledUp scale then {| st1 with st_LastScaleUpTime := Some t1 |} else st1 in
          if sd_ScaledDown scale then {| st2 with st_LastScaleDownTime := Some t2 |} else st2)).
  { destruct (sd_ScaledDown scale); [|apply ensures_ret; by exists 0].
    apply ensures_bind. intros t. apply ensures_bind. intros _. apply ensures_ret. by exists t. }
  intros st3 [t2 ->]. apply ensures_ret. exists t0, t1, t2. simpl.
  unfold st1, remember_scale, scale_memory. simpl.
  destruct (sd_ScaledUp scale), (sd_ScaledDown scale), (sn_DemandKnown sn); simpl; try done;
    destruct (_ && _); simpl; try done; by destruct (st_DemandFreeSince _).
Qed.

(** A decision that changes nothing makes no event. *)
Lemma record_scale_quiet pool sn scale cells :
  sd_ScaledUp scale = false -> sd_ScaledDown scale = false ->
  holds (Forall (publishes cells)) (record_scale pool sn scale).
Proof. intros Hu Hd. unfold record_scale. rewrite Hu, Hd. compose. Qed.

Lemma writeStatus_rows pool cells plan scale rollout sn free reachable reason msg :
  ensures (fun p => st_Cells (pool_Status p) = cells)
    (writeStatus pool cells plan scale rollout sn free reachable reason msg).
Proof. unfold writeStatus. repeat (apply ensures_bind; intros ?). by apply ensures_ret. Qed.

Lemma writeStatus_quiet pool cells plan scale rollout sn free reachable reason msg rows :
  holds (Forall (publishes rows)) (writeStatus pool cells plan scale rollout sn free reachable reason msg).
Proof. unfold writeStatus. compose. Qed.

(** No failed row is replaced, no cell that stays is drained. *)
Lemma replace_cells_none pool prov usable cells rows :
  (forall c, c ∈ cells -> drainable c = true) ->
  holds (Forall (publishes rows)) (replace_cells pool prov usable cells).
Proof.
  intros Hd. apply holds_each; [apply _|]. intros c Hc. apply holds_bind; [apply _|compose|intros t].
  destruct (ShouldReplace c t usable) eqn:E; [|compose]. exfalso.
  apply ShouldReplace_iff in E as (Hf & _). apply Hd, drainable_phase in Hc. tauto.
Qed.

Lemma drain_cells_none pool prov cl cells :
  (forall c, c ∈ cells -> drainable c = true) -> drain_cells pool prov cl cells = mret cells.
Proof.
  unfold drain_cells. intros Hd. induction cells as [|c cells IH]; [done|]. cbn [each_map].
  rewrite bool_decide_eq_false_2 by (apply (drainable_phase c), Hd; left). cbn [negb].
  rewrite IH by (intros; apply Hd; by right). done.
Qed.

Lemma mark_rollout_none d cells : rd_Drain d = "" -> mark_rollout d cells = mret cells.
Proof. intros E. unfold mark_rollout. by rewrite E. Qed.

(** The pass from the plan on. *)
Lemma rest_of_pass pool prov cl cells sn free idle usable reachable reason msg t p :
  at_rest pool cells -> pool_Spec p = pool_Spec pool ->
  let scale := mkScaleDecision (spec_Replicas (pool_Spec pool)) false false [] ReasonIdle "" in
  let plan := PlanMembership (membership_input p cells scale free reachable usable t) in
  let rest : M W Client Result :=
    create_cells p prov (mp_Create plan);;
    cells ← (if 0 <? len (mp_Create plan) then discoverCells p prov cl else mret cells);
    cells ← mark_drains (mp_Drain plan) cells;
    replace_cells p prov usable cells;;
    let rollout := PlanRollout (rollout_input p cells idle reachable scale plan) in
    cells ← mark_rollout rollout cells;
    cells ← drain_cells p prov cl cells;
    p ← writeStatus p cells plan scale rollout sn free reachable reason msg;
    _ ← call (update_pool_status p) (fun _ => CallUpdateStatus (pool_Status p)) (RAPI "updating status");
    mret (mkResult (requeue_after cells plan)) in
  holds (Forall (publishes cells)) rest
  /\ ensures (fun r => RequeueAfter r = if 0 <? n_creating (CountCells cells) then requeueProgressing else requeueSteady)
       rest.
Proof.
  intros [_ Hsize Hw Hstay] Hp. cbv zeta.
  assert (forall c, c ∈ cells -> drainable c = true) as Hd by (intros c Hc; apply (Hstay c Hc)).
  rewrite PlanMembership_at_rest by done. cbn [mp_Create mp_Drain zeroPlan create_cells each mark_drains].
  change (0 <? len (@nil int32)) with false. cbv iota.
  assert (forall plan, rd_Drain (PlanRollout (rollout_input p cells idle reachable
            (mkScaleDecision (spec_Replicas (pool_Spec pool)) false false [] ReasonIdle "") plan)) = "") as Hr.
  { intros plan. apply PlanRollout_at_rest. intros c Hc. cbn. rewrite Hp. by apply Hstay. }
  assert (n_draining (CountCells cells) = 0) as Hdr.
  { unfold CountCells. assert (forall n, n_draining n = 0 -> n_draining (foldl count_phase n cells) = 0) as Hf; [|by apply Hf].
    clear -Hd. induction cells as [|c cells IH]; intros n Hn; [done|]. cbn [foldl]. apply IH; [intros; apply Hd; by right|].
    destruct (proj1 (drainable_phase c) (Hd c ltac:(left))) as (? & ? & _). unfold count_phase. by destruct (cs_Phase c). }
  split.
  - apply holds_bind; [apply _|compose|intros _]. apply holds_step with (R := eq cells); [apply _|compose|by apply ensures_ret|].
    intros ? <-. apply holds_step with (R := eq cells); [apply _|compose|by apply ensures_ret|]. intros ? <-.
    apply holds_bind; [apply _|by apply replace_cells_none|intros _]. rewrite mark_rollout_none by apply Hr.
    apply holds_step with (R := eq cells); [apply _|compose|by apply ensures_ret|]. intros ? <-.
    rewrite drain_cells_none by done.
    apply holds_step with (R := eq cells); [apply _|compose|by apply ensures_ret|]. intros ? <-.
    eapply holds_step; [apply _|apply writeStatus_quiet|apply writeStatus_rows|]. intros q Hq.
    apply holds_bind; [apply _| |compose]. apply holds_call; [apply _|]. intros _. by repeat constructor.
  - apply ensures_bind. intros _. apply ensures_step with (R := eq cells); [by apply ensures_ret|]. intros ? <-.
    apply ensures_step with (R := eq cells); [by apply ensures_ret|]. intros ? <-. apply ensures_bind. intros _.
    rewrite mark_rollout_none by apply Hr. apply ensures_step with (R := eq cells); [by apply ensures_ret|]. intros ? <-.
    rewrite drain_cells_none by done. apply ensures_step with (R := eq cells); [by apply ensures_ret|]. intros ? <-.
    apply ensures_bind. intros q. apply ensures_bind. intros ?. apply ensures_ret. cbn [RequeueAfter].
    unfold requeue_after. rewrite Hdr. cbn. by rewrite !orb_false_r.
Qed.

(** C18. A pool of fixed size is left alone at rest. When it is not autoscaled, its cells are
    as many as asked for, and each is up or on its way and built from the current template, a
    pass does nothing beyond rediscovering them: it counts and publishes the rows it found,
    and comes back early only while a cell is on its way. *)
Theorem pool_at_rest_left_alone pool prov s cl reason msg cells :
  value (workloadClient pool) s = Ok (cl, reason, msg) ->
  let s1 := final (workloadClient pool) s in
  value (discoverCells pool prov cl) s1 = Ok cells -> at_rest pool cells ->
  (exists rest, log (reconcilePool pool prov) s = log (discoverCells pool prov cl) s1 ++ rest
           /\ Forall (publishes cells) rest)
  /\ forall r, value (reconcilePool pool prov) s = Ok r ->
       RequeueAfter r = if 0 <? n_creating (CountCells cells) then requeueProgressing else requeueSteady.
Proof.
  intros Hc s1 Hv Hrest. unfold reconcilePool. rewrite log_bind, value_bind, Hc.
  destruct (workloadClient_silent pool s) as (_ & -> & _). cbn [app]. fold s1. cbv zeta.
  rewrite log_bind, value_bind, Hv.
  match goal with |- context [log ?m (final (discoverCells pool prov cl) s1)] =>
    assert (holds (Forall (publishes cells)) m
            /\ ensures (fun r => RequeueAfter r = if 0 <? n_creating (CountCells cells)
                                            then requeueProgressing else requeueSteady) m) as [Hl He] end.
  2: { split; [|apply He]. eexists. split; [reflexivity|apply Hl]. }
  assert (autoscalingEnabled pool = false) as Ha by apply Hrest.
  assert (forall i sn free t0 t, DecideScale (scale_input (learn_shape pool sn t0) cells sn free i t)
            = mkScaleDecision (spec_Replicas (pool_Spec pool)) false false [] ReasonIdle "") as Hscale.
  { intros. rewrite DecideScale_fixed; [by cbn; rewrite learn_shape_spec|]. cbn. rewrite learn_shape_spec.
    unfold autoscalingEnabled in Ha. by destruct (spec_Autoscaling (pool_Spec pool)). }
  split.
  - do 7 (apply holds_bind; [apply _|compose|intros ?; cbv zeta]).
    rewrite Hscale. eapply holds_step; [apply _|by apply record_scale_quiet|apply record_scale_spec|]. intros p Hp.
    rewrite learn_shape_spec in Hp. apply holds_bind; [apply _|compose|intros t].
    exact (proj1 (rest_of_pass pool prov cl cells _ _ _ _ _ _ _ t p Hrest Hp)).
  - do 7 (apply ensures_bind; intros ?; cbv zeta).
    rewrite Hscale. eapply ensures_step; [apply record_scale_spec|]. intros p Hp.
    rewrite learn_shape_spec in Hp. apply ensures_bind. intros t.
    exact (proj2 (rest_of_pass pool prov cl cells _ _ _ _ _ _ _ t p Hrest Hp)).
Qed.

(** ** Rolling updates *)

(** Marking a name that one row has moves that row only. *)
Lemma markDraining_one t l c r :
  NoDup (map cs_Name (l ++ c :: r)) ->
  markDraining t (cs_Name c) (l ++ c :: r)
  = l ++ {| c with cs_Phase := CellPhaseDraining; cs_LastTransitionTime := Some t |} :: r.
Proof.
  intros Hn. unfold markDraining. rewrite map_app. cbn [map]. rewrite bool_decide_eq_true_2 by done.
  rewrite map_app in Hn. apply NoDup_app in Hn as (_ & Hl & [Hr _]%NoDup_cons).
  assert (forall k, (cs_Name c ∉ map cs_Name k) ->
            map (fun x => if cs_Name x == cs_Name c
                          then {| x with cs_Phase := CellPhaseDraining; cs_LastTransitionTime := Some t |}
                          else x) k = k) as Hk.
  { induction k as [|x k IH]; intros Hx; [done|]. cbn [map] in *. apply not_elem_of_cons in Hx as [Hx Hk].
    rewrite bool_decide_eq_false_2 by congruence. by rewrite IH. }
  rewrite !Hk; [done| |].
  - done.
  - intros Hx. apply (Hl _ Hx). left.
Qed.

(** C21. A rolling update gives up one cell at a time. It starts only on a pool that has its
    size, in which no cell is coming or going and whose workload cluster answers; it then takes
    exactly one row into Draining, one built from an older template that was read as idle,
    and every other row stays as it is. *)
Theorem rolling_update_one_at_a_time pool cells idle reachable scale plan s cells' :
  let d := PlanRollout (rollout_input pool cells idle reachable scale plan) in
  (forall c, c ∈ cells -> cs_Name c <> "") -> NoDup (map cs_Name cells) ->
  rd_Drain d <> "" -> value (mark_rollout d cells) s = Ok cells' ->
  (exists p, spec_UpdatePolicy (pool_Spec pool) = Some p /\ up_Type p = UpdateRolling)
  /\ reachable = true /\ liveCells cells = sd_Desired scale /\ mp_Create plan = []
  /\ (forall c, c ∈ cells -> settled c)
  /\ exists l c r t,
       cells = l ++ c :: r
       /\ cells' = l ++ {| c with cs_Phase := CellPhaseDraining; cs_LastTransitionTime := Some t |} :: r
       /\ cs_Name c ∈ idle /\ cs_TemplateHash c <> "" /\ cs_TemplateHash c <> template_of pool.
Proof.
  cbv zeta. set (inp := rollout_input _ _ _ _ _ _). intros Hne Hnd Hd.
  destruct (proj1 (PlanRollout_drain inp (rd_Drain (PlanRollout inp)) Hne Hd) eq_refl)
    as (Hp & Hr & Hsz & Hset & Hf).
  unfold mark_rollout. rewrite bool_decide_eq_false_2 by done. cbn [negb].
  rewrite value_bind, value_now, value_bind.
  assert (forall k reason m s0, value (event (ENV := ENV) k reason m) s0 = Ok tt) as Hev
    by (intros; unfold event; by destruct HasRecorder).
  rewrite Hev. intros [= <-].
  apply first_idle_Some in Hf as [Hst Hid]. unfold staleCells in Hst.
  apply elem_of_map_b in Hst as (c & En & Hc). apply elem_of_filter_b in Hc as [Hc Hs].
  cbn in Hsz. apply andb_true_iff in Hsz as [Hl Hcr]. apply Z.eqb_eq in Hl, Hcr. apply len_zero in Hcr.
  split_and!; [done..|]. apply list_elem_of_split in Hc as (l & r & E). cbn in E.
  eexists l, c, r, _. rewrite En. rewrite En in Hid. split_and!; [exact E| |exact Hid| |].
  - rewrite E in Hnd |- *. by apply markDraining_one.
  - intros Eh. apply stale_cell_differs in Hs. tauto.
  - apply stale_cell_differs in Hs. cbn in Hs. tauto.
Qed.
End rest.

(** ** Witnesses *)

#[export] Instance staying_dec hash c : stdpp.base.Decision (staying hash c).
Proof. unfold staying. apply _. Defined.

(** Two guests whose Nodes have registered. *)
Definition resting : RState World unit :=
  ex_cluster ex_pool {[ "inference-0" := ex_joining_outer; "inference-1" := ex_joining_outer ]}
    (mkMemCluster {[ "inference-0" := mkNode "inference-0" ∅ ∅ [] false [];
                     "inference-1" := mkNode "inference-1" ∅ ∅ [] false [] ]} ∅ []) true.
Definition resting_client : RState World unit := final (workloadClient (ENV := world_env) ex_pool) resting.
Definition resting_rows : list CellStatus := Eval vm_compute in
  match value (discoverCells ex_pool ex_provisioner (Some tt)) resting_client with Ok c => c | Err _ => [] end.

Lemma resting_at_rest : at_rest ex_pool resting_rows.
Proof.
  split; [reflexivity|by_vm|vm_compute; discriminate|].
  apply Forall_forall, (bool_decide_unpack _). vm_compute. exact I.
Qed.

Lemma pool_at_rest_left_alone_witness :
  len resting_rows = 2
  /\ exists rest, log (reconcilePool ex_pool ex_provisioner) resting
             = log (discoverCells ex_pool ex_provisioner (Some tt)) resting_client ++ rest
             /\ Forall (publishes resting_rows) rest.
Proof.
  split; [by_vm|].
  refine (proj1 (pool_at_rest_left_alone (ENV := world_env) ex_pool ex_provisioner resting (Some tt) ReasonConnected ""
                   resting_rows _ _ resting_at_rest)).
  - by_vm.
  - by_vm.
Defined.

(** Three Ready cells, the last two of an older template and the last one idle. *)
Definition ex_rolling_pool : GPUCellPool :=
  let spec := {| ex_spec with spec_Replicas := 3; spec_UpdatePolicy := Some (mkUpdatePolicySpec UpdateRolling) |} in
  {| ex_pool with pool_Spec := spec |}.
Definition ex_rolling_rows : list CellStatus :=
  [ex_ready "inference-0" (template_of ex_rolling_pool); ex_ready "inference-1" "old"; ex_ready "inference-2" "old"].
Definition ex_fixed_size : ScaleDecision := mkScaleDecision 3 false false [] ReasonIdle "".

Lemma rolling_update_one_at_a_time_witness :
  let d := PlanRollout (rollout_input ex_rolling_pool ex_rolling_rows ["inference-2"] true ex_fixed_size zeroPlan) in
  exists cells', value (mark_rollout (ENV := world_env) d ex_rolling_rows) resting = Ok cells'
  /\ map cs_Phase cells' = [CellPhaseReady; CellPhaseReady; CellPhaseDraining]
  /\ exists l c r t,
       ex_rolling_rows = l ++ c :: r
       /\ cells' = l ++ {| c with cs_Phase := CellPhaseDraining; cs_LastTransitionTime := Some t |} :: r
       /\ cs_Name c ∈ ["inference-2"] /\ cs_TemplateHash c <> "" /\ cs_TemplateHash c <> template_of ex_rolling_pool.
Proof.
  intros d. eexists. split; [vm_compute; reflexivity|]. split; [reflexivity|].
  refine (proj2 (proj2 (proj2 (proj2 (proj2 (rolling_update_one_at_a_time (ENV := world_env) ex_rolling_pool ex_rolling_rows
            ["inference-2"] true ex_fixed_size zeroPlan resting _ _ _ _ _)))))).
  - intros c Hc. repeat (apply elem_of_cons in Hc as [->|Hc]; [done|]). by apply elem_of_nil in Hc.
  - apply (bool_decide_unpack _). vm_compute. exact I.
  - vm_compute. discriminate.
  - vm_compute. reflexivity.
Defined.
