(* ===== verification/Standing.v ===== *)
(** * What a pass ensures stands

    A cell the loop has ensured is there, with its drain finalizer, when the pass is over.
    [Founding] is what the loop needs of a provisioner for this; both implement it. *)

From S2P Require Import Prelude GoStd Api KubeApi Provider Workload Provisioner Fsm Membership.
From S2P Require Import Unstructured Template CellObjects SwiftGuest ClusterApi.
From S2P Require Import Scaling Rollout Helpers Status Inventory CellId HamiProvider Bootstrap.
From S2P Require Import CellRow Metrics Reconciler ExampleWorld Controller ControllerSafety ControllerSpec.
From S2P Require Import Stable CellGuard Deletion.
Local Open Scope Z_scope.
Local Open Scope go_scope.

(** ** Provisioners found cells *)

Section founding.
Context {W : Type} `{InfraCluster W}.

(** The object of the cell, if it is there, carries the drain finalizer. *)
Definition bearing (gvk : GVK) (ns cell : string) (w : W) : Prop :=
  forall o, there gvk ns cell w o -> FinalizerCellDrain ∈ u_Finalizers o.

Lemma guarded_bearing gvk ns cell w : guarded gvk ns cell w -> bearing gvk ns cell w.
Proof. intros (o & Ho & Hf) o' Ho'. assert (o' = o) as -> by (unfold there in *; congruence). done. Qed.

Lemma bearing_there gvk ns cell w o : bearing gvk ns cell w -> there gvk ns cell w o -> guarded gvk ns cell w.
Proof. intros Hb Ho. exists o. auto. Qed.

Lemma bearing_frame gvk ns cell w w' :
  get_object gvk ns cell w' = get_object gvk ns cell w -> bearing gvk ns cell w -> bearing gvk ns cell w'.
Proof. unfold bearing, there. by intros ->. Qed.

Class Founding (prov : ProvisionerOps W) (gvk : GVK) (fit : CellRequest -> Prop) : Prop := {
  fd_ensure : forall req w st w', fit req -> p_Ensure prov req w = (Ok st, w') ->
    (exists o, there gvk (cr_Namespace req) (cr_CellName req) w' o)
    /\ forall ns cell, bearing gvk ns cell w -> bearing gvk ns cell w';
  fd_delete : forall req w b w' ns cell, fit req ->
    p_Delete prov req w = (Ok b, w') -> bearing gvk ns cell w -> bearing gvk ns cell w';
  fd_clear : forall clear req w w' ns cell, p_ClearDrainFinalizer prov = Some clear ->
    cr_CellName req <> cell -> clear req w = (Ok tt, w') ->
    bearing gvk ns cell w -> bearing gvk ns cell w'
}.

(** Sequences that return keep it when their parts do. *)
Definition bears {A} (gvk : GVK) (ns cell : string) (m : PM W A) : Prop :=
  forall w a w', m w = (Ok a, w') -> bearing gvk ns cell w -> bearing gvk ns cell w'.

Lemma bears_ret {A} gvk ns cell (a : A) : bears gvk ns cell (mret a).
Proof. by intros w b w' [= _ <-]. Qed.
Lemma bears_fail {A} gvk ns cell e : bears gvk ns cell (@pfail W A e).
Proof. by intros w b w' [=]. Qed.
Lemma bears_ask {A} gvk ns cell (f : W -> A) : bears gvk ns cell (pask f).
Proof. by intros w b w' [= _ <-]. Qed.
Lemma bears_lift {E A} gvk ns cell wrap (r : result E A) : bears gvk ns cell (@plift W E A wrap r).
Proof. intros w b w'. destruct r; by intros [= _ <-]. Qed.
Lemma bears_bind {A B} gvk ns cell (m : PM W A) (f : A -> PM W B) :
  bears gvk ns cell m -> (forall a, bears gvk ns cell (f a)) -> bears gvk ns cell (m ≫= f).
Proof. intros Hm Hf w b w' (a & w1 & H1 & H2)%PM_bind_ok Hb. eapply Hf; [done|]. by eapply Hm. Qed.
Lemma bears_wrap {A} gvk ns cell c (m : PM W A) : bears gvk ns cell m -> bears gvk ns cell (pwrap c m).
Proof. intros Hm w b w' Hr%pwrap_ok. by eapply Hm. Qed.
Lemma bears_get_or {A} gvk ns cell gvk' ns' n' c (f : UObject -> PM W A) g :
  (forall o, bears gvk ns cell (f o)) -> bears gvk ns cell g -> bears gvk ns cell (get_or gvk' ns' n' c f g).
Proof. intros Hf Hg w b w' [(o & _ & Hr)|[_ Hr]]%get_or_ok; [by eapply Hf|by eapply Hg]. Qed.

Context `{!InfraLaws W}.

(** Of the objects made, those of the kind carry the finalizer. *)
Lemma bears_create gvk ns cell o :
  (u_GVK o = gvk -> FinalizerCellDrain ∈ u_Finalizers o) -> bears gvk ns cell (create o).
Proof.
  intros Ho w o' w' Hc Hb x Hx. destruct (create_ok _ _ _ _ Hc) as (Ht & (_ & _ & _ & _ & Hf) & _).
  destruct (decide ((u_GVK o, u_Namespace o, u_Name o) = (gvk, ns, cell))) as [[= Eg En Ec]|Hne].
  - rewrite Eg, En, Ec in Ht. assert (x = o') as -> by (unfold there in *; congruence). rewrite Hf. by apply Ho.
  - apply Hb. unfold there in *. rewrite <- Hx. symmetry.
    apply (create_frame _ _ _ _ _ _ _ Hc). intros (? & ? & ?). apply Hne. by f_equal; [f_equal|].
Qed.

(** A deletion spares what bears the finalizer. *)
Lemma bears_delete gvk ns cell gvk' ns' n' c w w' :
  (forall e, get_object gvk' ns' n' w = Err e -> e = NotFound) ->
  delete_ignoring_absent gvk' ns' n' c w = (Ok tt, w') -> bearing gvk ns cell w -> bearing gvk ns cell w'.
Proof.
  intros Hr Hd Hb. destruct (decide ((gvk, ns, cell) = (gvk', ns', n'))) as [[= -> -> ->]|Hne].
  2: { apply (bearing_frame _ _ _ w); [|done]. apply (delete_frame _ _ _ _ _ _ _ _ _ _ Hd). naive_solver. }
  destruct (get_object gvk' ns' n' w) as [o|e] eqn:E.
  - assert (FinalizerCellDrain ∈ u_Finalizers o) as Hf by by apply Hb.
    assert (u_Finalizers o <> []) as Hn by (intros E'; by rewrite E', elem_of_nil in Hf).
    destruct (delete_held _ _ _ _ _ _ _ _ E Hn Hd) as (o' & Ho' & Ef). intros x Hx.
    assert (x = o') as -> by (unfold there in *; congruence). by rewrite Ef.
  - rewrite (Hr e eq_refl) in E. apply (delete_gone _ _ _ _ _ _ _ E) in Hd. intros x Hx.
    unfold there, gone in *. congruence.
Qed.
End founding.

#[export] Hint Resolve bears_ret bears_fail bears_ask bears_lift bears_wrap : guard_pm.

Section implementations.
Context {W : Type} `{InfraCluster W} `{!InfraLaws W} `{Nested}.

Lemma bears_ask_deletion {A} gvk ns cell ns' n' c1 c2 (a b : A) absent (w w' : W) :
  (forall b w', absent w = (Ok b, w') -> get_object gvk ns cell w' = get_object gvk ns cell w) ->
  ask_deletion gvk ns' n' c1 c2 a absent w = (Ok b, w') ->
  bearing gvk ns cell w -> bearing gvk ns cell w'.
Proof.
  intros Ha [(o & Ho & Hr)|[_ Hr]]%get_or_ok Hb; [|apply (bearing_frame _ _ _ w); [by eapply Ha|done]].
  destruct (PtrIsZero _); [|by injection Hr as _ <-].
  destruct (get_object_at _ _ _ _ _ Ho) as (_ & En & Ec). rewrite En, Ec in Hr.
  apply PM_bind_ok in Hr as ([] & w1 & Hd & [= _ <-]).
  eapply bears_delete; [|done..]. intros e He. unfold there in Ho. congruence.
Qed.

Lemma SwiftGuest_Ensure_there req (w w' : W) st :
  SwiftGuest_Ensure req w = (Ok st, w') -> exists g, there SwiftGuestGVK (cr_Namespace req) (cr_CellName req) w' g.
Proof.
  intros ([] & w1 & _ & Hr)%PM_bind_ok. apply PM_bind_ok in Hr as (g & w2 & Hg%pwrap_ok & [= _ <-]).
  exists g. by apply ensureGuest_ok in Hg as [? _].
Qed.

#[export] Instance SwiftGuest_founding : Founding (W := W) SwiftGuestProvisioner SwiftGuestGVK (fun _ => True).
Proof.
  split; simpl.
  - intros req w st w' _ He. split.
    + destruct (SwiftGuest_Ensure_there req w w' st He) as (g & Hg). by exists g.
    + intros ns cell. revert w st w' He. apply bears_bind; [apply bears_wrap|intros _; apply bears_bind; [apply bears_wrap|eauto with guard_pm]].
      * apply bears_get_or; [eauto with guard_pm|]. apply bears_bind; [by apply bears_create|eauto with guard_pm].
      * apply bears_get_or; [eauto with guard_pm|]. apply bears_bind; [eauto with guard_pm|]. intros spec.
        apply bears_create. intros _. left.
  - intros req w b w' ns cell _ Hd. refine (bears_ask_deletion _ _ _ _ _ _ _ _ _ _ _ _ _ Hd).
    intros b' w1. apply seed_deletion_apart.
  - intros clear req w w' ns cell [= <-] Hne Hc. apply bearing_frame.
    apply (clear_frame _ _ _ _ _ _ _ _ _ _ Hc). naive_solver.
Qed.

#[export] Instance ClusterAPI_founding : Founding (W := W) ClusterAPIProvisioner MachineGVK config_apart.
Proof.
  split; simpl.
  - intros req w st w' Ha He. unfold ClusterAPI_Ensure in He. destruct (cr_ClusterAPI req) as [cfg|]; [|done].
    apply PM_bind_ok in He as (ref & w1 & H1%pwrap_ok & He). apply PM_bind_ok in He as ([] & w2 & H2%pwrap_ok & He).
    apply PM_bind_ok in He as (m & w3 & H3%pwrap_ok & Hobs). apply observeMachine_reads in Hobs as ->. split.
    + apply get_or_ok in H3 as [(o & Ho & [= -> ->])|[_ Hc]]; [by exists m|].
      exists m. exact (proj1 (create_ok _ _ _ _ Hc)).
    + intros ns cell Hb. assert (bearing MachineGVK ns cell w1) as Hb1.
      { refine (_ w ref w1 H1 Hb). change (bears MachineGVK ns cell (ensureBootstrapConfig req cfg)). unfold ensureBootstrapConfig. destruct (bootstrapTemplateRef req) as [tref|] eqn:Er; [|apply bears_ret].
        apply bears_get_or; [intros; apply bears_ret|]. apply bears_bind; [apply bears_ask|intros r].
        apply bears_bind; [apply bears_lift|intros tmpl]. destruct (NestedMap _ _); [|apply bears_fail].
        apply bears_bind; [|intros; apply bears_ret]. apply bears_create. intros E. by destruct (Ha tref Er). }
      assert (bearing MachineGVK ns cell w2) as Hb2.
      { refine (_ w1 tt w2 H2 Hb1). change (bears MachineGVK ns cell (ensureInfraMachine req cfg)).
        apply bears_get_or; [intros; apply bears_ret|]. apply bears_bind; [apply bears_lift|intros b].
        apply bears_bind; [by apply bears_create|intros; apply bears_ret]. }
      refine (_ w2 m w3 H3 Hb2). change (bears MachineGVK ns cell (ensureMachine req cfg ref)).
      apply bears_get_or; [intros; apply bears_ret|].
      apply bears_create. intros _. left.
  - intros req w b w' ns cell Ha Hd Hb. destruct (ClusterAPI_Delete_Machine _ _ _ _ Ha Hd) as ([b1|e] & w3 & Hk & Hok & F);
      [|by specialize (Hok eq_refl)].
    apply (bearing_frame _ _ _ w3); [apply F|]. refine (bears_ask_deletion _ _ _ _ _ _ _ _ _ _ _ _ _ Hk Hb).
    by intros b' w1 [= _ <-].
  - intros clear req w w' ns cell [= <-] Hne Hc. apply bearing_frame.
    apply (clear_frame _ _ _ _ _ _ _ _ _ _ Hc). naive_solver.
Qed.
End implementations.

(** ** The loop *)

Section loop.
Context `{ENV : Environment W Client Config} `{!CellFrame, !InfraLaws W}.
Context (prov : ProvisionerOps W) (gvk : GVK) (fit : CellRequest -> Prop).
Context `{FD : !Founding prov gvk fit} `{CG : !CellGuard prov gvk} (Hkind : cell_kind gvk).
Context (ns cell : string).
Implicit Types (pool : GPUCellPool) (cs : Client) (s : RState W Client).

Local Abbreviation clears := (clears_cell cell).
Local Abbreviation bearing := (bearing gvk ns cell).
Local Abbreviation guarded := (guarded gvk ns cell).

(** A computation that returns, and does not clear the cell's finalizer, keeps the cell
    guarded, and leaves it so if it has ensured it. *)
Definition stands {A} (m : M W Client A) : Prop :=
  forall s a, value m s = Ok a -> Forall (fun c => ~ clears c) (log m s) -> bearing (rst_world s) ->
    bearing (rst_world (final m s))
    /\ (guarded (rst_world s) \/ (exists r, CallEnsure cell r ∈ log m s) -> guarded (rst_world (final m s))).

Lemma stands_step {A B} (Q : A -> Prop) (m : M W Client A) (f : A -> M W Client B) :
  stands m -> ensures Q m -> (forall a, Q a -> stands (f a)) -> stands (m ≫= f).
Proof.
  intros Hm HQ Hf s b. rewrite value_bind, log_bind, final_bind. specialize (Hm s). specialize (HQ s).
  destruct (value m s) as [a|e]; [|done]. intros Hv [H1 H2]%Forall_app Hb.
  destruct (Hm a eq_refl H1 Hb) as [Hb1 Hg1]. destruct (Hf a (HQ a eq_refl) _ b Hv H2 Hb1) as [Hb2 Hg2].
  split; [done|]. intros [Hg|[x [Hc|Hc]%elem_of_app]]; apply Hg2; eauto.
Qed.

Lemma stands_bind {A B} (m : M W Client A) (f : A -> M W Client B) :
  stands m -> (forall a, stands (f a)) -> stands (m ≫= f).
Proof. intros Hm Hf. by apply (stands_step (fun _ => True)). Qed.

(** What makes no call on the cells leaves them as they are. *)
Lemma stands_off {A} (m : M W Client A) :
  (forall v, keeps (fun w => get_object gvk ns cell w = v) (fun c => on_cell c = true) m) ->
  holds (Forall (fun c => on_cell c = false)) m -> stands m.
Proof.
  intros Hk Hl s a _ _ Hb. pose proof (objects_kept gvk m s ns cell Hk Hl) as E.
  split; [by apply (bearing_frame _ _ _ (rst_world s))|]. intros [Hg|Hc].
  - by apply (guarded_frame _ _ _ (rst_world s)).
  - destruct Hc as [x Hc]. specialize (Hl s). rewrite Forall_forall in Hl. apply Hl in Hc. done.
Qed.

Lemma stands_each {A} (f : A -> M W Client unit) l : (forall a, stands (f a)) -> stands (each f l).
Proof.
  intros Hf. induction l as [|a l IH]; cbn [each]; [by intros s [] _ _ Hb; split; [|intros [?|[? ?%elem_of_nil]]]|].
  by apply stands_bind.
Qed.
Lemma stands_ret {A} (a : A) : stands (mret a).
Proof. intros s b _ _ Hb. split; [done|]. by intros [?|[? ?%elem_of_nil]]. Qed.
Lemma stands_each_map {A B} (f : A -> M W Client B) l : (forall a, stands (f a)) -> stands (each_map f l).
Proof.
  intros Hf. induction l as [|a l IH]; cbn [each_map]; [apply stands_ret|].
  apply stands_bind; [done|intros b]. apply stands_bind; [done|intros bs; apply stands_ret].
Qed.

(** *** The operations on cells *)

Lemma stands_ensure context req : fit req -> cr_Namespace req = ns -> stands (ensure prov context req).
Proof.
  intros Hfit Hns s st. unfold ensure. rewrite value_call, log_call, final_call.
  destruct (p_Ensure prov req (rst_world s)) as [[x|e] w] eqn:E; [|done]. intros _ _ Hb.
  destruct (fd_ensure req _ _ _ Hfit E) as [(o & Ho) Hk]. cbn [fst snd rst_world]. split; [by apply Hk|].
  intros [Hg|[y Hc%list_elem_of_singleton]].
  - exact (guard_ensure req _ _ _ ns cell Hg E).
  - injection Hc as -> _. rewrite <- Hns in *. eapply bearing_there; [|done]. by apply Hk.
Qed.

Lemma stands_delete req wrap :
  fit req -> stands (call (p_Delete prov req) (fun _ => CallDelete (cr_CellName req)) wrap).
Proof.
  intros Hfit s b. rewrite value_call, log_call, final_call.
  destruct (p_Delete prov req (rst_world s)) as [[x|e] w] eqn:E; [|done]. intros _ _ Hb.
  split; [exact (fd_delete req _ _ _ ns cell Hfit E Hb)|]. intros [Hg|[? Hc%list_elem_of_singleton]]; [|done].
  exact (guard_delete req _ _ _ ns cell Hg E).
Qed.

Lemma stands_clear clear req wrap :
  p_ClearDrainFinalizer prov = Some clear ->
  stands (call (clear req) (fun _ => CallClearDrainFinalizer (cr_CellName req)) wrap).
Proof.
  intros Hc s b. rewrite value_call, log_call, final_call. intros Hv Hl Hb.
  assert (cr_CellName req <> cell) as Hne
    by (apply Forall_cons in Hl as [Hl _]; intros E; apply Hl; unfold clears_cell; by rewrite E).
  destruct (clear req (rst_world s)) as [[[]|e] w] eqn:E; [|done].
  split; [exact (fd_clear clear req _ _ ns cell Hc Hne E Hb)|]. intros [Hg|[? Hx%list_elem_of_singleton]]; [|done].
  exact (guard_clear clear req _ _ _ ns cell Hc Hne Hg E).
Qed.
End loop.

Create HintDb stands.
#[export] Hint Resolve stands_ret stands_ensure stands_delete stands_clear : stands.

Section handlers.
Context `{ENV : Environment W Client Config} `{!CellFrame, !InfraLaws W}.
Context (prov : ProvisionerOps W) (gvk : GVK) (fit : CellRequest -> Prop).
Context `{FD : !Founding prov gvk fit} `{CG : !CellGuard prov gvk} (Hkind : cell_kind gvk).
Context (ns cell : string) (spec : GPUCellPoolSpec).
Implicit Types (pool p : GPUCellPool) (cs : Client).

(** The pool of the pass, whatever its status has become. *)
Definition ours pool : Prop := pool_Spec pool = spec /\ pool_Namespace pool = ns.
Context (Hfit : forall pool idx, ours pool -> fit (cellRequest pool idx)).

Local Abbreviation stands := (Standing.stands (W := W) (Client := Client) gvk ns cell).

Lemma cell_status_off pool prev name idx outer obs dec :
  holds (Forall (fun c => on_cell c = false)) (cell_status pool prev name idx outer obs dec).
Proof. apply holds_cell_status; [apply _|]. intros u _. by apply single_off_cell. Qed.
Lemma deleteNode_off cs context name : holds (Forall (fun c => on_cell c = false)) (deleteNode cs context name).
Proof. unfold deleteNode. compose; by apply single_off_cell. Qed.
Hint Resolve single_off_cell workloadClient_off cell_status_off deleteNode_off : holds.
Hint Resolve cell_status_keeps observe_node_keeps cached_client_keeps reapOrphanNodes_keeps : stable.

(** What does not call the provisioner, and sequences of handlers. *)
Ltac off :=
  apply stands_off;
  [intros v; pose proof (object_stable prov gvk Hkind ns cell v); stable
  |compose; try by apply single_off_cell].
Ltac standing_step :=
  match goal with
  | |- forall _, _ => intros ?
  | |- stands (mbind _ _) => apply stands_bind
  | |- stands (each _ _) => apply stands_each
  | |- stands (each_map _ _) => apply stands_each_map
  | |- stands (match ?x with _ => _ end) => destruct x eqn:?
  | |- stands (let _ := _ in _) => cbv zeta
  end.
Ltac standing := repeat (solve [eauto with stands] || solve [off] || standing_step).

Lemma ensureBootstrapSecret_stands pool idx : stands (ensureBootstrapSecret pool idx).
Proof. unfold ensureBootstrapSecret. off. Qed.
Lemma observe_node_stands pool cs name idx outer obs : stands (observe_node pool cs name idx outer obs).
Proof. unfold observe_node, observe_capacity. off. Qed.
Lemma cell_status_stands pool prev name idx outer obs dec : stands (cell_status pool prev name idx outer obs dec).
Proof. off. Qed.
Lemma request_stands pool context idx : ours pool -> stands (ensure prov context (cellRequest pool idx)).
Proof. intros Ho. apply (stands_ensure prov gvk fit); [by apply Hfit|by destruct Ho]. Qed.
Hint Resolve ensureBootstrapSecret_stands observe_node_stands cell_status_stands request_stands : stands.

Lemma discoverCell_stands pool cl prev name idx : ours pool -> stands (discoverCell pool prov cl prev name idx).
Proof. intros Ho. unfold discoverCell. standing. Qed.
Hint Resolve discoverCell_stands : stands.
Lemma discover_loop_stands pool cl previous guests : ours pool -> stands (discover_loop pool prov cl previous guests).
Proof. intros Ho. induction guests; simpl; standing. Qed.
Lemma reap_stands cs pool keep : stands (reapOrphanNodes cs pool keep).
Proof. unfold reapOrphanNodes. off. Qed.
Hint Resolve discover_loop_stands reap_stands : stands.
Lemma discoverCells_stands pool cl : ours pool -> stands (discoverCells pool prov cl).
Proof. intros Ho. unfold discoverCells, list_cells. standing. Qed.
Lemma createCell_stands pool idx : ours pool -> stands (createCell pool prov idx).
Proof. intros Ho. unfold createCell. standing. Qed.
Lemma deleteCell_stands pool c reap : ours pool -> stands (deleteCell pool prov c reap).
Proof. intros Ho. unfold deleteCell. standing. Qed.
Hint Resolve discoverCells_stands createCell_stands deleteCell_stands : stands.
Lemma progressDrain_stands pool cl c deleting since :
  ours pool -> stands (progressDrain pool prov cl c deleting since).
Proof. intros Ho. unfold progressDrain. standing. Qed.
Lemma mark_drains_stands names cells : stands (mark_drains names cells).
Proof. revert cells. induction names; intros; simpl; standing. Qed.
Hint Resolve progressDrain_stands mark_drains_stands : stands.
Lemma record_scale_stands pool sn scale : stands (record_scale pool sn scale).
Proof. unfold record_scale, demand_free. off. Qed.
Lemma record_scale_ours pool sn scale : ours pool -> ensures ours (record_scale pool sn scale).
Proof. intros Ho. unfold record_scale. repeat (apply ensures_bind; intros ?). by apply ensures_ret. Qed.
Lemma learn_shape_ours pool sn t : ours pool -> ours (learn_shape pool sn t).
Proof. unfold learn_shape. by destruct (RememberShape _ _). Qed.

Hint Resolve record_scale_stands learn_shape_ours : stands.

Lemma reconcilePool_stands pool : ours pool -> stands (reconcilePool pool prov).
Proof.
  intros Ho. unfold reconcilePool, create_cells, replace_cells, mark_rollout, drain_cells, writeStatus.
  apply stands_bind; [off|intros [[cl reason] msg]]. do 8 (apply stands_bind; [standing|intros ?; cbv zeta]).
  eapply stands_step; [standing|by apply record_scale_ours, learn_shape_ours|intros p Hp]. cbv zeta. standing.
Qed.
End handlers.

(** ** What a pass ensures stands *)

Section standing.
Context `{ENV : Environment W Client Config} `{!CellFrame, !InfraLaws W}.
Context (prov : ProvisionerOps W) (gvk : GVK) (fit : CellRequest -> Prop).
Context `{FD : !Founding prov gvk fit} `{CG : !CellGuard prov gvk} (Hkind : cell_kind gvk).

(** C20. A pass that returns leaves no cell it created in the air. When nothing was there for a
    cell and the pass asked the provisioner to ensure it, by a request of the shape the
    provisioner expects, its guest or Machine is there afterwards and carries the drain
    finalizer, unless the pass itself took the finalizer off. *)
Theorem ensured_cells_stand (pool : GPUCellPool) s r cell answer :
  (forall p idx, ours (pool_Namespace pool) (pool_Spec pool) p -> fit (cellRequest p idx)) ->
  gone gvk (pool_Namespace pool) cell (rst_world s) ->
  value (reconcilePool pool prov) s = Ok r ->
  CallEnsure cell answer ∈ log (reconcilePool pool prov) s ->
  (CallClearDrainFinalizer cell ∉ log (reconcilePool pool prov) s) ->
  guarded gvk (pool_Namespace pool) cell (rst_world (final (reconcilePool pool prov) s)).
Proof.
  intros Hfit Hg Hv He Hn.
  assert (bearing gvk (pool_Namespace pool) cell (rst_world s)) as Hb
    by (intros o Ho; unfold there, gone in *; congruence).
  assert (Forall (fun c => ~ clears_cell cell c) (log (reconcilePool pool prov) s)) as Hc
    by (apply Forall_forall; intros c Hc ->; done).
  refine (proj2 (reconcilePool_stands prov gvk fit Hkind _ cell _ Hfit pool _ s r Hv Hc Hb) (or_intror _)); eauto.
  done.
Qed.
End standing.

(** ** Witness: a pass that finds one guest and creates the other *)

Definition founding : RState World unit :=
  ex_cluster ex_pool {[ "inference-0" := ex_joining_outer ]}
    (mkMemCluster {[ "inference-0" := mkNode "inference-0" ∅ ∅ [] false [] ]} ∅ []) true.

(** What the provisioner answers of a cell, by the log. *)
Definition answer_of (cell : string) (l : list Call) : option (result ProvError OuterState) :=
  head (omap (fun c => match c with CallEnsure n r => if n == cell then Some r else None | _ => None end) l).
Lemma answered cell l r : answer_of cell l = Some r -> CallEnsure cell r ∈ l.
Proof.
  unfold answer_of. intros Hr%head_Some_elem_of. apply list_elem_of_omap in Hr as (c & Hc & E).
  destruct c; try done. case_bool_decide; [|done]. by simplify_eq.
Qed.

Lemma ensured_cells_stand_witness :
  get_object SwiftGuestGVK "gpu" "inference-1" (rst_world founding) = Err NotFound
  /\ guarded SwiftGuestGVK "gpu" "inference-1" (rst_world (final (reconcilePool ex_pool ex_provisioner) founding)).
Proof.
  split; [by_vm|].
  assert (exists r, answer_of "inference-1" (log (reconcilePool ex_pool ex_provisioner) founding) = Some r) as [answer Ha]
    by (eexists; vm_compute; reflexivity).
  refine (ensured_cells_stand (ENV := world_env) ex_provisioner SwiftGuestGVK (fun _ => True) (or_introl eq_refl)
            ex_pool founding (mkResult requeueProgressing) "inference-1" answer _ _ _ _ _).
  - done.
  - unfold gone. by_vm.
  - by_vm.
  - apply answered, Ha.
  - apply never_clears. by_vm.
Defined.
