(* ===== verification/MetricsAuth.v ===== *)
(** * The metrics endpoint's guard (internal/metricsauth/filter.go)

    A bearer token is reviewed, its owner's access to the path is reviewed, and
    an allow is kept for two minutes. [check] and [Filter] are the functions of
    the source; [step] interleaves any number of requests over the one cache,
    whose mutex makes each look-up and each store a step of its own. The two
    reviews are calls to the API server: any answer may come. *)

From S2P Require Import Prelude GoStd KubeApi Json Unstructured Template.
Local Open Scope Z_scope.
Local Open Scope go_scope.

Definition cacheTTL : Duration := 2 * Minute.
Definition verb : string := "get".

Record entry := mkEntry { expires : Time; user : string }.

(** http.Request: the header by canonical key, and URL.Path. *)
Record Request := mkRequest { rq_Header : gmap string (list string); rq_Path : string }.

(** http.Header.Get with a canonical key. *)
Definition header_get (h : gmap string (list string)) (key : string) : string :=
  match h !! key with Some (v :: _) => v | _ => "" end.

(** authenticationv1.UserInfo, TokenReviewStatus; SubjectAccessReviewSpec. *)
Record UserInfo := mkUserInfo { ui_Username : string; ui_UID : string; ui_Groups : list string }.
Record TokenReviewStatus := mkTokenReviewStatus { tr_Authenticated : bool; tr_User : UserInfo }.
Record AccessSpec := mkAccessSpec {
  as_User : string;
  as_UID : string;
  as_Groups : list string;
  as_Path : string;
  as_Verb : string
}.

Inductive AuthError := errUnauthenticated | errUnauthorized.

(** ** The token and the cache *)

Fixpoint str_take (n : nat) (s : string) : string :=
  match n, s with S n', String a s' => String a (str_take n' s') | _, _ => "" end.
Fixpoint str_drop (n : nat) (s : string) : string :=
  match n, s with S n', String _ s' => str_drop n' s' | _, _ => s end.

Definition bearer_prefix : string := "bearer ".

Definition bearerToken (req : Request) : string :=
  let h := header_get (rq_Header req) "Authorization" in
  if (String.length h <=? String.length bearer_prefix)%nat
     || negb (EqualFold (str_take (String.length bearer_prefix) h) bearer_prefix)
  then ""
  else TrimSpace (str_drop (String.length bearer_prefix) h).

Definition nul : ascii := ascii_of_nat 0.

Definition cacheKey (token path : string) : string := token +:+ String nul path.

Abbreviation Cache := (gmap string entry) (only parsing).

Definition cached (now : Time) (allow : Cache) (token path : string) : option string :=
  match allow !! cacheKey token path with
  | None => None
  | Some e => if negb (now <? expires e) then None else Some (user e)
  end.

Definition remember (now : Time) (allow : Cache) (token path username : string) : Cache :=
  let allow := if 1024 <? Z.of_nat (size allow) then ∅ else allow in
  <[cacheKey token path := mkEntry (now + cacheTTL) username]> allow.

(** ** The decision *)

Definition access_spec (u : UserInfo) (path : string) : AccessSpec :=
  mkAccessSpec (ui_Username u) (ui_UID u) (ui_Groups u) path verb.

Definition allowed (answer : result APIError bool) : bool :=
  match answer with Ok b => b | Err _ => false end.

(** [now1] is the clock at the look-up, [now2] at the store. *)
Definition check (review : string -> result APIError TokenReviewStatus)
    (access : AccessSpec -> result APIError bool) (now1 now2 : Time) (allow : Cache) (req : Request)
    : result AuthError string * Cache :=
  let token := bearerToken req in
  if token == "" then (Err errUnauthenticated, allow)
  else
    let path := rq_Path req in
    match cached now1 allow token path with
    | Some username => (Ok username, allow)
    | None =>
        match review token with
        | Err _ => (Err errUnauthenticated, allow)
        | Ok tr =>
            if negb (tr_Authenticated tr) then (Err errUnauthenticated, allow)
            else
              let u := tr_User tr in
              if negb (allowed (access (access_spec u path))) then (Err errUnauthorized, allow)
              else (Ok (ui_Username u), remember now2 allow token path (ui_Username u))
        end
    end.

Definition StatusUnauthorized : int := 401.
Definition StatusForbidden : int := 403.

(** What the wrapped handler does: a status with no body, or the inner handler. *)
Inductive Response := Rejected (code : int) | Served.

Definition respond (r : result AuthError string) : Response :=
  match r with
  | Err e => Rejected (match e with errUnauthenticated => StatusUnauthorized | _ => StatusForbidden end)
  | Ok _ => Served
  end.

Definition Filter (review : string -> result APIError TokenReviewStatus)
    (access : AccessSpec -> result APIError bool) (now1 now2 : Time) (allow : Cache) (req : Request)
    : Response * Cache :=
  let '(r, allow) := check review access now1 now2 allow req in (respond r, allow).

(** ** Interleaved requests

    A stage is where a request is between two steps of [check]. *)
Inductive Stage :=
| Looking (token path : string)
| Reviewing (token path : string)
| Authorizing (token path : string) (u : UserInfo)
| Remembering (token path : string) (u : UserInfo)
| Done (r : result AuthError string).

(** What a step takes from outside: nothing, or the answer of a review. *)
Inductive Answer :=
| NoAnswer
| ReviewAnswer (a : result APIError TokenReviewStatus)
| AccessAnswer (a : result APIError bool).

(** What was asked and answered, and when. *)
Inductive Event :=
| EvReview (t : Time) (token : string) (a : result APIError TokenReviewStatus)
| EvAccess (t : Time) (spec : AccessSpec) (a : result APIError bool)
| EvAnswer (t : Time) (req : Request) (r : result AuthError string).

Definition start (req : Request) : Stage :=
  let token := bearerToken req in
  if token == "" then Done (Err errUnauthenticated) else Looking token (rq_Path req).

Definition advance (now : Time) (ans : Answer) (allow : Cache) (st : Stage)
    : option (Stage * Cache * list Event) :=
  match st, ans with
  | Looking token path, NoAnswer =>
      Some (match cached now allow token path with
            | Some username => Done (Ok username)
            | None => Reviewing token path
            end, allow, [])
  | Reviewing token path, ReviewAnswer a =>
      Some (match a with
            | Ok tr => if tr_Authenticated tr then Authorizing token path (tr_User tr)
                       else Done (Err errUnauthenticated)
            | Err _ => Done (Err errUnauthenticated)
            end, allow, [EvReview now token a])
  | Authorizing token path u, AccessAnswer a =>
      Some (if allowed a then Remembering token path u else Done (Err errUnauthorized),
            allow, [EvAccess now (access_spec u path) a])
  | Remembering token path u, NoAnswer =>
      Some (Done (Ok (ui_Username u)), remember now allow token path (ui_Username u), [])
  | _, _ => None
  end.

Record Server := mkServer {
  srv_now : Time;
  srv_allow : Cache;
  srv_calls : gmap nat (Request * Stage);
  srv_log : list Event
}.

Definition boot (t : Time) : Server := mkServer t ∅ ∅ [].

Definition answered (now : Time) (req : Request) (st : Stage) : list Event :=
  match st with Done r => [EvAnswer now req r] | _ => [] end.

Fixpoint no_nul (s : string) : bool :=
  match s with EmptyString => true | String a s' => (a != nul) && no_nul s' end.

(** Time passes, a request arrives, or one of the requests in progress moves.
    net/http refuses a header value that holds a NUL byte. *)
Inductive step : Server -> Server -> Prop :=
| step_tick s t : srv_now s <= t -> step s (mkServer t (srv_allow s) (srv_calls s) (srv_log s))
| step_arrive s id req :
    srv_calls s !! id = None -> no_nul (header_get (rq_Header req) "Authorization") = true ->
    step s (mkServer (srv_now s) (srv_allow s) (<[id := (req, start req)]> (srv_calls s))
              (answered (srv_now s) req (start req) ++ srv_log s))
| step_move s id req st ans st' allow' evs :
    srv_calls s !! id = Some (req, st) ->
    advance (srv_now s) ans (srv_allow s) st = Some (st', allow', evs) ->
    step s (mkServer (srv_now s) allow' (<[id := (req, st')]> (srv_calls s))
              (answered (srv_now s) req st' ++ evs ++ srv_log s)).

(** The same, executable. *)
Inductive Input :=
| InTick (t : Time)
| InArrive (id : nat) (req : Request)
| InMove (id : nat) (ans : Answer).

Definition exec1 (s : Server) (i : Input) : option Server :=
  match i with
  | InTick t =>
      if srv_now s <=? t then Some (mkServer t (srv_allow s) (srv_calls s) (srv_log s)) else None
  | InArrive id req =>
      match srv_calls s !! id with
      | Some _ => None
      | None =>
          if no_nul (header_get (rq_Header req) "Authorization")
          then Some (mkServer (srv_now s) (srv_allow s) (<[id := (req, start req)]> (srv_calls s))
                       (answered (srv_now s) req (start req) ++ srv_log s))
          else None
      end
  | InMove id ans =>
      match srv_calls s !! id with
      | None => None
      | Some (req, st) =>
          match advance (srv_now s) ans (srv_allow s) st with
          | None => None
          | Some (st', allow', evs) =>
              Some (mkServer (srv_now s) allow' (<[id := (req, st')]> (srv_calls s))
                      (answered (srv_now s) req st' ++ evs ++ srv_log s))
          end
      end
  end.

Fixpoint exec (l : list Input) (s : Server) : option Server :=
  match l with [] => Some s | i :: l => exec1 s i ≫= exec l end.

Definition reachable (s : Server) : Prop := exists t, rtc step (boot t) s.

(** ** Lemmas *)

Lemma exec1_step s i s' : exec1 s i = Some s' -> step s s'.
Proof.
  intros E. destruct i as [t|id req|id ans]; simpl in E.
  - destruct (Z.leb_spec (srv_now s) t); [|done]. injection E as <-. by constructor.
  - destruct (srv_calls s !! id) eqn:Ec; [done|]. destruct (no_nul _) eqn:En; [|done].
    injection E as <-. by constructor.
  - destruct (srv_calls s !! id) as [[req st]|] eqn:Ec; [|done].
    destruct (advance _ _ _ _) as [[[st' allow'] evs]|] eqn:Em; [|done]. injection E as <-.
    by econstructor.
Qed.

Lemma exec_steps l s s' : exec l s = Some s' -> rtc step s s'.
Proof.
  revert s. induction l as [|i l IH]; intros s; simpl; [by intros [= ->]|].
  destruct (exec1 s i) as [s1|] eqn:E; simpl; [|done]. intros H.
  apply exec1_step in E. by eapply rtc_l; [|apply IH].
Qed.

Lemma no_nul_app a b : no_nul (a +:+ b) = no_nul a && no_nul b.
Proof. induction a as [|c a IH]; simpl; [done|]. rewrite IH. by rewrite andb_assoc. Qed.

Lemma no_nul_rev s acc : no_nul (rev_string s acc) = no_nul s && no_nul acc.
Proof.
  revert acc. induction s as [|c s IH]; intros acc; simpl; [done|]. rewrite IH. simpl.
  by destruct (c != nul), (no_nul s), (no_nul acc).
Qed.

Lemma no_nul_drop n s : no_nul s = true -> no_nul (str_drop n s) = true.
Proof. revert n. induction s as [|c s IH]; intros [|n]; simpl; try done. intros [_ ?]%andb_prop. auto. Qed.

Lemma no_nul_trim strip1 fuel s :
  (forall s s', strip1 s = Some s' -> no_nul s = true -> no_nul s' = true) ->
  no_nul s = true -> no_nul (trim_loop strip1 fuel s) = true.
Proof.
  intros H. revert s. induction fuel as [|n IH]; intros s Hs; simpl; [done|].
  destruct (strip1 s) eqn:E; eauto.
Qed.

(** One rune off either end. *)
Lemma no_nul_strip (f : string -> string) runes s s' :
  foldr (fun r acc => match strip (f r) s with Some s' => Some s' | None => acc end) None runes = Some s' ->
  no_nul s = true -> no_nul s' = true.
Proof.
  induction runes as [|r runes IH]; simpl; [done|]. destruct (strip (f r) s) eqn:E; [|done].
  intros [= <-]. apply strip_Some in E as ->. rewrite no_nul_app. by intros [_ ?]%andb_prop.
Qed.

Lemma no_nul_TrimSpace s : no_nul s = true -> no_nul (TrimSpace s) = true.
Proof.
  intros Hs. unfold TrimSpace. cbv zeta. rewrite no_nul_rev. simpl. rewrite andb_true_r.
  apply no_nul_trim; [intros ??; by apply no_nul_strip|].
  rewrite no_nul_rev. simpl. rewrite andb_true_r.
  apply no_nul_trim; [intros ??; by apply (no_nul_strip (fun r => r))|done].
Qed.

Lemma no_nul_token req :
  no_nul (header_get (rq_Header req) "Authorization") = true -> no_nul (bearerToken req) = true.
Proof.
  intros H. unfold bearerToken. destruct (_ || _); [done|]. by apply no_nul_TrimSpace, no_nul_drop.
Qed.

(** The key binds a decision to the token and to the path. *)
Lemma cacheKey_inj t p t' p' :
  no_nul t = true -> no_nul t' = true -> cacheKey t p = cacheKey t' p' -> t = t' /\ p = p'.
Proof.
  unfold cacheKey. revert t'. induction t as [|a t IH]; intros [|b t'] H H'; simpl in *.
  - by intros [= ->].
  - intros [= <- _]. by rewrite bool_decide_eq_true_2 in H'.
  - intros [= -> _]. by rewrite bool_decide_eq_true_2 in H.
  - apply andb_prop in H as [_ H], H' as [_ H']. intros [= -> E]. by destruct (IH _ H H' E) as [-> ->].
Qed.

Lemma remember_size now allow token path username :
  (size allow <= 1025)%nat -> (size (remember now allow token path username) <= 1025)%nat.
Proof.
  intros H. unfold remember. cbv zeta. rewrite map_size_insert.
  destruct (Z.ltb_spec 1024 (Z.of_nat (size allow))); case_match; simpl; rewrite ?map_size_empty; unfold id; lia.
Qed.

(** ** What an allow rests on *)

(** The review of the token said who it is. *)
Definition reviewed (log : list Event) (token : string) (u : UserInfo) (t : Time) : Prop :=
  exists t1, t1 <= t /\ EvReview t1 token (Ok (mkTokenReviewStatus true u)) ∈ log.

(** After it, the review of this user's access to this path said yes. *)
Definition granted (log : list Event) (token path username : string) (stored : Time) : Prop :=
  exists u t2, username = ui_Username u /\ t2 <= stored /\ reviewed log token u t2
    /\ EvAccess t2 (access_spec u path) (Ok true) ∈ log.

(** An answer at [t] reuses a grant stored less than two minutes before. *)
Definition justified (log : list Event) (t : Time) (req : Request) (username : string) : Prop :=
  bearerToken req <> "" /\
  exists stored, stored <= t < stored + cacheTTL
    /\ granted log (bearerToken req) (rq_Path req) username stored.

Definition entry_ok (log : list Event) (now : Time) (k : string) (e : entry) : Prop :=
  exists token path stored, k = cacheKey token path /\ no_nul token = true
    /\ expires e = stored + cacheTTL /\ stored <= now /\ granted log token path (user e) stored.

Definition about (req : Request) (token path : string) : Prop :=
  token = bearerToken req /\ path = rq_Path req /\ no_nul token = true /\ token <> "".

Definition stage_ok (log : list Event) (now : Time) (req : Request) (st : Stage) : Prop :=
  match st with
  | Looking token path | Reviewing token path => about req token path
  | Authorizing token path u => about req token path /\ reviewed log token u now
  | Remembering token path u => about req token path /\ granted log token path (ui_Username u) now
  | Done (Ok username) => justified log now req username
  | Done (Err _) => True
  end.

Record sound (s : Server) : Prop := {
  sd_cache : forall k e, srv_allow s !! k = Some e -> entry_ok (srv_log s) (srv_now s) k e;
  sd_calls : forall id req st, srv_calls s !! id = Some (req, st) ->
    match st with Done _ => True | _ => stage_ok (srv_log s) (srv_now s) req st end;
  sd_answers : forall t req username,
    EvAnswer t req (Ok username) ∈ srv_log s -> justified (srv_log s) t req username
}.

(** All of it stays true as the log grows and the clock advances. *)
Section growth.
Context (log log' : list Event) (now now' : Time).
Hypothesis Hlog : forall e, e ∈ log -> e ∈ log'.
Hypothesis Hnow : now <= now'.

Lemma reviewed_grow token u : reviewed log token u now -> reviewed log' token u now'.
Proof using Hlog Hnow. intros (t1 & ? & ?). exists t1. split; [lia|auto]. Qed.

Lemma granted_grow token path username :
  granted log token path username now -> granted log' token path username now'.
Proof using Hlog Hnow.
  intros (u & t2 & ? & ? & (t1 & ? & ?) & ?). exists u, t2. split_and!; auto; [lia|]. exists t1. auto.
Qed.
End growth.

Lemma justified_grow log log' t req username :
  (forall e, e ∈ log -> e ∈ log') -> justified log t req username -> justified log' t req username.
Proof. intros H [? (st & ? & ?)]. split; [done|]. exists st. split; [done|]. eapply granted_grow; eauto; lia. Qed.

Lemma entry_grow log log' now now' k e :
  (forall e, e ∈ log -> e ∈ log') -> now <= now' -> entry_ok log now k e -> entry_ok log' now' k e.
Proof.
  intros H Hn (token & path & st & ? & ? & ? & ? & ?). exists token, path, st.
  split_and!; try done; [lia|]. eapply granted_grow; eauto; lia.
Qed.

Lemma stage_grow log log' now now' req st :
  (forall e, e ∈ log -> e ∈ log') -> now <= now' ->
  match st with Done _ => True | _ => stage_ok log now req st end ->
  match st with Done _ => True | _ => stage_ok log' now' req st end.
Proof.
  intros H Hn. destruct st; simpl; try done.
  - intros [? ?]. split; [done|]. by eapply reviewed_grow.
  - intros [? ?]. split; [done|]. by eapply granted_grow.
Qed.

Lemma start_ok log now req :
  no_nul (header_get (rq_Header req) "Authorization") = true -> stage_ok log now req (start req).
Proof.
  intros H. unfold start. cbv zeta. case_bool_decide; [done|]. split_and!; auto. by apply no_nul_token.
Qed.

Lemma cached_ok log now allow token path username :
  (forall k e, allow !! k = Some e -> entry_ok log now k e) -> no_nul token = true ->
  cached now allow token path = Some username ->
  exists stored, stored <= now < stored + cacheTTL /\ granted log token path username stored.
Proof.
  intros Hc Hn. unfold cached. destruct (allow !! _) as [e|] eqn:E; [|done].
  apply Hc in E as (token' & path' & stored & Ek & Hn' & He & Hs & Hg).
  destruct (Z.ltb_spec now (expires e)); [|done]. intros [= <-].
  apply cacheKey_inj in Ek as [<- <-]; [|done..]. exists stored. split; [lia|done].
Qed.

Lemma remember_lookup now allow token path username k e :
  remember now allow token path username !! k = Some e ->
  k = cacheKey token path /\ e = mkEntry (now + cacheTTL) username \/ allow !! k = Some e.
Proof.
  unfold remember. cbv zeta. destruct (decide (k = cacheKey token path)) as [->|].
  - rewrite lookup_insert_eq. intros [= <-]. auto.
  - rewrite lookup_insert_ne by done. case_match; [by rewrite lookup_empty|auto].
Qed.

(** One move of one request, with the events it logs. *)
Lemma advance_ok log now ans allow req st st' allow' evs :
  (forall k e, allow !! k = Some e -> entry_ok log now k e) -> stage_ok log now req st ->
  advance now ans allow st = Some (st', allow', evs) ->
  (forall k e, allow' !! k = Some e -> entry_ok (evs ++ log) now k e)
  /\ stage_ok (evs ++ log) now req st'
  /\ (forall t r a, EvAnswer t r a ∉ evs).
Proof.
  intros Hc Hs. destruct st as [token path|token path|token path u|token path u|r], ans as [|a|a];
    simpl in Hs; try done; intros [= <- <- <-]; simpl.
  - split_and!; [done| |by intros ???; apply not_elem_of_nil].
    destruct (cached now allow token path) eqn:E; [|done]. destruct Hs as (-> & -> & Hn & He).
    split; [done|]. by eapply cached_ok.
  - split_and!; [| |by intros ??? ?%list_elem_of_singleton].
    + intros k e ?. eapply entry_grow; [| |by apply Hc]; [by right|lia].
    + destruct a as [tr|]; [|done]. destruct tr as [[|] u]; [|done]. split; [done|].
      exists now. split; [lia|by left].
  - destruct Hs as [Ha Hr]. split_and!; [| |by intros ??? ?%list_elem_of_singleton].
    + intros k e ?. eapply entry_grow; [| |by apply Hc]; [by right|lia].
    + destruct a as [[|]|]; try done. split; [done|]. exists u, now.
      split_and!; [done|lia| |by left]. eapply reviewed_grow; [| |exact Hr]; [by right|lia].
  - destruct Hs as [(-> & -> & Hn & He) Hg]. split_and!; [| |by intros ???; apply not_elem_of_nil].
    + intros k e [[-> ->]|?]%remember_lookup; [|by apply Hc].
      exists (bearerToken req), (rq_Path req), now. by split_and!.
    + split; [done|]. exists now. split; [|done]. unfold cacheTTL, Minute, Second. lia.
Qed.

Lemma answered_elem t r a now req st : EvAnswer t r a ∈ answered now req st -> t = now /\ r = req /\ st = Done a.
Proof. destruct st; simpl; intros H; try (by apply elem_of_nil in H). by apply list_elem_of_singleton in H as [= -> -> ->]. Qed.

(** A request enters a stage: the log grows, and by its answer when it is done. *)
Lemma enter_ok s allow' evs id req st' :
  sound s -> (forall k e, allow' !! k = Some e -> entry_ok (evs ++ srv_log s) (srv_now s) k e) ->
  stage_ok (evs ++ srv_log s) (srv_now s) req st' -> (forall t r a, EvAnswer t r a ∉ evs) ->
  sound (mkServer (srv_now s) allow' (<[id := (req, st')]> (srv_calls s))
           (answered (srv_now s) req st' ++ evs ++ srv_log s)).
Proof.
  intros [Hc Hs Ha] Hc' Hs' Hev. set (log' := answered _ _ _ ++ _).
  assert (forall e, e ∈ evs ++ srv_log s -> e ∈ log') as Hg by (intros; apply elem_of_app; by right).
  assert (forall e, e ∈ srv_log s -> e ∈ log') as Hg' by (intros; apply Hg, elem_of_app; by right).
  split; simpl.
  - intros k e ?. eapply entry_grow; [exact Hg|reflexivity|auto].
  - intros id' r st. destruct (decide (id' = id)) as [->|].
    + rewrite lookup_insert_eq. intros [= <- <-]. eapply stage_grow; [exact Hg|reflexivity|]. by destruct st'.
    + rewrite lookup_insert_ne by done. intros H%Hs. eapply stage_grow; [exact Hg'|reflexivity|done].
  - intros t r u [(-> & -> & ->)%answered_elem|[He|He]%elem_of_app]%elem_of_app.
    + by eapply justified_grow.
    + by apply Hev in He.
    + eapply justified_grow; [exact Hg'|auto].
Qed.

Lemma step_sound s s' : sound s -> step s s' -> sound s'.
Proof.
  intros H. destruct 1 as [s t Ht|s id req Hid Hn|s id req st ans st' allow' evs Hid Hm].
  - destruct H as [Hc Hs Ha]. split; simpl; [|intros ??? E%Hs|done].
    + intros k e ?. eapply entry_grow; [done|exact Ht|auto].
    + by eapply stage_grow.
  - apply (enter_ok s (srv_allow s) [] id req (start req)); [done| | |by intros ???; apply not_elem_of_nil].
    + apply (sd_cache _ H).
    + by apply start_ok.
  - pose proof (sd_calls _ H _ _ _ Hid) as Hst.
    assert (stage_ok (srv_log s) (srv_now s) req st) as Hok by (by destruct st, ans).
    destruct (advance_ok _ _ _ _ _ _ _ _ _ (sd_cache _ H) Hok Hm) as (?&?&?).
    by apply enter_ok.
Qed.

Lemma reachable_sound s : reachable s -> sound s.
Proof.
  intros [t H]. remember (boot t) as s0 eqn:E. assert (sound s0) as H0.
  { subst. split; simpl; [by intros ?? ?|by intros ??? ?|]. by intros ??? ?%elem_of_nil. }
  clear E. induction H; eauto using step_sound.
Qed.

(** C9. No request is ever let through on its own word. However requests interleave,
    whatever the API server answers and whenever it does, one that is allowed
    rests on a review that authenticated its very token and, later, a review that
    allowed that user its very path, stored less than two minutes ago. *)
Theorem allow_justified s t req username :
  reachable s -> EvAnswer t req (Ok username) ∈ srv_log s ->
  bearerToken req <> "" /\
  exists stored u t1 t2,
    t1 <= t2 <= stored /\ stored <= t < stored + cacheTTL /\ username = ui_Username u
    /\ EvReview t1 (bearerToken req) (Ok (mkTokenReviewStatus true u)) ∈ srv_log s
    /\ EvAccess t2 (access_spec u (rq_Path req)) (Ok true) ∈ srv_log s.
Proof.
  intros H%reachable_sound Ha. apply (sd_answers _ H) in Ha as [? (st & ? & u & t2 & ? & ? & (t1 & ? & ?) & ?)].
  split; [done|]. exists st, u, t1, t2. split_and!; (done || lia).
Qed.

Lemma step_size s s' : step s s' -> (size (srv_allow s) <= 1025)%nat -> (size (srv_allow s') <= 1025)%nat.
Proof.
  destruct 1 as [| |s id req st ans st' allow' evs _ Hm]; simpl; try done.
  destruct st, ans; simpl in Hm; try done; injection Hm as <- <- <-; try done. apply remember_size.
Qed.

(** The cache stays bounded, whatever tokens and paths a caller cycles through. *)
Theorem allow_bounded s : reachable s -> (size (srv_allow s) <= 1025)%nat.
Proof.
  intros [t H]. remember (boot t) as s0 eqn:E.
  assert (size (srv_allow s0) <= 1025)%nat as H0 by (subst; simpl; rewrite map_size_empty; lia).
  clear E. induction H; eauto using step_size.
Qed.

(** ** One request *)

Lemma cached_hit now allow token path :
  is_Some (cached now allow token path)
  <-> exists e, allow !! (token +:+ String nul path) = Some e /\ now < expires e.
Proof.
  unfold cached, cacheKey. destruct (allow !! _) as [e|]; [|split; [by intros [? ?]|by intros (? & ? & _)]].
  destruct (Z.ltb_spec now (expires e)); simpl.
  - split; [by eauto|by eauto].
  - split; [by intros [? ?]|]. intros (? & [= <-] & ?). lia.
Qed.

(** C38. Who is served. The inner handler runs exactly for a request with a token that
    either has an entry for this very token and path that has not expired, or
    belongs to a user the TokenReview names and the SubjectAccessReview allows to
    get the path. 401 is answered exactly when there is no token, or no entry and
    no known user; 403 exactly when the user is known and not allowed. A review
    that could not be had is a no. Only a fresh allow is kept, for two minutes,
    under its token and path; a refusal and a hit leave the cache alone, and
    nothing else enters it. *)
Theorem Filter_answers review access now1 now2 allow req :
  let token := bearerToken req in
  let key := token +:+ String nul (rq_Path req) in
  let hit := exists e, allow !! key = Some e /\ now1 < expires e in
  let known u := review token = Ok (mkTokenReviewStatus true u) in
  let permitted u :=
    access (mkAccessSpec (ui_Username u) (ui_UID u) (ui_Groups u) (rq_Path req) "get") = Ok true in
  let '(r, allow') := Filter review access now1 now2 allow req in
  (r = Served <-> token <> "" /\ (hit \/ exists u, known u /\ permitted u))
  /\ (r = Rejected 401 <-> token = "" \/ ~ hit /\ forall u, ~ known u)
  /\ (r = Rejected 403 <-> token <> "" /\ ~ hit /\ exists u, known u /\ ~ permitted u)
  /\ (r <> Served \/ hit -> allow' = allow)
  /\ (forall u, token <> "" -> ~ hit -> known u -> permitted u ->
       allow' !! key = Some (mkEntry (now2 + 2 * Minute) (ui_Username u))
       /\ forall k e, k <> key -> allow' !! k = Some e -> allow !! k = Some e).
Proof.
  cbv zeta. pose proof (cached_hit now1 allow (bearerToken req) (rq_Path req)) as Hh. revert Hh.
  generalize (exists e, allow !! (bearerToken req +:+ String nul (rq_Path req)) = Some e /\ now1 < expires e).
  intros hit Hh. unfold Filter, check, access_spec, verb.
  set (token := bearerToken req). set (path := rq_Path req).
  case_bool_decide as Et; [split_and!; naive_solver|].
  destruct (cached _ _ _ _) as [w|].
  { assert hit as Hhit by (apply Hh; eauto). split_and!; naive_solver. }
  assert (~ hit) as Hn by (intros [? ?]%Hh; done).
  destruct (review _) as [[[|] u]|e]; simpl; [|split_and!; naive_solver ..].
  destruct (access _) as [[|]|e] eqn:Ea; simpl; split_and!; try naive_solver congruence.
  intros u' _ _ [= <-] _. unfold remember, cacheKey. split; [by rewrite lookup_insert_eq|].
  intros k x Hk. rewrite lookup_insert_ne by done. by case_match.
Qed.

(** ** The stages are [check]

    The moves a request makes when no other one interferes, the reviews
    answering as [review] and [access]. *)
Section alone.
Context (review : string -> result APIError TokenReviewStatus) (access : AccessSpec -> result APIError bool).

Definition answer_to (st : Stage) : Answer :=
  match st with
  | Reviewing token _ => ReviewAnswer (review token)
  | Authorizing _ path u => AccessAnswer (access (access_spec u path))
  | _ => NoAnswer
  end.

Fixpoint run_alone (fuel : nat) (now : Time) (allow : Cache) (st : Stage) : option (result AuthError string * Cache) :=
  match st, fuel with
  | Done r, _ => Some (r, allow)
  | _, O => None
  | _, S n => match advance now (answer_to st) allow st with
              | Some (st', allow', _) => run_alone n now allow' st'
              | None => None
              end
  end.

(** A request that nobody interferes with goes through the stages of the step
    relation to the outcome of check, in at most four moves. *)
Theorem check_alone now allow req :
  run_alone 4 now allow (start req) = Some (check review access now now allow req).
Proof.
  unfold start, check. cbv zeta. case_bool_decide; [done|]. simpl.
  destruct (cached now allow _ _) as [w|]; [done|]. simpl.
  destruct (review (bearerToken req)) as [[[|] u]|e]; simpl; [|done..].
  by destruct (allowed (access (access_spec u (rq_Path req)))).
Qed.
End alone.

(** ** Witnesses

    A scrape that is reviewed, and a second one a minute later that is answered
    from the cache. *)
Definition ex_scrape : Request :=
  mkRequest {[ "Authorization" := ["Bearer prometheus"] ]} "/metrics".
Definition ex_user : UserInfo := mkUserInfo "prometheus" "uid" [].

Definition ex_answers : list Event :=
  [EvAnswer 60000000001 ex_scrape (Ok "prometheus"); EvAnswer 1 ex_scrape (Ok "prometheus");
   EvAccess 1 (access_spec ex_user "/metrics") (Ok true);
   EvReview 1 "prometheus" (Ok (mkTokenReviewStatus true ex_user))].

Definition ex_inputs : list Input :=
  [InArrive 0 ex_scrape; InMove 0 NoAnswer;
   InMove 0 (ReviewAnswer (Ok (mkTokenReviewStatus true ex_user)));
   InMove 0 (AccessAnswer (Ok true)); InMove 0 NoAnswer;
   InTick 60000000001; InArrive 1 ex_scrape; InMove 1 NoAnswer].

Lemma ex_reachable : exists s, reachable s /\ srv_log s = ex_answers.
Proof.
  assert (srv_log <$> exec ex_inputs (boot 1) = Some ex_answers) as E by by_vm.
  destruct (exec ex_inputs (boot 1)) as [s|] eqn:Es; [|done]. injection E as E.
  exists s. split; [|done]. exists 1. by eapply exec_steps.
Qed.

Lemma allow_justified_witness :
  exists s, reachable s /\ srv_log s = ex_answers
    /\ exists stored u t1 t2,
      t1 <= t2 <= stored /\ stored <= 60000000001 < stored + cacheTTL /\ "prometheus" = ui_Username u
      /\ EvReview t1 (bearerToken ex_scrape) (Ok (mkTokenReviewStatus true u)) ∈ srv_log s
      /\ EvAccess t2 (access_spec u (rq_Path ex_scrape)) (Ok true) ∈ srv_log s.
Proof.
  destruct ex_reachable as (s & Hr & Hl). exists s. split_and!; [done..|].
  assert (EvAnswer 60000000001 ex_scrape (Ok "prometheus") ∈ srv_log s) as Ha by (rewrite Hl; left).
  exact (proj2 (allow_justified s 60000000001 ex_scrape "prometheus" Hr Ha)).
Defined.

Lemma allow_bounded_witness : exists s, reachable s /\ srv_log s = ex_answers /\ (size (srv_allow s) <= 1025)%nat.
Proof.
  destruct ex_reachable as (s & Hr & Hl). exists s. split_and!; [done..|]. exact (allow_bounded s Hr).
Defined.

