(* ===== verification/CrdCheck.v ===== *)
(** * The CRD drift check (internal/crdcheck/crdcheck.go)

    What the cluster's schema lacks of the schema this binary was built against,
    and what the manager reports of it (reportCRDDrift in cmd/manager/main.go). *)

From S2P Require Import Prelude GoStd KubeApi.
Local Open Scope Z_scope.
Local Open Scope go_scope.

(** ** Schemas (apiextensionsv1.JSONSchemaProps)

    The two fields the check reads. [Properties] is a Go map, its keys distinct
    ([well_formed]), its order arbitrary; [Items] a pointer to a struct with a
    pointer to the schema of the elements. *)
Inductive Schema := mkSchema {
  Properties : list (string * Schema);
  Items : option (option Schema)
}.

Fixpoint assoc {A} (k : string) (l : list (string * A)) : option A :=
  match l with
  | [] => None
  | (k', v) :: l => if k' == k then Some v else assoc k l
  end.

Definition item_schema (s : Schema) : option Schema := mjoin (Items s).

Fixpoint well_formed (s : Schema) : bool :=
  bool_decide (NoDup (map fst (Properties s)))
  && forallb (fun kv => well_formed kv.2) (Properties s)
  && match Items s with Some (Some i) => well_formed i | _ => true end.

(** CustomResourceDefinitionVersion: [Schema] and its OpenAPIV3Schema are
    pointers. The check does not read [Served]. *)
Record Version := mkVersion { v_Name : string; v_Served : bool; v_Schema : option (option Schema) }.
Record CRD := mkCRD { crd_Name : string; crd_Versions : list Version }.

(** ** The comparison *)

Fixpoint walk (prefix : string) (want got : Schema) : list string :=
  flat_map (fun '(name, wantChild) =>
      match assoc name (Properties got) with
      | None => [prefix +:+ "." +:+ name]
      | Some gotChild => walk (prefix +:+ "." +:+ name) wantChild gotChild
      end) (Properties want)
  ++ match Items want, Items got with
     | Some (Some w), Some (Some g) => walk (prefix +:+ "[]") w g
     | _, _ => []
     end.

(** The served schema may be the nil pointer: reading a field of it panics, which
    is [None]. The fields of it are read only in the loop over the properties and
    after the first two conditions on the items. *)
Definition walk_served (prefix : string) (want : Schema) (got : option Schema) : option (list string) :=
  match got with
  | Some g => Some (walk prefix want g)
  | None => match Properties want, Items want with
            | [], None | [], Some None => Some []
            | _, _ => None
            end
  end.

(** The schemas the cluster serves by version, a later one over an earlier. *)
Definition serve (m : gmap string (option Schema)) (v : Version) : gmap string (option Schema) :=
  match v_Schema v with Some s => <[v_Name v := s]> m | None => m end.
Definition served (got : CRD) : gmap string (option Schema) := foldl serve ∅ (crd_Versions got).

Definition missing_of (got : gmap string (option Schema)) (v : Version) : option (list string) :=
  match v_Schema v with
  | Some (Some want) =>
      match got !! v_Name v with
      | None => Some [v_Name v +:+ " (version not served)"]
      | Some schema => walk_served (v_Name v) want schema
      end
  | _ => Some []
  end.

Fixpoint collect (got : gmap string (option Schema)) (vs : list Version) : option (list string) :=
  match vs with
  | [] => Some []
  | v :: vs => l ← missing_of got v; k ← collect got vs; Some (l ++ k)
  end.

Definition missingPaths (want got : CRD) : option (list string) :=
  sort_strings <$> collect (served got) (crd_Versions want).

(** ** Verify *)

Inductive CheckError := NotInstalled | GetFailed (e : APIError).

Record CRDResult := mkCRDResult {
  res_Name : string;
  res_File : string;
  res_Missing : list string;
  res_Checked : bool;
  res_Err : option CheckError
}.

(** An error of the file system or of the decoder, with what was being done. *)
Inductive LoadError (E : Type) := ListingCRDs (e : E) | Reading (name : string) (e : E) | Parsing (name : string) (e : E).
Arguments ListingCRDs {_} _.
Arguments Reading {_} _ _.
Arguments Parsing {_} _ _.

Section verify.
(** The embedded file system and the YAML decoder. *)
Context {E : Type} (entries : result E (list string)) (ReadFile : string -> result E string).
Context (Unmarshal : string -> result E CRD).

Definition load (name : string) : result (LoadError E) CRD :=
  match ReadFile name with
  | Err e => Err (Reading name e)
  | Ok raw =>
      match Unmarshal raw with
      | Err e => Err (Parsing name e)
      | Ok crd => Ok crd
      end
  end.

(** The API server's answer for a CRD of a name. *)
Context (get : string -> result APIError CRD).

Definition verify_one (file : string) : option (result (LoadError E) CRDResult) :=
  match load ("crd/" +:+ file) with
  | Err e => Some (Err e)
  | Ok want =>
      match get (crd_Name want) with
      | Err e => Some (Ok (mkCRDResult (crd_Name want) file [] false
                             (Some (if IsNotFound e then NotInstalled else GetFailed e))))
      | Ok got =>
          missing ← missingPaths want got;
          Some (Ok (mkCRDResult (crd_Name want) file missing true None))
      end
  end.

Fixpoint verify_loop (files : list string) : option (result (LoadError E) (list CRDResult)) :=
  match files with
  | [] => Some (Ok [])
  | file :: files =>
      match verify_one file with
      | None => None
      | Some (Err e) => Some (Err e)
      | Some (Ok r) => rs ← verify_loop files; Some (let* l := rs in Ok (r :: l))
      end
  end.

(** [None] is a panic. *)
Definition Verify : option (result (LoadError E) (list CRDResult)) :=
  match entries with Err e => Some (Err (ListingCRDs e)) | Ok files => verify_loop files end.
End verify.

(** [Version] is stamped at build time. *)
Definition FixCommand (version file : string) : string :=
  "kubectl apply -f https://raw.githubusercontent.com/kubeswift-io/gpucellpool/"
  +:+ version +:+ "/config/crd/bases/" +:+ file.

(** What the manager logs of a result. *)
Inductive Report :=
| NotCompared (crd : string) (reason : option CheckError)
| Stale (crd : string) (missing : list string) (fix_ : string)
| Matches (crd : string).

Definition report (version : string) (r : CRDResult) : Report :=
  if negb (res_Checked r) then NotCompared (res_Name r) (res_Err r)
  else if 0 <? len (res_Missing r)
  then Stale (res_Name r) (res_Missing r) (FixCommand version (res_File r))
  else Matches (res_Name r).

(** ** Specification

    A place in a schema is reached by naming properties and descending into the
    elements of arrays. *)
Inductive Hop := Prop_ (name : string) | Elem.

Fixpoint at_ (l : list Hop) (s : Schema) : option Schema :=
  match l with
  | [] => Some s
  | Prop_ n :: l => assoc n (Properties s) ≫= at_ l
  | Elem :: l => item_schema s ≫= at_ l
  end.

Definition show_hop (p : string) (h : Hop) : string :=
  match h with Prop_ n => p +:+ "." +:+ n | Elem => p +:+ "[]" end.
Definition show (prefix : string) (l : list Hop) : string := foldl show_hop prefix l.

(** Both schemas have the place [l]; there the wanted one has the property [n]
    and the served one has not. *)
Definition dropped (want got : Schema) (l : list Hop) (n : string) : Prop :=
  exists w g, at_ l want = Some w /\ at_ l got = Some g
    /\ is_Some (assoc n (Properties w)) /\ assoc n (Properties g) = None.

(** ** Lemmas *)

Section schema_induction.
Variable P : Schema -> Prop.
Hypothesis step : forall ps items, Forall (fun kv => P kv.2) ps ->
  (forall i, items = Some (Some i) -> P i) -> P (mkSchema ps items).

Fixpoint Schema_nested_ind (s : Schema) : P s :=
  match s with
  | mkSchema ps items =>
      step ps items
        ((fix all ps : Forall (fun kv => P kv.2) ps :=
            match ps with
            | [] => Forall_nil_2 _
            | kv :: ps => Forall_cons_2 _ kv ps (Schema_nested_ind kv.2) (all ps)
            end) ps)
        (match items with
         | Some (Some j) => fun i E => eq_ind (Some (Some j)) (fun o => match o with Some (Some i) => P i | _ => True end)
                                         (Schema_nested_ind j) (Some (Some i)) E
         | _ => fun i E => ltac:(discriminate E)
         end)
  end.
End schema_induction.

Lemma assoc_elem {A} k (v : A) l : assoc k l = Some v -> (k, v) ∈ l.
Proof.
  induction l as [|[k' v'] l IH]; simpl; [done|]. case_bool_decide as E.
  - intros [= <-]. subst. left.
  - intros H. right. auto.
Qed.

Lemma elem_assoc {A} k (v : A) l : NoDup (map fst l) -> (k, v) ∈ l -> assoc k l = Some v.
Proof.
  induction l as [|[k' v'] l IH]; simpl; [by intros _ ?%elem_of_nil|].
  intros [Hn Hd]%NoDup_cons [[= -> ->]|H]%elem_of_cons.
  - by rewrite bool_decide_eq_true_2.
  - rewrite bool_decide_eq_false_2; [auto|]. intros ->. apply Hn. apply elem_of_map_b. by exists (k, v).
Qed.

Lemma elem_of_flat_map {A B} (f : A -> list B) l y : y ∈ flat_map f l <-> exists x, x ∈ l /\ y ∈ f x.
Proof. rewrite list_elem_of_In, in_flat_map. setoid_rewrite list_elem_of_In. done. Qed.

Lemma dropped_nil want got n :
  dropped want got [] n <-> is_Some (assoc n (Properties want)) /\ assoc n (Properties got) = None.
Proof. unfold dropped. simpl. naive_solver. Qed.

Lemma dropped_prop want got name l n :
  dropped want got (Prop_ name :: l) n
  <-> exists w g, assoc name (Properties want) = Some w /\ assoc name (Properties got) = Some g
        /\ dropped w g l n.
Proof.
  unfold dropped. simpl.
  destruct (assoc name (Properties want)), (assoc name (Properties got)); simpl; naive_solver.
Qed.

Lemma dropped_elem want got l n :
  dropped want got (Elem :: l) n
  <-> exists w g, item_schema want = Some w /\ item_schema got = Some g /\ dropped w g l n.
Proof. unfold dropped. simpl. destruct (item_schema want), (item_schema got); simpl; naive_solver. Qed.

Lemma well_formed_inv ps items :
  well_formed (mkSchema ps items) = true ->
  NoDup (map fst ps) /\ Forall (fun kv => well_formed kv.2 = true) ps
  /\ (forall i, items = Some (Some i) -> well_formed i = true).
Proof.
  simpl. intros [[Hd%bool_decide_eq_true Hc]%andb_prop Hi]%andb_prop. split_and!; [done| |by intros ? ->].
  apply Forall_forall. intros kv Hkv. rewrite forallb_forall in Hc. by apply Hc, list_elem_of_In.
Qed.

(** The walk lists exactly the places dropped, the highest on each branch. *)
Lemma walk_exact want :
  well_formed want = true -> forall prefix got p,
  p ∈ walk prefix want got <-> exists l n, dropped want got l n /\ p = show prefix (l ++ [Prop_ n]).
Proof.
  induction want as [ps items IHp IHi] using Schema_nested_ind.
  intros (Hd & Hwf & Hwi)%well_formed_inv prefix got p. simpl. rewrite elem_of_app, elem_of_flat_map. split.
  - intros [([name w] & Hin & Hp)|Hp].
    + rewrite Forall_forall in IHp, Hwf.
      pose proof (elem_assoc _ _ _ Hd Hin) as Hw.
      destruct (assoc name (Properties got)) as [g|] eqn:Eg.
      * apply (IHp _ Hin (Hwf _ Hin)) in Hp as (l & n & Hl & ->).
        exists (Prop_ name :: l), n. split; [|done]. apply dropped_prop. eauto.
      * apply list_elem_of_singleton in Hp as ->. exists [], name. split; [|done].
        apply dropped_nil. simpl. by rewrite Hw.
    + destruct items as [[w|]|]; [|by apply elem_of_nil in Hp..].
      destruct (Items got) as [[g|]|] eqn:Eg; [|by apply elem_of_nil in Hp..].
      apply (IHi w eq_refl (Hwi w eq_refl)) in Hp as (l & n & Hl & ->).
      exists (Elem :: l), n. split; [|done]. apply dropped_elem. exists w, g.
      split; [done|]. split; [|done]. unfold item_schema. by rewrite Eg.
  - intros (l & n & Hl & ->). destruct l as [|[name|] l].
    + apply dropped_nil in Hl as [[w Hw] Hg]. left. exists (n, w). split; [by apply assoc_elem|].
      rewrite Hg. apply list_elem_of_singleton. done.
    + apply dropped_prop in Hl as (w & g & Hw%assoc_elem & Hg & Hl). left. exists (name, w). split; [done|].
      rewrite Hg. rewrite Forall_forall in IHp, Hwf. apply (IHp _ Hw (Hwf _ Hw)). eauto.
    + apply dropped_elem in Hl as (w & g & Hw & Hg & Hl). right. unfold item_schema in Hw, Hg. simpl in Hw.
      destruct items as [[w'|]|]; try done. injection Hw as ->.
      destruct (Items got) as [[g'|]|]; try done. injection Hg as ->.
      apply (IHi w eq_refl (Hwi w eq_refl)). eauto.
Qed.

Lemma collect_elem got vs l :
  collect got vs = Some l ->
  forall p, p ∈ l <-> exists v k, v ∈ vs /\ missing_of got v = Some k /\ p ∈ k.
Proof.
  revert l. induction vs as [|v vs IH]; intros l; simpl.
  { intros [= <-] p. split; [by intros ?%elem_of_nil|]. by intros (? & ? & ?%elem_of_nil & _). }
  destruct (missing_of got v) as [k|] eqn:Ek; simpl; [|done].
  destruct (collect got vs) as [k'|] eqn:Ec; simpl; [|done]. intros [= <-] p.
  rewrite elem_of_app, (IH _ eq_refl). setoid_rewrite elem_of_cons. naive_solver.
Qed.

Lemma walk_served_exact prefix want got k :
  well_formed want = true -> walk_served prefix want got = Some k ->
  forall p, p ∈ k <-> exists g l n, got = Some g /\ dropped want g l n /\ p = show prefix (l ++ [Prop_ n]).
Proof.
  intros Hw. unfold walk_served. destruct got as [g|].
  - intros [= <-] p. rewrite walk_exact by done. naive_solver.
  - intros H p. split; [|by intros (? & ? & ? & ? & _)].
    destruct want as [[|] [[|]|]]; simpl in H; try done; injection H as <-; by intros ?%elem_of_nil.
Qed.

(** Wherever both schemas have an array whose elements are described in the wanted
    one, the served one describes them too. *)
Fixpoint arrays_described (want got : Schema) : bool :=
  forallb (fun '(n, w) => match assoc n (Properties got) with Some g => arrays_described w g | None => true end)
    (Properties want)
  && match Items want with
     | Some (Some w) => match item_schema got with Some g => arrays_described w g | None => false end
     | _ => true
     end.

(** Then every wanted place that the served schema lacks lies at or below a property
    it drops. *)
Lemma missing_below_dropped l : forall want got,
  arrays_described want got = true -> is_Some (at_ l want) -> at_ l got = None ->
  exists l1 n l2, l = l1 ++ Prop_ n :: l2 /\ dropped want got l1 n.
Proof.
  induction l as [|[name|] l IH]; intros [ps items] got Hd Hw Hg; [done| |].
  - simpl in Hd, Hw, Hg. apply andb_prop in Hd as [Hd _].
    destruct (assoc name ps) as [w|] eqn:Ew; simpl in Hw; [|by destruct Hw].
    destruct (assoc name (Properties got)) as [g|] eqn:Eg; simpl in Hg.
    + rewrite forallb_forall in Hd. specialize (Hd (name, w)). simpl in Hd. rewrite Eg in Hd.
      destruct (IH w g) as (l1 & n & l2 & -> & Hl); [by apply Hd, list_elem_of_In, assoc_elem|done|done|].
      exists (Prop_ name :: l1), n, l2. split; [done|]. apply dropped_prop. eauto.
    + exists [], name, l. split; [done|]. apply dropped_nil. simpl. rewrite Ew. eauto.
  - simpl in Hd, Hw, Hg. apply andb_prop in Hd as [_ Hd]. unfold item_schema in Hw at 1. simpl in Hw.
    destruct items as [[w|]|]; simpl in Hw; [|by destruct Hw..].
    destruct (item_schema got) as [g|] eqn:Eg; [|done]. simpl in Hg.
    destruct (IH w g) as (l1 & n & l2 & -> & Hl); [done..|].
    exists (Elem :: l1), n, l2. split; [done|]. apply dropped_elem. exists w, g. done.
Qed.

Lemma paths_exact want got paths :
  (forall v s, v ∈ crd_Versions want -> v_Schema v = Some (Some s) -> well_formed s = true) ->
  missingPaths want got = Some paths ->
  Sorted String.le paths /\
  forall p, p ∈ paths <->
    exists v w, v ∈ crd_Versions want /\ v_Schema v = Some (Some w) /\
      ((served got !! v_Name v = None /\ p = v_Name v +:+ " (version not served)")
       \/ exists g l n, served got !! v_Name v = Some (Some g) /\ dropped w g l n
            /\ p = show (v_Name v) (l ++ [Prop_ n])).
Proof.
  intros Hwf. unfold missingPaths. destruct (collect _ _) as [k|] eqn:Ek; [|done]. intros [= <-].
  split; [apply Sorted_merge_sort; apply _|].
  intros p. rewrite (sort_strings_perm k), (collect_elem _ _ _ Ek). split.
  - intros (v & kv & Hv & Hm & Hp). unfold missing_of in Hm.
    destruct (v_Schema v) as [[w|]|] eqn:Ew; [|injection Hm as <-; by apply elem_of_nil in Hp..].
    exists v, w. split_and!; [done..|]. destruct (served got !! v_Name v) as [s|] eqn:Es.
    + right. apply (walk_served_exact _ _ _ _ (Hwf _ _ Hv Ew) Hm) in Hp as (g & l & n & -> & ? & ->). eauto 6.
    + left. injection Hm as <-. by apply list_elem_of_singleton in Hp as ->.
  - intros (v & w & Hv & Ew & H). destruct (missing_of (served got) v) as [kv|] eqn:Em.
    + exists v, kv. split_and!; [done..|]. unfold missing_of in Em. rewrite Ew in Em.
      destruct H as [[Es ->]|(g & l & n & Es & Hd & ->)]; rewrite Es in Em.
      * injection Em as <-. by apply list_elem_of_singleton.
      * apply (walk_served_exact _ _ _ _ (Hwf _ _ Hv Ew) Em). eauto 6.
    + exfalso. revert Em. unfold missing_of. rewrite Ew.
      destruct H as [[Es _]|(g & l & n & Es & _)]; by rewrite Es.
Qed.

(** C32. The comparison reports exactly the properties present in the wanted schemas
    and absent from the served ones, the highest on each branch, and the wanted
    versions the cluster does not have; sorted. Every reported line is one of
    these, and whatever place of a wanted schema the served one lacks lies at or
    below a reported property. Two cases are excluded and are findings: an array
    whose elements the served schema does not describe, where nothing is reported
    ([array_items_unserved]), and a version that the cluster lists with
    served: false, which counts as served ([unserved_version_counts]). *)
Theorem missingPaths_exact want got paths :
  (forall v s, v ∈ crd_Versions want -> v_Schema v = Some (Some s) -> well_formed s = true) ->
  (forall v, v ∈ crd_Versions got -> v_Served v = true) ->
  (forall v w g, v ∈ crd_Versions want -> v_Schema v = Some (Some w) -> served got !! v_Name v = Some (Some g) ->
     arrays_described w g = true) ->
  missingPaths want got = Some paths ->
  Sorted String.le paths
  /\ (forall p, p ∈ paths <->
       exists v w, v ∈ crd_Versions want /\ v_Schema v = Some (Some w) /\
         ((served got !! v_Name v = None /\ p = v_Name v +:+ " (version not served)")
          \/ exists g l n, served got !! v_Name v = Some (Some g) /\ dropped w g l n
               /\ p = show (v_Name v) (l ++ [Prop_ n])))
  /\ (forall v w g l, v ∈ crd_Versions want -> v_Schema v = Some (Some w) -> served got !! v_Name v = Some (Some g) ->
       is_Some (at_ l w) -> at_ l g = None ->
       exists l1 n l2, l = l1 ++ Prop_ n :: l2 /\ show (v_Name v) (l1 ++ [Prop_ n]) ∈ paths).
Proof.
  intros Hwf _ Harr Hm. destruct (paths_exact want got paths Hwf Hm) as [Hs Hp]. split_and!; [done..|].
  intros v w g l Hv Ew Eg Hw Hg.
  destruct (missing_below_dropped l w g) as (l1 & n & l2 & -> & Hd); [by eapply Harr|done|done|].
  exists l1, n, l2. split; [done|]. apply Hp. exists v, w. split_and!; [done..|]. right. eauto 6.
Qed.

(** ** What is not reported

    A wanted property below the elements of an array is dropped too when the
    served schema has no element schema there; the comparison stays silent. *)
Example array_items_unserved :
  let leaf := mkSchema [] None in
  let want := mkSchema [("cells", mkSchema [] (Some (Some (mkSchema [("templateHash", leaf)] None))))] None in
  let got := mkSchema [("cells", leaf)] None in
  missingPaths (mkCRD "pools" [mkVersion "v1" true (Some (Some want))])
    (mkCRD "pools" [mkVersion "v1" true (Some (Some got))]) = Some [].
Proof. vm_compute. reflexivity. Qed.

(** A version that is listed and not served hides that it is not served. *)
Example unserved_version_counts :
  let want := mkSchema [("spec", mkSchema [] None)] None in
  missingPaths (mkCRD "pools" [mkVersion "v1" true (Some (Some want))])
    (mkCRD "pools" [mkVersion "v1" false (Some (Some want))]) = Some [].
Proof. vm_compute. reflexivity. Qed.

(** A served version whose schema has no OpenAPIV3Schema panics the walk. *)
Example missing_schema_panics :
  let want := mkSchema [("spec", mkSchema [] None)] None in
  missingPaths (mkCRD "pools" [mkVersion "v1" true (Some (Some want))])
    (mkCRD "pools" [mkVersion "v1" true (Some None)]) = None.
Proof. vm_compute. reflexivity. Qed.

(** ** Verify *)

(** Every schema the API server answers with has its OpenAPIV3Schema, which
    apiextensions.k8s.io/v1 requires. *)
Definition complete (c : CRD) : Prop := forall v, v ∈ crd_Versions c -> v_Schema v <> Some None.

Lemma served_complete c name s : complete c -> served c !! name = Some s -> s <> None.
Proof.
  unfold complete, served. intros H.
  assert (forall m, (forall n s, m !! n = Some s -> s <> None) ->
            foldl serve m (crd_Versions c) !! name = Some s -> s <> None) as G;
    [|apply G; intros n s'; by rewrite lookup_empty].
  revert H. induction (crd_Versions c) as [|v vs IH]; simpl; intros H m Hm; [by apply Hm|].
  apply IH; [intros; apply H; by right|]. intros n s'. unfold serve.
  destruct (v_Schema v) as [sv|] eqn:Ev; [|by apply Hm].
  destruct (decide (n = v_Name v)) as [->|].
  - rewrite lookup_insert_eq. intros [= ->] ->. by apply (H v); [left|].
  - rewrite lookup_insert_ne by done. apply Hm.
Qed.

Lemma missingPaths_total want got : complete got -> is_Some (missingPaths want got).
Proof.
  intros Hc. unfold missingPaths. cut (is_Some (collect (served got) (crd_Versions want))).
  { intros [l ->]. eauto. }
  induction (crd_Versions want) as [|v vs [k IH]]; simpl; [eauto|]. rewrite IH.
  cut (is_Some (missing_of (served got) v)); [intros [l ->]; simpl; eauto|].
  unfold missing_of. destruct (v_Schema v) as [[w|]|]; eauto.
  destruct (served got !! v_Name v) as [[g|]|] eqn:E; simpl; eauto.
  by apply served_complete in E.
Qed.

Section verify_spec.
Context {E : Type} (ReadFile : string -> result E string) (Unmarshal : string -> result E CRD).
Context (get : string -> result APIError CRD).
Local Abbreviation load := (load ReadFile Unmarshal).
Hypothesis get_complete : forall name c, get name = Ok c -> complete c.

(** What one result says of the manifest [want] of a file. *)
Definition verdict (file : string) (r : CRDResult) : Prop :=
  exists want, load ("crd/" +:+ file) = Ok want /\ res_Name r = crd_Name want /\ res_File r = file
    /\ match get (crd_Name want) with
       | Ok got => res_Checked r = true /\ res_Err r = None /\ missingPaths want got = Some (res_Missing r)
       | Err e => res_Checked r = false /\ res_Missing r = []
                  /\ res_Err r = Some (if IsNotFound e then NotInstalled else GetFailed e)
       end.

(** The comparison never stops the operator: with readable manifests every one of
    them gets a result, whatever the API server answers, and a definition that
    could not be read says why and claims no field missing. *)
Theorem Verify_reports_all files :
  (forall file, file ∈ files -> is_ok (load ("crd/" +:+ file)) = true) ->
  exists rs, Verify (Ok files) ReadFile Unmarshal get = Some (Ok rs) /\ Forall2 verdict files rs.
Proof using get_complete.
  simpl. induction files as [|file files IH]; intros Hl; simpl; [eexists; split; [done|constructor]|].
  destruct IH as (rs & -> & Hrs); [intros; apply Hl; by right|].
  cut (exists r, verify_one ReadFile Unmarshal get file = Some (Ok r) /\ verdict file r).
  { intros (r & -> & Hr). exists (r :: rs). split; [done|by constructor]. }
  specialize (Hl file ltac:(left)). unfold verify_one, verdict.
  destruct (load ("crd/" +:+ file)) as [want|]; [|done].
  destruct (get (crd_Name want)) as [got|e] eqn:Eg.
  - destruct (missingPaths_total want got (get_complete _ _ Eg)) as [k Hk]. rewrite Hk. simpl.
    eexists. split; [done|]. exists want. rewrite Eg. by split_and!.
  - eexists. split; [done|]. exists want. rewrite Eg. by split_and!.
Qed.
End verify_spec.

(** ** Witnesses *)

Definition ex_want : CRD :=
  let leaf := mkSchema [] None in
  mkCRD "gpucellpools.cells.kubeswift.io"
    [mkVersion "v1alpha1" true (Some (Some
       (mkSchema [("spec", mkSchema [("replicas", leaf); ("updatePolicy", mkSchema [("type", leaf)] None)] None);
                  ("status", mkSchema [("cells", mkSchema []
                     (Some (Some (mkSchema [("name", leaf); ("templateHash", leaf)] None))))] None)] None)))].
Definition ex_got : CRD :=
  let leaf := mkSchema [] None in
  mkCRD "gpucellpools.cells.kubeswift.io"
    [mkVersion "v1alpha1" true (Some (Some
       (mkSchema [("spec", mkSchema [("replicas", leaf)] None);
                  ("status", mkSchema [("cells", mkSchema [] (Some (Some (mkSchema [("name", leaf)] None))))] None)]
          None)))].

Example ex_missing :
  missingPaths ex_want ex_got = Some ["v1alpha1.spec.updatePolicy"; "v1alpha1.status.cells[].templateHash"].
Proof. vm_compute. reflexivity. Qed.

Lemma ex_want_well_formed v s :
  v ∈ crd_Versions ex_want -> v_Schema v = Some (Some s) -> well_formed s = true.
Proof. intros ->%list_elem_of_singleton [= <-]. vm_compute. reflexivity. Qed.

Lemma missingPaths_exact_witness :
  missingPaths ex_want ex_got = Some ["v1alpha1.spec.updatePolicy"; "v1alpha1.status.cells[].templateHash"]
  /\ Sorted String.le ["v1alpha1.spec.updatePolicy"; "v1alpha1.status.cells[].templateHash"].
Proof.
  split; [exact ex_missing|].
  refine (proj1 (missingPaths_exact ex_want ex_got _ ex_want_well_formed _ _ ex_missing)).
  - intros v Hv. apply list_elem_of_singleton in Hv as ->. reflexivity.
  - intros v w g Hv. apply list_elem_of_singleton in Hv as ->. intros Hw Hg. injection Hw as <-.
    vm_compute in Hg. injection Hg as <-. vm_compute. reflexivity.
Defined.

(** The second manifest of the image does not decode. *)
Definition ex_unmarshal (raw : string) : result string CRD :=
  if raw == "pools" then Ok ex_want else Err "yaml: did not find expected key".
Definition ex_read (name : string) : result string string :=
  if name == "crd/pools.yaml" then Ok "pools" else if name == "crd/notes.yaml" then Ok "notes" else Err "file does not exist".

Lemma Verify_reports_all_witness :
  let get (name : string) : result APIError CRD := Ok ex_got in
  exists rs, Verify (Ok ["pools.yaml"]) ex_read ex_unmarshal get = Some (Ok rs)
    /\ Forall2 (verdict ex_read ex_unmarshal get) ["pools.yaml"] rs.
Proof.
  cbv zeta. apply (Verify_reports_all ex_read ex_unmarshal (fun _ => Ok ex_got)).
  - intros name c [= <-] v ->%list_elem_of_singleton. discriminate.
  - intros file ->%list_elem_of_singleton. vm_compute. reflexivity.
Defined.

Example ex_bad_manifest :
  Verify (Ok ["pools.yaml"; "notes.yaml"]) ex_read ex_unmarshal (fun _ => Err NotFound)
  = Some (Err (Parsing "crd/notes.yaml" "yaml: did not find expected key")).
Proof. vm_compute. reflexivity. Qed.
