(* ===== verification/Webhook.v ===== *)
(** * The admission webhook (internal/webhook/v1alpha1/gpucellpool_validator.go)

    The rules a GPUCellPool is admitted by, and what an admitted pool guarantees
    to the reconciler. *)

From S2P Require Import Prelude GoStd Api Json CellId Provisioner Helpers Unstructured Template.
From S2P Require Import ClusterApi.
Local Open Scope Z_scope.
Local Open Scope go_scope.

(** ** Field errors (k8s.io/apimachinery field.Error)

    A field path by its elements, the rejected value, what is wrong with it. *)
Inductive BadValue :=
| BadString (s : string)
| BadInt (n : int32)
| BadDRA (d : CellGPUDRASpec).

Inductive Detail :=
| DText (msg : string)
| DName (e : NameError)
| DTemplate (e : RenderError)
| DInterfaces.

Inductive FieldError :=
| Invalid (path : list string) (bad : BadValue) (detail : Detail)
| Required (path : list string) (detail : string)
| Forbidden (path : list string) (detail : string)
| NotSupported (path : list string) (bad : string) (supported : list string).

Definition shared_claim_why : string :=
  "a named resourceClaimName is a single claim and a VFIO device backs one VM, "
  +:+ "so more than one cell would double-book it; use resourceClaimTemplateName instead".

Definition when {A} (b : bool) (e : A) : list A := if b then [e] else [].

(** ** The rules *)

Definition validate_dra (p : list string) (gpu : CellGPUSpec) : list FieldError :=
  when (match gpu_Native gpu with Some _ => true | None => false end)
    (Forbidden (p ++ ["native"]) "set only one allocation backend: backend is DRA")
  ++ match gpu_DRA gpu with
     | None => [Required (p ++ ["dra"]) "required when backend is DRA"]
     | Some d =>
         let hasTemplate := dra_ResourceClaimTemplateName d != "" in
         let hasClaim := dra_ResourceClaimName d != "" in
         when (hasTemplate == hasClaim)
           (Invalid (p ++ ["dra"]) (BadDRA d)
              (DText "set exactly one of resourceClaimTemplateName or resourceClaimName"))
         ++ when ((dra_Tier d != "") && (dra_Tier d != "pcie"))
              (NotSupported (p ++ ["dra"; "tier"]) (dra_Tier d) ["pcie"])
     end.

Definition validate_native (p : list string) (gpu : CellGPUSpec) : list FieldError :=
  when (match gpu_DRA gpu with Some _ => true | None => false end)
    (Forbidden (p ++ ["dra"]) "set only one allocation backend: backend is Native")
  ++ when (match gpu_Native gpu with Some n => native_GPUProfileRef n == "" | None => true end)
       (Required (p ++ ["native"; "gpuProfileRef"]) "required when backend is Native").

Definition validateGPU (p : list string) (gpu : CellGPUSpec) : list FieldError :=
  let backend := if gpu_Backend gpu == "" then GPUBackendDRA else gpu_Backend gpu in
  when (negb (gpu_Count gpu =? 0) && negb (gpu_Count gpu =? 1))
    (Invalid (p ++ ["count"]) (BadInt (gpu_Count gpu))
       (DText "only 1 GPU per cell is supported in v1alpha1 (multi-GPU cells need NVLink topology work)"))
  ++ (if backend == GPUBackendDRA then validate_dra p gpu
      else if backend == GPUBackendNative then validate_native p gpu
      else [NotSupported (p ++ ["backend"]) backend [GPUBackendDRA; GPUBackendNative]]).

Definition validateSharedClaimIsSingleCell (p : list string) (pool : GPUCellPool) : list FieldError :=
  let spec := pool_Spec pool in
  match gpu_DRA (cell_GPU (spec_Cell spec)) with
  | None => []
  | Some dra =>
      if dra_ResourceClaimName dra == "" then []
      else
        when (1 <? spec_Replicas spec)
          (Invalid (p ++ ["replicas"]) (BadInt (spec_Replicas spec)) (DText shared_claim_why))
        ++ match spec_Autoscaling spec with
           | Some a =>
               match as_MaxReplicas a with
               | Some max =>
                   when (as_Enabled a && (1 <? max))
                     (Invalid (p ++ ["autoscaling"; "maxReplicas"]) (BadInt max) (DText shared_claim_why))
               | None => []
               end
           | None => []
           end
  end.

Definition capiExpressibleTemplateFields : list string := ["imageRef"; "guestClassRef"; "interfaces"].

(** The keys of a [map[string]json.RawMessage]; [None] is an error. *)
Definition unmarshal_keys (raw : string) : option (list string) :=
  match parse_json raw with
  | Some (JObj kvs) => Some (remove_dups (map fst kvs))
  | Some JNull => Some []
  | _ => None
  end.

Definition inexpressible_why : string :=
  "not expressible by a KubeSwiftMachine, so it would be silently dropped; "
  +:+ "provisioner ClusterAPI supports only " +:+ Join capiExpressibleTemplateFields ", ".

Definition HasSuffix (s suffix : string) : bool :=
  bool_decide (is_Some (strip (rev_string suffix "") (rev_string s ""))).

Definition contains (haystack : list string) (needle : string) : bool := bool_decide (needle ∈ haystack).

Definition validate_clusterapi (p : list string) (pool : GPUCellPool) : list FieldError :=
  let cell := spec_Cell (pool_Spec pool) in
  match cell_ClusterAPI cell with
  | None =>
      [Required (p ++ ["clusterAPI"])
         "required with provisioner: ClusterAPI — cells must name the CAPI Cluster they join"]
  | Some capi =>
      match capi_BootstrapConfigTemplateRef capi with
      | Some ref =>
          when (negb (HasSuffix (ref_Kind ref) "Template"))
            (Invalid (p ++ ["clusterAPI"; "bootstrapConfigTemplateRef"; "kind"]) (BadString (ref_Kind ref))
               (DText ("must be a template kind ending in " +:+ bytes [34]%nat +:+ "Template"
                       +:+ bytes [34]%nat +:+ ", e.g. KubeadmConfigTemplate")))
      | None => []
      end
      ++ match (if cell_GuestTemplate cell == "" then Some [] else unmarshal_keys (cell_GuestTemplate cell)) with
         | None => []
         | Some keys =>
             map (fun f => Forbidden (p ++ ["guestTemplate"; f]) inexpressible_why)
               (List.filter (fun f => negb (contains capiExpressibleTemplateFields f)) keys)
         end
  end.

Definition validateProvisioner (p : list string) (pool : GPUCellPool) : list FieldError :=
  let cell := spec_Cell (pool_Spec pool) in
  let name := if cell_Provisioner cell == "" then ProvisionerSwiftGuest else cell_Provisioner cell in
  if name == ProvisionerSwiftGuest then
    when (match cell_ClusterAPI cell with Some _ => true | None => false end)
      (Forbidden (p ++ ["clusterAPI"]) "only valid with provisioner: ClusterAPI")
  else if name == ProvisionerClusterAPI then validate_clusterapi p pool
  else [NotSupported (p ++ ["provisioner"]) name [ProvisionerSwiftGuest; ProvisionerClusterAPI]].

(** ** The interfaces of a template

    Decoded into a slice of structs with a name. A later "interfaces" member
    decodes over the elements of an earlier one, which keep what it does not set;
    null and the empty list drop them. The state is those elements, the length of
    the slice, and whether no type error was met. *)
Definition set_name (st : string * bool) (kv : string * JSON) : string * bool :=
  let '(old, ok) := st in
  if EqualFold kv.1 "name" then
    match kv.2 with JStr s => (s, ok) | JNull => (old, ok) | _ => (old, false) end
  else st.

Definition decode_interface (old : string) (v : JSON) : string * bool :=
  match v with
  | JObj kvs => foldl set_name (old, true) kvs
  | JNull => (old, true)
  | _ => (old, false)
  end.

Fixpoint decode_interfaces (old : list string) (l : list JSON) : list string * bool :=
  match l with
  | [] => (old, true)
  | v :: rest =>
      let '(n, ok) := decode_interface (hd "" old) v in
      let '(ns, ok') := decode_interfaces (tl old) rest in
      (n :: ns, ok && ok')
  end.

Definition set_interfaces (st : list string * nat * bool) (kv : string * JSON) : list string * nat * bool :=
  let '(old, n, ok) := st in
  if EqualFold kv.1 "interfaces" then
    match kv.2 with
    | JNull | JArr [] => ([], O, ok)
    | JArr l => let '(ns, ok') := decode_interfaces old l in (ns, length l, ok && ok')
    | _ => (old, n, false)
    end
  else st.

Definition interfaceNames (raw : string) : option (list string) :=
  match parse_json raw with
  | Some (JObj kvs) =>
      let '(ns, n, ok) := foldl set_interfaces ([], O, true) kvs in
      if ok : bool then Some (List.filter (fun s => s != "") (take n ns)) else None
  | Some JNull => Some []
  | _ => None
  end.

Definition validateTemplate (p : list string) (pool : GPUCellPool) : list FieldError :=
  let cell := spec_Cell (pool_Spec pool) in
  match ValidateTemplate (cell_GuestTemplate cell) with
  | Err e => [Invalid (p ++ ["guestTemplate"]) (BadString "<SwiftGuestSpec>") (DTemplate e)]
  | Ok _ =>
      let want := cell_NodeIPFrom cell in
      if want == "" then []
      else
        match interfaceNames (cell_GuestTemplate cell) with
        | None => [Invalid (p ++ ["guestTemplate"; "interfaces"]) (BadString "<interfaces>") DInterfaces]
        | Some [] =>
            [Invalid (p ++ ["nodeIPFrom"]) (BadString want)
               (DText "guestTemplate declares no interfaces, so this name cannot be resolved")]
        | Some names => when (negb (contains names want)) (NotSupported (p ++ ["nodeIPFrom"]) want names)
        end
  end.

Definition validateBootstrap (p : list string) (pool : GPUCellPool) : list FieldError :=
  let b := spec_Bootstrap (pool_Spec pool) in
  let provider := if boot_Provider b == "" then BootstrapProviderOpaque else boot_Provider b in
  let named := match boot_JoinSecretRef b with Some n => n != "" | None => false end in
  if capiOwnsBootstrap pool then
    when named
      (Forbidden (p ++ ["joinSecretRef"])
         ("unused when cell.clusterAPI.bootstrapConfigTemplateRef is set: "
          +:+ "the workload cluster's bootstrap provider supplies the join data"))
  else
    when ((provider == BootstrapProviderOpaque) && negb named)
      (Required (p ++ ["joinSecretRef"])
         "required for the Opaque provider: without it a cell boots with no cloud-init and never joins").

Definition validateWorkloadCluster (p : list string) (w : WorkloadClusterSpec) : list FieldError :=
  when (wc_KubeconfigSecretRef w == "")
    (Required (p ++ ["kubeconfigSecretRef"; "name"]) "a credential for the workload cluster is required").

Definition validateAutoscaling (p : list string) (pool : GPUCellPool) : list FieldError :=
  match spec_Autoscaling (pool_Spec pool) with
  | None => []
  | Some a =>
      if negb (as_Enabled a) then []
      else
        when (match as_MaxReplicas a with None => true | Some _ => false end)
          (Required (p ++ ["maxReplicas"])
             "required when autoscaling is enabled: an unbounded pool can consume every GPU in the cluster")
        ++ match as_MinReplicas a, as_MaxReplicas a with
           | Some min, Some max =>
               when (max <? min)
                 (Invalid (p ++ ["minReplicas"]) (BadInt min) (DText "must not exceed maxReplicas"))
           | _, _ => []
           end
        ++ when ((as_ScaleDown a == ScaleDownAuto)
                 && match as_MinReplicas a with None => true | Some _ => false end)
             (Required (p ++ ["minReplicas"])
                ("required with scaleDown: Auto — without a floor the pool can shrink to zero cells "
                 +:+ "and every later request pays a full cell boot"))
  end.

Definition validateCapacity (p : list string) (c : CapacitySpec) : list FieldError :=
  when (match cap_HAMi c with
        | Some h => (hami_Mode h == HAMiModeDRA) && (hami_DeviceClassName h == "")
        | None => false
        end)
    (Required (p ++ ["hami"; "deviceClassName"])
       "required in DRA mode: without it there is no way to find the ResourceSlices carrying capacity").

Fixpoint reachable_of (conds : list Condition) : bool :=
  match conds with
  | [] => true
  | c :: rest =>
      if c_Type c == ConditionWorkloadClusterReachable
      then match c_Status c with ConditionTrue => true | _ => false end
      else reachable_of rest
  end.
Definition workloadReachable (pool : GPUCellPool) : bool := reachable_of (st_Conditions (pool_Status pool)).

(** [dns] is validation.IsDNS1123Subdomain. *)
Definition Validate (dns : string -> list string) (pool : GPUCellPool) (old : option GPUCellPool)
    : list FieldError :=
  let spec := pool_Spec pool in
  match ValidatePool dns (pool_Name pool) with
  | Err e => [Invalid ["metadata"; "name"] (BadString (pool_Name pool)) (DName e)]
  | Ok _ => []
  end
  ++ validateProvisioner ["spec"; "cell"] pool
  ++ validateGPU ["spec"; "cell"; "gpu"] (cell_GPU (spec_Cell spec))
  ++ validateSharedClaimIsSingleCell ["spec"] pool
  ++ validateTemplate ["spec"; "cell"] pool
  ++ validateBootstrap ["spec"; "bootstrap"] pool
  ++ validateWorkloadCluster ["spec"; "workloadCluster"] (spec_WorkloadCluster spec)
  ++ validateCapacity ["spec"; "capacity"] (spec_Capacity spec)
  ++ validateAutoscaling ["spec"; "autoscaling"] pool
  ++ match old with
     | Some old =>
         when ((spec_Replicas spec <? spec_Replicas (pool_Spec old)) && negb (workloadReachable old))
           (Forbidden ["spec"; "replicas"]
              ("cannot scale down while WorkloadClusterReachable is not True: "
               +:+ "cells cannot be drained without access to the workload cluster"))
     | None => []
     end.

(** The three webhooks: [None] admits. *)
Definition invalidOrNil (errs : list FieldError) : option (list FieldError) :=
  if len errs =? 0 then None else Some errs.
Definition ValidateCreate (dns : string -> list string) (pool : GPUCellPool) : option (list FieldError) :=
  invalidOrNil (Validate dns pool None).
Definition ValidateUpdate (dns : string -> list string) (old pool : GPUCellPool) : option (list FieldError) :=
  invalidOrNil (Validate dns pool (Some old)).
Definition ValidateDelete (pool : GPUCellPool) : option (list FieldError) := None.
