(* ===== verification/Admission.v ===== *)
(** * What admission guarantees the controller

    The rules of the webhook stated as what they accept, and what a pool that
    passed them spares the reconciler: every cell request renders, no error of its
    configuration is left to be found at run time, no cell is planned beside a live
    one on a claim of one GPU, and the range a pool scales in. Where the rules do
    not do what is documented, examples say so. *)

From S2P Require Import Prelude GoStd Api KubeApi Json CellId Provisioner Helpers Unstructured Template.
From S2P Require Import CellObjects SwiftGuest ClusterApi Scaling Fsm Membership Rollout Status Provider.
From S2P Require Import Workload Inventory HamiProvider Bootstrap CellRow Webhook Reconciler Controller ExampleWorld Lifecycle.
Local Open Scope Z_scope.
Local Open Scope go_scope.

(** ** What admission accepts *)

Lemma when_nil {A} b (e : A) : when b e = [] <-> b = false.
Proof. by destruct b. Qed.

Lemma contains_elem l s : contains l s = true <-> s ∈ l.
Proof. apply bool_decide_eq_true. Qed.

(** The name a cell's provisioner goes by, with the default. *)
Definition swift_guest_mode (pool : GPUCellPool) : Prop :=
  let cell := spec_Cell (pool_Spec pool) in
  (cell_Provisioner cell = "" \/ cell_Provisioner cell = ProvisionerSwiftGuest)
  /\ cell_ClusterAPI cell = None.

Definition cluster_api_mode (pool : GPUCellPool) : Prop :=
  let cell := spec_Cell (pool_Spec pool) in
  cell_Provisioner cell = ProvisionerClusterAPI /\
  exists capi, cell_ClusterAPI cell = Some capi
    /\ (forall ref, capi_BootstrapConfigTemplateRef capi = Some ref -> HasSuffix (ref_Kind ref) "Template" = true)
    /\ (forall keys, cell_GuestTemplate cell <> "" -> unmarshal_keys (cell_GuestTemplate cell) = Some keys ->
          forall k, k ∈ keys -> k ∈ capiExpressibleTemplateFields).

Lemma validateProvisioner_nil p pool :
  validateProvisioner p pool = [] <-> swift_guest_mode pool \/ cluster_api_mode pool.
Proof.
  unfold validateProvisioner, swift_guest_mode, cluster_api_mode. cbv zeta.
  set (cell := spec_Cell (pool_Spec pool)).
  destruct (bool_decide_reflect (cell_Provisioner cell = "")) as [E0|E0].
  { rewrite bool_decide_eq_true_2 by done. rewrite when_nil. rewrite E0.
    destruct (cell_ClusterAPI cell); naive_solver. }
  destruct (bool_decide_reflect (cell_Provisioner cell = ProvisionerSwiftGuest)) as [E1|E1].
  { rewrite when_nil. rewrite E1. destruct (cell_ClusterAPI cell); naive_solver. }
  destruct (bool_decide_reflect (cell_Provisioner cell = ProvisionerClusterAPI)) as [E2|E2]; [|naive_solver].
  unfold validate_clusterapi. fold cell.
  destruct (cell_ClusterAPI cell) as [capi|]; [|naive_solver].
  rewrite app_nil.
  assert ((match capi_BootstrapConfigTemplateRef capi with
           | Some ref => when (negb (HasSuffix (ref_Kind ref) "Template"))
               (Invalid (p ++ ["clusterAPI"; "bootstrapConfigTemplateRef"; "kind"]) (BadString (ref_Kind ref))
                  (DText ("must be a template kind ending in " +:+ bytes [34]%nat +:+ "Template"
                          +:+ bytes [34]%nat +:+ ", e.g. KubeadmConfigTemplate")))
           | None => [] end = [])
          <-> forall ref, capi_BootstrapConfigTemplateRef capi = Some ref -> HasSuffix (ref_Kind ref) "Template" = true) as ->.
  { destruct (capi_BootstrapConfigTemplateRef capi) as [ref|]; [|done]. rewrite when_nil, negb_false_iff.
    naive_solver. }
  assert (forall keys,
    map (fun f => Forbidden (p ++ ["guestTemplate"; f]) inexpressible_why)
      (List.filter (fun f => negb (contains capiExpressibleTemplateFields f)) keys) = []
    <-> forall k, k ∈ keys -> k ∈ capiExpressibleTemplateFields) as Hk.
  { intros keys. rewrite map_filter_nil. setoid_rewrite negb_false_iff. by setoid_rewrite contains_elem. }
  destruct (bool_decide_reflect (cell_GuestTemplate cell = "")) as [Et|Et].
  - rewrite Hk. split.
    + intros [Hr _]. right. split; [done|]. exists capi. by split_and!.
    + intros [[[?|?] _]|(_ & c & [= <-] & Hr & _)]; [done..|]. split; [done|]. by intros k ?%elem_of_nil.
  - destruct (unmarshal_keys (cell_GuestTemplate cell)) as [keys|]; [rewrite Hk|]; split.
    + intros [Hr Hf]. right. split; [done|]. exists capi. split_and!; [done..|]. by intros ? _ [= <-].
    + intros [[[?|?] _]|(_ & c & [= <-] & Hr & Hf)]; [done..|]. split; [done|]. by apply Hf.
    + intros [Hr _]. right. split; [done|]. exists capi. by split_and!.
    + intros [[[?|?] _]|(_ & c & [= <-] & Hr & _)]; done.
Qed.

Record gpu_admissible (gpu : CellGPUSpec) : Prop := {
  ga_count : gpu_Count gpu = 0 \/ gpu_Count gpu = 1;
  ga_backend :
    ((gpu_Backend gpu = "" \/ gpu_Backend gpu = GPUBackendDRA) /\ gpu_Native gpu = None
     /\ exists d, gpu_DRA gpu = Some d
          /\ (dra_ResourceClaimTemplateName d = "" <-> dra_ResourceClaimName d <> "")
          /\ (dra_Tier d = "" \/ dra_Tier d = "pcie"))
    \/ (gpu_Backend gpu = GPUBackendNative /\ gpu_DRA gpu = None
        /\ exists n, gpu_Native gpu = Some n /\ native_GPUProfileRef n <> "")
}.

Lemma validate_dra_nil p gpu :
  validate_dra p gpu = [] <->
  gpu_Native gpu = None /\ exists d, gpu_DRA gpu = Some d
     /\ (dra_ResourceClaimTemplateName d = "" <-> dra_ResourceClaimName d <> "")
     /\ (dra_Tier d = "" \/ dra_Tier d = "pcie").
Proof.
  unfold validate_dra. rewrite app_nil, when_nil.
  destruct (gpu_Native gpu), (gpu_DRA gpu) as [d|]; simpl; [naive_solver..| |naive_solver].
  rewrite app_nil, !when_nil.
  destruct (bool_decide_reflect (dra_ResourceClaimTemplateName d = ""));
    destruct (bool_decide_reflect (dra_ResourceClaimName d = ""));
    destruct (bool_decide_reflect (dra_Tier d = ""));
    destruct (bool_decide_reflect (dra_Tier d = "pcie")); simpl; naive_solver.
Qed.

Lemma validate_native_nil p gpu :
  validate_native p gpu = [] <->
  gpu_DRA gpu = None /\ exists n, gpu_Native gpu = Some n /\ native_GPUProfileRef n <> "".
Proof.
  unfold validate_native. rewrite app_nil, !when_nil.
  destruct (gpu_DRA gpu), (gpu_Native gpu) as [n|]; [naive_solver..| |naive_solver].
  rewrite bool_decide_eq_false. naive_solver.
Qed.

Lemma validateGPU_nil p gpu : validateGPU p gpu = [] <-> gpu_admissible gpu.
Proof.
  unfold validateGPU. cbv zeta. rewrite app_nil, when_nil, andb_false_iff, !negb_false_iff, !Z.eqb_eq.
  assert (GPUBackendDRA <> GPUBackendNative) as Hne by done.
  destruct (bool_decide_reflect (gpu_Backend gpu = "")) as [E0|E0].
  { rewrite bool_decide_eq_true_2 by done. rewrite validate_dra_nil.
    split; [intros [? ?]; split; auto|]. intros [? [(_ & ?)|(E & _)]]; [done|by rewrite E0 in E]. }
  destruct (bool_decide_reflect (gpu_Backend gpu = GPUBackendDRA)) as [E1|E1].
  { rewrite validate_dra_nil.
    split; [intros [? ?]; split; auto|]. intros [? [(_ & ?)|(E & _)]]; [done|by rewrite E1 in E]. }
  destruct (bool_decide_reflect (gpu_Backend gpu = GPUBackendNative)) as [E2|E2].
  { rewrite validate_native_nil. split; [intros [? ?]; split; auto|].
    by intros [? [([?|?] & _)|(_ & ?)]]. }
  split; [by intros [_ ?]|]. by intros [_ [([?|?] & _)|(? & _)]].
Qed.

(** A claim named for the pool is one device: one cell. *)
Definition shared_claim_single (pool : GPUCellPool) : Prop :=
  forall d, gpu_DRA (cell_GPU (spec_Cell (pool_Spec pool))) = Some d -> dra_ResourceClaimName d <> "" ->
    spec_Replicas (pool_Spec pool) <= 1
    /\ forall a max, spec_Autoscaling (pool_Spec pool) = Some a -> as_Enabled a = true ->
         as_MaxReplicas a = Some max -> max <= 1.

Lemma validateSharedClaimIsSingleCell_nil p pool :
  validateSharedClaimIsSingleCell p pool = [] <-> shared_claim_single pool.
Proof.
  unfold validateSharedClaimIsSingleCell, shared_claim_single. cbv zeta.
  destruct (gpu_DRA _) as [d|]; [|done].
  destruct (bool_decide_reflect (dra_ResourceClaimName d = "")); [naive_solver|].
  rewrite app_nil, when_nil, Z.ltb_ge. split.
  - intros [Hr Ha] d' [= <-] _. split; [done|]. intros a max Ea He Em. rewrite Ea, Em, He in Ha.
    rewrite when_nil in Ha. simpl in Ha. lia.
  - intros H. destruct (H d eq_refl) as [Hr Ha]; [done|]. split; [done|].
    destruct (spec_Autoscaling (pool_Spec pool)) as [a|]; [|done].
    destruct (as_MaxReplicas a) as [max|] eqn:Em; [|done]. rewrite when_nil.
    destruct (as_Enabled a) eqn:Ee; [|done]. specialize (Ha a max eq_refl Ee Em). simpl. lia.
Qed.

Definition node_ip_resolvable (cell : CellSpec) : Prop :=
  cell_NodeIPFrom cell <> "" ->
  exists names, interfaceNames (cell_GuestTemplate cell) = Some names /\ cell_NodeIPFrom cell ∈ names.

(** The field contract of [Template]: nothing the operator owns, nothing a GPU
    cell cannot have, both references. *)
Definition template_admissible (raw : string) : Prop :=
  exists tmpl, unmarshal_object raw = Some tmpl /\ template_ok tmpl.

Lemma validateTemplate_nil p pool :
  let cell := spec_Cell (pool_Spec pool) in
  validateTemplate p pool = [] <->
  template_admissible (cell_GuestTemplate cell) /\ node_ip_resolvable cell.
Proof.
  cbv zeta. unfold template_admissible. rewrite <- ValidateTemplate_ok_iff. unfold validateTemplate, node_ip_resolvable. cbv zeta.
  destruct (ValidateTemplate _) as [[]|e]; [|by split; [|intros [? _]]].
  destruct (bool_decide_reflect (cell_NodeIPFrom (spec_Cell (pool_Spec pool)) = "")) as [E|E]; [naive_solver|].
  destruct (interfaceNames _) as [[|x names]|].
  - split; [done|]. intros [_ H]. destruct (H E) as (? & [= <-] & ?%elem_of_nil). done.
  - rewrite when_nil, negb_false_iff, contains_elem. split; [intros H; split; [done|eauto]|].
    intros [_ H]. by destruct (H E) as (? & [= <-] & ?).
  - split; [done|]. intros [_ H]. by destruct (H E) as (? & ? & _).
Qed.

Definition bootstrap_admissible (pool : GPUCellPool) : Prop :=
  let b := spec_Bootstrap (pool_Spec pool) in
  if capiOwnsBootstrap pool then forall n, boot_JoinSecretRef b = Some n -> n = ""
  else boot_Provider b = "" \/ boot_Provider b = BootstrapProviderOpaque ->
       exists n, boot_JoinSecretRef b = Some n /\ n <> "".

Lemma validateBootstrap_nil p pool : validateBootstrap p pool = [] <-> bootstrap_admissible pool.
Proof.
  unfold validateBootstrap, bootstrap_admissible. cbv zeta. set (b := spec_Bootstrap (pool_Spec pool)).
  assert (match boot_JoinSecretRef b with Some n => n != "" | None => false end = false
          <-> forall n, boot_JoinSecretRef b = Some n -> n = "") as Hn.
  { destruct (boot_JoinSecretRef b) as [n|]; [|done]. rewrite negb_false_iff, bool_decide_eq_true. naive_solver. }
  assert (match boot_JoinSecretRef b with Some n => n != "" | None => false end = true
          <-> exists n, boot_JoinSecretRef b = Some n /\ n <> "") as Hy.
  { destruct (boot_JoinSecretRef b) as [n|]; [|naive_solver].
    rewrite negb_true_iff, bool_decide_eq_false. naive_solver. }
  destruct (capiOwnsBootstrap pool); rewrite when_nil; [done|]. rewrite <- Hy, andb_false_iff, negb_false_iff.
  destruct (bool_decide_reflect (boot_Provider b = "")) as [->|E].
  - rewrite bool_decide_eq_true_2 by done. naive_solver.
  - rewrite bool_decide_eq_false. split; [naive_solver|].
    destruct (decide (boot_Provider b = BootstrapProviderOpaque)); naive_solver.
Qed.

Definition capacity_admissible (c : CapacitySpec) : Prop :=
  forall h, cap_HAMi c = Some h -> hami_Mode h = HAMiModeDRA -> hami_DeviceClassName h <> "".

Lemma validateCapacity_nil p c : validateCapacity p c = [] <-> capacity_admissible c.
Proof.
  unfold validateCapacity, capacity_admissible. rewrite when_nil. destruct (cap_HAMi c) as [h|]; [|done].
  rewrite andb_false_iff, !bool_decide_eq_false. split; [naive_solver|].
  intros H. destruct (decide (hami_Mode h = HAMiModeDRA)); [right|by left]. by apply H.
Qed.

Definition autoscaling_admissible (pool : GPUCellPool) : Prop :=
  forall a, spec_Autoscaling (pool_Spec pool) = Some a -> as_Enabled a = true ->
    exists max, as_MaxReplicas a = Some max
      /\ (forall min, as_MinReplicas a = Some min -> min <= max)
      /\ (as_ScaleDown a = ScaleDownAuto -> is_Some (as_MinReplicas a)).

Lemma validateAutoscaling_nil p pool : validateAutoscaling p pool = [] <-> autoscaling_admissible pool.
Proof.
  unfold validateAutoscaling, autoscaling_admissible.
  destruct (spec_Autoscaling (pool_Spec pool)) as [a|]; [|done].
  destruct (as_Enabled a) eqn:Ee; cbn [negb]; [|split; [|done]; intros _ a' [= <-]; by rewrite Ee].
  rewrite !app_nil, !when_nil, andb_false_iff, bool_decide_eq_false.
  destruct (as_MaxReplicas a) as [max|] eqn:Em.
  2: { split; [by intros [? _]|]. intros H. destruct (H a eq_refl Ee) as (max & E & _). congruence. }
  destruct (as_MinReplicas a) as [min|] eqn:En.
  - rewrite when_nil, Z.ltb_ge. split.
    + intros (_ & Hm & _) a' [= <-] _. exists max. rewrite En. split_and!; [done| |eauto]. by intros ? [= <-].
    + intros H. destruct (H a eq_refl Ee) as (m & E & Hm & _). rewrite Em in E. injection E as <-.
      split_and!; [done|by apply Hm|by right].
  - split.
    + intros (_ & _ & Hs) a' [= <-] _. exists max. rewrite En. split_and!; [done..|].
      intros E. destruct Hs as [Hs|Hs]; done.
    + intros H. destruct (H a eq_refl Ee) as (m & _ & _ & Hs). rewrite En in Hs. split_and!; [done..|].
      left. intros E. by destruct (Hs E).
Qed.

(** ** The whole validator *)

Record admissible (dns : string -> list string) (pool : GPUCellPool) : Prop := {
  ad_name : ValidatePool dns (pool_Name pool) = Ok tt;
  ad_mode : swift_guest_mode pool \/ cluster_api_mode pool;
  ad_gpu : gpu_admissible (cell_GPU (spec_Cell (pool_Spec pool)));
  ad_shared : shared_claim_single pool;
  ad_template : template_admissible (cell_GuestTemplate (spec_Cell (pool_Spec pool)));
  ad_node_ip : node_ip_resolvable (spec_Cell (pool_Spec pool));
  ad_bootstrap : bootstrap_admissible pool;
  ad_kubeconfig : wc_KubeconfigSecretRef (spec_WorkloadCluster (pool_Spec pool)) <> "";
  ad_capacity : capacity_admissible (spec_Capacity (pool_Spec pool));
  ad_autoscaling : autoscaling_admissible pool
}.

(** An update that shrinks the pool while the last published status says that the
    workload cluster does not answer. *)
Definition blind_shrink (old pool : GPUCellPool) : Prop :=
  spec_Replicas (pool_Spec pool) < spec_Replicas (pool_Spec old) /\ workloadReachable old = false.

Lemma Validate_nil dns pool old :
  Validate dns pool old = [] <->
  admissible dns pool /\ match old with Some old => ~ blind_shrink old pool | None => True end.
Proof.
  unfold Validate. cbv zeta. rewrite !app_nil, validateProvisioner_nil, validateGPU_nil,
    validateSharedClaimIsSingleCell_nil, validateTemplate_nil, validateBootstrap_nil, validateCapacity_nil,
    validateAutoscaling_nil.
  unfold validateWorkloadCluster. rewrite when_nil, bool_decide_eq_false.
  assert (match ValidatePool dns (pool_Name pool) with
          | Ok _ => []
          | Err e => [Invalid ["metadata"; "name"] (BadString (pool_Name pool)) (DName e)] end = []
          <-> ValidatePool dns (pool_Name pool) = Ok tt) as ->
    by (destruct (ValidatePool _ _) as [[]|]; naive_solver).
  assert (match old with
          | Some old => when ((spec_Replicas (pool_Spec pool) <? spec_Replicas (pool_Spec old))
                              && negb (workloadReachable old))
              (Forbidden ["spec"; "replicas"]
                 ("cannot scale down while WorkloadClusterReachable is not True: "
                  +:+ "cells cannot be drained without access to the workload cluster"))
          | None => []
          end = [] <-> match old with Some old => ~ blind_shrink old pool | None => True end) as ->.
  { destruct old as [old|]; [|done]. rewrite when_nil, andb_false_iff, negb_false_iff, Z.ltb_ge.
    unfold blind_shrink. destruct (workloadReachable old); [naive_solver|].
    split; [intros [?|?] [? _]; [lia|done]|]. intros H. left.
    destruct (Z.le_gt_cases (spec_Replicas (pool_Spec old)) (spec_Replicas (pool_Spec pool))); [done|].
    exfalso. apply H. split; [lia|done]. }
  split.
  - intros (? & ? & ? & ? & [? ?] & ? & ? & ? & ? & ?). split; [|done]. by split.
  - intros [[] ?]. by split_and!.
Qed.

Lemma invalidOrNil_None errs : invalidOrNil errs = None <-> errs = [].
Proof.
  unfold invalidOrNil. destruct (Z.eqb_spec (len errs) 0) as [E|E]; rewrite len_zero in E; [done|].
  split; [done|]. by intros ->.
Qed.

(** ** Where the rules are as documented *)

(** An interface a KubeSwiftMachine can carry: a network by its name. *)
Definition network_of (v : JSON) : string := match v with JObj m => nestedRefName m "networkRef" | _ => "" end.
Definition primary_interface (v : JSON) : bool := match v with JObj m => as_bool (field "primary" m) | _ => false end.

(** The interfaces of a template a KubeSwiftMachine has room for: one primary and
    one other network. The rule on templates looks at the top-level members only;
    with more interfaces, the rest is admitted and dropped
    ([extra_interfaces_dropped]). *)
Definition interfaces_fit (tmpl : object) : Prop :=
  forall v, field "interfaces" tmpl = Some v ->
    exists l, v = JArr l /\ Forall (fun i => network_of i <> "") l
      /\ (length (List.filter primary_interface l) <= 1)%nat
      /\ (length (List.filter (fun i => negb (primary_interface i)) l) <= 1)%nat.

(** Each of them reaches the machine. *)
Lemma add_networks_kept l : forall p s,
  Forall (fun i => network_of i <> "") l ->
  (length (List.filter primary_interface l) <= if p == "" then 1 else 0)%nat ->
  (length (List.filter (fun i => negb (primary_interface i)) l) <= if s == "" then 1 else 0)%nat ->
  let '(p', s') := foldl add_network (p, s) l in
  (p <> "" -> p' = p) /\ (s <> "" -> s' = s)
  /\ forall i, i ∈ l -> network_of i = if primary_interface i then p' else s'.
Proof.
  induction l as [|i l IH]; intros p s Hn Hp Hs; [split_and!; [done..|]; by intros ? ?%elem_of_nil|].
  apply Forall_cons in Hn as [Hi Hn]. cbn [foldl]. cbn [List.filter] in Hp, Hs.
  assert (add_network (p, s) i = if primary_interface i then (network_of i, s) else (p, network_of i)) as ->.
  { destruct i as [| | | | | | |m]; try done. simpl in *. rewrite bool_decide_eq_false_2 by done.
    destruct (as_bool _); simpl in *; [destruct (bool_decide_reflect (p = ""))|destruct (bool_decide_reflect (s = ""))];
      simpl in *; [done|lia|done|lia]. }
  destruct (primary_interface i) eqn:Ei; cbn [negb length] in *.
  - destruct (bool_decide_reflect (p = "")) as [->|]; [|lia].
    specialize (IH (network_of i) s Hn). rewrite bool_decide_eq_false_2 in IH by done.
    specialize (IH ltac:(lia) Hs). destruct (foldl _ _ _) as [p' s']. destruct IH as (H1 & H2 & H3).
    split_and!; [done..|]. intros j [->|Hj]%elem_of_cons; [rewrite Ei; by rewrite H1|by apply H3].
  - destruct (bool_decide_reflect (s = "")) as [->|]; [|lia].
    specialize (IH p (network_of i) Hn Hp). rewrite (bool_decide_eq_false_2 (network_of i = "")) in IH by done.
    specialize (IH ltac:(lia)). destruct (foldl _ _ _) as [p' s']. destruct IH as (H1 & H2 & H3).
    split_and!; [done..|]. intros j [->|Hj]%elem_of_cons; [rewrite Ei; by rewrite H2|by apply H3].
Qed.

Lemma fitting_interfaces_carried tmpl l :
  interfaces_fit tmpl -> field "interfaces" tmpl = Some (JArr l) ->
  forall i, i ∈ l ->
    network_of i = if primary_interface i then (interfaceNetworks tmpl).1 else (interfaceNetworks tmpl).2.
Proof.
  intros Hf Hl i Hi. destruct (Hf _ Hl) as (? & [= <-] & Hn & Hp & Hs).
  pose proof (add_networks_kept l "" "" Hn Hp Hs) as Hk. unfold interfaceNetworks. rewrite Hl.
  destruct (foldl _ _ _) as [p s]. by apply Hk.
Qed.

(** The names of the interfaces the guest's spec will have: the members as the
    template writes them. *)
Definition written_names (tmpl : object) : list string :=
  match field "interfaces" tmpl with
  | Some (JArr l) => map (fun v => match v with JObj m => as_string (field "name" m) | _ => "" end) l
  | _ => []
  end.

(** The pools on which the rules do what the comments next to them and the API's
    documentation say. Outside are three findings: interfaces beyond the two a
    KubeSwiftMachine has ([extra_interfaces_dropped]), an interface named by a
    member in another case ([folded_interfaces_admitted]), and spec.replicas above
    maxReplicas without minReplicas ([replicas_over_maxReplicas]). *)
Record as_documented (pool : GPUCellPool) : Prop := {
  doc_interfaces : cluster_api_mode pool ->
    forall tmpl, unmarshal_object (cell_GuestTemplate (spec_Cell (pool_Spec pool))) = Some tmpl -> interfaces_fit tmpl;
  doc_names : node_ip_resolvable (spec_Cell (pool_Spec pool)) ->
    let cell := spec_Cell (pool_Spec pool) in
    cell_NodeIPFrom cell <> "" ->
    forall tmpl, unmarshal_object (cell_GuestTemplate cell) = Some tmpl -> cell_NodeIPFrom cell ∈ written_names tmpl;
  doc_ceiling : forall a max, spec_Autoscaling (pool_Spec pool) = Some a -> as_Enabled a = true ->
    as_MinReplicas a = None -> as_MaxReplicas a = Some max -> spec_Replicas (pool_Spec pool) <= max
}.

(** C7. The webhook admits exactly the admissible pools, on an update with one more
    rule: never shrink blind. This is for the pools on which the rules are as
    documented; three kinds are excluded here and recorded as findings, because
    the webhook admits them against its documentation: a Cluster API pool with
    more interfaces than the two a KubeSwiftMachine carries, a nodeIPFrom that
    matches an interface only when case is ignored, and spec.replicas above
    maxReplicas without minReplicas. What is not admissible is refused whatever
    the pool. *)
Theorem webhook_admits_iff dns pool :
  (~ admissible dns pool -> ValidateCreate dns pool <> None /\ forall old, ValidateUpdate dns old pool <> None)
  /\ (as_documented pool ->
      (ValidateCreate dns pool = None <-> admissible dns pool)
      /\ forall old, ValidateUpdate dns old pool = None <-> admissible dns pool /\ ~ blind_shrink old pool).
Proof.
  unfold ValidateCreate, ValidateUpdate.
  split; [intros Hn|intros _]; (split; [|intros old]); rewrite invalidOrNil_None, Validate_nil; tauto.
Qed.

(** ** What can still go wrong *)

(** An error of the objects of a cell that admission cannot foresee: the API
    server's, or the content of the bootstrap template the pool names. *)
Definition unforeseen (req : CellRequest) (e : ProvError) : Prop :=
  match e with
  | ProvAPI _ => True
  | ProvInvalid _ => bootstrapTemplateRef req <> None
  | ProvRender _ _ => False
  end.

Lemma unforeseen_wrap req c e : unforeseen req e -> unforeseen req (wrap_error c e).
Proof. by destruct e. Qed.

Create HintDb fails.

Section failures.
Context {W : Type} `{InfraCluster W} `{Nested} (req : CellRequest).

Definition fails {A} (m : PM W A) : Prop := forall w e w', m w = (Err e, w') -> unforeseen req e.

Lemma fails_ret {A} (a : A) : fails (mret a).
Proof. by intros w e w'. Qed.
Lemma fails_bind {A B} (m : PM W A) (f : A -> PM W B) : fails m -> (forall a, fails (f a)) -> fails (m ≫= f).
Proof.
  intros Hm Hf w e w'. unfold mbind, PM_bind. destruct (m w) as [[a|e1] w1] eqn:E; [apply Hf|].
  intros [= <- <-]. by apply (Hm _ _ _ E).
Qed.
Lemma fails_ask {A} (f : W -> A) : fails (pask f).
Proof. by intros w e w'. Qed.
Lemma fails_do {A} (f : W -> A * W) : fails (pdo f).
Proof. intros w e w'. unfold pdo. by destruct (f w). Qed.
Lemma fails_api {A} c (e : APIError) : fails (A := A) (pfail (api_error c e)).
Proof. by intros w e' w' [= <- <-]. Qed.
Lemma fails_lift_api {A} c (r : result APIError A) : fails (plift (api_error c) r).
Proof. intros w e w'. unfold plift. destruct r; [done|]. by intros [= <- <-]. Qed.
Lemma fails_lift_ok {E A} (wrap : E -> ProvError) (r : result E A) a : r = Ok a -> fails (plift wrap r).
Proof. by intros -> w e w'. Qed.
Lemma fails_wrap {A} c (m : PM W A) : fails m -> fails (pwrap c m).
Proof.
  intros Hm w e w'. unfold pwrap. destruct (m w) as [[a|e1] w1] eqn:E; [done|].
  intros [= <- <-]. by apply unforeseen_wrap, (Hm _ _ _ E).
Qed.
Hint Resolve fails_ret fails_ask fails_do fails_api fails_lift_api : fails.

Lemma fails_get_or {A} gvk ns n c (f : UObject -> PM W A) g :
  (forall o, fails (f o)) -> fails g -> fails (get_or gvk ns n c f g).
Proof.
  intros Hf Hg. apply fails_bind; [auto with fails|]. intros [o|e]; [done|].
  destruct (IsNotFound e); auto with fails.
Qed.

Lemma fails_create o : fails (create o).
Proof. apply fails_bind; auto with fails. Qed.
Hint Resolve fails_create : fails.

Lemma fails_SwiftGuest_Ensure spec : renderGuestSpec req = Ok spec -> fails (SwiftGuest_Ensure req).
Proof.
  intros Hr. apply fails_bind; [apply fails_wrap, fails_get_or|intros []; apply fails_bind].
  - auto with fails.
  - apply fails_bind; auto with fails.
  - apply fails_wrap, fails_get_or; [auto with fails|]. apply fails_bind; [by eapply fails_lift_ok|auto with fails].
  - auto with fails.
Qed.

Lemma fails_ensureBootstrapConfig cfg : fails (ensureBootstrapConfig req cfg).
Proof.
  unfold ensureBootstrapConfig. destruct (bootstrapTemplateRef req) as [ref|] eqn:Hr; [|auto with fails].
  apply fails_get_or; [auto with fails|]. apply fails_bind; [auto with fails|]. intros r.
  apply fails_bind; [auto with fails|]. intros tmpl. destruct (NestedMap _ _).
  - apply fails_bind; auto with fails.
  - intros w e w' [= <- <-]. simpl. by rewrite Hr.
Qed.

Lemma fails_observeMachine machine : fails (observeMachine req machine).
Proof.
  unfold observeMachine. cbv zeta. case_bool_decide; [auto with fails|].
  destruct (negb _); [auto with fails|]. apply fails_bind; [auto with fails|]. intros id.
  destruct (parseKubeSwiftProviderID id) as [ns n]. case_bool_decide; [auto with fails|].
  apply fails_get_or; auto with fails.
Qed.

Lemma fails_ClusterAPI_Ensure cfg backend :
  cr_ClusterAPI req = Some cfg -> renderMachineBackend req = Ok backend -> fails (ClusterAPI_Ensure req).
Proof.
  intros Hc Hb. unfold ClusterAPI_Ensure. rewrite Hc.
  apply fails_bind; [apply fails_wrap, fails_ensureBootstrapConfig|]. intros ref.
  apply fails_bind; [|intros []; apply fails_bind; [|intros m; apply fails_observeMachine]].
  - apply fails_wrap, fails_get_or; [auto with fails|].
    apply fails_bind; [by eapply fails_lift_ok|]. intros b. apply fails_bind; auto with fails.
  - apply fails_wrap, fails_get_or; auto with fails.
Qed.
End failures.

(** ** What an admitted pool spares the controller *)

Section admitted.
Context `{ENV : Environment W Client Config}.
Variable pool : GPUCellPool.
Hypothesis Had : admissible IsDNS1123Subdomain pool.
(** The enumeration of spec.bootstrap.provider in the CRD. *)
Hypothesis Hopaque : boot_Provider (spec_Bootstrap (pool_Spec pool)) ∈ [""; BootstrapProviderOpaque].

(** The binding of a cell request is the validated one. *)
Lemma admitted_binding idx : gpu_ok (cr_GPU (cellRequest pool idx)).
Proof using Had.
  destruct (ga_backend _ (ad_gpu _ _ Had)) as [(Hb & _ & d & Hd & Hx & Ht)|(Hb & _ & n & Hn & Hx)].
  - left. simpl. rewrite Hd. destruct Hb as [->| ->]; split_and!; auto; apply Hx.
  - right. simpl. by rewrite Hb, Hn.
Qed.

Lemma admitted_renders idx : exists spec, renderGuestSpec (cellRequest pool idx) = Ok spec.
Proof using Had.
  unfold renderGuestSpec. pose proof (ad_template _ _ Had) as Ht.
  change (template_admissible (cr_GuestTemplate (cellRequest pool idx))) in Ht.
  rewrite (proj2 (ValidateTemplate_ok_iff _) Ht). cbn [rbind].
  rewrite (proj2 (ValidateGPU_ok_iff _) (admitted_binding idx)). cbn [rbind].
  destruct Ht as (tmpl & -> & _). eauto.
Qed.

Lemma admitted_backend_renders idx : exists b, renderMachineBackend (cellRequest pool idx) = Ok b.
Proof using Had.
  unfold renderMachineBackend. cbv zeta. case_bool_decide; [eauto|].
  destruct (ad_template _ _ Had) as (tmpl & Ht & _).
  change (unmarshal_object (cr_GuestTemplate (cellRequest pool idx)) = Some tmpl) in Ht. rewrite Ht. eauto.
Qed.

Lemma admitted_join_secret :
  capiOwnsBootstrap pool = false -> exists n, boot_JoinSecretRef (spec_Bootstrap (pool_Spec pool)) = Some n.
Proof using Had Hopaque.
  intros Hc. pose proof (ad_bootstrap _ _ Had) as Hb. unfold bootstrap_admissible in Hb. rewrite Hc in Hb.
  destruct Hb as (n & Hn & _); [|eauto].
  apply elem_of_cons in Hopaque as [E|E%list_elem_of_singleton]; auto.
Qed.

(** What the creation of a cell can still fail with: an answer of an API server,
    the content of the join Secret, the content of the bootstrap template the
    pool names. *)
Definition runtime_error (e : RError) : Prop :=
  match e with
  | RAPI _ _ | RNoJoinKey _ _ _ | RRender _ _ => True
  | RProv _ (ProvAPI _) => True
  | RProv _ (ProvInvalid _) => capiOwnsBootstrap pool = true
  | _ => False
  end.

Definition fails_at_runtime {A} (m : M W Client A) : Prop :=
  forall s e, value m s = Err e -> runtime_error e.

Lemma runtime_bind {A B} (m : M W Client A) (f : A -> M W Client B) :
  fails_at_runtime m -> (forall a, fails_at_runtime (f a)) -> fails_at_runtime (m ≫= f).
Proof using.
  intros Hm Hf s e. rewrite value_bind. destruct (value m s) as [a|e'] eqn:E; [apply Hf|].
  intros [= <-]. by apply (Hm s).
Qed.
Lemma runtime_ret {A} (a : A) : fails_at_runtime (mret a).
Proof using. by intros s e. Qed.
Lemma runtime_ask {A} (f : W -> A) : fails_at_runtime (ask f).
Proof using. by intros s e. Qed.
Lemma runtime_check {E A} (wrap : E -> RError) (r : result E A) :
  (forall e, r = Err e -> runtime_error (wrap e)) -> fails_at_runtime (check wrap r).
Proof using. intros H s e. destruct r as [a|e']; [done|]. intros [= <-]. by apply H. Qed.
Lemma runtime_call {E A} (f : W -> result E A * W) entry (wrap : E -> RError) :
  (forall w e, (f w).1 = Err e -> runtime_error (wrap e)) -> fails_at_runtime (call f entry wrap).
Proof using.
  intros H s e. rewrite value_call. destruct (f (rst_world s)).1 as [a|e'] eqn:Er; [done|].
  intros [= <-]. by apply (H (rst_world s)).
Qed.
Lemma runtime_fail {A} e : runtime_error e -> fails_at_runtime (@mfail W Client A e).
Proof using. by intros H s e' [= <-]. Qed.

Lemma runtime_ensureBootstrapSecret idx : fails_at_runtime (ensureBootstrapSecret pool idx).
Proof using Had Hopaque.
  unfold ensureBootstrapSecret. destruct (capiOwnsBootstrap pool) eqn:Ec; [apply runtime_ret|]. cbv zeta.
  destruct (admitted_join_secret Ec) as [n ->].
  apply runtime_bind; [apply runtime_ask|intros r]. apply runtime_bind; [by apply runtime_check|intros src].
  destruct (so_Data src !! _); [|by apply runtime_fail].
  apply runtime_bind; [by apply runtime_check|intros rendered].
  apply runtime_bind; [apply runtime_ask|intros [ex|e]].
  - case_bool_decide; [apply runtime_ret|by apply runtime_call].
  - destruct (IsNotFound e); [by apply runtime_call|by apply runtime_fail].
Qed.

Lemma runtime_ensure prov idx : provisioner pool = Ok prov -> fails_at_runtime (ensure prov "" (cellRequest pool idx)).
Proof using Had.
  intros Hp. apply runtime_call. intros w e He.
  assert (unforeseen (cellRequest pool idx) e) as Hu.
  { destruct (p_Ensure prov (cellRequest pool idx) w) as [r w'] eqn:Er. simpl in He. subst r.
    destruct (ad_mode _ _ Had) as [[Hm _]|[Hm (capi & Hc & _)]].
    - unfold provisioner in Hp. cbv zeta in Hp.
      assert (prov = SwiftGuestProvisioner) as ->
        by (destruct Hm as [Hm|Hm]; rewrite Hm in Hp; by injection Hp).
      destruct (admitted_renders idx) as [spec Hs]. exact (fails_SwiftGuest_Ensure _ _ Hs _ _ _ Er).
    - unfold provisioner in Hp. rewrite Hm in Hp. injection Hp as <-.
      destruct (admitted_backend_renders idx) as [b Hb].
      refine (fails_ClusterAPI_Ensure _ capi b _ Hb _ _ _ Er). done. }
  destruct e; simpl in *; [done..|]. unfold bootstrapTemplateRef in Hu. simpl in Hu.
  unfold capiOwnsBootstrap. destruct (ad_mode _ _ Had) as [[_ Hm]|[Hm (capi & Hc & _)]]; [by rewrite Hm in Hu|].
  rewrite Hm, Hc in *. by destruct (capi_BootstrapConfigTemplateRef capi).
Qed.
End admitted.

(** C8. A mistake is a rejection. Of an admitted pool the controller finds the
    provisioner, and no creation of a cell fails on the pool's own configuration:
    not on its name, its template, its GPU binding, a missing join Secret
    reference or a missing Cluster API block. What is left is what the API server
    answers and what the objects the pool names contain. *)
Theorem admitted_cell_creates `{ENV : Environment W Client Config} pool :
  admissible IsDNS1123Subdomain pool ->
  boot_Provider (spec_Bootstrap (pool_Spec pool)) ∈ [""; BootstrapProviderOpaque] ->
  exists prov, provisioner pool = Ok prov
    /\ forall idx s e, value (createCell pool prov idx) s = Err e -> runtime_error pool e.
Proof.
  intros Had Hop.
  assert (exists prov, provisioner pool = Ok prov) as [prov Hp].
  { unfold provisioner. destruct (ad_mode _ _ Had) as [[[-> | ->] _]|[-> _]]; eauto. }
  exists prov. split; [done|]. intros idx. unfold createCell. rewrite (ad_name _ _ Had).
  change (fails_at_runtime pool
    (_ ← check RName (Ok tt); ensureBootstrapSecret pool idx;; _ ← ensure prov "" (cellRequest pool idx); mret tt)).
  apply runtime_bind; [by apply runtime_check|intros []].
  apply runtime_bind; [by apply runtime_ensureBootstrapSecret|intros []].
  apply runtime_bind; [by apply runtime_ensure|intros st; apply runtime_ret].
Qed.

(** ** Scaling an admitted pool *)

(** The sizes a spec asks for are int32 values. *)
Definition sizes_ok (pool : GPUCellPool) : Prop :=
  int32_ok (spec_Replicas (pool_Spec pool))
  /\ forall a, spec_Autoscaling (pool_Spec pool) = Some a ->
       (forall m, as_MinReplicas a = Some m -> int32_ok m) /\ (forall m, as_MaxReplicas a = Some m -> int32_ok m).

Lemma sizes_int32_fields pool inp a :
  sizes_ok pool -> spec_Autoscaling (pool_Spec pool) = Some a ->
  si_Replicas inp = spec_Replicas (pool_Spec pool) -> int32_fields inp a.
Proof.
  intros [Hr Ha] Hs Hi. destruct (Ha a Hs) as [Hmin Hmax]. unfold int32_fields, scale_ceiling.
  assert (int32_ok (scale_floor inp a)) as Hf
    by (unfold scale_floor; destruct (as_MinReplicas a); [auto|by rewrite Hi]).
  split; [done|]. cbv zeta. destruct (as_MaxReplicas a); case_match; auto.
Qed.

Lemma DecideScale_range inp a :
  si_Autoscaling inp = Some a -> as_Enabled a = true -> int32_fields inp a ->
  scale_floor inp a <= sd_Desired (DecideScale inp) <= scale_ceiling inp a.
Proof.
  intros Ha He Hok. pose proof (scale_base_range inp a).
  destruct (DecideScale_view inp a Ha He Hok); lia.
Qed.

Section scaling.
Context (dns : string -> list string) (pool : GPUCellPool).
Hypothesis Had : admissible dns pool.
Hypothesis Hsz : sizes_ok pool.
Context (cells : list CellStatus) (sn : Sensed) (free : option int) (idle : list string) (t : Time).

(** The CRD's minimum of both fields. *)
Definition sizes_natural : Prop :=
  0 <= spec_Replicas (pool_Spec pool)
  /\ forall a m, spec_Autoscaling (pool_Spec pool) = Some a -> as_MinReplicas a = Some m -> 0 <= m.

Lemma desired_natural : sizes_natural -> 0 <= sd_Desired (DecideScale (scale_input pool cells sn free idle t)).
Proof using Hsz.
  intros [Hr Hm]. destruct (spec_Autoscaling (pool_Spec pool)) as [a|] eqn:Es;
    [destruct (as_Enabled a) eqn:Ee|]; [|rewrite DecideScale_off; [done|simpl; by rewrite Es]..].
  pose proof (DecideScale_range (scale_input pool cells sn free idle t) a Es Ee
                (sizes_int32_fields pool (scale_input pool cells sn free idle t) a Hsz Es eq_refl)) as [Hge _].
  revert Hge. unfold scale_floor. specialize (Hm a). destruct (as_MinReplicas a) as [m|];
    [specialize (Hm m eq_refl eq_refl)|]; simpl; lia.
Qed.

(** No row is on its way out. *)
Definition none_leaving : Prop :=
  forall c, c ∈ cells -> cs_Phase c <> CellPhaseDraining /\ cs_Phase c <> CellPhaseDeleting.

Lemma live_used : none_leaving -> live_count cells = len (used_indexes cells).
Proof using.
  intros Hn. unfold live_count, used_indexes. rewrite len_map. unfold none_leaving in Hn.
  induction cells as [|c l IH]; [done|]. simpl.
  assert (is_live c = occupies c) as ->.
  { destruct (Hn c ltac:(left)) as [H1 H2]. unfold is_live, occupies. by destruct (cs_Phase c). }
  assert (len (List.filter is_live l) = len (List.filter occupies l)) as IH' by (apply IH; intros; apply Hn; by right).
  destruct (occupies c); rewrite ?len_cons; lia.
Qed.

(** C26. An admitted pool whose GPU is one named ResourceClaim is never scaled past one
    cell, with or without autoscaling; and while no cell is on its way out, the
    plan creates one only when no cell at all holds an index, and then one only:
    two cells are not given the one device. The restriction is open: while a cell
    drains, the claim may still be its own and the next cell is created on it,
    which is a finding ([claim_shared_while_draining]). *)
Theorem shared_claim_one_cell d reachable usable t' :
  gpu_DRA (cell_GPU (spec_Cell (pool_Spec pool))) = Some d -> dra_ResourceClaimName d <> "" ->
  sizes_natural -> len cells < MaxInt32 ->
  let scale := DecideScale (scale_input pool cells sn free idle t) in
  let plan := PlanMembership (membership_input pool cells scale free reachable usable t') in
  sd_Desired scale <= 1
  /\ (none_leaving -> mp_Create plan = [] \/ used_indexes cells = [] /\ len (mp_Create plan) = 1).
Proof using Had Hsz.
  intros Hd Hc Hnat Hlen scale plan. assert (sd_Desired scale <= 1) as H1.
  { unfold scale. destruct (ad_shared _ _ Had d Hd Hc) as [Hr Ha].
    destruct (spec_Autoscaling (pool_Spec pool)) as [a|] eqn:Es;
      [destruct (as_Enabled a) eqn:Ee|]; [|rewrite DecideScale_off; [done|simpl; by rewrite Es]..].
    destruct (ad_autoscaling _ _ Had a Es Ee) as (max & Em & Hmin & _).
    pose proof (Ha a max eq_refl Ee Em) as Hmax.
    pose proof (DecideScale_range (scale_input pool cells sn free idle t) a Es Ee
                  (sizes_int32_fields pool (scale_input pool cells sn free idle t) a Hsz Es eq_refl)) as [_ Hle].
    revert Hle. unfold scale_ceiling. rewrite Em. unfold scale_floor. cbv zeta.
    destruct (as_MinReplicas a) as [m|]; [specialize (Hmin m eq_refl)|]; simpl; case_match; lia. }
  split; [done|]. intros Hleave. pose proof (live_used Hleave) as Hused. subst plan. pose proof (desired_natural Hnat) as H0. fold scale in H0.
  pose proof (live_count_bounds cells) as Hlive.
  destruct (PlanMembership_view_ok (membership_input pool cells scale free reachable usable t')) as [| | |p Ha _ _ E];
    [split; simpl; [done|lia]|by left..|]. right.
  pose proof (create_count_pos _ Ha) as Hp. pose proof (ca_short _ Ha) as Hs. simpl in Hp, Hs.
  split; [apply len_zero; lia|]. pose proof (used_indexes_len cells).
  destruct (create_loop_spec (Z.to_nat (create_count (membership_input pool cells scale free reachable usable t')))
              (used_indexes cells) []) as (new & Hn & Hl & _); [unfold MaxInt32 in *; lia|].
  simpl in E. rewrite E, Hn. simpl. unfold len. lia.
Qed.

(** C27. An admitted autoscaled pool has a ceiling; its size stays at or above the
    floor, and at or below maxReplicas as long as minReplicas is set or
    spec.replicas is not above maxReplicas itself. *)
Theorem admitted_scaling_range a :
  spec_Autoscaling (pool_Spec pool) = Some a -> as_Enabled a = true ->
  exists max, as_MaxReplicas a = Some max
    /\ default (spec_Replicas (pool_Spec pool)) (as_MinReplicas a) <= sd_Desired (DecideScale (scale_input pool cells sn free idle t))
    /\ (is_Some (as_MinReplicas a) \/ spec_Replicas (pool_Spec pool) <= max -> sd_Desired (DecideScale (scale_input pool cells sn free idle t)) <= max).
Proof using Had Hsz.
  intros Es Ee. destruct (ad_autoscaling _ _ Had a Es Ee) as (max & Em & Hmin & _).
  exists max. split; [done|].
  pose proof (DecideScale_range (scale_input pool cells sn free idle t) a Es Ee
                (sizes_int32_fields pool (scale_input pool cells sn free idle t) a Hsz Es eq_refl)) as [Hge Hle].
  revert Hge Hle. unfold scale_ceiling. rewrite Em. unfold scale_floor. cbv zeta.
  destruct (as_MinReplicas a) as [m|]; [specialize (Hmin m eq_refl)|]; simpl; intros Hge Hle;
    split; try done; intros H; revert Hle; case_match; intros; try lia.
  destruct H as [[? ?]|?]; [done|lia].
Qed.
End scaling.

(** ** Shrinking blind *)

Lemma reachable_of_find conds :
  reachable_of conds
  = match find_condition ConditionWorkloadClusterReachable conds with
    | Some c => match c_Status c with ConditionTrue => true | _ => false end
    | None => true
    end.
Proof.
  unfold find_condition. induction conds as [|c conds IH]; simpl; [done|]. by case_bool_decide.
Qed.

(** The condition of a written status is the answer of the pass. *)
Lemma writeStatus_reachable `{ENV : Environment W Client Config} `{!ConditionMerge SetStatusCondition}
    pool cells plan scale rollout sn free reachable reason msg s published :
  value (writeStatus pool cells plan scale rollout sn free reachable reason msg) s = Ok published ->
  pool_Spec published = pool_Spec pool /\ workloadReachable published = reachable.
Proof.
  unfold writeStatus. cbv zeta. rewrite value_bind. destruct (value _ s); [|done].
  rewrite value_bind. destruct (value _ _); [|done]. intros [= <-]. split; [done|].
  unfold workloadReachable. rewrite reachable_of_find.
  set (inp := condition_input pool cells plan scale rollout sn free reachable reason msg).
  lazymatch goal with |- context [find_condition ?ty ?l] =>
    change l with (ApplyConditions SetStatusCondition (st_Conditions (pool_Status pool)) (ComputeConditions inp))
  end.
  destruct (ApplyConditions_new (setCond := SetStatusCondition) (st_Conditions (pool_Status pool))
              (ComputeConditions inp) (reachable_condition inp)) as (c & Hf & Hst & _).
  - rewrite ComputeConditions_types. apply condition_types_NoDup.
  - left.
  - change (c_Type (reachable_condition inp)) with ConditionWorkloadClusterReachable in Hf. rewrite Hf, Hst.
    unfold reachable_condition, set_condition. simpl. by destruct reachable.
Qed.

(** ** What admission lets through *)

(** A string with single quotes for double ones. *)
Fixpoint quoted (s : string) : string :=
  match s with
  | EmptyString => ""
  | String a s' => String (if a == "'"%char then ascii_of_nat 34 else a) (quoted s')
  end.

Definition with_spec (f : GPUCellPoolSpec -> GPUCellPoolSpec) : GPUCellPool :=
  let p := ex_pool in {| p with pool_Spec := f ex_spec |}.
Definition with_cell (f : CellSpec -> CellSpec) : GPUCellPool :=
  with_spec (fun s => {| s with spec_Cell := f (spec_Cell s) |}).
Definition any_name (name : string) : list string := [].

(** maxReplicas is not the ceiling when spec.replicas is above it and minReplicas
    is left out: such a pool is admitted and keeps its replicas. *)
Definition over_max_pool : GPUCellPool :=
  with_spec (fun s => {| s with spec_Replicas := 5;
                                spec_Autoscaling := Some (mkAutoscalingSpec true None (Some 3) None "" None) |}).

Example replicas_over_maxReplicas :
  ValidateCreate any_name over_max_pool = None
  /\ sd_Desired (DecideScale (scale_input over_max_pool [] zeroSensed None [] 1)) = 5.
Proof. split; by_vm. Qed.

(** No rule looks at a change of the provisioner. *)
Example provisioner_switch_admitted :
  ValidateCreate any_name ex_pool = None /\ ValidateUpdate any_name ex_pool switched_pool = None.
Proof. split; by_vm. Qed.

(** Under Cluster API the interfaces of a template are admitted as a whole, but
    only the first primary and the first other network reach the KubeSwiftMachine. *)
Definition three_nics : string :=
  quoted ("{'imageRef':{'name':'i'},'guestClassRef':{'name':'g'},'interfaces':["
    +:+ "{'name':'a','primary':true,'networkRef':{'name':'n1'}},"
    +:+ "{'name':'b','networkRef':{'name':'n2'}},{'name':'c','networkRef':{'name':'n3'}}]}").

Definition three_nics_pool : GPUCellPool :=
  with_cell (fun c => {| c with cell_GuestTemplate := three_nics;
                                cell_Provisioner := ProvisionerClusterAPI;
                                cell_ClusterAPI := Some (mkCellClusterAPISpec "workload" "" None) |}).

Example extra_interfaces_dropped :
  ValidateCreate any_name three_nics_pool = None
  /\ exists gpu, renderMachineBackend (cellRequest (ENV := world_env) three_nics_pool 0)
     = Ok [("type", JStr "SwiftGuest");
           ("swiftGuest", JObj [("imageRef", JStr "i"); ("guestClassRef", JStr "g");
                                ("networkRef", JStr "n1"); ("nodeNetworkRef", JStr "n2"); ("gpu", gpu)])].
Proof. split; [by_vm|]. eexists. vm_compute. reflexivity. Qed.

(** The names of interfaces are matched without regard to case, as encoding/json
    does, but what is rendered is the template's own members: a pool may be
    admitted on an interface the guest's spec does not have. *)
Definition folded_pool : GPUCellPool :=
  with_cell (fun c => {| c with cell_NodeIPFrom := "a";
     cell_GuestTemplate := quoted "{'imageRef':{},'guestClassRef':{},'Interfaces':[{'name':'a'}]}" |}).

Example folded_interfaces_admitted :
  ValidateCreate any_name folded_pool = None
  /\ exists spec, renderGuestSpec (cellRequest (ENV := world_env) folded_pool 0) = Ok spec
       /\ field "interfaces" spec = None.
Proof.
  split; [by_vm|].
  destruct (renderGuestSpec (cellRequest (ENV := world_env) folded_pool 0)) as [spec|] eqn:E;
    [|exfalso; by vm_compute in E].
  exists spec. split; [done|]. vm_compute in E. injection E as <-. by vm_compute.
Qed.

(** ** Witnesses *)

Lemma ex_admitted : admissible (IsDNS1123Subdomain (Environment := world_env)) ex_pool.
Proof.
  assert (Validate (IsDNS1123Subdomain (Environment := world_env)) ex_pool None = []) as H by by_vm.
  exact (proj1 (proj1 (Validate_nil _ _ _) H)).
Qed.

Lemma webhook_admits_iff_witness :
  as_documented ex_pool
  /\ ((ValidateCreate any_name ex_pool = None <-> admissible any_name ex_pool)
      /\ forall old, ValidateUpdate any_name old ex_pool = None <-> admissible any_name ex_pool /\ ~ blind_shrink old ex_pool).
Proof.
  assert (as_documented ex_pool) as H.
  { split; [by intros [E _]|by intros _ E|by intros a max]. }
  split; [exact H|]. exact (proj2 (webhook_admits_iff any_name ex_pool) H).
Defined.

Lemma admitted_cell_creates_witness :
  admissible (IsDNS1123Subdomain (Environment := world_env)) ex_pool
  /\ exists prov, provisioner (ENV := world_env) ex_pool = Ok prov
       /\ forall idx s e, value (createCell (ENV := world_env) ex_pool prov idx) s = Err e -> runtime_error ex_pool e.
Proof.
  split; [exact ex_admitted|].
  apply (admitted_cell_creates (ENV := world_env) ex_pool ex_admitted). right. left.
Defined.

Definition shared_claim_pool : GPUCellPool :=
  with_spec (fun s => {| s with
    spec_Replicas := 1;
    spec_Cell := let c := spec_Cell s in
                 {| c with cell_GPU := mkCellGPUSpec 1 "" (Some (mkCellGPUDRASpec "" "one" "" "" "")) None |};
    spec_Autoscaling := Some (mkAutoscalingSpec true (Some 0) (Some 1) None "" None) |}).

Lemma shared_claim_sizes : sizes_ok shared_claim_pool.
Proof.
  unfold int32_ok, sizes_ok, MinInt32, MaxInt32. split; [by vm_compute|]. intros a [= <-].
  split; intros m [= <-]; by vm_compute.
Qed.

Lemma shared_claim_admitted : admissible any_name shared_claim_pool.
Proof.
  assert (Validate any_name shared_claim_pool None = []) as H by by_vm.
  exact (proj1 (proj1 (Validate_nil _ _ _) H)).
Qed.

Lemma shared_claim_one_cell_witness :
  let scale := DecideScale (scale_input shared_claim_pool [] zeroSensed None [] 1) in
  let plan := PlanMembership (membership_input shared_claim_pool [] scale None true true 1) in
  sd_Desired scale <= 1 /\ (mp_Create plan = [] \/ used_indexes [] = [] /\ len (mp_Create plan) = 1).
Proof.
  destruct (shared_claim_one_cell any_name shared_claim_pool shared_claim_admitted shared_claim_sizes
           [] zeroSensed None [] 1 (mkCellGPUDRASpec "" "one" "" "" "") true true 1) as [H1 H2];
    [reflexivity|discriminate| |reflexivity|split; [exact H1|apply H2]].
  - split; [discriminate|]. intros a m Ha Hm. injection Ha as <-. injection Hm as <-. discriminate.
  - intros c Hc. by apply elem_of_nil in Hc.
Defined.

(** While the cell of such a pool drains (its template changed, say), the next one is
    created on the same claim. *)
Definition rolled_claim_pool : GPUCellPool :=
  let p := shared_claim_pool in
  let spec := pool_Spec p in {| p with pool_Spec := {| spec with spec_Autoscaling := None |} |}.
Example claim_shared_while_draining :
  let row := {| zeroCellStatus with cs_Name := "inference-0"; cs_Index := 0; cs_Phase := CellPhaseDraining;
                cs_GuestUID := "uid" |} in
  let scale := DecideScale (scale_input rolled_claim_pool [row] zeroSensed None [] 1) in
  let plan := PlanMembership (membership_input rolled_claim_pool [row] scale None true true 1) in
  ValidateCreate any_name rolled_claim_pool = None /\ mp_Create plan = [1]
  /\ gb_ResourceClaimName (cr_GPU (cellRequest (ENV := world_env) rolled_claim_pool 1)) = "one"
  /\ gb_ResourceClaimName (cr_GPU (cellRequest (ENV := world_env) rolled_claim_pool 0)) = "one".
Proof. cbv zeta. split_and!; by_vm. Qed.

Lemma admitted_scaling_range_witness :
  exists max, Some 1 = Some max
    /\ 0 <= sd_Desired (DecideScale (scale_input shared_claim_pool [] zeroSensed None [] 1))
    /\ (is_Some (Some 0) \/ 1 <= max ->
        sd_Desired (DecideScale (scale_input shared_claim_pool [] zeroSensed None [] 1)) <= max).
Proof.
  exact (admitted_scaling_range any_name shared_claim_pool shared_claim_admitted shared_claim_sizes
           [] zeroSensed None [] 1 (mkAutoscalingSpec true (Some 0) (Some 1) None "" None) eq_refl eq_refl).
Defined.

Definition shrunk_pool : GPUCellPool := with_spec (fun s => {| s with spec_Replicas := 1 |}).

Lemma shrunk_admitted : admissible any_name shrunk_pool.
Proof.
  assert (Validate any_name shrunk_pool None = []) as H by by_vm.
  exact (proj1 (proj1 (Validate_nil _ _ _) H)).
Qed.
