(* ===== verification/ControllerTypes.v ===== *)
(** * Every published status is a Go value

    Integers are kept as [Z], so that a field of type int32 holds an int32 is a
    fact to prove: the status a pass publishes has every machine integer within
    its width, row by row, when the pool it read had. *)

From S2P Require Import Prelude GoStd Api CellId KubeApi Provider Workload Provisioner Fsm Membership.
From S2P Require Import Scaling Rollout Helpers Status Inventory HamiProvider Bootstrap CellRow.
From S2P Require Import Unstructured SwiftGuest Reconciler ExampleWorld Controller.
Local Open Scope Z_scope.
Local Open Scope go_scope.

(** ** Well-typed values *)

Definition typed_row (c : CellStatus) : Prop :=
  int32_ok (cs_Index c) /\ int32_ok (cs_CapacityDevices c) /\ int32_ok (cs_FailureCount c).

Definition typed_memory (m : MemoryCapacity) : Prop :=
  int64_ok (mc_Total m) /\ int64_ok (mc_Allocated m) /\ int64_ok (mc_Available m).
Definition typed_compute (m : ComputeCapacity) : Prop :=
  int32_ok (cc_Total m) /\ int32_ok (cc_Allocated m) /\ int32_ok (cc_Available m).

(** On a pointer: nil is well-typed. *)
Definition on_ptr {A} (P : A -> Prop) (o : option A) : Prop := forall a, o = Some a -> P a.

Definition typed_model (m : ModelCapacityStatus) : Prop :=
  int32_ok (mcs_Devices m) /\ on_ptr typed_memory (mcs_Memory m) /\ on_ptr typed_compute (mcs_Compute m).

Definition typed_capacity (w : WorkloadCapacityStatus) : Prop :=
  int32_ok (wcs_GPUDevices w) /\ on_ptr typed_memory (wcs_GPUMemory w)
  /\ on_ptr typed_compute (wcs_GPUCompute w) /\ Forall typed_model (wcs_ByModel w).

Definition typed_demand (d : DemandStatus) : Prop :=
  int32_ok (ds_PendingRequests d) /\ int32_ok (ds_SatisfiableByOneCell d).

Definition typed_physical (p : PhysicalCapacityStatus) : Prop :=
  int32_ok (pc_GPUs p) /\ on_ptr int32_ok (pc_FreeGPUsInCluster p).

Record typed_status (st : GPUCellPoolStatus) : Prop := {
  ts_replicas : int32_ok (st_Replicas st);
  ts_ready : int32_ok (st_ReadyCells st);
  ts_creating : int32_ok (st_CreatingCells st);
  ts_draining : int32_ok (st_DrainingCells st);
  ts_failed : int32_ok (st_FailedCells st);
  ts_desired : int32_ok (st_DesiredReplicas st);
  ts_demand : on_ptr typed_demand (st_Demand st);
  ts_physical : on_ptr typed_physical (st_PhysicalCapacity st);
  ts_capacity : on_ptr typed_capacity (st_WorkloadCapacity st);
  ts_cells : Forall typed_row (st_Cells st)
}.

Definition typed_spec (spec : GPUCellPoolSpec) : Prop :=
  int32_ok (spec_Replicas spec)
  /\ on_ptr (fun a => on_ptr int32_ok (as_MinReplicas a) /\ on_ptr int32_ok (as_MaxReplicas a))
       (spec_Autoscaling spec).

Definition typed_pool (p : GPUCellPool) : Prop := typed_spec (pool_Spec p) /\ typed_status (pool_Status p).

(** ** The pure parts *)

Lemma int32_ok_0 : int32_ok 0.
Proof. by unfold int32_ok, MinInt32, MaxInt32. Qed.

Lemma typed_memoryCapacity a b : typed_memory (memoryCapacity a b).
Proof. unfold typed_memory. simpl. auto using wrap64_ok. Qed.
Lemma typed_computeCapacity a b : typed_compute (computeCapacity a b).
Proof. unfold typed_compute. simpl. auto using wrap32_ok. Qed.

Create HintDb typed.
#[export] Hint Resolve wrap32_ok wrap64_ok int32_ok_0 typed_memoryCapacity typed_computeCapacity : typed.

Lemma on_ptr_Some {A} (P : A -> Prop) a : P a -> on_ptr P (Some a).
Proof. by intros H b [= <-]. Qed.
Lemma on_ptr_None {A} (P : A -> Prop) : on_ptr P None.
Proof. done. Qed.
#[export] Hint Resolve on_ptr_Some on_ptr_None : typed.

Lemma typed_modelCapacityStatus m : typed_model (modelCapacityStatus m).
Proof. unfold typed_model, modelCapacityStatus. simpl. auto with typed. Qed.

Lemma typed_WorkloadCapacityStatusOf p m c t : typed_capacity (WorkloadCapacityStatusOf p m c t).
Proof.
  unfold typed_capacity. simpl. split_and!; auto with typed.
  - destruct (cap_Homogeneous c); auto with typed.
  - induction (cap_ByModel c); constructor; auto using typed_modelCapacityStatus.
Qed.

Lemma typed_CountCells cells :
  let n := CountCells cells in
  int32_ok (n_total n) /\ int32_ok (n_ready n) /\ int32_ok (n_creating n) /\ int32_ok (n_draining n)
  /\ int32_ok (n_failed n).
Proof.
  cbv zeta. unfold CountCells.
  assert (forall n0, int32_ok (n_total n0) /\ int32_ok (n_ready n0) /\ int32_ok (n_creating n0)
            /\ int32_ok (n_draining n0) /\ int32_ok (n_failed n0) ->
          let n := foldl count_phase n0 cells in
          int32_ok (n_total n) /\ int32_ok (n_ready n) /\ int32_ok (n_creating n) /\ int32_ok (n_draining n)
          /\ int32_ok (n_failed n)) as H; [|apply H; simpl; auto with typed].
  induction cells as [|c cells IH]; intros n0 H; [done|]. apply IH.
  destruct H as (? & ? & ? & ? & ?). unfold count_phase. destruct (cs_Phase c); simpl; auto with typed.
Qed.

Lemma typed_zero : typed_row zeroCellStatus.
Proof. unfold typed_row. simpl. auto with typed. Qed.
#[export] Hint Resolve typed_zero : typed.

Lemma typed_continue_row prev o : typed_row prev -> typed_row (continue_row prev o).
Proof. intros (? & ? & ?). unfold continue_row. destruct (_ && _); unfold typed_row; simpl; auto with typed. Qed.

Lemma typed_cellStatus prev name idx o obs dec t :
  typed_row prev -> int32_ok idx -> typed_row (cellStatus prev name idx o obs dec t).
Proof.
  intros (? & ? & ?) ?. unfold typed_row. simpl. split_and!; auto with typed.
  destruct (_ && _); auto with typed.
Qed.

Lemma typed_previous_rows cells name :
  Forall typed_row cells -> on_ptr typed_row (previous_rows cells !! name).
Proof.
  intros Hc. unfold previous_rows.
  assert (forall m : gmap string CellStatus, (forall n, on_ptr typed_row (m !! n)) ->
            on_ptr typed_row (foldl (fun m c => <[cs_Name c := c]> m) m cells !! name)) as H;
    [|apply H; intros n; rewrite lookup_empty; auto with typed].
  induction Hc as [|c cells Hr Hc IH]; intros m Hm; [apply Hm|]. simpl. apply IH.
  intros n. destruct (decide (n = cs_Name c)) as [->|].
  - rewrite lookup_insert_eq. auto with typed.
  - by rewrite lookup_insert_ne.
Qed.

Lemma typed_tombstones pool previous live :
  (forall n, on_ptr typed_row (previous !! n)) -> Forall typed_row (tombstones pool previous live).
Proof.
  intros H. apply Forall_forall. intros row Hr. unfold tombstones in Hr.
  apply list_elem_of_omap in Hr as ([n prev] & Hin & Hr). apply elem_of_map_to_list in Hin.
  destruct (bool_decide _); [done|]. destruct (keepTombstone _ _); [|done]. injection Hr as <-.
  destruct (H n _ Hin) as (? & ? & ?). unfold typed_row. simpl. auto with typed.
Qed.

Lemma typed_sort_rows rows : Forall typed_row rows -> Forall typed_row (sort_rows rows).
Proof. intros H. unfold sort_rows. by rewrite merge_sort_Permutation. Qed.

Lemma typed_markDraining t name cells : Forall typed_row cells -> Forall typed_row (markDraining t name cells).
Proof.
  intros H. unfold markDraining. induction H as [|c cells Hc _ IH]; simpl; constructor; [|done].
  by case_bool_decide.
Qed.

Lemma typed_last_row pool name idx :
  typed_status (pool_Status pool) -> int32_ok idx ->
  typed_row (@last_row pool name idx).
Proof.
  intros Hst Hi. unfold last_row. cbv zeta.
  set (fresh := {| zeroCellStatus with cs_Name := name; cs_Index := idx; cs_Phase := CellPhaseDraining |}).
  assert (typed_row fresh) as Hf by (unfold typed_row; simpl; auto with typed).
  pose proof (ts_cells _ Hst) as Hc. revert Hf. generalize fresh.
  induction Hc as [|c cells Hr _ IH]; intros f Hf; [done|]. simpl. apply IH. by case_bool_decide.
Qed.

Lemma typed_desired pool cells sn free idle t :
  typed_spec (pool_Spec pool) -> int32_ok (sd_Desired (DecideScale (scale_input pool cells sn free idle t))).
Proof.
  intros [Hr Ha]. set (inp := scale_input pool cells sn free idle t).
  destruct (spec_Autoscaling (pool_Spec pool)) as [a|] eqn:Es.
  2: { rewrite DecideScale_off; [done|]. simpl. by rewrite Es. }
  destruct (as_Enabled a) eqn:Ee.
  2: { rewrite DecideScale_off; [done|]. simpl. by rewrite Es. }
  destruct (Ha a eq_refl) as [Hmin Hmax].
  assert (int32_ok (scale_floor inp a)) as Hf
    by (unfold scale_floor; destruct (as_MinReplicas a) as [m|]; [by apply (Hmin m)|done]).
  assert (int32_ok (scale_ceiling inp a)) as Hc.
  { unfold scale_ceiling. cbv zeta. destruct (as_MaxReplicas a) as [m|]; [|by destruct (_ <? _)].
    specialize (Hmax m eq_refl). by destruct (_ <? _). }
  pose proof (scale_base_range inp a). unfold int32_ok in *.
  destruct (DecideScale_view inp a Es Ee (conj Hf Hc)); lia.
Qed.

(** ** Through the monad

    A computation publishes only well-typed statuses and returns a value that
    satisfies [Q]. *)

Definition published_typed (c : Call) : Prop :=
  match c with CallUpdateStatus st => typed_status st | _ => True end.

Create HintDb typed_m.

Section triples.
Context `{ENV : Environment W Client Config}.

Definition typed {A} (m : M W Client A) (Q : A -> Prop) : Prop :=
  forall s, Forall published_typed (log m s) /\ forall a, value m s = Ok a -> Q a.

Lemma typed_bind {A B} (m : M W Client A) (f : A -> M W Client B) R Q :
  typed m R -> (forall a, R a -> typed (f a) Q) -> typed (m ≫= f) Q.
Proof.
  intros Hm Hf s. destruct (Hm s) as [Hl Hv]. rewrite log_bind, value_bind.
  destruct (value m s) as [a|e]; [|rewrite app_nil_r; by split].
  destruct (Hf a (Hv a eq_refl) (final m s)) as [Hl' Hv']. split; [by apply Forall_app|done].
Qed.

Lemma typed_weaken {A} (m : M W Client A) (R Q : A -> Prop) :
  typed m R -> (forall a, R a -> Q a) -> typed m Q.
Proof. intros Hm H s. destruct (Hm s) as [Hl Hv]. split; [done|auto]. Qed.

Lemma typed_ret {A} (a : A) (Q : A -> Prop) : Q a -> typed (mret a) Q.
Proof. intros H s. split; [constructor|]. by intros b [= <-]. Qed.
Lemma typed_fail {A} e (Q : A -> Prop) : typed (mfail e) Q.
Proof. intros s. by split; [constructor|]. Qed.
Lemma typed_ask {A} (f : W -> A) (Q : A -> Prop) : (forall w, Q (f w)) -> typed (ask f) Q.
Proof. intros H s. split; [constructor|]. by intros a [= <-]. Qed.
Lemma typed_now (Q : Time -> Prop) : (forall t, Q t) -> typed now Q.
Proof. intros H s. rewrite log_now. split; [constructor|auto]. Qed.
Lemma typed_look {A} (f : W -> A) entry (Q : A -> Prop) :
  (forall a, published_typed (entry a)) -> (forall w, Q (f w)) -> typed (look f entry) Q.
Proof. intros He H s. split; [by repeat constructor|]. by intros a [= <-]. Qed.
Lemma typed_check {E A} (wrap : E -> RError) (r : result E A) (Q : A -> Prop) :
  (forall a, r = Ok a -> Q a) -> typed (check wrap r) Q.
Proof. intros H. destruct r; [apply typed_ret; auto|apply typed_fail]. Qed.
Lemma typed_effect {E A} (f : W -> result E A * W) entry (Q : result E A -> Prop) :
  (forall r, published_typed (entry r)) -> (forall w, Q (f w).1) -> typed (effect f entry) Q.
Proof.
  intros He H s. specialize (H (rst_world s)). unfold effect, log, value.
  destruct (f (rst_world s)) as [r w]. simpl in *. split; [by repeat constructor|]. by intros a [= <-].
Qed.
Lemma typed_call {E A} (f : W -> result E A * W) entry wrap (Q : A -> Prop) :
  (forall r, published_typed (entry r)) -> (forall w a w', f w = (Ok a, w') -> Q a) ->
  typed (call f entry wrap) Q.
Proof.
  intros He H. apply (typed_bind _ _ (fun r => forall a, r = Ok a -> Q a)).
  - apply typed_effect; [done|]. intros w a Er. destruct (f w) as [r w'] eqn:Ef. simpl in Er. subst. eauto.
  - intros r Hr. by apply typed_check.
Qed.
Lemma typed_event kind reason msg (Q : unit -> Prop) : Q tt -> typed (event kind reason msg) Q.
Proof.
  intros H. unfold event. destruct HasRecorder; [|by apply typed_ret].
  intros s. split; [by repeat constructor|]. by intros [] _.
Qed.
Lemma typed_meter us (Q : unit -> Prop) : Q tt -> typed (meter us) Q.
Proof.
  intros H s. split; [|by intros [] _]. unfold log, meter. simpl. induction us; by constructor.
Qed.
Lemma typed_each {A} (f : A -> M W Client unit) l :
  (forall a, typed (f a) (fun _ => True)) -> typed (each f l) (fun _ => True).
Proof.
  intros H. induction l as [|a l IH]; [by apply typed_ret|]. by eapply typed_bind; [apply H|].
Qed.
Lemma typed_each_map {A B} (f : A -> M W Client B) l (P : A -> Prop) (Q : B -> Prop) :
  Forall P l -> (forall a, P a -> typed (f a) Q) -> typed (each_map f l) (Forall Q).
Proof.
  intros Hl H. induction Hl as [|a l Ha Hl IH]; [by apply typed_ret|].
  apply (typed_bind _ _ Q); [auto|intros b Hb]. apply (typed_bind _ _ (Forall Q)); [done|].
  intros bs Hbs. apply typed_ret. by constructor.
Qed.

(** A step whose value does not matter. *)
Lemma typed_seq {A B} (m : M W Client A) (f : A -> M W Client B) Q :
  typed m (fun _ => True) -> (forall a, typed (f a) Q) -> typed (m ≫= f) Q.
Proof. intros Hm Hf. by eapply typed_bind. Qed.
End triples.

(** A computation that publishes no status: the cases of its code, by the rules. *)
Ltac quiet_step :=
  match goal with
  | |- typed (_ ≫= _) _ => apply typed_seq; [|intros]
  | |- typed (let _ := _ in _) _ => cbv zeta
  | |- typed (let '(_, _) := ?x in _) _ => destruct x
  | |- typed (match ?x with _ => _ end) _ => destruct x
  | |- typed (mret _) _ => apply typed_ret
  | |- typed (mfail _) _ => apply typed_fail
  | |- typed (ask _) _ => apply typed_ask; intros
  | |- typed now _ => apply typed_now; intros
  | |- typed (look _ _) _ => apply typed_look; intros
  | |- typed (check _ _) _ => apply typed_check; intros
  | |- typed (call _ _ _) _ => apply typed_call; intros
  | |- typed (effect _ _) _ => apply typed_effect; intros
  | |- typed (event _ _ _) _ => apply typed_event
  | |- typed (meter _) _ => apply typed_meter
  | |- typed (each _ _) _ => apply typed_each; intros
  | |- typed _ _ => solve [auto with typed_m]
  | |- True => exact I
  end.
Ltac quiet := repeat quiet_step; try done.

Section loop.
Context `{ENV : Environment W Client Config}.
Variables (pool : GPUCellPool) (prov : ProvisionerOps W).

Abbreviation quiet_run m := (typed (W := W) (Client := Client) m (fun _ => True)) (only parsing).

Lemma quiet_ensureBootstrapSecret idx : quiet_run (ensureBootstrapSecret pool idx).
Proof. unfold ensureBootstrapSecret. quiet. Qed.
Lemma quiet_ensure c req : quiet_run (ensure prov c req).
Proof. unfold ensure. quiet. Qed.
#[local] Hint Resolve quiet_ensureBootstrapSecret quiet_ensure : typed_m.

Lemma quiet_createCell idx : quiet_run (createCell pool prov idx).
Proof. unfold createCell. quiet. Qed.
Lemma quiet_workloadClient : quiet_run (workloadClient pool).
Proof.
  unfold workloadClient. apply typed_seq; [quiet|intros r]. destruct r as [secret|e]; [|quiet].
  apply typed_seq; [|intros; quiet]. intros s. unfold cached_client, log, value.
  destruct (For _ _ _ _ _ _) as [r entries]. by split; [constructor|].
Qed.
Lemma quiet_deleteNode cs c name : quiet_run (deleteNode (ENV := ENV) cs c name).
Proof. unfold deleteNode. quiet. Qed.
#[local] Hint Resolve quiet_createCell quiet_workloadClient quiet_deleteNode : typed_m.

Lemma quiet_reapOrphanNodes cs keep : quiet_run (reapOrphanNodes cs pool keep).
Proof. unfold reapOrphanNodes. quiet. Qed.
Lemma quiet_observe_node cs name idx outer obs : quiet_run (observe_node pool cs name idx outer obs).
Proof. unfold observe_node, observe_capacity. quiet. Qed.
Lemma quiet_deleteCell cell reap : quiet_run (deleteCell pool prov cell reap).
Proof. unfold deleteCell. quiet. Qed.
#[local] Hint Resolve quiet_reapOrphanNodes quiet_observe_node quiet_deleteCell : typed_m.

Lemma typed_cell_status prev name idx outer obs dec :
  typed_row prev -> int32_ok idx -> typed (cell_status pool prev name idx outer obs dec) typed_row.
Proof.
  intros Hp Hi. unfold cell_status. destruct (row_moved _ _); [|by apply typed_ret, typed_cellStatus].
  do 3 (apply typed_seq; [quiet|intros]). by apply typed_ret, typed_cellStatus.
Qed.

Lemma typed_draining_row name idx :
  typed_status (pool_Status pool) -> int32_ok idx ->
  typed (Client := Client) (draining_row pool name idx) typed_row.
Proof.
  intros Hst Hi. pose proof (typed_last_row pool name idx Hst Hi) as Hr. unfold draining_row. cbv zeta.
  destruct (_ != _); [|by apply typed_ret]. apply typed_seq; [quiet|intros t]. by apply typed_ret.
Qed.

Lemma typed_discoverCell cl prev name idx :
  typed_row prev -> int32_ok idx -> typed (discoverCell pool prov cl prev name idx) typed_row.
Proof.
  intros Hp Hi. unfold discoverCell. do 5 (apply typed_seq; [by quiet|intros]; cbv zeta).
  apply typed_seq; [by quiet|intros _].
  eapply typed_bind; [apply typed_cell_status; [by apply typed_continue_row|done]|].
  intros row Hr. apply typed_seq; [by quiet|intros _]. by apply typed_ret.
Qed.

Lemma typed_discover_loop cl previous guests :
  (forall n, on_ptr typed_row (previous !! n)) ->
  typed (discover_loop pool prov cl previous guests) (Forall typed_row).
Proof.
  intros Hp. induction guests as [|name guests IH]; simpl; [by apply typed_ret|].
  destruct (ParseIndex (pool_Name pool) name) as [idx|] eqn:Ei; [|done].
  apply ParseIndex_bounds in Ei.
  apply (typed_bind _ _ typed_row).
  - apply typed_discoverCell; [|unfold int32_ok, MinInt32; lia].
    destruct (previous !! name) eqn:En; [by apply (Hp name)|apply typed_zero].
  - intros row Hr. apply (typed_bind _ _ (Forall typed_row)); [done|].
    intros rows Hrs. apply typed_ret. by constructor.
Qed.

Hypothesis Hst : typed_status (pool_Status pool).

Lemma typed_discoverCells cl : typed (discoverCells pool prov cl) (Forall typed_row).
Proof using Hst.
  pose proof (fun n => typed_previous_rows (st_Cells (pool_Status pool)) n (ts_cells _ Hst)) as Hp.
  unfold discoverCells. cbv zeta. apply typed_seq; [unfold list_cells; quiet|intros guests].
  eapply typed_bind; [by apply typed_discover_loop|]. intros rows Hrows.
  apply typed_seq; [quiet|intros _]. apply typed_ret, typed_sort_rows, Forall_app.
  split; [done|by apply typed_tombstones].
Qed.

Lemma typed_mark_drains names cells :
  Forall typed_row cells -> typed (Client := Client) (mark_drains names cells) (Forall typed_row).
Proof.
  revert cells. induction names as [|name names IH]; intros cells Hc; simpl; [by apply typed_ret|].
  apply typed_seq; [quiet|intros t]. apply typed_seq; [quiet|intros _]. by apply IH, typed_markDraining.
Qed.

Lemma typed_mark_rollout rollout cells :
  Forall typed_row cells -> typed (Client := Client) (mark_rollout rollout cells) (Forall typed_row).
Proof.
  intros Hc. unfold mark_rollout. destruct (rd_Drain rollout != ""); [|by apply typed_ret].
  apply typed_seq; [quiet|intros t]. apply typed_seq; [quiet|intros _]. by apply typed_ret, typed_markDraining.
Qed.

Lemma typed_progressDrain cl cell deleting since :
  typed_row cell -> typed (progressDrain pool prov cl cell deleting since) typed_row.
Proof.
  intros Hc. unfold progressDrain.
  apply typed_seq; [quiet|intros allocs]. cbv zeta. apply typed_seq; [quiet|intros t].
  destruct (negb _); [by apply typed_ret|]. apply typed_seq; [quiet|intros _]. by apply typed_ret.
Qed.

Lemma typed_drain_cells cl cells :
  Forall typed_row cells -> typed (drain_cells pool prov cl cells) (Forall typed_row).
Proof.
  intros Hc. unfold drain_cells. apply (typed_each_map _ _ typed_row); [done|]. intros c Hr.
  destruct (cs_Phase c != CellPhaseDraining); [by apply typed_ret|].
  apply typed_seq; [quiet|intros t]. by apply typed_progressDrain.
Qed.

Lemma quiet_create_cells l : quiet_run (create_cells pool prov l).
Proof. unfold create_cells. quiet. Qed.
Lemma quiet_replace_cells usable cells : quiet_run (replace_cells pool prov usable cells).
Proof. unfold replace_cells. quiet. Qed.

Lemma typed_drain_guests cl since guests :
  typed (drain_guests pool prov cl since guests) (Forall typed_row).
Proof using Hst.
  induction guests as [|name guests IH]; simpl; [by apply typed_ret|].
  destruct (ParseIndex (pool_Name pool) name) as [idx|] eqn:Ei; [|done].
  apply ParseIndex_bounds in Ei.
  eapply typed_bind; [apply typed_draining_row; [done|unfold int32_ok, MinInt32; lia]|].
  intros row0 Hr0. apply (typed_bind _ _ typed_row).
  - by apply typed_progressDrain.
  - intros row Hr. apply (typed_bind _ _ (Forall typed_row)); [done|].
    intros rows Hrs. apply typed_ret. by constructor.
Qed.

Lemma typed_writeDrainStatus rows : Forall typed_row rows -> quiet_run (writeDrainStatus pool rows).
Proof using Hst.
  intros Hr. unfold writeDrainStatus. cbv zeta. apply typed_seq; [|intros; by apply typed_ret].
  apply typed_effect; [|done]. intros _. destruct Hst. split; simpl; auto with typed.
Qed.

Lemma typed_reconcileDeletion : quiet_run (reconcileDeletion pool prov).
Proof using Hst.
  unfold reconcileDeletion. apply typed_seq; [apply quiet_workloadClient|intros [[cl ?] ?]].
  apply typed_seq; [unfold list_cells; quiet|intros guests]. destruct (0 <? len guests).
  - apply typed_seq; [quiet|intros t]. eapply typed_bind; [apply typed_drain_guests|].
    intros rows Hr. apply typed_seq; [by apply typed_writeDrainStatus|intros _]. by apply typed_ret.
  - destruct (RemoveFinalizer _ _) as [fs removed]. apply typed_seq; [quiet|intros _].
    apply typed_seq; [|intros _; quiet]. intros st0. by split; [constructor|].
Qed.

Lemma typed_writeStatus cells plan scale rollout sn free reachable reason msg :
  Forall typed_row cells -> int32_ok (sd_Desired scale) ->
  typed (Client := Client) (writeStatus pool cells plan scale rollout sn free reachable reason msg)
    (fun p => typed_status (pool_Status p)).
Proof using Hst.
  intros Hc Hd. unfold writeStatus. cbv zeta.
  apply (typed_bind _ _ (on_ptr typed_demand)).
  { destruct (_ && _); [|apply typed_ret, Hst]. apply typed_seq; [quiet|intros t].
    apply typed_ret, on_ptr_Some. unfold typed_demand. simpl. auto with typed. }
  intros demand Hdem. apply (typed_bind _ _ (on_ptr typed_capacity)).
  { destruct (sn_CapacityKnown sn); [|apply typed_ret, Hst]. apply typed_seq; [quiet|intros t].
    apply typed_ret, on_ptr_Some, typed_WorkloadCapacityStatusOf. }
  intros capacity Hcap. apply typed_seq; [quiet|intros _]. apply typed_ret. pose proof (typed_CountCells cells) as (? & ? & ? & ? & ?).
  split; simpl; auto. apply on_ptr_Some. unfold typed_physical. simpl. split; [auto with typed|].
  destruct free; auto with typed.
Qed.
End loop.

Section reconcile.
Context `{ENV : Environment W Client Config}.

(** A step of the loop that writes the pool's status but none of its int32
    fields, and not its spec. *)
Lemma typed_learn_shape pool sn t : typed_pool pool -> typed_pool (learn_shape pool sn t).
Proof.
  intros [Hs Hst]. unfold learn_shape. destruct (RememberShape _ _); [|done].
  split; [done|]. destruct Hst. by split.
Qed.

Lemma typed_record_scale pool sn scale :
  typed_pool pool -> typed (Client := Client) (record_scale pool sn scale) typed_pool.
Proof.
  intros [Hs Hst]. unfold record_scale, demand_free. do 2 (apply typed_seq; [quiet|intros]; cbv zeta).
  apply (typed_bind _ _ typed_status).
  { destruct (sd_ScaledUp scale); [|apply typed_ret; destruct Hst; by split].
    apply typed_seq; [quiet|intros t]. apply typed_seq; [quiet|intros _]. apply typed_ret.
    destruct Hst. by split. }
  intros st1 H1. apply (typed_bind _ _ typed_status).
  { destruct (sd_ScaledDown scale); [|by apply typed_ret].
    apply typed_seq; [quiet|intros t]. apply typed_seq; [quiet|intros _]. apply typed_ret.
    destruct H1. by split. }
  intros st2 H2. by apply typed_ret.
Qed.

Lemma typed_reconcilePool pool prov : typed_pool pool -> typed (reconcilePool pool prov) (fun _ => True).
Proof.
  intros Hp. unfold reconcilePool. apply typed_seq; [apply quiet_workloadClient|intros [[cl reason] msg]].
  cbv zeta. eapply typed_bind; [apply typed_discoverCells, Hp|]. intros cells Hc.
  apply typed_seq; [quiet|intros free]. apply typed_seq; [quiet|intros sn].
  apply typed_seq; [quiet|intros _]. apply typed_seq; [quiet|intros t]. pose proof (typed_learn_shape pool sn t Hp) as Hp1.
  set (pool1 := learn_shape pool sn t) in *. apply typed_seq; [quiet|intros _].
  apply typed_seq; [quiet|intros idle].
  apply typed_seq; [quiet|intros t1].
  pose proof (typed_desired pool1 cells sn free idle t1 (proj1 Hp1)) as Hd.
  set (scale := DecideScale _) in *.
  eapply typed_bind; [by apply typed_record_scale|]. intros pool2 Hp2.
  apply typed_seq; [quiet|intros t2]. apply typed_seq; [apply quiet_create_cells|intros _].
  set (plan := PlanMembership _).
  apply (typed_bind _ _ (Forall typed_row)).
  { destruct (0 <? len (mp_Create plan)); [apply typed_discoverCells, Hp2|by apply typed_ret]. }
  intros cells1 Hc1. eapply typed_bind; [by apply typed_mark_drains|]. intros cells2 Hc2.
  apply typed_seq; [apply quiet_replace_cells|intros _].
  eapply typed_bind; [by apply typed_mark_rollout|]. intros cells3 Hc3.
  eapply typed_bind; [by apply typed_drain_cells|]. intros cells4 Hc4.
  eapply typed_bind; [apply typed_writeStatus; [apply Hp2|done|done]|]. intros pool3 Hp3.
  apply typed_seq; [|intros; by apply typed_ret]. by apply typed_call.
Qed.

(** What the client decodes is a Go value: an update that sent one gets one back. *)
Class TypedUpdates : Prop := {
  update_pool_typed : forall p (w w' : W) p',
    update_pool p w = (Ok p', w') -> typed_pool p -> typed_pool p'
}.
End reconcile.

(** Whatever the two clusters answer, every status a pass publishes is a Go value:
    each int32 and int64 in it is within its width, in every row of the cells,
    in the demand, in both capacities, in the counters and in the desired size. *)
Theorem Reconcile_publishes_typed `{ENV : Environment W Client Config} `{!TypedUpdates} namespace name s st :
  (forall pool, get_pool namespace name (rst_world s) = Ok pool -> typed_pool pool) ->
  CallUpdateStatus st ∈ log (Reconcile namespace name) s -> typed_status st.
Proof.
  intros Hp Hin. unfold Reconcile in Hin. rewrite log_bind in Hin.
  change (value (ask (get_pool namespace name)) s) with
    (@Ok RError _ (get_pool namespace name (rst_world s))) in Hin. cbn [app log ask fst snd] in Hin.
  revert Hin. generalize (final (ask (Client := Client) (get_pool namespace name)) s). intros s'.
  destruct (get_pool namespace name (rst_world s)) as [pool|e]; [specialize (Hp pool eq_refl)|].
  2: { destruct (IsNotFound e); by intros ?%elem_of_nil. }
  match goal with |- _ ∈ log ?m s' -> _ => assert (typed m (fun _ => True)) as Ht end.
  { destruct (provisioner pool) as [prov|e]; [|quiet].
    destruct (negb _); [apply typed_reconcileDeletion, Hp|].
    destruct (AddFinalizer _ _) as [fs added]. apply (typed_bind _ _ typed_pool).
    - destruct added; [|by apply typed_ret]. apply typed_call; [done|].
      intros w p w' E. by apply (update_pool_typed _ _ _ _ E).
    - intros pool1 Hp1. by apply typed_reconcilePool. }
  intros Hin. destruct (Ht s') as [Hl _]. rewrite Forall_forall in Hl. exact (Hl _ Hin).
Qed.

(** ** Witness *)

#[export] Instance world_typed_updates : TypedUpdates (ENV := world_env).
Proof. split. intros p w w' p'. simpl. unfold write_pool. destruct (_ && _); by intros [= <- _]. Qed.

Lemma ex_pool_typed : typed_pool ex_pool.
Proof.
  split; [split; [by vm_compute|done]|].
  split; simpl; auto with typed; constructor.
Qed.

Definition ex_reconcile : M World unit Result := Reconcile (ENV := world_env) "gpu" "inference".

Definition published (l : list Call) : list GPUCellPoolStatus :=
  omap (fun c => match c with CallUpdateStatus st => Some st | _ => None end) l.

Lemma published_one {A} (f : GPUCellPoolStatus -> A) l n :
  map f (published l) = [n] -> exists st, CallUpdateStatus st ∈ l /\ f st = n.
Proof.
  intros E. destruct (published l) as [|st [|? ?]] eqn:Es; try done. injection E as E. exists st.
  split; [|done]. assert (st ∈ published l) as Hs by (rewrite Es; left).
  apply list_elem_of_omap in Hs as (c & Hc & Hs). destruct c; try done. by injection Hs as ->.
Qed.

Lemma ex_pool_read :
  get_pool (Environment := world_env) "gpu" "inference"
    (rst_world (ex_cluster ex_pool {[ "inference-0" := ex_observed ]} ex_world true)) = Ok ex_pool.
Proof. by_vm. Qed.

(** A pass over a pool with one guest, the workload cluster answering. *)
Lemma Reconcile_publishes_typed_witness :
  let s := ex_cluster ex_pool {[ "inference-0" := ex_observed ]} ex_world true in
  exists st, CallUpdateStatus st ∈ log ex_reconcile s /\ st_Replicas st = 2 /\ typed_status st.
Proof.
  cbv zeta.
  assert (map st_Replicas (published (log ex_reconcile
            (ex_cluster ex_pool {[ "inference-0" := ex_observed ]} ex_world true))) = [2]) as E by by_vm.
  apply published_one in E as (st & Hin & E). exists st. split; [exact Hin|]. split; [exact E|].
  refine (Reconcile_publishes_typed (ENV := world_env) "gpu" "inference" _ st _ Hin).
  intros p Hp. rewrite ex_pool_read in Hp. injection Hp as <-. exact ex_pool_typed.
Defined.
