(* ===== verification/ControllerMetrics.v ===== *)
(** * What a pass leaves in the metrics

    The loop's updates of [Metrics] are part of its log. Here are the theorems on
    whole passes: every update is well labelled and about the pool of the pass,
    no pass counts a reconcile error, and after a pass that wrote a status the
    series of the pool agree with that status and with what admission reads of it.
    The status says whether its pass reached the workload cluster, which is what
    admission goes by when a pool is to shrink. *)

From S2P Require Import Prelude GoStd Api KubeApi Provider Workload Provisioner Fsm Membership.
From S2P Require Import Scaling Rollout Helpers Status Inventory CellId HamiProvider Bootstrap.
From S2P Require Import CellRow Metrics Reconciler ExampleWorld Controller ControllerSafety ControllerTypes ControllerSpec Webhook Admission.
Local Open Scope Z_scope.
Local Open Scope go_scope.

(** The updates of a log, in their order. *)
Definition counted (l : list Call) : list Update :=
  omap (fun c => match c with CallMetric u => Some u | _ => None end) l.

Lemma counted_app l k : counted (l ++ k) = counted l ++ counted k.
Proof. apply omap_app. Qed.

Lemma counted_metrics us : counted (map CallMetric us) = us.
Proof. induction us as [|u us IH]; [done|]. unfold counted in *. simpl. by f_equal. Qed.

(** ** Calm parts

    Most of a pass writes no status, and its updates are of the pool and of
    neither the reachability gauge nor the error counter. *)
Definition calm_update (name ns : string) (u : Update) : Prop :=
  proper_update name ns u /\ vec_Name (update_vec u) <> vec_Name WorkloadClusterReachable
  /\ vec_Name (update_vec u) <> vec_Name ReconcileErrorsTotal.

Definition calm (name ns : string) (c : Call) : Prop :=
  match c with
  | CallUpdateStatus _ => False
  | CallMetric u => calm_update name ns u
  | _ => True
  end.

(** A list of updates none of which is of the two vectors. *)
Lemma calm_updates name ns us :
  Forall (proper_update name ns) us ->
  forallb (fun u => negb (bool_decide (vec_Name (update_vec u) = vec_Name WorkloadClusterReachable))
                    && negb (bool_decide (vec_Name (update_vec u) = vec_Name ReconcileErrorsTotal))) us = true ->
  Forall (calm_update name ns) us.
Proof.
  rewrite !Forall_forall, forallb_forall. intros Hp Hv u Hu. split; [by apply Hp|].
  apply list_elem_of_In in Hu. specialize (Hv u Hu). guards. done.
Qed.

Lemma publishMetrics_calm pool cells scale free cap0 known :
  Forall (calm_update (pool_Name pool) (pool_Namespace pool))
    (publishMetrics pool cells scale free cap0 known).
Proof.
  apply calm_updates; [apply publishMetrics_proper|]. unfold publishMetrics. cbv zeta.
  destruct free, known, (cap_Homogeneous cap0); reflexivity.
Qed.
Lemma scrape_updates_calm pool c d :
  Forall (calm_update (pool_Name pool) (pool_Namespace pool)) (scrape_updates pool c d).
Proof.
  apply calm_updates; [apply scrape_updates_proper|]. unfold scrape_updates. cbv zeta.
  destruct c, (autoscalingEnabled pool), d; reflexivity.
Qed.
Lemma decision_updates_calm pool scale :
  Forall (calm_update (pool_Name pool) (pool_Namespace pool)) (decision_updates pool scale).
Proof.
  apply calm_updates; [apply decision_updates_proper|]. unfold decision_updates.
  by destruct (autoscalingEnabled pool).
Qed.
Lemma row_update_calm pool u :
  row_update pool u -> calm_update (pool_Name pool) (pool_Namespace pool) u.
Proof. intros [Hp [Hv|Hv]]; (split; [done|]); rewrite Hv; by vm_compute. Qed.

Section calm.
Context `{ENV : Environment W Client Config}.
Context (pool : GPUCellPool) (prov : ProvisionerOps W).
Local Abbreviation here := (calm (pool_Name pool) (pool_Namespace pool)) (only parsing).

Lemma calm_metric u : row_update pool u -> Forall here [CallMetric u].
Proof. intros Hu. constructor; [by apply row_update_calm|done]. Qed.
Lemma calm_single c : match c with CallUpdateStatus _ | CallMetric _ => False | _ => True end -> Forall here [c].
Proof. by destruct c; repeat constructor. Qed.
Hint Resolve calm_metric : holds.
Hint Extern 1 (Forall (calm _ _) [_]) => apply calm_single; exact I : holds.
Hint Extern 1 (holds _ (workloadClient _)) => eapply workloadClient_holds; apply _ : holds.

Lemma calm_counted us u :
  Forall (calm_update (pool_Name pool) (pool_Namespace pool)) us -> u ∈ us -> Forall here [CallMetric u].
Proof. intros Hu Hi. constructor; [|done]. by eapply Forall_forall in Hu. Qed.
Lemma calm_published cells scale free cap0 known u :
  u ∈ publishMetrics pool cells scale free cap0 known -> Forall here [CallMetric u].
Proof. apply calm_counted, publishMetrics_calm. Qed.
Lemma calm_decided scale u : u ∈ decision_updates pool scale -> Forall here [CallMetric u].
Proof. apply calm_counted, decision_updates_calm. Qed.
Lemma calm_scraped c d u : u ∈ scrape_updates pool c d -> Forall here [CallMetric u].
Proof. apply calm_counted, scrape_updates_calm. Qed.
Hint Resolve calm_published calm_decided calm_scraped : holds.

Lemma calm_cached_client secret : holds (Forall here) (cached_client pool secret).
Proof. intros s. unfold cached_client, log. destruct (For _ _ _ _ _ _). constructor. Qed.
Lemma calm_bootstrap idx : holds (Forall here) (ensureBootstrapSecret pool idx).
Proof. unfold ensureBootstrapSecret. compose. Qed.
Lemma calm_ensure context req : holds (W := W) (Client := Client) (Forall here) (ensure prov context req).
Proof. unfold ensure. compose. Qed.
Hint Resolve calm_cached_client calm_bootstrap calm_ensure : holds.

Lemma calm_createCell idx : holds (Forall here) (createCell pool prov idx).
Proof. unfold createCell. compose. Qed.
Lemma calm_discoverCell cl prev name idx : holds (Forall here) (discoverCell pool prov cl prev name idx).
Proof. unfold discoverCell, observe_node, observe_capacity, deleteNode. compose. Qed.
Hint Resolve calm_createCell calm_discoverCell : holds.

Lemma calm_discover_loop cl previous guests :
  holds (Forall here) (discover_loop pool prov cl previous guests).
Proof. induction guests; cbn [discover_loop]; compose. Qed.
Lemma calm_reap cs keep : holds (Forall here) (reapOrphanNodes cs pool keep).
Proof. unfold reapOrphanNodes, deleteNode. compose. Qed.
Hint Resolve calm_discover_loop calm_reap : holds.

Lemma calm_discoverCells cl : holds (Forall here) (discoverCells pool prov cl).
Proof. unfold discoverCells, list_cells. compose. Qed.
Lemma calm_deleteCell c reap : holds (Forall here) (deleteCell pool prov c reap).
Proof. unfold deleteCell, deleteNode. compose. Qed.
Hint Resolve calm_deleteCell : holds.
Lemma calm_progressDrain cl c deleting since : holds (Forall here) (progressDrain pool prov cl c deleting since).
Proof. unfold progressDrain. compose. Qed.
Hint Resolve calm_progressDrain : holds.

Lemma calm_mark_drains names cells : holds (W := W) (Client := Client) (Forall here) (mark_drains names cells).
Proof. revert cells. induction names; intros cells; cbn [mark_drains]; compose. Qed.
Lemma calm_create_cells l : holds (Forall here) (create_cells pool prov l).
Proof. unfold create_cells. compose. Qed.
Lemma calm_replace_cells usable cells : holds (Forall here) (replace_cells pool prov usable cells).
Proof. unfold replace_cells. compose. Qed.
Lemma calm_mark_rollout rollout cells : holds (W := W) (Client := Client) (Forall here) (mark_rollout rollout cells).
Proof. unfold mark_rollout. compose. Qed.
Lemma calm_drain_cells cl cells : holds (Forall here) (drain_cells pool prov cl cells).
Proof. unfold drain_cells. compose. Qed.
Lemma calm_drain_guests cl since guests : holds (Forall here) (drain_guests pool prov cl since guests).
Proof. induction guests; cbn [drain_guests]; compose. Qed.
Lemma calm_record_scale sn scale : holds (W := W) (Client := Client) (Forall here) (record_scale pool sn scale).
Proof. unfold record_scale. compose. Qed.
Lemma calm_writeStatus cells plan scale rollout sn free reachable reason msg :
  holds (W := W) (Client := Client) (Forall here) (writeStatus pool cells plan scale rollout sn free reachable reason msg).
Proof. unfold writeStatus. compose. Qed.
End calm.

(** ** What the series say of a status *)

(** The gauges of a pool and its status report the same pass: the size that was
    decided, the rows by phase, the GPUs they hold and the free ones (which the
    status narrows to 32 bits), and whether the workload cluster answered, as
    admission reads it ([reachable_of]). *)
Record mirrors `{Registry R} (r : R) (pool : GPUCellPool) (st : GPUCellPoolStatus) : Prop := {
  mirror_desired : series r pool CellsDesired [] = Some (float64 (st_DesiredReplicas st));
  mirror_cells : forall p, p ∈ allCellPhases ->
    series r pool Cells [phase_string p] = Some (float64 (byPhase (st_Cells st) p));
  mirror_held : series r pool PhysicalGPUs ["held"] = Some (float64 (held_devices (st_Cells st)));
  mirror_free : exists pc, st_PhysicalCapacity st = Some pc /\ pc_GPUs pc = wrap32 (held_devices (st_Cells st))
    /\ forall f, pc_FreeGPUsInCluster pc = Some f ->
         exists free, f = wrap32 free /\ series r pool PhysicalGPUs ["free"] = Some (float64 free);
  mirror_reachable : series r pool WorkloadClusterReachable []
    = Some (boolGauge (reachable_of (st_Conditions st)))
}.

Section mirror.
Context `{ENV : Environment W Client Config} `{CM : !ConditionMerge SetStatusCondition}.
Context `{REG : Registry R} `{!RegistryLaws R}.
Context (pool : GPUCellPool).
Implicit Types (r : R) (reach : option bool).
Local Abbreviation here := (calm (pool_Name pool) (pool_Namespace pool)) (only parsing).

(** A computation after which the series agree with the status it wrote, from
    a registry whose gauge says what [reach] says. *)
Definition gauge_is reach r : Prop :=
  forall b, reach = Some b -> series r pool WorkloadClusterReachable [] = Some (boolGauge b).

Definition agrees {A} reach (m : M W Client A) : Prop :=
  forall s r st, CallUpdateStatus st ∈ log m s -> gauge_is reach r ->
    mirrors (updates (counted (log m s)) r) pool st.

Lemma calm_gauge reach l r : Forall here l -> gauge_is reach r -> gauge_is reach (updates (counted l) r).
Proof.
  intros Hl Hg b Hb. rewrite <- (Hg b Hb). apply sample_frame, Forall_forall.
  intros u (c & Hc & Hu)%list_elem_of_omap cur. eapply Forall_forall in Hl; [|exact Hc].
  destruct c; try done. injection Hu as ->. by apply moves_other, Hl.
Qed.

Lemma calm_silent l st : Forall here l -> (CallUpdateStatus st ∉ l).
Proof. intros Hl Hi. by eapply Forall_forall in Hl; [|exact Hi]. Qed.

Lemma agrees_step {A B} (Q : A -> Prop) reach (m : M W Client A) (f : A -> M W Client B) :
  holds (Forall here) m -> ensures Q m -> (forall a, Q a -> agrees reach (f a)) -> agrees reach (m ≫= f).
Proof.
  intros Hm Hq Hf s r st Hin Hg. rewrite log_bind in *. specialize (Hm s). specialize (Hq s).
  apply elem_of_app in Hin as [Hin|Hin]; [by apply calm_silent in Hin|].
  destruct (value m s) as [a|e]; [|by apply elem_of_nil in Hin].
  rewrite counted_app, updates_app. apply (Hf a (Hq a eq_refl)); [done|by apply calm_gauge].
Qed.
Lemma agrees_bind {A B} reach (m : M W Client A) (f : A -> M W Client B) :
  holds (Forall here) m -> (forall a, agrees reach (f a)) -> agrees reach (m ≫= f).
Proof. intros Hm Hf. by apply (agrees_step (fun _ => True)). Qed.

Lemma agrees_reach {B} reach b (f : unit -> M W Client B) :
  (forall x, agrees (Some b) (f x)) -> agrees reach (meter (reach_updates pool b) ≫= f).
Proof.
  intros Hf s r st Hin _. rewrite log_bind in *. change (log (meter _) s) with (map (@CallMetric) (reach_updates pool b)) in *.
  apply elem_of_app in Hin as [Hin|Hin]; [by apply elem_of_map_b in Hin as (u & Hu & _)|].
  cbn [value meter fst] in *. rewrite counted_app, counted_metrics, updates_app. apply Hf; [done|].
  intros b' [= <-]. unfold series. cbn [updates reach_updates foldl].
  rewrite sample_update. cbn [moves]. by rewrite bool_decide_eq_true_2.
Qed.

(** The end of a pass: the metrics are published and the status is written. *)
Lemma writeStatus_shape cells plan scale rollout sn free reachable reason msg (s : RState W Client) :
  exists p, value (writeStatus pool cells plan scale rollout sn free reachable reason msg) s = Ok p
    /\ log (writeStatus pool cells plan scale rollout sn free reachable reason msg) s
       = map CallMetric (publishMetrics pool cells scale free (sn_Capacity sn) (sn_CapacityKnown sn))
    /\ st_Cells (pool_Status p) = cells /\ st_DesiredReplicas (pool_Status p) = sd_Desired scale
    /\ st_PhysicalCapacity (pool_Status p) = Some (physical_status cells free (sn_Capacity sn)).
Proof.
  unfold writeStatus. cbv zeta. rewrite log_bind, value_bind.
  match goal with |- context [value ?m s] =>
    assert (exists d, value m s = Ok d /\ log m s = []) as (d & -> & ->) end.
  { destruct (_ && _); [|by eexists]. rewrite value_bind, log_bind, value_now, log_now. by eexists. }
  rewrite log_bind, value_bind.
  match goal with |- context [value ?m (final ?n s)] =>
    assert (exists d, value m (final n s) = Ok d /\ log m (final n s) = []) as (d' & -> & ->) end.
  { destruct (sn_CapacityKnown sn); [|by eexists]. rewrite value_bind, log_bind, value_now, log_now. by eexists. }
  eexists. split; [reflexivity|]. cbn [app]. rewrite log_bind. cbn [value meter fst]. rewrite app_nil_r. done.
Qed.

Lemma agrees_writeStatus cells plan scale rollout sn free reachable reason msg
    {E B} (f : GPUCellPool -> W -> result E GPUCellPool * W) wrap (b : B) :
  agrees (Some reachable)
    (p ← writeStatus pool cells plan scale rollout sn free reachable reason msg;
     _ ← call (f p) (fun _ => CallUpdateStatus (pool_Status p)) wrap; mret b).
Proof.
  intros s r st Hin Hg. rewrite log_bind in *.
  destruct (writeStatus_shape cells plan scale rollout sn free reachable reason msg s)
    as (p & Hv & Hl & Hcells & Hdes & Hphys). rewrite Hv, Hl in *.
  pose proof (writeStatus_reachable _ _ _ _ _ _ _ _ _ _ _ _ Hv) as [_ Hr].
  set (us := publishMetrics pool cells scale free (sn_Capacity sn) (sn_CapacityKnown sn)) in *.
  assert (Hcalm : Forall here (map CallMetric us)) by (apply Forall_map, publishMetrics_calm).
  apply elem_of_app in Hin as [Hin|Hin]; [by apply (calm_silent _ st) in Hcalm|].
  rewrite log_bind, log_call in *. set (rest := match value (call _ _ _) _ with Ok _ => _ | Err _ => _ end) in *.
  assert (rest = []) as Hrest by (unfold rest; by destruct (value _ _)). rewrite Hrest, app_nil_r in *.
  apply list_elem_of_singleton in Hin as [= ->].
  rewrite counted_app, counted_metrics, app_nil_r.
  pose proof (calm_gauge _ _ _ Hcalm Hg reachable eq_refl) as Hgauge. rewrite counted_metrics in Hgauge.
  split; rewrite ?Hcells, ?Hdes.
  - apply read_desired.
  - intros q Hq. unfold us. by rewrite read_phase, bool_decide_eq_true_2.
  - apply read_held.
  - rewrite Hphys. eexists. split; [done|]. split; [done|]. intros x. cbn [physical_status pc_FreeGPUsInCluster]. destruct free as [y|]; [|done].
    intros [= <-]. exists y. split; [done|]. unfold us. by rewrite read_free.
  - rewrite Hgauge. by rewrite <- Hr.
Qed.
End mirror.

(** A pool under another status has the same series. *)
Definition same_pool (p q : GPUCellPool) : Prop :=
  pool_Name p = pool_Name q /\ pool_Namespace p = pool_Namespace q.

Section pass.
Context `{ENV : Environment W Client Config} `{CM : !ConditionMerge SetStatusCondition}.
Context `{REG : Registry R} `{!RegistryLaws R}.
Implicit Types (pool p : GPUCellPool).

Lemma agrees_same pool p reach {A} (m : M W Client A) :
  same_pool p pool -> agrees (R := R) p reach m -> agrees (R := R) pool reach m.
Proof.
  intros [Hn Hns] Hm s r st Hin Hg. unfold gauge_is, series in *.
  destruct (Hm s r st Hin) as [H1 H2 H3 H4 H5]; [unfold gauge_is, series; by rewrite Hn, Hns|].
  unfold series in *. rewrite Hn, Hns in *. by split.
Qed.

Lemma same_learn_shape pool sn t : same_pool (learn_shape pool sn t) pool.
Proof. unfold learn_shape. by destruct (RememberShape _ _). Qed.

Lemma same_record_scale pool sn scale :
  ensures (W := W) (Client := Client) (fun p => same_pool p pool) (record_scale pool sn scale).
Proof.
  unfold record_scale. do 2 (apply ensures_bind; intros ?). do 2 (apply ensures_bind; intros ?).
  by apply ensures_ret.
Qed.

Lemma agrees_reconcilePool pool prov reach : agrees (R := R) pool reach (reconcilePool pool prov).
Proof.
  unfold reconcilePool.
  apply agrees_bind; [eapply workloadClient_holds; apply _|intros [[cl reason] msg]]. cbv zeta.
  apply agrees_bind; [apply calm_discoverCells|intros cells].
  apply agrees_bind; [apply holds_ask, _|intros free].
  apply agrees_bind; [apply holds_ask, _|intros sn].
  apply agrees_bind; [apply holds_meter; [apply _|]; intros u|intros _].
  { destruct cl; [apply calm_scraped|by intros ?%elem_of_nil]. }
  apply agrees_bind; [apply holds_now, _|intros t].
  apply (agrees_same _ (learn_shape pool sn t)); [apply same_learn_shape|].
  generalize (learn_shape pool sn t). clear pool. intros pool. apply agrees_reach. intros _.
  apply agrees_bind; [apply holds_ask, _|intros idle].
  apply agrees_bind; [apply holds_now, _|intros t1].
  eapply agrees_step; [apply calm_record_scale|apply same_record_scale|]. intros pool2 Hsame.
  apply (agrees_same _ pool2); [exact Hsame|].
  apply agrees_bind; [apply holds_now, _|intros t2].
  apply agrees_bind; [apply calm_create_cells|intros _].
  apply agrees_bind; [destruct (_ <? _); [apply calm_discoverCells|apply holds_ret, _]|intros cells1].
  apply agrees_bind; [apply calm_mark_drains|intros cells2].
  apply agrees_bind; [apply calm_replace_cells|intros _].
  apply agrees_bind; [apply calm_mark_rollout|intros cells3].
  apply agrees_bind; [apply calm_drain_cells|intros cells4].
  apply agrees_writeStatus.
Qed.
(** ** What a status says of the workload cluster *)

(** The pass reached the workload cluster: it could read the kubeconfig Secret, had
    or built a client from it, and the cluster answered. *)
Definition reached pool (s : RState W Client) : Prop :=
  exists secret cs,
    get_secret (pool_Namespace pool) (wc_KubeconfigSecretRef (spec_WorkloadCluster (pool_Spec pool))) (rst_world s)
      = Ok secret
    /\ value (cached_client pool secret) s = Ok (Ok cs) /\ ServerVersion cs (rst_world s) = Ok tt.

Lemma workloadClient_reached pool s cl reason msg :
  value (workloadClient pool) s = Ok (cl, reason, msg) -> is_Some cl <-> reached pool s.
Proof.
  unfold workloadClient, reached. cbv zeta. rewrite value_bind. cbn [value ask fst].
  change (final (ask (Client := Client) ?f) s) with s.
  destruct (get_secret _ _ _) as [secret|e].
  2: { intros [= <- _ _]. split; [by intros [? ?]|by intros (? & ? & ? & _)]. }
  rewrite value_bind. pose proof (cached_client_silent pool secret s) as [_ Hw].
  destruct (value (cached_client pool secret) s) as [[cs|e]|e] eqn:Ec; [| |done].
  2: { intros [= <- _ _]. split; [by intros [? ?]|]. intros (? & ? & [= <-] & H & _). congruence. }
  rewrite value_bind. cbn [value ask fst]. rewrite Hw.
  destruct (ServerVersion cs (rst_world s)) as [[]|e] eqn:Ev; intros [= <- _ _].
  - split; [|by eauto]. intros _. exists secret, cs. done.
  - split; [by intros [? ?]|]. intros (? & cs' & [= <-] & H & Hv). rewrite Ec in H. injection H as <-. congruence.
Qed.

(** The published statuses say whether the cluster was reached. *)
Definition says (b : bool) (c : Call) : Prop :=
  match c with CallUpdateStatus st => reachable_of (st_Conditions st) = b | _ => True end.
Local Abbreviation answers b := (holds (W := W) (Client := Client) (Forall (says b))) (only parsing).

Lemma calm_says pool b {A} (m : M W Client A) :
  holds (Forall (calm (pool_Name pool) (pool_Namespace pool))) m -> answers b m.
Proof. intros Hm s. eapply Forall_impl; [apply Hm|]. by intros []. Qed.

Lemma says_step pool b {A B} (m : M W Client A) (f : A -> M W Client B) :
  holds (Forall (calm (pool_Name pool) (pool_Namespace pool))) m -> (forall a, answers b (f a)) -> answers b (m ≫= f).
Proof. intros Hm Hf. apply holds_bind; [apply _|by eapply calm_says|done]. Qed.

Lemma says_writeStatus pool cells plan scale rollout sn free reachable reason msg
    {E B} (f : GPUCellPool -> W -> result E GPUCellPool * W) wrap (b : B) :
  answers reachable
    (p ← writeStatus pool cells plan scale rollout sn free reachable reason msg;
     _ ← call (f p) (fun _ => CallUpdateStatus (pool_Status p)) wrap; mret b).
Proof.
  eapply holds_step; [apply _|eapply calm_says, calm_writeStatus| |].
  { intros s p Hv. exact (proj2 (writeStatus_reachable _ _ _ _ _ _ _ _ _ _ _ _ Hv)). }
  intros p Hp. apply holds_bind; [apply _| |intros; apply holds_ret, _].
  apply holds_call; [apply _|]. intros _. by repeat constructor.
Qed.

Lemma reconcilePool_says pool prov s :
  Forall (fun c => match c with
                   | CallUpdateStatus st => reachable_of (st_Conditions st) = true <-> reached pool s
                   | _ => True end) (log (reconcilePool pool prov) s).
Proof.
  unfold reconcilePool. rewrite log_bind. destruct (workloadClient_silent pool s) as (_ & -> & _).
  destruct (value (workloadClient pool) s) as [[[cl reason] msg]|e] eqn:Ev; [|constructor].
  apply workloadClient_reached in Ev. cbn [app]. generalize (final (workloadClient pool) s). intros s1. cbv zeta.
  set (reachable := match cl with Some _ => true | None => false end).
  assert (reachable = true <-> is_Some cl) as Hb by (unfold reachable; destruct cl; split; (done || by intros [? ?])).
  match goal with |- Forall _ (log ?m _) => assert (answers reachable m) as Hm end.
  2: { eapply Forall_impl; [apply Hm|]. intros [] Hc; try done. cbn in Hc. rewrite Hc. by rewrite Hb. }
  clear Ev Hb. clearbody reachable. 
  eapply (says_step pool); [apply calm_discoverCells|intros cells].
  eapply (says_step pool); [apply holds_ask, _|intros free].
  eapply (says_step pool); [apply holds_ask, _|intros sn].
  apply holds_bind; [apply _|by apply holds_meter; [apply _|]; repeat constructor|intros _].
  eapply (says_step pool); [apply holds_now, _|intros t].
  apply holds_bind; [apply _|by apply holds_meter; [apply _|]; repeat constructor|intros _].
  generalize (learn_shape pool sn t). clear pool. intros pool.
  eapply (says_step pool); [apply holds_ask, _|intros idle].
  eapply (says_step pool); [apply holds_now, _|intros t1].
  eapply (says_step pool); [apply calm_record_scale|intros pool2].
  eapply (says_step pool2); [apply holds_now, _|intros t2].
  eapply (says_step pool2); [apply calm_create_cells|intros _].
  eapply (says_step pool2); [destruct (_ <? _); [apply calm_discoverCells|apply holds_ret, _]|intros cells1].
  eapply (says_step pool2); [apply calm_mark_drains|intros cells2].
  eapply (says_step pool2); [apply calm_replace_cells|intros _].
  eapply (says_step pool2); [apply calm_mark_rollout|intros cells3].
  eapply (says_step pool2); [apply calm_drain_cells|intros cells4].
  apply says_writeStatus.
Qed.

(** ** Every update is the pool's own *)

(** What a pass may count: a well labelled update of its own pool, or the
    forgetting of that pool; never a reconcile error. *)
Definition own_update (name ns : string) (u : Update) : Prop :=
  (proper_update name ns u \/ u ∈ ForgetPool ns name) /\ forall l, u <> Inc ReconcileErrorsTotal l.

Definition own_metric (name ns : string) (c : Call) : Prop :=
  match c with CallMetric u => own_update name ns u | _ => True end.

Lemma calm_own pool {A} (m : M W Client A) :
  holds (Forall (calm (pool_Name pool) (pool_Namespace pool))) m ->
  holds (Forall (own_metric (pool_Name pool) (pool_Namespace pool))) m.
Proof.
  intros Hm s. eapply Forall_impl; [apply Hm|]. intros [] Hc; try done. destruct Hc as (Hp & _ & He).
  split; [by left|]. intros l ->. by apply He.
Qed.

Lemma own_same pool p {A} (m : M W Client A) :
  same_pool p pool ->
  holds (Forall (own_metric (pool_Name p) (pool_Namespace p))) m ->
  holds (Forall (own_metric (pool_Name pool) (pool_Namespace pool))) m.
Proof. by intros [-> ->]. Qed.

Lemma own_single name ns c :
  match c with CallMetric _ => False | _ => True end -> Forall (own_metric name ns) [c].
Proof. by destruct c; repeat constructor. Qed.

Lemma own_reach pool b u :
  u ∈ reach_updates pool b -> Forall (own_metric (pool_Name pool) (pool_Namespace pool)) [CallMetric u].
Proof.
  intros Hu. constructor; [|done]. split; [left; by eapply Forall_forall in Hu; [|apply reach_updates_proper]|].
  apply list_elem_of_singleton in Hu as ->. done.
Qed.

Lemma own_forget pool u :
  u ∈ ForgetPool (pool_Namespace pool) (pool_Name pool) ->
  Forall (own_metric (pool_Name pool) (pool_Namespace pool)) [CallMetric u].
Proof.
  intros Hu. constructor; [|done]. split; [by right|]. intros l ->.
  by apply elem_of_map_b in Hu as (v & Hv & _).
Qed.

Lemma own_reconcilePool pool prov :
  holds (Forall (own_metric (pool_Name pool) (pool_Namespace pool))) (reconcilePool pool prov).
Proof.
  unfold reconcilePool.
  apply holds_bind; [apply _|eapply workloadClient_holds; apply _|intros [[cl reason] msg]]. cbv zeta.
  apply holds_bind; [apply _|apply calm_own, calm_discoverCells|intros cells].
  do 2 (apply holds_bind; [apply _|apply holds_ask, _|intros ?]).
  apply holds_bind; [apply _|apply calm_own, holds_meter; [apply _|]; intros u|intros _].
  { destruct cl; [apply calm_scraped|by intros ?%elem_of_nil]. }
  apply holds_bind; [apply _|apply holds_now, _|intros t].
  apply (own_same _ (learn_shape pool a0 t)); [apply same_learn_shape|].
  generalize (learn_shape pool a0 t). clear pool. intros pool.
  apply holds_bind; [apply _|apply holds_meter; [apply _|]; apply own_reach|intros _].
  apply holds_bind; [apply _|apply holds_ask, _|intros idle].
  apply holds_bind; [apply _|apply holds_now, _|intros t1].
  eapply holds_step; [apply _|apply calm_own, calm_record_scale|apply same_record_scale|]. intros pool2 Hsame.
  apply (own_same _ pool2); [exact Hsame|].
  apply holds_bind; [apply _|apply holds_now, _|intros t2].
  apply holds_bind; [apply _|apply calm_own, calm_create_cells|intros _].
  apply holds_bind; [apply _|destruct (_ <? _); [apply calm_own, calm_discoverCells|apply holds_ret, _]|intros cells1].
  apply holds_bind; [apply _|apply calm_own, calm_mark_drains|intros cells2].
  apply holds_bind; [apply _|apply calm_own, calm_replace_cells|intros _].
  apply holds_bind; [apply _|apply calm_own, calm_mark_rollout|intros cells3].
  apply holds_bind; [apply _|apply calm_own, calm_drain_cells|intros cells4].
  apply holds_bind; [apply _|apply calm_own, calm_writeStatus|intros p].
  pose proof own_single. compose.
Qed.

Lemma own_reconcileDeletion pool prov :
  holds (Forall (own_metric (pool_Name pool) (pool_Namespace pool))) (reconcileDeletion pool prov).
Proof.
  pose proof own_single. pose proof own_forget.
  assert (forall cl since guests, holds (Forall (own_metric (pool_Name pool) (pool_Namespace pool)))
            (drain_guests pool prov cl since guests)) by (intros; apply calm_own, calm_drain_guests).
  unfold reconcileDeletion, list_cells, writeDrainStatus. 
  apply holds_bind; [apply _|eapply workloadClient_holds; apply _|intros [[cl reason] msg]].
  compose.
Qed.

Lemma own_Reconcile `{!PoolLaws} namespace name :
  holds (Forall (own_metric name namespace)) (Reconcile namespace name).
Proof.
  intros s. unfold Reconcile. rewrite log_bind. cbn [log ask value fst snd app].
  change (final (ask (Client := Client) (get_pool namespace name)) s) with s.
  destruct (get_pool namespace name (rst_world s)) as [pool|e] eqn:Eg.
  2: { destruct (IsNotFound e); constructor. }
  apply get_pool_named in Eg as [<- <-].
  destruct (provisioner pool) as [prov|e].
  2: { match goal with |- Forall ?P (log ?m s) => enough (holds (Forall P) m) as Hm by apply Hm end.
       pose proof own_single. compose. }
  destruct (negb _); [apply own_reconcileDeletion|].
  destruct (AddFinalizer _ _) as [fs added].
  eapply (holds_step _ (fun p => same_pool p pool)).
  - pose proof own_single. compose.
  - destruct added; [|by apply ensures_ret]. intros s' p. rewrite value_call.
    destruct (update_pool _ _) as [[p'|e] w'] eqn:Eu; simpl; [|done]. intros [= <-].
    apply update_pool_named in Eu as [E1 E2]. by split.
  - intros p Hp. apply (own_same _ p); [done|]. apply own_reconcilePool.
Qed.
End pass.

(** ** The theorems *)

Section theorems.
Context `{ENV : Environment W Client Config} `{!PoolLaws}.

(** The vectors have different names. *)
Lemma registered_names v v' : v ∈ registered -> v' ∈ registered -> vec_Name v = vec_Name v' -> v = v'.
Proof.
  intros Hv Hv' E. assert (NoDup (vec_Name <$> registered)) as Hn by (apply (bool_decide_unpack _); by vm_compute).
  apply list_elem_of_lookup_1 in Hv as [i Hi], Hv' as [j Hj].
  assert (i = j) as ->; [|congruence].
  eapply NoDup_lookup; [exact Hn| |]; rewrite list_lookup_fmap, ?Hi, ?Hj; simpl; [done|by rewrite E].
Qed.

(** Updates of one pool leave the series of the others alone. *)
Lemma own_frame `{RegistryLaws R} name ns us (r : R) v values :
  Forall (own_update name ns) us -> v ∈ registered -> length values = length (vec_Labels v) ->
  take 2 values <> [name; ns] -> sample (updates us r) (vec_Name v) values = sample r (vec_Name v) values.
Proof.
  intros Hus Hv Hl Ht. apply sample_frame. eapply Forall_impl; [exact Hus|].
  intros u [[[_ Hu]|Hu] _] cur.
  - destruct u; simpl in *; try done; rewrite bool_decide_eq_false_2; try done; intros [= _ <-]; tauto.
  - assert (exists v', u = DeletePartialMatch v' [("pool", name); ("namespace", ns)] /\ v' ∈ registered)
      as (v' & -> & Hv').
    { apply elem_of_map_b in Hu as (v' & -> & Hv'). exists v'. split; [done|]. unfold registered. set_solver. }
    cbn [moves]. case_bool_decide as E; [|done]. apply (registered_names v' v Hv' Hv) in E as ->.
    rewrite partial_match_pool by done. by rewrite bool_decide_eq_false_2.
Qed.

Lemma counted_elem u l : u ∈ counted l -> CallMetric u ∈ l.
Proof. intros (c & Hc & Hu)%list_elem_of_omap. destruct c; try done. by injection Hu as ->. Qed.

(** Whatever the two clusters answer, every update a pass makes has as many label
    values as its vector has labels, so none panics, and is about the pool of the
    pass; the series of every other pool read as before. No update ever counts
    a reconcile error. *)
Theorem pass_counts_its_pool `{RegistryLaws R} namespace name s (r : R) :
  let us := counted (log (Reconcile namespace name) s) in
  Forall well_labelled us
  /\ (forall l, Inc ReconcileErrorsTotal l ∉ us)
  /\ (forall v values, v ∈ registered -> length values = length (vec_Labels v) -> take 2 values <> [name; namespace] ->
        sample (updates us r) (vec_Name v) values = sample r (vec_Name v) values).
Proof.
  intros us. assert (Forall (own_update name namespace) us) as Hus.
  { apply Forall_forall. intros u Hu%counted_elem.
    pose proof (own_Reconcile namespace name s) as Hl. rewrite Forall_forall in Hl. exact (Hl _ Hu). }
  split_and!.
  - eapply Forall_impl; [exact Hus|]. intros u [[[Hu _]|Hu] _]; [done|].
    by apply elem_of_map_b in Hu as (v & -> & _).
  - intros l Hl. rewrite Forall_forall in Hus. destruct (Hus _ Hl) as [_ Hn]. by apply (Hn l).
  - intros v values. by apply own_frame.
Qed.

(** A computation that writes a status when it does not fail. *)
Definition writes {A} (m : M W Client A) : Prop :=
  forall s a, value m s = Ok a -> exists st, CallUpdateStatus st ∈ log m s.

Lemma writes_bind {A B} (m : M W Client A) (f : A -> M W Client B) : (forall a, writes (f a)) -> writes (m ≫= f).
Proof.
  intros Hf s b. rewrite value_bind, log_bind. destruct (value m s) as [a|e]; [|done].
  intros Hv. destruct (Hf a _ _ Hv) as [st Hst]. exists st. rewrite elem_of_app. by right.
Qed.
Lemma writes_first {A B} (m : M W Client A) (f : A -> M W Client B) : writes m -> writes (m ≫= f).
Proof.
  intros Hm s b. rewrite value_bind, log_bind. destruct (value m s) as [a|e] eqn:E; [|done].
  intros _. destruct (Hm s a E) as [st Hst]. exists st. rewrite elem_of_app. by left.
Qed.

Lemma reconcilePool_writes pool prov : writes (reconcilePool pool prov).
Proof.
  unfold reconcilePool. apply writes_bind. intros [[cl reason] msg]. cbv zeta.
  do 17 (apply writes_bind; intros ?). apply writes_first. intros s res _. rewrite log_call.
  eexists. left.
Qed.

(** C40. For a pool that is not being deleted, what Prometheus reads and the status a
    pass writes do not disagree: the pass writes one whenever it does not fail, and
    after it, whatever the series were before, the desired size, the rows by phase,
    the GPUs held and the reachability of the workload cluster, as admission reads
    it, are those of that status, and so are the free GPUs when the status has
    them (when it has none, the gauge is not written and keeps its last value). A
    pass over a pool being deleted publishes its draining rows and writes no
    gauge; nothing is claimed of it. *)
Theorem metrics_mirror_status `{!ConditionMerge SetStatusCondition} `{RegistryLaws R}
    namespace name s (r : R) pool :
  get_pool namespace name (rst_world s) = Ok pool -> PtrIsZero (pool_DeletionTimestamp pool) = true ->
  let l := log (Reconcile namespace name) s in
  (forall res, value (Reconcile namespace name) s = Ok res -> exists st, CallUpdateStatus st ∈ l)
  /\ (forall st, CallUpdateStatus st ∈ l -> mirrors (updates (counted l) r) pool st).
Proof.
  intros Hg Hd l. unfold l, Reconcile. rewrite log_bind, value_bind. cbn [value log ask fst snd app].
  change (final (ask (Client := Client) (get_pool namespace name)) s) with s. rewrite Hg.
  destruct (provisioner pool) as [prov|e].
  2: { assert (holds (Forall (calm (pool_Name pool) (pool_Namespace pool)))
                 (event EventTypeWarning ReasonUnknownProvisioner (error_text e);;
                  mfail e : M W Client Result)) as Hc.
       { pose proof (fun c => calm_single pool c). compose. }
       split; [intros res|intros st Hst; by apply (calm_silent pool) in Hst].
       rewrite value_bind. by destruct (value _ _). }
  rewrite Hd. cbn [negb]. destruct (AddFinalizer _ _) as [fs added].
  match goal with |- (forall res, value ?m s = _ -> _) /\ _ =>
    assert (writes m /\ agrees (R := R) pool None m) as [Hw Ha] end.
  - split; [apply writes_bind; intros p; apply reconcilePool_writes|].
    apply (agrees_step pool (fun p => same_pool p pool)).
    + destruct added; [|apply holds_ret, _]. apply holds_call; [apply _|]. intros _. by repeat constructor.
    + destruct added; [|by apply ensures_ret]. intros s' p. rewrite value_call.
      destruct (update_pool _ _) as [[p'|e] w'] eqn:Eu; simpl; [|done]. intros [= <-].
      apply update_pool_named in Eu as [E1 E2]. by split.
    + intros p Hp. apply (agrees_same _ p); [done|]. apply agrees_reconcilePool.
  - split; [apply Hw|]. intros st Hst. by apply Ha.
Qed.

(** A pass that lets a pool go, the one answer that asks for no other pass, leaves
    none of its series. *)
Theorem release_leaves_no_series `{RegistryLaws R} namespace name s (r : R) pool res v values :
  get_pool namespace name (rst_world s) = Ok pool ->
  value (Reconcile namespace name) s = Ok res -> RequeueAfter res = 0 ->
  v ∈ registered -> length values = length (vec_Labels v) -> take 2 values = [name; namespace] ->
  sample (updates (counted (log (Reconcile namespace name) s)) r) (vec_Name v) values = None.
Proof.
  intros Hg Hv Hz Hreg Hl Ht.
  destruct (PtrIsZero (pool_DeletionTimestamp pool)) eqn:Hd.
  { pose proof (Reconcile_requeues namespace name s pool res Hg Hd Hv). lia. }
  pose proof (get_pool_named _ _ _ _ Hg) as [Hns Hn].
  assert (exists l, log (Reconcile namespace name) s = l ++ map CallMetric (ForgetPool namespace name)) as [l ->].
  2: { rewrite counted_app, updates_app, counted_metrics, sample_ForgetPool, partial_match_pool by done.
       by rewrite bool_decide_eq_true_2. }
  revert Hv. unfold Reconcile. rewrite log_bind, value_bind. cbn [value log ask fst snd app].
  change (final (ask (Client := Client) (get_pool namespace name)) s) with s. rewrite Hg.
  destruct (provisioner pool) as [prov|e].
  2: { rewrite value_bind. by destruct (value _ _). }
  rewrite Hd. cbn [negb]. unfold reconcileDeletion. rewrite log_bind, value_bind.
  destruct (workloadClient_silent pool s) as (_ & -> & _).
  destruct (value (workloadClient pool) s) as [[[cl reason] msg]|e]; [|done]. cbn [app].
  generalize (final (workloadClient pool) s). clear s Hg. intros s.
  rewrite log_bind, value_bind. destruct (list_cells_spec prov pool s) as (-> & -> & ->).
  destruct (p_List _ _ _ _) as [guests|e]; [|done].
  destruct (0 <? len guests).
  { intros Hv. exfalso. revert Hv.
    match goal with |- value ?m _ = _ -> _ =>
      assert (ensures (fun r => RequeueAfter r = requeueProgressing) m) as Hm end.
    { repeat (apply ensures_bind; intros ?). by apply ensures_ret. }
    intros Hv%Hm. rewrite Hz in Hv. discriminate. }
  destruct (RemoveFinalizer _ _) as [fs removed]. rewrite log_bind, value_bind.
  destruct (value (if removed then _ else _) s) as [[]|e]; [|done]. intros _.
  rewrite Hns, Hn. eexists (_ :: _). rewrite log_bind. cbn [value log forget_client fst snd app].
  rewrite log_bind. cbn [value log meter fst snd app]. rewrite app_nil_r. reflexivity.
Qed.
End theorems.

(** ** Witnesses *)

(** A cell that the guest reports failed while its row is Booting, in a pool that
    is one cell short. *)
Definition failing_outer : OuterState := {| ex_joining_outer with o_Phase := "Failed" |}.
Definition failing_pool : GPUCellPool :=
  let status := {| ex_status with st_Cells := [metrics_row] |} in {| ex_pool with pool_Status := status |}.
Definition failing_cluster : RState World unit :=
  ex_cluster failing_pool {[ "inference-0" := failing_outer ]} (mkMemCluster ∅ ∅ []) true.
Definition failing_pass : M World unit Result := Reconcile (ENV := world_env) "gpu" "inference".

Lemma metrics_mirror_status_witness :
  exists st, CallUpdateStatus st ∈ log failing_pass failing_cluster /\ st_DesiredReplicas st = 2
        /\ mirrors (updates (counted (log failing_pass failing_cluster)) (∅ : MemoryRegistry)) failing_pool st.
Proof.
  assert (ConditionMerge (SetStatusCondition (Environment := world_env))) as Hm by exact (merge_condition_ok 0).
  assert (map st_DesiredReplicas (published (log failing_pass failing_cluster)) = [2]) as E by by_vm.
  apply published_one in E as (st & Hin & E').
  exists st. split; [exact Hin|]. split; [exact E'|].
  refine (proj2 (metrics_mirror_status (ENV := world_env) "gpu" "inference" failing_cluster (∅ : MemoryRegistry)
                   failing_pool _ _) st Hin).
  - by_vm.
  - reflexivity.
Defined.

(** After a pass in an outage the pool may not shrink. *)
Definition outage_pass : M World unit Result := reconcilePool (ENV := world_env) ex_pool ex_provisioner.
Definition outage_cluster : RState World unit := ex_cluster ex_pool ∅ ex_world false.


(** A pass that creates a cell discovers the others twice from the same status:
    the one that failed is counted and reported twice, as the first attempt both
    times. *)
Example creating_pass_counts_twice :
  series (updates (counted (log failing_pass failing_cluster)) (∅ : MemoryRegistry)) failing_pool
    CellTransitionsTotal ["Booting"; "Failed"] = Some 2.
Proof. by_vm. Qed.

Example creating_pass_reports_failure_twice :
  len (List.filter
         (fun c => match c with
                   | CallEvent _ _ msg =>
                       msg == "cell inference-0 failed (attempt 1): SwiftGuest reported phase Failed"
                   | _ => false
                   end)
         (log failing_pass failing_cluster)) = 2.
Proof. by_vm. Qed.

(** A pool that is being deleted and whose last guest has left. *)
Example release_example :
  let s := ex_cluster (ex_deleting "") ∅ (mkMemCluster ∅ ∅ []) true in
  let r := updates (publishMetrics ex_pool metrics_rows (mkScaleDecision 2 false false [] "" "") (Some 1)
                      zeroCapacity true) (∅ : MemoryRegistry) in
  value failing_pass s = Ok (mkResult 0)
  /\ series r ex_pool Cells ["Ready"] = Some 1
  /\ series (updates (counted (log failing_pass s)) r) ex_pool Cells ["Ready"] = None.
Proof. split_and!; by_vm. Qed.
