(* ===== verification/GoHeap.v ===== *)
(** * Go values in memory

    A heap of Go variables, for the code that shares or copies memory: a struct is
    a value, a pointer, a slice and a map refer to the heap. [rep] reads the
    content of a value out of a heap, [copies] is what a deep copy promises; the
    combinators are the statements deepcopy-gen generates, each shown to keep the
    promise. *)

From S2P Require Import Prelude.
Local Open Scope Z_scope.
Local Open Scope go_scope.

(** ** Memory *)

Abbreviation loc := positive (only parsing).

Inductive Datum := DInt (z : Z) | DBool (b : bool) | DString (s : string).

Inductive GoVal :=
| Basic (d : Datum)
| Struct (fields : list (string * GoVal))
| Ptr (p : option loc)
(** A slice: its array, the offset of its first element and its length. *)
| Slice (s : option (loc * nat * nat))
| Map (m : option loc).

(** A variable, an array and a map[string]string. *)
Inductive Obj := OVal (v : GoVal) | OArray (vs : list GoVal) | OMap (m : gmap string string).

Abbreviation Heap := (gmap loc Obj) (only parsing).

(** Code that reads and allocates; it fails where Go panics. *)
Definition HM (A : Type) : Type := Heap -> option (A * Heap).
#[export] Instance HM_ret : MRet HM := fun A a h => Some (a, h).
#[export] Instance HM_bind : MBind HM := fun A B f m h =>
  match m h with Some (a, h') => f a h' | None => None end.

Definition panic {A} : HM A := fun _ => None.
Definition load (l : loc) : HM Obj := fun h => match h !! l with Some o => Some (o, h) | None => None end.
Definition alloc (o : Obj) : HM loc := fun h => let l := fresh (dom h) in Some (l, <[l := o]> h).

(** ** Types and contents *)

Inductive Ty :=
| TBasic
| TStruct (fields : list (string * Ty))
| TPtr (t : Ty)
| TSlice (t : Ty)
| TMap.

(** A type whose values refer to nothing: assigning one copies it. *)
Fixpoint flat (t : Ty) : bool :=
  match t with
  | TBasic => true
  | TStruct fields => forallb (fun f => flat f.2) fields
  | _ => false
  end.

(** What a value holds, whatever its place in memory. *)
Inductive Content :=
| CBasic (d : Datum)
| CStruct (fields : list (string * Content))
| CPtr (p : option Content)
| CSlice (s : option (list Content))
| CMap (m : option (gmap string string)).

(** The value has the type and, read in the heap, the content; every location on
    the way is one of [P]. *)
Inductive rep (P : loc -> Prop) (h : Heap) : Ty -> GoVal -> Content -> Prop :=
| rep_basic d : rep P h TBasic (Basic d) (CBasic d)
| rep_struct ts vs cs :
    vs.*1 = ts.*1 -> cs.*1 = ts.*1 ->
    (forall i n t v c, ts !! i = Some (n, t) -> vs !! i = Some (n, v) -> cs !! i = Some (n, c) -> rep P h t v c) ->
    rep P h (TStruct ts) (Struct vs) (CStruct cs)
| rep_nil t : rep P h (TPtr t) (Ptr None) (CPtr None)
| rep_ptr t l v c : P l -> h !! l = Some (OVal v) -> rep P h t v c -> rep P h (TPtr t) (Ptr (Some l)) (CPtr (Some c))
| rep_nil_slice t : rep P h (TSlice t) (Slice None) (CSlice None)
| rep_slice t l off n vs cs :
    P l -> h !! l = Some (OArray vs) -> (off + n <= length vs)%nat -> length cs = n ->
    (forall i v c, vs !! (off + i)%nat = Some v -> cs !! i = Some c -> rep P h t v c) ->
    rep P h (TSlice t) (Slice (Some (l, off, n))) (CSlice (Some cs))
| rep_nil_map : rep P h TMap (Map None) (CMap None)
| rep_map l m : P l -> h !! l = Some (OMap m) -> rep P h TMap (Map (Some l)) (CMap (Some m)).

Definition anywhere (l : loc) : Prop := True.
(** Locations the heap did not have. *)
Definition new_in (h : Heap) (l : loc) : Prop := h !! l = None.

(** A deep copy: it succeeds on every value of the type, changes nothing that was
    there, and the result has the same content in new memory only. *)
Definition copies (t : Ty) (f : GoVal -> HM GoVal) : Prop :=
  forall h v c, rep anywhere h t v c ->
    exists v' h', f v h = Some (v', h') /\ h ⊆ h' /\ rep (new_in h) h' t v' c.

(** ** Reading in other heaps *)

(** Only the locations on the way matter. *)
Lemma rep_frame P h h' t v c :
  rep P h t v c -> (forall l, P l -> is_Some (h !! l) -> h' !! l = h !! l) -> rep P h' t v c.
Proof.
  intros Hr Hl. induction Hr; try by econstructor.
  - apply rep_ptr with v; [done| |done]. by rewrite Hl.
  - apply rep_slice with vs; try done. by rewrite Hl.
  - apply rep_map; [done|]. by rewrite Hl.
Qed.

Lemma rep_weaken (P Q : loc -> Prop) h t v c : (forall l, P l -> Q l) -> rep P h t v c -> rep Q h t v c.
Proof. intros Hpq Hr. induction Hr; econstructor; eauto. Qed.

Lemma rep_grow P h h' t v c : h ⊆ h' -> rep P h t v c -> rep P h' t v c.
Proof. intros Hs Hr. apply (rep_frame P h); [done|]. intros l _ [o Ho]. rewrite Ho. by eapply lookup_weaken. Qed.

Lemma rep_flat P Q h h' t v c : flat t = true -> rep P h t v c -> rep Q h' t v c.
Proof.
  intros Hf Hr. induction Hr as [d|ts vs cs Hv Hc Hin IH| | | | | |]; try done; [constructor|].
  simpl in Hf. rewrite forallb_forall in Hf.
  constructor; [done|done|]. intros i n t v c Ht Hvi Hci.
  apply (IH i n t v c); try done. apply (Hf (n, t)). apply list_elem_of_In. by eapply list_elem_of_lookup_2.
Qed.

(** What was new stays new for an older heap, and when the heap grows. *)
Lemma rep_new h h1 h2 t v c : h ⊆ h1 -> rep (new_in h1) h2 t v c -> rep (new_in h) h2 t v c.
Proof.
  intros Hs. apply rep_weaken. intros l Hl. unfold new_in in *.
  destruct (h !! l) as [o|] eqn:E; [|done]. pose proof (lookup_weaken _ _ _ _ E Hs). congruence.
Qed.

Lemma alloc_new o h :
  exists l, alloc o h = Some (l, <[l := o]> h) /\ h !! l = None /\ h ⊆ <[l := o]> h /\ <[l := o]> h !! l = Some o.
Proof.
  set (l := fresh (dom h)). assert (h !! l = None) as Hn by (apply not_elem_of_dom; apply is_fresh).
  exists l. split_and!; [done|done|by apply insert_subseteq|apply lookup_insert_eq].
Qed.

(** ** The generated statements *)

(** "if in != nil { *out = new(T); (*in).DeepCopyInto(*out) }"; the new variable is
    allocated when it is filled. *)
Definition new_into (f : GoVal -> HM GoVal) (p : GoVal) : HM GoVal :=
  match p with
  | Ptr None => mret (Ptr None)
  | Ptr (Some l) =>
      o ← load l;
      match o with OVal v => v' ← f v; l' ← alloc (OVal v'); mret (Ptr (Some l')) | _ => panic end
  | _ => panic
  end.

(** "if in != nil { *out = new(T); **out = **in }". *)
Definition new_copy : GoVal -> HM GoVal := new_into mret.

Fixpoint copy_elems (f : GoVal -> HM GoVal) (vs : list GoVal) : HM (list GoVal) :=
  match vs with
  | [] => mret []
  | v :: rest => v' ← f v; rest' ← copy_elems f rest; mret (v' :: rest')
  end.

(** "if in != nil { *out = make([]T, len(*in)); for i := range *in
    { (*in)[i].DeepCopyInto(&( *out)[i]) } }". *)
Definition make_slice (f : GoVal -> HM GoVal) (s : GoVal) : HM GoVal :=
  match s with
  | Slice None => mret (Slice None)
  | Slice (Some (l, off, n)) =>
      o ← load l;
      match o with
      | OArray vs =>
          vs' ← copy_elems f (take n (drop off vs));
          l' ← alloc (OArray vs'); mret (Slice (Some (l', 0%nat, n)))
      | _ => panic
      end
  | _ => panic
  end.

(** "copy( *out, *in)" instead of the loop. *)
Definition copy_slice : GoVal -> HM GoVal := make_slice mret.

(** "if in != nil { *out = make(map[string]string, len(*in)); for key, val :=
    range *in { ( *out)[key] = val } }". *)
Definition make_map (m : GoVal) : HM GoVal :=
  match m with
  | Map None => mret (Map None)
  | Map (Some l) =>
      o ← load l;
      match o with
      | OMap kv => l' ← alloc (OMap kv); mret (Map (Some l'))
      | _ => panic
      end
  | _ => panic
  end.

(** A member of a struct, and its assignment. *)
Fixpoint member (n : string) (fields : list (string * GoVal)) : option GoVal :=
  match fields with
  | [] => None
  | (k, v) :: rest => if k == n then Some v else member n rest
  end.
Fixpoint set_member (n : string) (v : GoVal) (fields : list (string * GoVal)) : list (string * GoVal) :=
  match fields with
  | [] => []
  | (k, x) :: rest => if k == n then (k, v) :: rest else (k, x) :: set_member n v rest
  end.

(** The body of a DeepCopyInto, after "*out = *in": the members that are copied
    in their turn. *)
Fixpoint copy_members (steps : list (string * (GoVal -> HM GoVal))) (inp out : list (string * GoVal))
    : HM (list (string * GoVal)) :=
  match steps with
  | [] => mret out
  | (n, f) :: rest =>
      match member n inp with
      | Some v => v' ← f v; copy_members rest inp (set_member n v' out)
      | None => panic
      end
  end.

Definition copy_struct (steps : list (string * (GoVal -> HM GoVal))) (v : GoVal) : HM GoVal :=
  match v with
  | Struct fields => out ← copy_members steps fields fields; mret (Struct out)
  | _ => panic
  end.

(** ** The statements are deep copies *)

Lemma HM_bind_ok {A B} (m : HM A) (f : A -> HM B) h a h' : m h = Some (a, h') -> (m ≫= f) h = f a h'.
Proof. intros E. unfold mbind, HM_bind. by rewrite E. Qed.

Lemma copies_flat t : flat t = true -> copies t mret.
Proof.
  intros Hf h v c Hr. exists v, h. split_and!; [done|done|]. by eapply rep_flat.
Qed.

Lemma copies_new_into t f : copies t f -> copies (TPtr t) (new_into f).
Proof.
  intros Hf h v c Hr. inversion Hr as [| | |? l v0 c0 _ Hl Hv| | | |]; subst; simpl.
  - exists (Ptr None), h. split_and!; [done|done|constructor].
  - unfold load. unfold mbind at 1, HM_bind at 1. rewrite Hl.
    destruct (Hf h v0 c0 Hv) as (v' & h1 & E & Hs & Hv'). rewrite (HM_bind_ok _ _ _ _ _ E).
    destruct (alloc_new (OVal v') h1) as (l' & Ea & Hn & Hs' & Hl'). rewrite (HM_bind_ok _ _ _ _ _ Ea).
    eexists _, _. split; [reflexivity|]. split; [by etrans|].
    apply rep_ptr with v'; [|done|by eapply rep_grow]. unfold new_in.
    destruct (h !! l') as [o|] eqn:E'; [|done]. pose proof (lookup_weaken _ _ _ _ E' Hs). congruence.
Qed.

Lemma copies_new_copy t : flat t = true -> copies (TPtr t) new_copy.
Proof. intros Hf. by apply copies_new_into, copies_flat. Qed.

Lemma copies_make_map : copies TMap make_map.
Proof.
  intros h v c Hr. inversion Hr as [| | | | | | |l m _ Hl]; subst; simpl.
  - exists (Map None), h. split_and!; [done|done|constructor].
  - unfold load. unfold mbind at 1, HM_bind at 1. rewrite Hl.
    destruct (alloc_new (OMap m) h) as (l' & Ea & Hn & Hs & Hl'). rewrite (HM_bind_ok _ _ _ _ _ Ea).
    eexists _, _. split; [reflexivity|]. split; [done|]. by apply rep_map.
Qed.

Lemma copy_elems_ok t f vs cs h :
  copies t f -> Forall2 (rep anywhere h t) vs cs ->
  exists vs' h', copy_elems f vs h = Some (vs', h') /\ h ⊆ h' /\ Forall2 (rep (new_in h) h' t) vs' cs.
Proof.
  intros Hf Hall. revert cs Hall. revert h.
  induction vs as [|v vs IH]; intros h cs Hall; inversion Hall as [|? c ? cs' Hv Hvs]; subst; simpl.
  - exists [], h. by split_and!.
  - destruct (Hf h v c Hv) as (v' & h1 & E & Hs & Hv'). rewrite (HM_bind_ok _ _ _ _ _ E).
    destruct (IH h1 cs') as (vs' & h2 & E2 & Hs2 & Hall').
    { eapply Forall2_impl; [exact Hvs|]. intros x y. by apply rep_grow. }
    rewrite (HM_bind_ok _ _ _ _ _ E2). eexists _, _. split; [reflexivity|]. split; [by etrans|].
    constructor; [by eapply rep_grow|]. eapply Forall2_impl; [exact Hall'|]. intros x y. by apply rep_new.
Qed.

Lemma copies_make_slice t f : copies t f -> copies (TSlice t) (make_slice f).
Proof.
  intros Hf h v c Hr. inversion Hr as [| | | | |? l off n vs cs _ Hl Hlen Hn Hin| |]; subst; simpl.
  { exists (Slice None), h. split_and!; [done|done|constructor]. }
  unfold load. unfold mbind at 1, HM_bind at 1. rewrite Hl.
  destruct (copy_elems_ok t f (take (length cs) (drop off vs)) cs h Hf) as (vs' & h1 & E & Hs & Hall).
  { apply Forall2_same_length_lookup_2; [rewrite length_take, length_drop; lia|].
    intros i x y Hx Hy. apply lookup_take_Some in Hx as [Hx _]. rewrite lookup_drop in Hx. by apply (Hin i). }
  rewrite (HM_bind_ok _ _ _ _ _ E).
  destruct (alloc_new (OArray vs') h1) as (l' & Ea & Hn' & Hs' & Hl'). rewrite (HM_bind_ok _ _ _ _ _ Ea).
  eexists _, _. split; [reflexivity|]. split; [by etrans|].
  apply rep_slice with vs'; [|done| |done|].
  - unfold new_in. destruct (h !! l') as [o|] eqn:E'; [|done]. pose proof (lookup_weaken _ _ _ _ E' Hs). congruence.
  - by rewrite (Forall2_length _ _ _ Hall).
  - intros i x y Hx Hy. apply (rep_grow _ h1); [done|].
    eapply Forall2_lookup_lr in Hall; [exact Hall|exact Hx|exact Hy].
Qed.

Lemma copies_copy_slice t : flat t = true -> copies (TSlice t) copy_slice.
Proof. intros Hf. by apply copies_make_slice, copies_flat. Qed.

(** *** Structs *)

Lemma member_lookup fields i n v : NoDup fields.*1 -> fields !! i = Some (n, v) -> member n fields = Some v.
Proof.
  revert i. induction fields as [|[k x] fields IH]; intros i Hn; [done|]. simpl in *.
  apply NoDup_cons in Hn as [Hk Hn]. destruct i as [|i]; simpl.
  - intros [= -> ->]. by rewrite bool_decide_eq_true_2.
  - intros Hi. case_bool_decide as E; [|by apply (IH i)]. subst. exfalso. apply Hk.
    apply list_elem_of_fmap. exists (n, v). split; [done|]. by eapply list_elem_of_lookup_2.
Qed.

Lemma set_member_names n v fields : (set_member n v fields).*1 = fields.*1.
Proof.
  induction fields as [|[k x] fields IH]; [done|]. simpl. case_bool_decide; simpl; [done|by f_equal].
Qed.

Lemma set_member_lookup n v fields i k x :
  NoDup fields.*1 -> fields !! i = Some (k, x) ->
  set_member n v fields !! i = Some (k, if k == n then v else x).
Proof.
  revert i. induction fields as [|[k' x'] fields IH]; intros i Hn; [done|]. simpl in *.
  apply NoDup_cons in Hn as [Hk Hn]. destruct i as [|i]; simpl.
  - intros [= -> ->]. by case_bool_decide.
  - intros Hi. destruct (bool_decide_reflect (k' = n)) as [E|E]; simpl; [|by apply IH]. subst.
    rewrite bool_decide_eq_false_2; [done|]. intros ->. apply Hk.
    apply list_elem_of_fmap. exists (n, x). split; [done|]. by eapply list_elem_of_lookup_2.
Qed.

(** Every member is either of a flat type or copied by a deep copy of its own. *)
Definition covers (steps : list (string * (GoVal -> HM GoVal))) (ts : list (string * Ty)) : Prop :=
  NoDup ts.*1
  /\ (forall n f, (n, f) ∈ steps -> exists t, (n, t) ∈ ts /\ copies t f)
  /\ (forall n t, (n, t) ∈ ts -> flat t = true \/ n ∈ steps.*1).

Section members.
Context (h0 : Heap) (ts : list (string * Ty)) (vs : list (string * GoVal)) (cs : list (string * Content)).
Hypothesis Hts : NoDup ts.*1.
Hypothesis Hvs : vs.*1 = ts.*1.
Hypothesis Hcs : cs.*1 = ts.*1.
Hypothesis Hin : forall i n t v c,
  ts !! i = Some (n, t) -> vs !! i = Some (n, v) -> cs !! i = Some (n, c) -> rep anywhere h0 t v c.

(** The members that are not still to be copied are copied. *)
Definition done_but (todo : list string) (h : Heap) (out : list (string * GoVal)) : Prop :=
  out.*1 = ts.*1
  /\ forall i n t v c, ts !! i = Some (n, t) -> out !! i = Some (n, v) -> cs !! i = Some (n, c) ->
       (n ∈ todo) \/ rep (new_in h0) h t v c.

Lemma same_names {A} (l : list (string * A)) i n t :
  l.*1 = ts.*1 -> ts !! i = Some (n, t) -> exists x, l !! i = Some (n, x).
Proof.
  intros E Ht. assert (l.*1 !! i = Some n) as Hl by (rewrite E, list_lookup_fmap, Ht; done).
  rewrite list_lookup_fmap in Hl. destruct (l !! i) as [[k x]|]; [|done]. simpl in Hl. injection Hl as ->. by exists x.
Qed.

Lemma copy_members_ok steps h out :
  (forall n f, (n, f) ∈ steps -> exists t, (n, t) ∈ ts /\ copies t f) ->
  h0 ⊆ h -> done_but steps.*1 h out ->
  exists out' h', copy_members steps vs out h = Some (out', h') /\ h ⊆ h' /\ done_but [] h' out'.
Proof.
  revert h out. induction steps as [|[n f] steps IH]; intros h out Hsteps Hs Hd; simpl; [by exists out, h|].
  destruct (Hsteps n f) as (t & Ht & Hf); [left|]. apply list_elem_of_lookup_1 in Ht as [j Hj].
  destruct (same_names vs j n t Hvs Hj) as [v Hv]. destruct (same_names cs j n t Hcs Hj) as [c Hc].
  rewrite (member_lookup vs j n v) by (by rewrite ?Hvs).
  destruct (Hf h v c) as (v' & h1 & E & Hs1 & Hv'); [by eapply rep_grow, Hin|].
  rewrite (HM_bind_ok _ _ _ _ _ E). destruct Hd as [Hnames Hd].
  destruct (IH h1 (set_member n v' out)) as (out' & h2 & E2 & Hs2 & Hd2).
  - intros m g Hm. apply Hsteps. by right.
  - by etrans.
  - split; [by rewrite set_member_names|]. intros i k t' x c' Hti Hx Hci.
    destruct (same_names out i k t' Hnames Hti) as [y Hy].
    rewrite (set_member_lookup n v' out i k y) in Hx by (by rewrite ?Hnames). injection Hx as <-.
    case_bool_decide as Hk.
    + right. subst k. assert (i = j) as ->.
      { eapply (NoDup_lookup ts.*1); [exact Hts| |]; rewrite list_lookup_fmap; [by rewrite Hti|by rewrite Hj]. }
      assert (t' = t /\ c' = c) as [-> ->] by naive_solver. by eapply rep_new.
    + destruct (Hd i k t' y c' Hti Hy Hci) as [Hk'|Hr]; [|right; by eapply rep_grow].
      left. apply elem_of_cons in Hk' as [Hk'|Hk']; [by destruct Hk|done].
  - exists out', h2. split; [done|]. split; [by etrans|done].
Qed.
End members.

Lemma copies_struct steps ts : covers steps ts -> copies (TStruct ts) (copy_struct steps).
Proof.
  intros (Hts & Hsteps & Hcov) h v c Hr. inversion Hr as [|? vs cs Hvs Hcs Hin| | | | | |]; subst. simpl.
  destruct (copy_members_ok h ts vs cs Hts Hvs Hcs Hin steps h vs Hsteps) as (out & h' & E & Hs & Hn & Hd); [done| |].
  - split; [done|]. intros i n t v c Ht Hv Hc.
    destruct (Hcov n t) as [Hf|Hn]; [by eapply list_elem_of_lookup_2| |by left].
    right. eapply rep_flat; [done|]. by eapply Hin.
  - rewrite (HM_bind_ok _ _ _ _ _ E). eexists _, _. split; [reflexivity|]. split; [done|].
    constructor; [done|done|]. intros i n t v c Ht Hv Hc.
    destruct (Hd i n t v c Ht Hv Hc) as [Hnil|Hr']; [by apply elem_of_nil in Hnil|done].
Qed.
