(* ===== verification/DeepCopy.v ===== *)
(** * The generated deep copies

    zz_generated.deepcopy.go over the heap of [GoHeap]: for each struct of
    gpucellpool_types.go the layout of its members, its DeepCopyInto as the list
    of the members that are copied after "*out = *in", and its DeepCopy. The
    client's cache hands out pointers to shared objects, so a copy that missed a
    member would let a pass change what other readers see. The theorem is
    that none is missed: a member is either copied in its turn or refers to nothing. *)

From S2P Require Import Prelude GoHeap.
Local Open Scope Z_scope.
Local Open Scope go_scope.

(** The types of other packages: how they are laid out and their own deep
    copies, which copy what they document. *)
Class Externals := {
  layout : string -> Ty;
  deep_copy_ext : string -> GoVal -> HM GoVal
}.
Class ExternalLaws `{Externals} : Prop := {
  externals_copy : forall n, copies (layout n) (deep_copy_ext n)
}.

(** metav1.TypeMeta, metav1.Duration and corev1.LocalObjectReference, whose
    values are assigned: their exported members refer to nothing. *)
Definition TypeMeta_type : Ty := TStruct [("Kind", TBasic); ("APIVersion", TBasic)].
Definition Duration_type : Ty := TStruct [("Duration", TBasic)].
Definition LocalObjectReference_type : Ty := TStruct [("Name", TBasic)].

(** Finds the member of a step in a layout. *)
Ltac find_member := first [apply list_elem_of_here | apply list_elem_of_further; find_member].
Create HintDb deep_copies.
#[export] Hint Resolve copies_new_into copies_make_slice copies_make_map : deep_copies.
#[export] Hint Extern 1 (copies _ new_copy) => apply copies_new_copy; reflexivity : deep_copies.
#[export] Hint Extern 1 (copies _ copy_slice) => apply copies_copy_slice; reflexivity : deep_copies.
#[export] Hint Extern 1 (copies _ mret) => apply copies_flat; reflexivity : deep_copies.
#[export] Hint Extern 1 (copies _ (deep_copy_ext _)) => apply externals_copy : deep_copies.

(** Goes through the members of a struct and the steps of its copy. *)
Ltac deep_copies :=
  apply copies_struct; split_and!;
  [ apply (bool_decide_unpack _); vm_compute; exact I
  | intros ? ? Hstep;
    repeat (apply elem_of_cons in Hstep as [[= -> ->]|Hstep];
            [eexists; split; [find_member | solve [eauto with deep_copies]]|]);
    by apply elem_of_nil in Hstep
  | intros ? ? Hmember;
    repeat (apply elem_of_cons in Hmember as [[= -> ->]|Hmember];
            [first [left; reflexivity | right; simpl; find_member]|]);
    by apply elem_of_nil in Hmember ].

Section deepcopy.
Context `{EXT : Externals}.

(** ** The layouts (gpucellpool_types.go) *)

Definition CellGPUDRASpec_type : Ty := TStruct
  [("ResourceClaimTemplateName", TBasic); ("ResourceClaimName", TBasic); ("RequestName", TBasic);
   ("Tier", TBasic); ("Hugepages", TBasic)].
Definition CellGPUNativeSpec_type : Ty := TStruct
  [("GPUProfileRef", LocalObjectReference_type)].
Definition CellGPUSpec_type : Ty := TStruct
  [("Count", TBasic); ("Backend", TBasic); ("DRA", TPtr CellGPUDRASpec_type);
   ("Native", TPtr CellGPUNativeSpec_type)].
Definition ClusterAPIObjectRef_type : Ty := TStruct
  [("APIGroup", TBasic); ("Kind", TBasic); ("Name", TBasic)].
Definition CellClusterAPISpec_type : Ty := TStruct
  [("ClusterName", TBasic); ("Version", TBasic);
   ("BootstrapConfigTemplateRef", TPtr ClusterAPIObjectRef_type)].
Definition CellSpec_type : Ty := TStruct
  [("Provisioner", TBasic); ("GuestTemplate", layout "RawExtension"); ("GPU", CellGPUSpec_type);
   ("SpreadPolicy", TBasic); ("NodeIPFrom", TBasic); ("ClusterAPI", TPtr CellClusterAPISpec_type)].
Definition BootstrapSpec_type : Ty := TStruct
  [("Provider", TBasic); ("JoinSecretRef", TPtr LocalObjectReference_type); ("JoinSecretKey", TBasic);
   ("Hostname", TBasic); ("ReadyTimeout", TPtr Duration_type)].
Definition WorkloadNodeSpec_type : Ty := TStruct
  [("Labels", TMap); ("Annotations", TMap); ("Taints", TSlice (layout "Taint"))].
Definition WorkloadClusterSpec_type : Ty := TStruct
  [("KubeconfigSecretRef", LocalObjectReference_type); ("Key", TBasic);
   ("Node", TPtr WorkloadNodeSpec_type)].
Definition HAMiSpec_type : Ty := TStruct
  [("Mode", TBasic); ("ExpectedDevicesPerCell", TPtr TBasic); ("DeviceClassName", TBasic)].
Definition CapacitySpec_type : Ty := TStruct
  [("Provider", TBasic); ("HAMi", TPtr HAMiSpec_type); ("ReadyTimeout", TPtr Duration_type)].
Definition AutoscalingSpec_type : Ty := TStruct
  [("Enabled", TBasic); ("MinReplicas", TPtr TBasic); ("MaxReplicas", TPtr TBasic);
   ("StabilizationWindow", TPtr Duration_type); ("ScaleDown", TBasic);
   ("ScaleDownStabilizationWindow", TPtr Duration_type)].
Definition DeletionSpec_type : Ty := TStruct
  [("Policy", TBasic); ("DrainTimeout", TPtr Duration_type)].
Definition UpdatePolicySpec_type : Ty := TStruct
  [("Type", TBasic)].
Definition GPUCellPoolSpec_type : Ty := TStruct
  [("Replicas", TBasic); ("Cell", CellSpec_type); ("Bootstrap", BootstrapSpec_type);
   ("WorkloadCluster", WorkloadClusterSpec_type); ("Capacity", CapacitySpec_type);
   ("Autoscaling", TPtr AutoscalingSpec_type); ("Deletion", TPtr DeletionSpec_type);
   ("UpdatePolicy", TPtr UpdatePolicySpec_type)].
Definition DemandStatus_type : Ty := TStruct
  [("PendingRequests", TBasic); ("SatisfiableByOneCell", TBasic); ("LastObserved", TPtr (layout "Time"))].
Definition CellDeviceShape_type : Ty := TStruct
  [("Model", TBasic); ("MemoryMiB", TBasic); ("CorePercent", TBasic);
   ("LastObserved", TPtr (layout "Time"))].
Definition PhysicalCapacityStatus_type : Ty := TStruct
  [("GPUs", TBasic); ("FreeGPUsInCluster", TPtr TBasic); ("Model", TBasic)].
Definition MemoryCapacity_type : Ty := TStruct
  [("Total", layout "Quantity"); ("Allocated", layout "Quantity"); ("Available", layout "Quantity")].
Definition ComputeCapacity_type : Ty := TStruct
  [("Total", TBasic); ("Allocated", TBasic); ("Available", TBasic)].
Definition ModelCapacity_type : Ty := TStruct
  [("Model", TBasic); ("Devices", TBasic); ("Memory", TPtr MemoryCapacity_type);
   ("Compute", TPtr ComputeCapacity_type)].
Definition WorkloadCapacityStatus_type : Ty := TStruct
  [("Provider", TBasic); ("Mode", TBasic); ("GPUDevices", TBasic); ("Homogeneous", TBasic);
   ("GPUMemory", TPtr MemoryCapacity_type); ("GPUCompute", TPtr ComputeCapacity_type);
   ("ByModel", TSlice ModelCapacity_type); ("LastObserved", TPtr (layout "Time"))].
Definition CellStatus_type : Ty := TStruct
  [("Name", TBasic); ("Index", TBasic); ("Phase", TBasic); ("GuestUID", TBasic); ("HostNode", TBasic);
   ("Devices", TSlice TBasic); ("NodeName", TBasic); ("NodeReady", TBasic); ("CapacityDevices", TBasic);
   ("Message", TBasic); ("Reason", TBasic); ("FailureCount", TBasic); ("ReadyOnce", TBasic);
   ("TemplateHash", TBasic); ("LastTransitionTime", TPtr (layout "Time"))].
Definition GPUCellPoolStatus_type : Ty := TStruct
  [("ObservedGeneration", TBasic); ("Replicas", TBasic); ("ReadyCells", TBasic);
   ("CreatingCells", TBasic); ("DrainingCells", TBasic); ("FailedCells", TBasic);
   ("DesiredReplicas", TBasic); ("Demand", TPtr DemandStatus_type);
   ("CellDeviceShape", TPtr CellDeviceShape_type); ("LastScaleUpTime", TPtr (layout "Time"));
   ("LastScaleDownTime", TPtr (layout "Time")); ("DemandFreeSince", TPtr (layout "Time"));
   ("PhysicalCapacity", TPtr PhysicalCapacityStatus_type);
   ("WorkloadCapacity", TPtr WorkloadCapacityStatus_type); ("Cells", TSlice CellStatus_type);
   ("Conditions", TSlice (layout "Condition"))].
Definition GPUCellPool_type : Ty := TStruct
  [("TypeMeta", TypeMeta_type); ("ObjectMeta", layout "ObjectMeta"); ("Spec", GPUCellPoolSpec_type);
   ("Status", GPUCellPoolStatus_type)].
Definition GPUCellPoolList_type : Ty := TStruct
  [("TypeMeta", TypeMeta_type); ("ListMeta", layout "ListMeta"); ("Items", TSlice GPUCellPool_type)].

(** ** The functions (zz_generated.deepcopy.go) *)

Definition CellGPUDRASpec_DeepCopyInto : GoVal -> HM GoVal := copy_struct
  [].
Definition CellGPUDRASpec_DeepCopy : GoVal -> HM GoVal := new_into CellGPUDRASpec_DeepCopyInto.
Definition CellGPUNativeSpec_DeepCopyInto : GoVal -> HM GoVal := copy_struct
  [("GPUProfileRef", mret)].
Definition CellGPUNativeSpec_DeepCopy : GoVal -> HM GoVal := new_into CellGPUNativeSpec_DeepCopyInto.
Definition CellGPUSpec_DeepCopyInto : GoVal -> HM GoVal := copy_struct
  [("DRA", new_copy); ("Native", new_copy)].
Definition CellGPUSpec_DeepCopy : GoVal -> HM GoVal := new_into CellGPUSpec_DeepCopyInto.
Definition ClusterAPIObjectRef_DeepCopyInto : GoVal -> HM GoVal := copy_struct
  [].
Definition ClusterAPIObjectRef_DeepCopy : GoVal -> HM GoVal := new_into ClusterAPIObjectRef_DeepCopyInto.
Definition CellClusterAPISpec_DeepCopyInto : GoVal -> HM GoVal := copy_struct
  [("BootstrapConfigTemplateRef", new_copy)].
Definition CellClusterAPISpec_DeepCopy : GoVal -> HM GoVal := new_into CellClusterAPISpec_DeepCopyInto.
Definition CellSpec_DeepCopyInto : GoVal -> HM GoVal := copy_struct
  [("GuestTemplate", deep_copy_ext "RawExtension"); ("GPU", CellGPUSpec_DeepCopyInto);
   ("ClusterAPI", new_into CellClusterAPISpec_DeepCopyInto)].
Definition CellSpec_DeepCopy : GoVal -> HM GoVal := new_into CellSpec_DeepCopyInto.
Definition BootstrapSpec_DeepCopyInto : GoVal -> HM GoVal := copy_struct
  [("JoinSecretRef", new_copy); ("ReadyTimeout", new_copy)].
Definition BootstrapSpec_DeepCopy : GoVal -> HM GoVal := new_into BootstrapSpec_DeepCopyInto.
Definition WorkloadNodeSpec_DeepCopyInto : GoVal -> HM GoVal := copy_struct
  [("Labels", make_map); ("Annotations", make_map); ("Taints", make_slice (deep_copy_ext "Taint"))].
Definition WorkloadNodeSpec_DeepCopy : GoVal -> HM GoVal := new_into WorkloadNodeSpec_DeepCopyInto.
Definition WorkloadClusterSpec_DeepCopyInto : GoVal -> HM GoVal := copy_struct
  [("KubeconfigSecretRef", mret); ("Node", new_into WorkloadNodeSpec_DeepCopyInto)].
Definition WorkloadClusterSpec_DeepCopy : GoVal -> HM GoVal := new_into WorkloadClusterSpec_DeepCopyInto.
Definition HAMiSpec_DeepCopyInto : GoVal -> HM GoVal := copy_struct
  [("ExpectedDevicesPerCell", new_copy)].
Definition HAMiSpec_DeepCopy : GoVal -> HM GoVal := new_into HAMiSpec_DeepCopyInto.
Definition CapacitySpec_DeepCopyInto : GoVal -> HM GoVal := copy_struct
  [("HAMi", new_into HAMiSpec_DeepCopyInto); ("ReadyTimeout", new_copy)].
Definition CapacitySpec_DeepCopy : GoVal -> HM GoVal := new_into CapacitySpec_DeepCopyInto.
Definition AutoscalingSpec_DeepCopyInto : GoVal -> HM GoVal := copy_struct
  [("MinReplicas", new_copy); ("MaxReplicas", new_copy); ("StabilizationWindow", new_copy);
   ("ScaleDownStabilizationWindow", new_copy)].
Definition AutoscalingSpec_DeepCopy : GoVal -> HM GoVal := new_into AutoscalingSpec_DeepCopyInto.
Definition DeletionSpec_DeepCopyInto : GoVal -> HM GoVal := copy_struct
  [("DrainTimeout", new_copy)].
Definition DeletionSpec_DeepCopy : GoVal -> HM GoVal := new_into DeletionSpec_DeepCopyInto.
Definition UpdatePolicySpec_DeepCopyInto : GoVal -> HM GoVal := copy_struct
  [].
Definition UpdatePolicySpec_DeepCopy : GoVal -> HM GoVal := new_into UpdatePolicySpec_DeepCopyInto.
Definition GPUCellPoolSpec_DeepCopyInto : GoVal -> HM GoVal := copy_struct
  [("Cell", CellSpec_DeepCopyInto); ("Bootstrap", BootstrapSpec_DeepCopyInto);
   ("WorkloadCluster", WorkloadClusterSpec_DeepCopyInto); ("Capacity", CapacitySpec_DeepCopyInto);
   ("Autoscaling", new_into AutoscalingSpec_DeepCopyInto);
   ("Deletion", new_into DeletionSpec_DeepCopyInto); ("UpdatePolicy", new_copy)].
Definition GPUCellPoolSpec_DeepCopy : GoVal -> HM GoVal := new_into GPUCellPoolSpec_DeepCopyInto.
Definition DemandStatus_DeepCopyInto : GoVal -> HM GoVal := copy_struct
  [("LastObserved", new_into (deep_copy_ext "Time"))].
Definition DemandStatus_DeepCopy : GoVal -> HM GoVal := new_into DemandStatus_DeepCopyInto.
Definition CellDeviceShape_DeepCopyInto : GoVal -> HM GoVal := copy_struct
  [("LastObserved", new_into (deep_copy_ext "Time"))].
Definition CellDeviceShape_DeepCopy : GoVal -> HM GoVal := new_into CellDeviceShape_DeepCopyInto.
Definition PhysicalCapacityStatus_DeepCopyInto : GoVal -> HM GoVal := copy_struct
  [("FreeGPUsInCluster", new_copy)].
Definition PhysicalCapacityStatus_DeepCopy : GoVal -> HM GoVal := new_into PhysicalCapacityStatus_DeepCopyInto.
Definition MemoryCapacity_DeepCopyInto : GoVal -> HM GoVal := copy_struct
  [("Total", deep_copy_ext "Quantity"); ("Allocated", deep_copy_ext "Quantity");
   ("Available", deep_copy_ext "Quantity")].
Definition MemoryCapacity_DeepCopy : GoVal -> HM GoVal := new_into MemoryCapacity_DeepCopyInto.
Definition ComputeCapacity_DeepCopyInto : GoVal -> HM GoVal := copy_struct
  [].
Definition ComputeCapacity_DeepCopy : GoVal -> HM GoVal := new_into ComputeCapacity_DeepCopyInto.
Definition ModelCapacity_DeepCopyInto : GoVal -> HM GoVal := copy_struct
  [("Memory", new_into MemoryCapacity_DeepCopyInto); ("Compute", new_copy)].
Definition ModelCapacity_DeepCopy : GoVal -> HM GoVal := new_into ModelCapacity_DeepCopyInto.
Definition WorkloadCapacityStatus_DeepCopyInto : GoVal -> HM GoVal := copy_struct
  [("GPUMemory", new_into MemoryCapacity_DeepCopyInto); ("GPUCompute", new_copy);
   ("ByModel", make_slice ModelCapacity_DeepCopyInto); ("LastObserved", new_into (deep_copy_ext "Time"))].
Definition WorkloadCapacityStatus_DeepCopy : GoVal -> HM GoVal := new_into WorkloadCapacityStatus_DeepCopyInto.
Definition CellStatus_DeepCopyInto : GoVal -> HM GoVal := copy_struct
  [("Devices", copy_slice); ("LastTransitionTime", new_into (deep_copy_ext "Time"))].
Definition CellStatus_DeepCopy : GoVal -> HM GoVal := new_into CellStatus_DeepCopyInto.
Definition GPUCellPoolStatus_DeepCopyInto : GoVal -> HM GoVal := copy_struct
  [("Demand", new_into DemandStatus_DeepCopyInto);
   ("CellDeviceShape", new_into CellDeviceShape_DeepCopyInto);
   ("LastScaleUpTime", new_into (deep_copy_ext "Time"));
   ("LastScaleDownTime", new_into (deep_copy_ext "Time"));
   ("DemandFreeSince", new_into (deep_copy_ext "Time"));
   ("PhysicalCapacity", new_into PhysicalCapacityStatus_DeepCopyInto);
   ("WorkloadCapacity", new_into WorkloadCapacityStatus_DeepCopyInto);
   ("Cells", make_slice CellStatus_DeepCopyInto); ("Conditions", make_slice (deep_copy_ext "Condition"))].
Definition GPUCellPoolStatus_DeepCopy : GoVal -> HM GoVal := new_into GPUCellPoolStatus_DeepCopyInto.
Definition GPUCellPool_DeepCopyInto : GoVal -> HM GoVal := copy_struct
  [("TypeMeta", mret); ("ObjectMeta", deep_copy_ext "ObjectMeta");
   ("Spec", GPUCellPoolSpec_DeepCopyInto); ("Status", GPUCellPoolStatus_DeepCopyInto)].
Definition GPUCellPool_DeepCopy : GoVal -> HM GoVal := new_into GPUCellPool_DeepCopyInto.
Definition GPUCellPoolList_DeepCopyInto : GoVal -> HM GoVal := copy_struct
  [("TypeMeta", mret); ("ListMeta", deep_copy_ext "ListMeta");
   ("Items", make_slice GPUCellPool_DeepCopyInto)].
Definition GPUCellPoolList_DeepCopy : GoVal -> HM GoVal := new_into GPUCellPoolList_DeepCopyInto.

(** The two root types as runtime.Object: a nil pointer becomes a nil interface. *)
Definition as_object (c : GoVal) : option GoVal := match c with Ptr None => None | _ => Some c end.
Definition GPUCellPool_DeepCopyObject (p : GoVal) : HM (option GoVal) :=
  c ← GPUCellPool_DeepCopy p; mret (as_object c).
Definition GPUCellPoolList_DeepCopyObject (p : GoVal) : HM (option GoVal) :=
  c ← GPUCellPoolList_DeepCopy p; mret (as_object c).

(** ** Every member is covered *)

Context `{LAWS : !ExternalLaws}.

Lemma CellGPUDRASpec_copies : copies CellGPUDRASpec_type CellGPUDRASpec_DeepCopyInto.
Proof. deep_copies. Qed.
Hint Resolve CellGPUDRASpec_copies : deep_copies.
Lemma CellGPUNativeSpec_copies : copies CellGPUNativeSpec_type CellGPUNativeSpec_DeepCopyInto.
Proof. deep_copies. Qed.
Hint Resolve CellGPUNativeSpec_copies : deep_copies.
Lemma CellGPUSpec_copies : copies CellGPUSpec_type CellGPUSpec_DeepCopyInto.
Proof. deep_copies. Qed.
Hint Resolve CellGPUSpec_copies : deep_copies.
Lemma ClusterAPIObjectRef_copies : copies ClusterAPIObjectRef_type ClusterAPIObjectRef_DeepCopyInto.
Proof. deep_copies. Qed.
Hint Resolve ClusterAPIObjectRef_copies : deep_copies.
Lemma CellClusterAPISpec_copies : copies CellClusterAPISpec_type CellClusterAPISpec_DeepCopyInto.
Proof. deep_copies. Qed.
Hint Resolve CellClusterAPISpec_copies : deep_copies.
Lemma CellSpec_copies : copies CellSpec_type CellSpec_DeepCopyInto.
Proof. deep_copies. Qed.
Hint Resolve CellSpec_copies : deep_copies.
Lemma BootstrapSpec_copies : copies BootstrapSpec_type BootstrapSpec_DeepCopyInto.
Proof. deep_copies. Qed.
Hint Resolve BootstrapSpec_copies : deep_copies.
Lemma WorkloadNodeSpec_copies : copies WorkloadNodeSpec_type WorkloadNodeSpec_DeepCopyInto.
Proof. deep_copies. Qed.
Hint Resolve WorkloadNodeSpec_copies : deep_copies.
Lemma WorkloadClusterSpec_copies : copies WorkloadClusterSpec_type WorkloadClusterSpec_DeepCopyInto.
Proof. deep_copies. Qed.
Hint Resolve WorkloadClusterSpec_copies : deep_copies.
Lemma HAMiSpec_copies : copies HAMiSpec_type HAMiSpec_DeepCopyInto.
Proof. deep_copies. Qed.
Hint Resolve HAMiSpec_copies : deep_copies.
Lemma CapacitySpec_copies : copies CapacitySpec_type CapacitySpec_DeepCopyInto.
Proof. deep_copies. Qed.
Hint Resolve CapacitySpec_copies : deep_copies.
Lemma AutoscalingSpec_copies : copies AutoscalingSpec_type AutoscalingSpec_DeepCopyInto.
Proof. deep_copies. Qed.
Hint Resolve AutoscalingSpec_copies : deep_copies.
Lemma DeletionSpec_copies : copies DeletionSpec_type DeletionSpec_DeepCopyInto.
Proof. deep_copies. Qed.
Hint Resolve DeletionSpec_copies : deep_copies.
Lemma UpdatePolicySpec_copies : copies UpdatePolicySpec_type UpdatePolicySpec_DeepCopyInto.
Proof. deep_copies. Qed.
Hint Resolve UpdatePolicySpec_copies : deep_copies.
Lemma GPUCellPoolSpec_copies : copies GPUCellPoolSpec_type GPUCellPoolSpec_DeepCopyInto.
Proof. deep_copies. Qed.
Hint Resolve GPUCellPoolSpec_copies : deep_copies.
Lemma DemandStatus_copies : copies DemandStatus_type DemandStatus_DeepCopyInto.
Proof. deep_copies. Qed.
Hint Resolve DemandStatus_copies : deep_copies.
Lemma CellDeviceShape_copies : copies CellDeviceShape_type CellDeviceShape_DeepCopyInto.
Proof. deep_copies. Qed.
Hint Resolve CellDeviceShape_copies : deep_copies.
Lemma PhysicalCapacityStatus_copies : copies PhysicalCapacityStatus_type PhysicalCapacityStatus_DeepCopyInto.
Proof. deep_copies. Qed.
Hint Resolve PhysicalCapacityStatus_copies : deep_copies.
Lemma MemoryCapacity_copies : copies MemoryCapacity_type MemoryCapacity_DeepCopyInto.
Proof. deep_copies. Qed.
Hint Resolve MemoryCapacity_copies : deep_copies.
Lemma ComputeCapacity_copies : copies ComputeCapacity_type ComputeCapacity_DeepCopyInto.
Proof. deep_copies. Qed.
Hint Resolve ComputeCapacity_copies : deep_copies.
Lemma ModelCapacity_copies : copies ModelCapacity_type ModelCapacity_DeepCopyInto.
Proof. deep_copies. Qed.
Hint Resolve ModelCapacity_copies : deep_copies.
Lemma WorkloadCapacityStatus_copies : copies WorkloadCapacityStatus_type WorkloadCapacityStatus_DeepCopyInto.
Proof. deep_copies. Qed.
Hint Resolve WorkloadCapacityStatus_copies : deep_copies.
Lemma CellStatus_copies : copies CellStatus_type CellStatus_DeepCopyInto.
Proof. deep_copies. Qed.
Hint Resolve CellStatus_copies : deep_copies.
Lemma GPUCellPoolStatus_copies : copies GPUCellPoolStatus_type GPUCellPoolStatus_DeepCopyInto.
Proof. deep_copies. Qed.
Hint Resolve GPUCellPoolStatus_copies : deep_copies.
Lemma GPUCellPool_copies : copies GPUCellPool_type GPUCellPool_DeepCopyInto.
Proof. deep_copies. Qed.
Hint Resolve GPUCellPool_copies : deep_copies.
Lemma GPUCellPoolList_copies : copies GPUCellPoolList_type GPUCellPoolList_DeepCopyInto.
Proof. deep_copies. Qed.
Hint Resolve GPUCellPoolList_copies : deep_copies.

(** ** The copies share nothing *)

(** Every DeepCopy of the file, with what its receiver points to. *)
Definition generated : list (Ty * (GoVal -> HM GoVal)) :=
  [(CellGPUDRASpec_type, CellGPUDRASpec_DeepCopy);
   (CellGPUNativeSpec_type, CellGPUNativeSpec_DeepCopy);
   (CellGPUSpec_type, CellGPUSpec_DeepCopy);
   (ClusterAPIObjectRef_type, ClusterAPIObjectRef_DeepCopy);
   (CellClusterAPISpec_type, CellClusterAPISpec_DeepCopy);
   (CellSpec_type, CellSpec_DeepCopy);
   (BootstrapSpec_type, BootstrapSpec_DeepCopy);
   (WorkloadNodeSpec_type, WorkloadNodeSpec_DeepCopy);
   (WorkloadClusterSpec_type, WorkloadClusterSpec_DeepCopy);
   (HAMiSpec_type, HAMiSpec_DeepCopy);
   (CapacitySpec_type, CapacitySpec_DeepCopy);
   (AutoscalingSpec_type, AutoscalingSpec_DeepCopy);
   (DeletionSpec_type, DeletionSpec_DeepCopy);
   (UpdatePolicySpec_type, UpdatePolicySpec_DeepCopy);
   (GPUCellPoolSpec_type, GPUCellPoolSpec_DeepCopy);
   (DemandStatus_type, DemandStatus_DeepCopy);
   (CellDeviceShape_type, CellDeviceShape_DeepCopy);
   (PhysicalCapacityStatus_type, PhysicalCapacityStatus_DeepCopy);
   (MemoryCapacity_type, MemoryCapacity_DeepCopy);
   (ComputeCapacity_type, ComputeCapacity_DeepCopy);
   (ModelCapacity_type, ModelCapacity_DeepCopy);
   (WorkloadCapacityStatus_type, WorkloadCapacityStatus_DeepCopy);
   (CellStatus_type, CellStatus_DeepCopy);
   (GPUCellPoolStatus_type, GPUCellPoolStatus_DeepCopy);
   (GPUCellPool_type, GPUCellPool_DeepCopy);
   (GPUCellPoolList_type, GPUCellPoolList_DeepCopy)].

Lemma generated_copies t f : (t, f) ∈ generated -> copies (TPtr t) f.
Proof.
  intros Hin. repeat (apply elem_of_cons in Hin as [[= -> ->]|Hin]; [apply copies_new_into; auto with deep_copies|]).
  by apply elem_of_nil in Hin.
Qed.

(** C33. A deep copy of any object of the API, nil included, succeeds and leaves the
    original as it is; from then on the two are independent: whatever is
    written through the original, the copy reads the content it was made
    from, and whatever is written through the copy, the original does. *)
Theorem deep_copies_independent t f h p c :
  (t, f) ∈ generated -> rep anywhere h (TPtr t) p c ->
  exists p' h', f p h = Some (p', h')
    /\ (forall l o, h !! l = Some o -> h' !! l = Some o)
    /\ (forall h2, (forall l, h !! l = None -> h2 !! l = h' !! l) -> rep anywhere h2 (TPtr t) p' c)
    /\ (forall h2, (forall l, is_Some (h !! l) -> h2 !! l = h' !! l) -> rep anywhere h2 (TPtr t) p c).
Proof.
  intros Hgen Hr. destruct (generated_copies t f Hgen h p c Hr) as (p' & h' & E & Hs & Hr').
  exists p', h'. split; [done|]. split; [intros l o Ho; by eapply lookup_weaken|]. split.
  - intros h2 H2. apply (rep_weaken (new_in h)); [done|]. apply (rep_frame _ h'); [done|]. intros l Hl _. by apply H2.
  - intros h2 H2. apply (rep_frame _ h); [done|]. intros l _ [o Ho]. rewrite H2 by eauto.
    rewrite Ho. by eapply lookup_weaken.
Qed.
End deepcopy.

(** ** Witness

    Externals whose raw JSON is a slice and whose other values refer to nothing. *)
#[export] Instance ex_externals : Externals := {
  layout n := if n == "RawExtension" then TStruct [("Raw", TSlice TBasic)] else TBasic;
  deep_copy_ext n := if n == "RawExtension" then copy_struct [("Raw", copy_slice)] else mret
}.
#[export] Instance ex_external_laws : ExternalLaws.
Proof.
  split. intros n. simpl. case_bool_decide; [deep_copies|by apply copies_flat].
Qed.

(** A row that holds one device. *)
Definition ex_row_content (device : string) : list (string * Content) :=
  [("Name", CBasic (DString "inference-0")); ("Index", CBasic (DInt 0)); ("Phase", CBasic (DString "Ready"));
   ("GuestUID", CBasic (DString "uid-1")); ("HostNode", CBasic (DString ""));
   ("Devices", CSlice (Some [CBasic (DString device)])); ("NodeName", CBasic (DString "inference-0"));
   ("NodeReady", CBasic (DBool true)); ("CapacityDevices", CBasic (DInt 1)); ("Message", CBasic (DString ""));
   ("Reason", CBasic (DString "")); ("FailureCount", CBasic (DInt 0)); ("ReadyOnce", CBasic (DBool true));
   ("TemplateHash", CBasic (DString "")); ("LastTransitionTime", CPtr (Some (CBasic (DInt 60))))].
Definition ex_row_fields : list (string * GoVal) :=
  [("Name", Basic (DString "inference-0")); ("Index", Basic (DInt 0)); ("Phase", Basic (DString "Ready"));
   ("GuestUID", Basic (DString "uid-1")); ("HostNode", Basic (DString ""));
   ("Devices", Slice (Some (2%positive, 0%nat, 1%nat))); ("NodeName", Basic (DString "inference-0"));
   ("NodeReady", Basic (DBool true)); ("CapacityDevices", Basic (DInt 1)); ("Message", Basic (DString ""));
   ("Reason", Basic (DString "")); ("FailureCount", Basic (DInt 0)); ("ReadyOnce", Basic (DBool true));
   ("TemplateHash", Basic (DString "")); ("LastTransitionTime", Ptr (Some 3%positive))].
Definition ex_memory (device : string) : gmap positive Obj :=
  {[ 1%positive := OVal (Struct ex_row_fields); 2%positive := OArray [Basic (DString device)];
     3%positive := OVal (Basic (DInt 60)) ]}.

Lemma ex_row_rep device :
  rep anywhere (ex_memory device) (TPtr CellStatus_type) (Ptr (Some 1%positive))
    (CPtr (Some (CStruct (ex_row_content device)))).
Proof.
  assert (rep anywhere (ex_memory device) (TSlice TBasic) (Slice (Some (2%positive, 0%nat, 1%nat)))
            (CSlice (Some [CBasic (DString device)]))).
  { eapply rep_slice; [done|reflexivity|simpl; lia|done|].
    intros [|i] v c; [|done]. simpl. intros [= <-] [= <-]. apply rep_basic. }
  assert (rep anywhere (ex_memory device) (TPtr TBasic) (Ptr (Some 3%positive)) (CPtr (Some (CBasic (DInt 60))))).
  { eapply rep_ptr; [done|reflexivity|apply rep_basic]. }
  eapply rep_ptr; [done|reflexivity|]. constructor; [reflexivity|reflexivity|].
  intros i n t v c.
  do 15 (destruct i as [|i]; [simpl; intros [= <- <-] [= <-] [= <-]; first [apply rep_basic|done]|]). done.
Qed.

(** The device of the original is overwritten; the copy still reads the old one. *)
Lemma deep_copies_independent_witness :
  exists p' h', CellStatus_DeepCopy (Ptr (Some 1%positive)) (ex_memory "gpu-0") = Some (p', h')
    /\ rep anywhere (<[2%positive := OArray [Basic (DString "gpu-9")]]> h') (TPtr CellStatus_type) p'
         (CPtr (Some (CStruct (ex_row_content "gpu-0")))).
Proof.
  destruct (deep_copies_independent CellStatus_type CellStatus_DeepCopy (ex_memory "gpu-0")
              (Ptr (Some 1%positive)) (CPtr (Some (CStruct (ex_row_content "gpu-0")))))
    as (p' & h' & E & _ & Hread & _).
  - unfold generated. do 22 (apply list_elem_of_further). apply list_elem_of_here.
  - apply ex_row_rep.
  - exists p', h'. split; [exact E|]. apply Hread. intros l Hl. apply lookup_insert_ne. intros <-. discriminate Hl.
Defined.
