(* ===== verification/Manager.v ===== *)
(** * The manager (cmd/manager/main.go)

    What the process does at start, in which order, and what each failure leads
    to. The calls into controller-runtime are steps that succeed or fail; the
    comparison of the CRDs is [CrdCheck.Verify]. *)

From S2P Require Import Prelude GoStd KubeApi CrdCheck.
Local Open Scope Z_scope.
Local Open Scope go_scope.

(** ** The flags *)

Record Flags := mkFlags {
  fl_metricsAddr : string;
  fl_probeAddr : string;
  fl_enableLeaderElection : bool;
  fl_secureMetrics : bool;
  fl_enableWebhooks : bool
}.
Definition default_flags : Flags := mkFlags "0" ":8081" false true true.

(** ** metricsOptions *)

(** tls.VersionTLS12. *)
Definition VersionTLS12 : int := 771.

(** metricsserver.Options. [mo_FilterProvider]: whether requests go through
    [MetricsAuth.Filter]. *)
Record MetricsOptions := mkMetricsOptions {
  mo_BindAddress : string;
  mo_SecureServing : bool;
  mo_MinVersion : int;
  mo_FilterProvider : bool
}.

#[export] Instance MetricsOptions_eq_dec : EqDecision MetricsOptions.
Proof. solve_decision. Defined.

(** The options, and whether the operator is told that the endpoint is open. *)
Definition metricsOptions (addr : string) (secure : bool) : MetricsOptions * bool :=
  (mkMetricsOptions addr secure VersionTLS12 secure,
   if secure then false else (addr != "0") && (addr != "")).

(** ** The start

    Creating the manager includes reading the cluster's configuration. *)

Inductive Step :=
| NewManager (metrics : MetricsOptions) (probeAddr : string) (leaderElection : bool) (id : string)
| SetupReconciler
| SetupWebhook
| AddHealthzCheck (name : string)
| AddReadyzCheck (name : string)
| CompareCRDs
| StartManager.
#[export] Instance Step_eq_dec : EqDecision Step.
Proof. solve_decision. Defined.

(** How the process ends. *)
Inductive Exit := Exited (code : int) | Panicked.

Definition steps (f : Flags) : list Step :=
  [NewManager (metricsOptions (fl_metricsAddr f) (fl_secureMetrics f)).1
     (fl_probeAddr f) (fl_enableLeaderElection f) "gpucellpool.cells.kubeswift.io";
   SetupReconciler]
  ++ (if fl_enableWebhooks f then [SetupWebhook] else [])
  ++ [AddHealthzCheck "healthz"; AddReadyzCheck "readyz"; CompareCRDs; StartManager].

(** Why the comparison could not be made. *)
Inductive DriftError (E : Type) := NoClient | NoFiles (e : LoadError E).
Arguments NoClient {_}.
Arguments NoFiles {_} _.

Section main.
Context {E : Type} (entries : result E (list string)) (ReadFile : string -> result E string).
Context (Unmarshal : string -> result E CRD).
Context (get : string -> result APIError CRD) (has_client : bool) (version : string).

(** [None] is a panic. *)
Definition reportCRDDrift : option (result (DriftError E) (list Report)) :=
  if negb has_client then Some (Err NoClient)
  else match Verify entries ReadFile Unmarshal get with
       | None => None
       | Some (Err e) => Some (Err (NoFiles e))
       | Some (Ok results) => Some (Ok (map (report version) results))
       end.

(** [ok] says which calls succeed. The steps taken, and how the process ends. *)
Fixpoint run_steps (ok : Step -> bool) (l : list Step) : list Step * Exit :=
  match l with
  | [] => ([], Exited 0)
  | CompareCRDs :: rest =>
      match reportCRDDrift with
      | None => ([CompareCRDs], Panicked)
      | Some _ => let '(done, e) := run_steps ok rest in (CompareCRDs :: done, e)
      end
  | s :: rest =>
      if ok s then let '(done, e) := run_steps ok rest in (s :: done, e) else ([s], Exited 1)
  end.

Definition main (f : Flags) (ok : Step -> bool) : list Step * Exit := run_steps ok (steps f).

(** ** Lemmas *)

Lemma run_steps_prefix ok l : (run_steps ok l).1 `prefix_of` l.
Proof.
  induction l as [|s l IH]; [done|]. destruct (run_steps ok l) as [d e] eqn:Er. simpl in IH.
  assert (forall s', s' :: d `prefix_of` s' :: l /\ [s'] `prefix_of` s' :: l) as Hp.
  { intros s'. split; [by apply prefix_cons | exists l; done]. }
  destruct s; simpl; try destruct (ok _); try (destruct reportCRDDrift); rewrite ?Er; apply Hp.
Qed.

(** A step is reached only after every earlier one succeeded; the
    comparison succeeds unless it panics. *)
Definition passes (ok : Step -> bool) (s : Step) : Prop :=
  match s with CompareCRDs => reportCRDDrift <> None | _ => ok s = true end.

Lemma run_steps_reaches ok l s l' :
  s ∈ (run_steps ok (l ++ s :: l')).1 -> s ∉ l -> Forall (passes ok) l.
Proof.
  induction l as [|x l IH]; [done|]. intros Hin Hnot.
  assert (s <> x /\ s ∉ l) as [Hx Hl] by set_solver.
  cbn [app run_steps] in Hin. destruct (run_steps ok (l ++ s :: l')) as [d e] eqn:Er. simpl in IH.
  constructor.
  - destruct x; simpl in *; try (destruct (ok _) eqn:?; [done|set_solver]).
    destruct reportCRDDrift; [done|set_solver].
  - apply IH; [|exact Hl]. destruct x; try destruct (ok _); try destruct reportCRDDrift; set_solver.
Qed.

Lemma run_steps_ends ok l :
  (run_steps ok l).2 = Exited 0 <-> Forall (passes ok) l.
Proof.
  induction l as [|s l IH]; [split; [constructor|done]|]. rewrite Forall_cons, <- IH.
  destruct (run_steps ok l) as [d e] eqn:Er. simpl.
  destruct s; simpl; rewrite ?Er; try (destruct (ok _); simpl; split; [done|intros [? ?]; done]);
    try (destruct (ok _); simpl; split; [discriminate|intros [? ?]; discriminate]);
    try (destruct (ok _); simpl; naive_solver).
  destruct reportCRDDrift; simpl; naive_solver.
Qed.

(** ** Properties *)

(** The manager starts only with the reconciler, both probes and, unless it was
    switched off, the webhook in place; a comparison that fails or finds a
    stale CRD does not keep it from starting; the process ends well exactly when
    no step failed. *)
Theorem manager_starts_guarded f ok :
  (StartManager ∈ (main f ok).1 ->
     ok SetupReconciler = true /\ ok (AddHealthzCheck "healthz") = true
     /\ ok (AddReadyzCheck "readyz") = true
     /\ (fl_enableWebhooks f = true -> ok SetupWebhook = true))
  /\ ((main f ok).2 = Exited 0 <-> Forall (passes ok) (steps f)).
Proof.
  unfold main. split; [|apply run_steps_ends]. intros Hs.
  assert (exists l, steps f = l ++ [StartManager] /\ (StartManager ∉ l)
          /\ SetupReconciler ∈ l /\ AddHealthzCheck "healthz" ∈ l /\ AddReadyzCheck "readyz" ∈ l
          /\ (fl_enableWebhooks f = true -> SetupWebhook ∈ l)) as (l & Hl & Hn & H1 & H2 & H3 & Hw).
  { exists (removelast (steps f)). unfold steps. destruct (fl_enableWebhooks f); simpl;
      (split; [done|]); split_and!; set_solver. }
  rewrite Hl in Hs. pose proof (run_steps_reaches ok l StartManager [] Hs Hn) as Hall.
  rewrite Forall_forall in Hall. split_and!; [exact (Hall _ H1) | exact (Hall _ H2) | exact (Hall _ H3) |].
  intros He. exact (Hall _ (Hw He)).
Qed.

(** The metrics endpoint asks every request for a token exactly when it serves
    TLS, never below TLS 1.2; the operator is told exactly when it serves anyone. *)
Theorem metrics_open_only_if_told addr secure :
  let '(o, told) := metricsOptions addr secure in
  mo_FilterProvider o = mo_SecureServing o /\ VersionTLS12 <= mo_MinVersion o
  /\ (told = true <-> mo_FilterProvider o = false /\ mo_BindAddress o <> "0" /\ mo_BindAddress o <> "").
Proof.
  unfold metricsOptions. simpl. split_and!; [done|done|].
  destruct secure; simpl; [naive_solver|].
  rewrite andb_true_iff, !negb_true_iff, !bool_decide_eq_false. naive_solver.
Qed.
End main.
